(* ===== verification/_CoqProject ===== *)
-Q . S2P
Prelude.v
GoStrings.v
GoNet.v
GoUtf8.v
GoBytes.v
GoBase64.v
GoJson.v
GoScan.v
GoTime.v
External.v
Models.v
Metrics.v
Config.v
Checker.v
Redirect.v
Interleaving.v
Rule.v
RateLimit.v
SniProxy.v
Upstream.v
Analytics.v
Handler.v
Server.v
Sync.v
Admin.v
AdminProgram.v
EndToEnd.v
Lifecycle.v
Programs.v
SmokeTest.v
Isolation.v
Threads.v
Cluster.v
Frontend.v
QueryLog.v
