(* ===== verification/Prelude.v ===== *)
(** * edge-dns: a verification development

    edge-dns is a filtering DNS resolver written in Go.  A query arrives over plain DNS,
    DNS over TLS or DNS over HTTPS (internal/server), is attributed to a user, and is
    processed by one handler (internal/handler): a rate limiter backed by Redis
    (internal/ratelimit) may refuse it, the rule checker (internal/rule) may block it or
    redirect it, and otherwise it is forwarded to an upstream resolver (internal/upstream).
    Each query is logged through a channel and a worker to ClickHouse
    (internal/analytics).  A second program (cmd/sniproxy) is a transparent TLS proxy that
    routes connections by the server name of their ClientHello.  A third (cmd/adminapi,
    internal/admin) is the API through which the rules in Redis are changed; each change
    publishes an event, on which the resolver drops what it has cached for the user
    (internal/sync); a fourth (cmd/publisher) publishes such an event by hand.

    This library translates that code to executable definitions and proves what makes it
    correct.  This file is the root: the shared prelude follows the documentation.

    ** The files, and the code they model

    Go and its standard library
    - [Prelude]: results, panics, the monad of code that returns errors and may panic,
      64-bit wrap-around, tactics.
    - [GoStrings]: strings.TrimSuffix, HasPrefix, Split, Join, ToLower and the like.  Go
      strings are byte strings; the Unicode lower-casing of non-ASCII characters is the
      table [UnicodeTables], which no theorem constrains.
    - [GoNet]: net.SplitHostPort, JoinHostPort, ParseIP, To4.
    - [GoBytes]: byte slices whose indexing and slicing can panic, encoding/binary's
      big-endian reads, io.ReadFull.
    - [GoBase64]: base64.RawURLEncoding.
    - [GoUtf8]: decoding and encoding of runes.
    - [GoJson]: encoding/json: string literals with their escapes in both directions, and a
      parser of JSON texts with the nesting limit of the library.
    - [GoScan]: fmt.Sscanf with one word, strconv.Atoi.
    - [GoTime]: time.ParseDuration, with its float64 fractions and its overflow checks, and
      strconv.ParseUint.

    Interfaces to third-party code and services
    - [External]: type classes for go-cache, Redis behind go-redis, miekg/dns, ClickHouse,
      the Prometheus registry, the requests of gin and the cryptography of certificates,
      with the documented behaviour the theorems use as separate classes of laws.  Every
      component is defined and proved against these classes.  The driver of ClickHouse is
      a record of its two calls ([ch_driver]).
    - [Models]: one executable instance of each class, on which the theorems are
      evaluated; no component is defined in terms of it.

    Components
    - [Config]: what the programs read from the environment: the settings in the main.go of
      cmd/edgedns, cmd/adminapi and cmd/sniproxy, init of upstream/upstream.go, and
      cert/cert.go.
    - [Checker]: rule/checker.go.  The record [t] is the struct (cache, Redis client,
      fallback list, enabled flag); one definition per method, with the instants at which
      the cache is read and written as arguments.  [Redirect] has the specification of
      redirects and its theorems.  [Interleaving] splits its two lookups where they read
      Redis and where they store, and runs the halves of any number of goroutines,
      evictions and changes of the server as a transition system.
    - [Rule]: rule/rule.go, the process-wide checker and the query counter.
    - [RateLimit]: ratelimit/limiter.go.  The Lua script is a Redis program; the
      abstract specification is the list of the admission times in the window.
    - [Upstream]: upstream/upstream.go and cache.go.
    - [Metrics]: metrics/metrics.go: the three collectors, their registration, and the
      calls of the handler and of the aggregator that record samples.
    - [Analytics]: analytics/aggregator.go and log.go.  The worker's select loop and the
      submitting goroutines are the events of a transition system ([step]); a run is a
      list of events, so theorems about runs hold for every interleaving.
    - [Handler]: handler/handler.go, over one record for the process.  The limiter's and
      the checker's Redis clients are connections to one server: each call is made on the
      server as the previous one left it.
    - [Server]: server/dot.go (framing, response writer, connection loop), doh.go
      (request handler) and std.go.  A TLS connection is a list of chunks, because one
      read returns bytes of one record only.
    - [SniProxy]: cmd/sniproxy/main.go: record and ClientHello parser, copying loop,
      connection handler.
    - [Sync]: sync/message.go and worker.go: the events with their JSON form; the worker's
      life is a list of subscriptions, each with the payloads it delivers.
    - [Admin]: admin/handlers.go: the middleware, every handler and the routes, over the
      connections to Redis and ClickHouse and the audit log.
    - [EndToEnd]: the admin service, the worker and the checker joined over one Redis
      server, as cmd/adminapi and cmd/edgedns are.
    - [Lifecycle]: the goroutines of cmd/edgedns (RunStd, RunDoH and RunDoT of
      internal/server, the metrics server, the log worker and main with its select and its
      waits) and of cmd/sniproxy (ListenAndServe and main), as two transition systems.
    - [Programs]: main of cmd/edgedns up to the start of its servers, a run of the process as
      a list of events, its probes, and main of cmd/publisher.
    - [AdminProgram]: main of cmd/adminapi, with the requests it serves until it ends.
    - [SmokeTest]: cmd/test, over any network and against the resolver.

    Compositions
    - [Isolation]: two runs of one resolver, with and without the other users.
    - [Threads]: ProcessQuery as a goroutine, with one step per access to the limiter, the
      cache, Redis, the upstream, the metrics or the log.
    - [Cluster]: an admin API and any number of resolvers as processes that share a Redis
      server; each resolver has the goroutines of its queries and an inbox of the events it
      has not handled yet.
    - [Frontend]: a resolver with its TLS connections, HTTPS requests and plain messages.
    - [QueryLog]: the records of the queries of a run, from the handler to the table of
      ClickHouse and to the collectors.

    ** What the theorems show

    - The whole process: [Programs.resolver_life] joins the configuration, the start, the
      handler, the checker, the limiter, the log and the worker: whatever happens to a
      resolver, it does not panic, answers every query once and loses no log record
      uncounted.  [Programs.probes_report] and [publisher_effect] are the contracts of the
      probes and of the publisher, [SmokeTest.smoke_test_passes] that of cmd/test.
    - The system: [Threads.thread_is_query] (the goroutine that is not interrupted is the
      handler) and [thread_answers] (the one that is still finishes, with one response).
      [Cluster] lets goroutines, requests and events interleave access by access, on one
      Redis server that answers and that only the programs write to: [changes_announced]
      (one event per change reaches the inbox of every resolver), [resolvers_coherent] (a
      resolver that handles an event while no lookup of the user is between its read and its
      store decides from then on as the settings say) and [resolvers_catch_up] (with any
      lookups in progress and any events lost, it does so after the lifetime of a cache entry
      and the length of a lookup); the invariant [cluster_ok] is kept by every step.
      [Isolation.users_isolated] (a noninterference theorem: the relation [alike] of two
      processes a user cannot tell apart is kept by whatever the others do, the upstream
      being in the same state at each query of the user).  [Frontend.frontend_refines] (the
      servers add and lose no query and no response: the run with connections refines the
      run of [Programs] on [trace]) and [connection_served].  [QueryLog.log_tells] and
      [metrics_hold] say what the table and the collectors hold after any life of the
      resolver.
    - Concurrency: [Interleaving.decision_bounded_staleness] (how old the rules behind a
      decision can be), [eviction_complete] and [interleaving_typed], by an invariant of
      the runs that ties every cache entry to the state it was read in.
    - Life of the processes: [Lifecycle.Edge.shutdown_completes] and
      [Sni.shutdown_cuts_connections] (by a measure on the states of a shutdown),
      [Edge.stop_is_clean], [Edge.reports_never_block]; [Edge.client_blocks_shutdown] and
      [Sni.listen_failure_hangs] are defects.
    - Decisions: [Checker.Check_decides] and [Redirect.GetRedirect_most_specific] refine
      the rule tables (exact names and wildcards) they implement;
      [Handler.ProcessQuery_blocked] and [ProcessQuery_unblocked] carry both to the
      response a client sees; [ProcessQuery_limiter] covers refusal and the limiter's
      failure, [Checker.Check_degraded] and the theorems of [Rule] the outage of Redis.
    - Robustness: [Handler.ProcessQuery_one_response], [Checker.run_ops_no_panic],
      [Server.handleDoTConnection_total] and [SniProxy.parseClientHello_total] exclude
      panics and endless loops, under the invariant that the checker's cache is well
      typed; [Handler.ProcessQuery_crash] shows that the condition on user names is
      needed.
    - Caches: [Checker.ClearUserCache_isolated], [Upstream.ResolveCached_memo],
      [ResolveCached_no_stale] and the visibility of redirect updates.
    - Rate limiting: [RateLimit.AllowQuery_refines_window] (a simulation, with the
      invariant [represents]) and the bound [AllowQuery_limit].
    - Logs: [Analytics.run_accounts] (handed to the database at most once, in order,
      bounded, counted),
      [worker_drains], [run_keeps_rows].
    - Configuration: [AdminProgram.adminapi_refines] (the program implements an abstract
      service over the settings of every user, by the simulation [serve_simulates]),
      [adminapi_access], [Admin.serve_protected] and [api_key_usable] (authentication),
      [Admin.changes_refine] and [changes_answered] (one update, and its failures),
      [Sync.DecodeEvent_Encode] and [StartSyncWorker_evicts], and
      [EndToEnd.next_lookup_fresh], which joins them for the lookup after a delivered change.
      [Config.configuration_ranges]
      bounds what any environment can set, and [Time.ParseDuration_print] is the round trip
      of the durations in it.
    - Wire formats: [SniProxy.parseClientHello_exact] (the parser accepts exactly the
      grammar [hello]), [Server.dot_roundtrip], [handleDoTConnection_serves],
      [handleDoH_get_post], [SniProxy.handleConn_transparent].
    - Defects the models exhibit are theorems as well ([ProcessQuery_crash],
      [ProcessQuery_misreported], [RateLimit.replicas_exceed_limit],
      [Analytics.shutdown_loses_queue], [Server.handleDoTConnection_split],
      [Upstream.ResolveCached_unknown_types], [EndToEnd.typed_rule_inert],
      [decision_in_progress_stale], [Sync.update_rule_ignored]).

    ** Conventions and bounds

    - An error return is [Err], a panic [Panic]; a theorem that a computation is [Ret]
      excludes panics.  Loops with fuel ([SniProxy.ext_loop], [Server.dot_loop]) panic
      when it runs out, so the same theorems show the fuel is enough: the extension loop
      advances by four bytes and has one unit more than the hello has bytes; the
      connection loop uses up a byte or a chunk per message and has one unit more than
      there are of both.
    - Unsigned counters wrap at 2^64 ([uint64_add]).  Positions in buffers are natural
      numbers, all below 2^17.  Durations and instants are integers, nanoseconds unless
      stated otherwise; [respMinTTL_spec] shows the one multiplication that could
      overflow does not.
    - The rate limiter's [math.Ceil] on a float64 is the exact ceiling, which it is for
      windows below 2^22 seconds.

    ** Not modelled

    Logging; deadlines and timeouts (a timeout is an error of the call it interrupts); what
    listeners, TLS handshakes and HTTP servers do inside their packages; what Prometheus does
    with the samples of a collector; the parsing of the command line by the package flag;
    printing.
    What go-redis does between the server and the worker (its channel of 100 messages,
    which it may drop) is the list of delivered payloads; in [Cluster] an event that is lost
    is one that is never handled, and the keys of the settings have no expiry, as the
    programs leave them.  In the runs of [Programs], [Frontend], [Isolation] and [QueryLog] a
    query is one step; [Cluster] and [Interleaving] have the interleavings inside a query,
    where the script of the limiter, which Redis runs atomically, and a send to the log
    channel are one access each.  The theorems about runs are those of users that have no
    colon and are not called "redirect"; [ProcessQuery_crash] is what the others can do.  The
    error of writing to an HTTPS client, which the handler only logs, and the timeout of three
    seconds of the client in cmd/test are left out: a reply there counts as in time. *)

From stdpp Require Export base tactics list strings gmap fin_maps sets.
From Stdlib Require Export ZArith Lia.
From Stdlib Require Export Strings.Byte.

(** ** Results, errors and panics

    A Go function that returns [(T, error)] is modelled by [result E T]; a
    function that may panic (a failed type assertion, an index out of range) by
    [outcome T]. *)

Inductive result (E A : Type) : Type :=
| Ok (a : A)
| Err (e : E).
Arguments Ok {E A} a.
Arguments Err {E A} e.

Inductive outcome (A : Type) : Type :=
| Ret (a : A)
| Panic (reason : string).
Arguments Ret {A} a.
Arguments Panic {A} reason.

Definition result_bind {E A B : Type} (m : result E A) (f : A → result E B) : result E B :=
  match m with Ok a => f a | Err e => Err e end.

Definition outcome_bind {A B : Type} (m : outcome A) (f : A → outcome B) : outcome B :=
  match m with Ret a => f a | Panic why => Panic why end.

(** The error half of [(T, error)] rewritten, as [fmt.Errorf] with [%w] does. *)
Definition map_err {E F A : Type} (f : E → F) (m : result E A) : result F A :=
  match m with Ok a => Ok a | Err e => Err (f e) end.

Definition is_ok {E A : Type} (m : result E A) : bool :=
  match m with Ok _ => true | Err _ => false end.

Declare Scope go_scope.
Delimit Scope go_scope with go.

Notation "x '<-?' m ;; k" := (result_bind m (λ x, k))
  (at level 100, m at next level, right associativity) : go_scope.
Notation "x '<-!' m ;; k" := (outcome_bind m (λ x, k))
  (at level 100, m at next level, right associativity) : go_scope.

(** Code that both returns errors and may panic. *)
Definition GoM (A : Type) : Type := outcome (result string A).

Definition gbind {A B : Type} (m : GoM A) (f : A → GoM B) : GoM B :=
  match m with
  | Panic why => Panic why
  | Ret (Err e) => Ret (Err e)
  | Ret (Ok a) => f a
  end.
Definition gret {A : Type} (a : A) : GoM A := Ret (Ok a).

Notation "x '<-' m ;; k" := (gbind m (λ x, k))
  (at level 100, m at next level, right associativity) : go_scope.
Notation "' x '<-' m ;; k" := (gbind m (λ x : _, k))
  (at level 20, x pattern, m at level 99, k at level 200) : go_scope.
(** An expression that may panic but returns no error. *)
Notation "x '<-@' m ;; k" := (outcome_bind m (λ x, k))
  (at level 100, m at next level, right associativity) : go_scope.
(** Early return of a Go guard: [if c { return fmt.Errorf(e) }]. *)
Notation "'fail_if:' c 'with' e ;; k" := (if c : bool then Ret (Err e) else k)
  (at level 100, c at level 99, e at level 99, k at level 200, right associativity) : go_scope.

#[export] Instance result_eq_dec `{HE : EqDecision E, HA : EqDecision A} : EqDecision (result E A).
Proof. intros x y. unfold Decision. decide equality; [apply HA | apply HE]. Defined.
#[export] Instance outcome_eq_dec `{HA : EqDecision A} : EqDecision (outcome A).
Proof. intros x y. unfold Decision. decide equality; [apply HA | apply String.eq_dec]. Defined.

Lemma result_bind_ok {E A B} (m : result E A) (f : A → result E B) b :
  result_bind m f = Ok b ↔ ∃ a, m = Ok a ∧ f a = Ok b.
Proof. destruct m; simpl; split; [eauto | intros (x & [= ->] & ?); done | done | intros (x & [=] & ?)]. Qed.

Lemma outcome_bind_ret {A B} (m : outcome A) (f : A → outcome B) b :
  outcome_bind m f = Ret b ↔ ∃ a, m = Ret a ∧ f a = Ret b.
Proof. destruct m; simpl; split; [eauto | intros (x & [= ->] & ?); done | done | intros (x & [=] & ?)]. Qed.

Lemma gbind_ok {A B} (m : GoM A) (f : A → GoM B) b :
  gbind m f = Ret (Ok b) ↔ ∃ a, m = Ret (Ok a) ∧ f a = Ret (Ok b).
Proof.
  destruct m as [[a|e]|]; simpl; split;
    [eauto | intros (x & [= ->] & ?); done | done | intros (x & [=] & ?) | done | intros (x & [=] & ?)].
Qed.

#[global] Arguments String.append !_ _ / : assert.

(** ** Machine integers

    Go's [int] is 64 bits wide on the platforms the program is built for; the
    unsigned counters wrap. *)

Definition uint64_wrap (z : Z) : Z := z mod 2 ^ 64.
Definition uint64_add (x y : Z) : Z := uint64_wrap (x + y).

Lemma uint64_wrap_small z : (0 ≤ z < 2 ^ 64)%Z → uint64_wrap z = z.
Proof. intros H. by apply Z.mod_small. Qed.

Lemma uint64_wrap_range z : (0 ≤ uint64_wrap z < 2 ^ 64)%Z.
Proof. apply Z.mod_pos_bound. lia. Qed.

Lemma uint64_add_wrap x y : uint64_add (uint64_wrap x) y = uint64_wrap (x + y).
Proof. unfold uint64_add, uint64_wrap. by rewrite Zplus_mod_idemp_l. Qed.

(** ** Bytes *)

Definition byte_Z (b : byte) : Z := Z.of_N (Byte.to_N b).

Lemma byte_Z_range b : (0 ≤ byte_Z b < 256)%Z.
Proof. unfold byte_Z. pose proof (Byte.to_N_bounded b). lia. Qed.

#[export] Instance byte_eq_dec : EqDecision byte.
Proof. intros x y. destruct (Byte.byte_eq_dec x y); [left | right]; done. Defined.

(** ** Generic lemmas *)

Lemma existsb_fmap_bool_decide {A} (P : A → Prop) `{HP : ∀ x, Decision (P x)} (l : list A) :
  existsb id ((λ x, bool_decide (P x)) <$> l) = true ↔ ∃ x, x ∈ l ∧ P x.
Proof.
  rewrite existsb_exists. split.
  - intros (b & Hin & Hb). apply list_elem_of_In, list_elem_of_fmap in Hin as (x & -> & Hx).
    exists x. split; [done|]. by eapply bool_decide_eq_true_1.
  - intros (x & Hx & HPx). exists true. split; [|done].
    apply list_elem_of_In, list_elem_of_fmap. exists x.
    split; [symmetry; by apply bool_decide_eq_true_2 | done].
Qed.

(** ** Tactics and hint databases *)

(** Case analysis on every [match] and [if] of the goal, closing the cases that
    compute. *)
Ltac case_all :=
  repeat (case_match; simplify_eq/=); try done.

(** Discharge a closed, computable hypothesis. *)
Ltac by_eval := vm_compute; first [reflexivity | discriminate | split; first [discriminate | reflexivity]].

(** A closed decidable proposition, by evaluating its decision. *)
Ltac by_decide := apply (bool_decide_unpack _); vm_compute; exact I.

(** Split a goal that is a conjunction of easy facts. *)
Ltac split_easy := repeat split; simplify_eq/=; eauto.

Create HintDb edge discriminated.
#[export] Hint Resolve byte_Z_range uint64_wrap_range : edge.
