(* ===== verification/GoStrings.v ===== *)
(** * Go's [strings] package, as far as the program uses it

    A Go string is a sequence of bytes and is modelled by [string] (a list of
    8-bit characters).  [HasPrefix], [HasSuffix], [TrimSuffix], [Split], [Join]
    and [ToLower] follow the library's documented definitions; the Unicode tables
    behind [ToLower] on non-ASCII input are a parameter ([UnicodeTables]). *)

From S2P Require Import Prelude.
From stdpp Require Export pretty.
From Stdlib Require Import Strings.Ascii Strings.String.


(** ** Strings as lists of characters *)

Definition chars (s : string) : list ascii := list_ascii_of_string s.
Definition of_chars (l : list ascii) : string := string_of_list_ascii l.

Lemma of_chars_chars s : of_chars (chars s) = s.
Proof. apply string_of_list_ascii_of_string. Qed.

Lemma chars_of_chars l : chars (of_chars l) = l.
Proof. apply list_ascii_of_string_of_list_ascii. Qed.

#[export] Instance chars_inj : Inj (=) (=) chars.
Proof. intros s t H. by rewrite <- (of_chars_chars s), H, of_chars_chars. Qed.

Lemma chars_app s t : chars (s +:+ t) = (chars s ++ chars t)%list.
Proof. induction s as [|a s IH]; [done|]. cbn. by f_equal. Qed.

Lemma of_chars_app l k : of_chars (l ++ k)%list = of_chars l +:+ of_chars k.
Proof. apply (inj chars). by rewrite chars_app, !chars_of_chars. Qed.

Lemma length_chars s : List.length (chars s) = String.length s.
Proof. induction s; simpl; congruence. Qed.

Lemma append_nil_r s : s +:+ EmptyString = s.
Proof. induction s; simpl; congruence. Qed.

Lemma append_assoc s t u : (s +:+ t) +:+ u = s +:+ (t +:+ u).
Proof. induction s; simpl; congruence. Qed.

Lemma length_append s t : String.length (s +:+ t) = String.length s + String.length t.
Proof. induction s; simpl; congruence. Qed.

Lemma append_inj_l s t u : s +:+ t = s +:+ u → t = u.
Proof. induction s as [|a s IH]; simpl; [done|]. intros [= H]. auto. Qed.

Lemma append_inj_r s t u : t +:+ s = u +:+ s → t = u.
Proof.
  intros H. apply (inj chars). apply (f_equal chars) in H.
  rewrite !chars_app in H. by apply app_inv_tail in H.
Qed.

(** [s[:n]] and [s[n:]]. *)
Definition str_take (n : nat) (s : string) : string := of_chars (take n (chars s)).
Definition str_drop (n : nat) (s : string) : string := of_chars (drop n (chars s)).

Lemma str_take_drop n s : str_take n s +:+ str_drop n s = s.
Proof.
  unfold str_take, str_drop. by rewrite <- of_chars_app, take_drop, of_chars_chars.
Qed.

Lemma str_take_append s t : str_take (String.length s) (s +:+ t) = s.
Proof.
  unfold str_take. rewrite chars_app, <- length_chars, take_app_length.
  apply of_chars_chars.
Qed.

Lemma str_drop_append s t : str_drop (String.length s) (s +:+ t) = t.
Proof.
  unfold str_drop. rewrite chars_app, <- length_chars, drop_app_length.
  apply of_chars_chars.
Qed.

Lemma length_str_take n s : String.length (str_take n s) = n `min` String.length s.
Proof.
  unfold str_take. by rewrite <- !length_chars, chars_of_chars, length_take.
Qed.

(** [strings.IndexByte]. *)
Fixpoint IndexByte (s : string) (c : ascii) : option nat :=
  match s with
  | EmptyString => None
  | String a r => if decide (a = c) then Some 0 else S <$> IndexByte r c
  end.

(** [strings.LastIndexByte]. *)
Fixpoint LastIndexByte (s : string) (c : ascii) : option nat :=
  match s with
  | EmptyString => None
  | String a r =>
      match LastIndexByte r c with
      | Some i => Some (S i)
      | None => if decide (a = c) then Some 0 else None
      end
  end.

Definition has_byte (c : ascii) (s : string) : bool :=
  match IndexByte s c with Some _ => true | None => false end.

Lemma has_byte_elem c s : has_byte c s = true ↔ c ∈ chars s.
Proof.
  unfold has_byte. induction s as [|a s IH]; simpl.
  - split; [done | by intros ?%elem_of_nil].
  - rewrite elem_of_cons. case_decide as E.
    + split; [by left | done].
    + rewrite <- IH. destruct (IndexByte s c); simpl; split; [by right | by intros [] | done | by intros [->|?]].
Qed.

Lemma has_byte_false c s : has_byte c s = false ↔ c ∉ chars s.
Proof. rewrite <- has_byte_elem. destruct (has_byte c s); split; [done | by intros [] | done | done]. Qed.

Lemma has_byte_append c s t : has_byte c (s +:+ t) = has_byte c s || has_byte c t.
Proof.
  apply eq_bool_prop_intro. rewrite orb_True, !Is_true_true, !has_byte_elem, chars_app.
  apply elem_of_app.
Qed.

(** [HasPrefix], [HasSuffix], [TrimSuffix]. *)
Definition HasPrefix (s pre : string) : bool :=
  bool_decide (String.length pre ≤ String.length s) &&
  bool_decide (str_take (String.length pre) s = pre).

Definition HasSuffix (s suf : string) : bool :=
  bool_decide (String.length suf ≤ String.length s) &&
  bool_decide (str_drop (String.length s - String.length suf) s = suf).

Definition TrimSuffix (s suf : string) : string :=
  if HasSuffix s suf then str_take (String.length s - String.length suf) s else s.

Lemma HasPrefix_spec s pre : HasPrefix s pre = true ↔ ∃ t, s = pre +:+ t.
Proof.
  unfold HasPrefix. rewrite andb_true_iff, !bool_decide_eq_true. split.
  - intros [_ H]. exists (str_drop (String.length pre) s).
    rewrite <- H at 1. symmetry. apply str_take_drop.
  - intros [t ->]. rewrite length_append, str_take_append. split; [lia | done].
Qed.

Lemma HasSuffix_spec s suf : HasSuffix s suf = true ↔ ∃ t, s = t +:+ suf.
Proof.
  unfold HasSuffix. rewrite andb_true_iff, !bool_decide_eq_true. split.
  - intros [_ H]. exists (str_take (String.length s - String.length suf) s).
    pattern suf at 2. rewrite <- H. symmetry. apply str_take_drop.
  - intros [t ->]. rewrite length_append. split; [lia|].
    rewrite Nat.add_sub. apply str_drop_append.
Qed.

Lemma HasPrefix_append s t : HasPrefix (s +:+ t) s = true.
Proof. apply HasPrefix_spec. eauto. Qed.

Lemma HasSuffix_append s t : HasSuffix (t +:+ s) s = true.
Proof. apply HasSuffix_spec. eauto. Qed.

Lemma TrimSuffix_append s suf : TrimSuffix (s +:+ suf) suf = s.
Proof.
  unfold TrimSuffix. rewrite HasSuffix_append, length_append, Nat.add_sub.
  apply str_take_append.
Qed.

Lemma TrimSuffix_no s suf : HasSuffix s suf = false → TrimSuffix s suf = s.
Proof. unfold TrimSuffix. by intros ->. Qed.

(** The two ways [TrimSuffix] returns. *)
Lemma TrimSuffix_cases s suf :
  s = TrimSuffix s suf +:+ suf ∨ (TrimSuffix s suf = s ∧ HasSuffix s suf = false).
Proof.
  destruct (HasSuffix s suf) eqn:E; [left | right; auto using TrimSuffix_no].
  apply HasSuffix_spec in E as [t ->]. by rewrite TrimSuffix_append.
Qed.

(** A one-byte suffix is the last character. *)
Lemma HasSuffix_last s c : HasSuffix s (String c EmptyString) = true ↔ last (chars s) = Some c.
Proof.
  rewrite HasSuffix_spec. split.
  - intros [t ->]. rewrite chars_app. apply last_snoc.
  - intros H. apply last_Some in H as [l H]. exists (of_chars l).
    apply (inj chars). by rewrite chars_app, chars_of_chars.
Qed.

Lemma HasSuffix_append_nonempty s t c :
  t ≠ EmptyString → HasSuffix (s +:+ t) (String c EmptyString) = HasSuffix t (String c EmptyString).
Proof.
  intros Ht. apply eq_bool_prop_intro. rewrite !Is_true_true, !HasSuffix_last, chars_app.
  destruct t as [|a t]; [done|]. rewrite last_app.
  destruct (last (chars (String a t))) eqn:E; [done|]. by apply last_None in E.
Qed.

(** ** [strings.Split(s, sep)] for a one-byte separator, and [strings.Join] *)

Fixpoint Split (s : string) (sep : ascii) : list string :=
  match s with
  | EmptyString => [EmptyString]
  | String a r =>
      if decide (a = sep) then EmptyString :: Split r sep
      else match Split r sep with
           | l :: ls => String a l :: ls
           | [] => [String a EmptyString]
           end
  end.

Fixpoint Join (elems : list string) (sep : string) : string :=
  match elems with
  | [] => EmptyString
  | [e] => e
  | e :: rest => e +:+ sep +:+ Join rest sep
  end.

Definition sep_str (sep : ascii) : string := String sep EmptyString.
#[global] Arguments sep_str : simpl never.

Lemma Split_not_nil s sep : Split s sep ≠ [].
Proof. destruct s as [|a s]; simpl; [done|]. case_decide; [done|]. by destruct (Split s sep). Qed.

Lemma Join_cons e es sep : es ≠ [] → Join (e :: es) sep = e +:+ sep +:+ Join es sep.
Proof. by destruct es. Qed.

Lemma Join_Split s sep : Join (Split s sep) (sep_str sep) = s.
Proof.
  induction s as [|a s IH]; [done|]. simpl. case_decide as E.
  - subst. rewrite Join_cons by apply Split_not_nil. by rewrite IH.
  - pose proof (Split_not_nil s sep). destruct (Split s sep) as [|l ls]; [done|].
    rewrite <- IH. by destruct ls.
Qed.

Lemma Split_no_sep s sep : Forall (λ l, has_byte sep l = false) (Split s sep).
Proof.
  induction s as [|a s IH]; simpl; [by apply Forall_singleton|]. case_decide as E.
  - by constructor.
  - pose proof (Split_not_nil s sep). destruct (Split s sep) as [|l ls]; [done|].
    apply Forall_cons in IH as [Hl Hls]. constructor; [|done].
    apply has_byte_false. rewrite has_byte_false in Hl. simpl.
    intros [->|?]%elem_of_cons; done.
Qed.

Lemma Split_label l sep : has_byte sep l = false → Split l sep = [l].
Proof.
  induction l as [|a l IH]; [done|]. intros H. rewrite has_byte_false in H. simpl in *.
  case_decide as E; [subst; exfalso; apply H; left|].
  rewrite IH; [done|]. apply has_byte_false. intros ?. apply H. by right.
Qed.

Lemma Split_append l s sep :
  has_byte sep l = false → Split (l +:+ sep_str sep +:+ s) sep = l :: Split s sep.
Proof.
  unfold sep_str. simpl. induction l as [|a l IH]; simpl; intros H.
  - by rewrite decide_True.
  - rewrite has_byte_false in H. simpl in H.
    rewrite decide_False by (intros ->; apply H; left).
    rewrite IH; [done|]. apply has_byte_false. intros ?. apply H. by right.
Qed.

Lemma Split_append_gen s t sep : Split (s +:+ sep_str sep +:+ t) sep = (Split s sep ++ Split t sep)%list.
Proof.
  unfold sep_str. simpl. induction s as [|a s IH]; simpl; [by rewrite decide_True|].
  case_decide; [by rewrite IH|]. rewrite IH.
  pose proof (Split_not_nil s sep). by destruct (Split s sep).
Qed.

Lemma Join_append l k sep :
  l ≠ [] → k ≠ [] → Join (l ++ k)%list sep = Join l sep +:+ sep +:+ Join k sep.
Proof.
  induction l as [|e l IH]; [done|]. intros _ Hk. destruct l as [|e' l].
  - simpl app. rewrite Join_cons by done. done.
  - rewrite <- app_comm_cons, !Join_cons, IH by done. by rewrite !append_assoc.
Qed.

(** Cutting a name in front of label [j]. *)
Lemma Split_cut s sep j :
  0 < j < List.length (Split s sep) →
  s = Join (take j (Split s sep)) (sep_str sep) +:+ sep_str sep +:+
      Join (drop j (Split s sep)) (sep_str sep).
Proof.
  intros Hj. rewrite <- Join_append.
  - by rewrite take_drop, Join_Split.
  - intros E. apply (f_equal List.length) in E. rewrite length_take in E. simpl in E. lia.
  - intros E. apply (f_equal List.length) in E. rewrite length_drop in E. simpl in E. lia.
Qed.

Lemma length_Join_tail e l sep :
  String.length (Join l sep) ≤ String.length (Join (e :: l) sep).
Proof.
  destruct l as [|e' l]; [simpl; lia|].
  rewrite (Join_cons e) by discriminate. rewrite !length_append. lia.
Qed.

Lemma length_Join_drop l i j sep :
  i ≤ j → String.length (Join (drop j l) sep) ≤ String.length (Join (drop i l) sep).
Proof.
  revert i j. induction l as [|e l IH]; intros i j Hij; [by rewrite !drop_nil|].
  destruct i as [|i], j as [|j]; [lia| |lia|by apply IH; lia].
  rewrite drop_0. simpl drop. etrans; [apply (IH 0 j); lia|]. rewrite drop_0. apply length_Join_tail.
Qed.

Lemma Split_Join ls sep :
  ls ≠ [] → Forall (λ l, has_byte sep l = false) ls → Split (Join ls (sep_str sep)) sep = ls.
Proof.
  induction ls as [|l ls IH]; [done|]. intros _ [Hl Hls]%Forall_cons.
  destruct ls as [|l' ls]; [by apply Split_label|].
  rewrite Join_cons by done. rewrite Split_append by done. by rewrite IH.
Qed.

(** The number of labels is one more than the number of separators. *)
Lemma Split_drop_Join s sep i :
  i < List.length (Split s sep) →
  Split (Join (drop i (Split s sep)) (sep_str sep)) sep = drop i (Split s sep).
Proof.
  intros Hi. apply Split_Join.
  - intros E. apply (f_equal List.length) in E. rewrite length_drop in E. simpl in E. lia.
  - apply Forall_drop, Split_no_sep.
Qed.

(** ** [strings.ToLower]

    The library scans the string once: an all-ASCII string is lowered byte by
    byte, anything else goes through [strings.Map(unicode.ToLower, s)], whose
    Unicode tables are the parameter [map_unicode_lower]. *)

Class UnicodeTables := { map_unicode_lower : string → string }.

Definition is_ascii_byte (a : ascii) : bool := bool_decide (nat_of_ascii a < 128).
Definition is_upper_byte (a : ascii) : bool :=
  bool_decide (65 ≤ nat_of_ascii a) && bool_decide (nat_of_ascii a ≤ 90).
Definition lower_byte (a : ascii) : ascii :=
  if is_upper_byte a then ascii_of_nat (nat_of_ascii a + 32) else a.

Definition is_ascii (s : string) : bool := forallb is_ascii_byte (chars s).
Definition lower_ascii (s : string) : string := of_chars (map lower_byte (chars s)).

Definition ToLower `{UnicodeTables} (s : string) : string :=
  if is_ascii s then lower_ascii s else map_unicode_lower s.

(** A name the checker leaves as it is: ASCII, in lower case. *)
Definition is_lower (s : string) : bool :=
  forallb (λ a, is_ascii_byte a && negb (is_upper_byte a)) (chars s).

Lemma lower_byte_idem a : lower_byte (lower_byte a) = lower_byte a.
Proof. by destruct a as [[] [] [] [] [] [] [] []]. Qed.

Lemma lower_byte_ascii a : is_ascii_byte (lower_byte a) = is_ascii_byte a.
Proof. by destruct a as [[] [] [] [] [] [] [] []]. Qed.

Lemma lower_byte_not_upper a : is_upper_byte (lower_byte a) = false.
Proof. by destruct a as [[] [] [] [] [] [] [] []]. Qed.

Lemma lower_byte_fixed a : is_upper_byte a = false → lower_byte a = a.
Proof. unfold lower_byte. by intros ->. Qed.

Lemma lower_ascii_append s t : lower_ascii (s +:+ t) = lower_ascii s +:+ lower_ascii t.
Proof. unfold lower_ascii. by rewrite chars_app, map_app, of_chars_app. Qed.

Lemma is_ascii_append s t : is_ascii (s +:+ t) = is_ascii s && is_ascii t.
Proof. unfold is_ascii. by rewrite chars_app, forallb_app. Qed.

Lemma lower_ascii_lower s : is_ascii s = true → is_lower (lower_ascii s) = true.
Proof.
  unfold is_ascii, is_lower, lower_ascii. rewrite chars_of_chars.
  induction (chars s) as [|a l IH]; simpl; [done|].
  intros [Ha Hl]%andb_true_iff. rewrite IH by done.
  by rewrite lower_byte_ascii, lower_byte_not_upper, Ha.
Qed.

Section to_lower.
Context `{UnicodeTables}.

Lemma ToLower_ascii s : is_ascii s = true → ToLower s = lower_ascii s.
Proof. unfold ToLower. by intros ->. Qed.

Lemma ToLower_fixed s : is_lower s = true → ToLower s = s.
Proof.
  intros Hs. assert (is_ascii s = true ∧ map lower_byte (chars s) = chars s) as [Ha Hm].
  { unfold is_lower, is_ascii in *. induction (chars s) as [|a l IH]; simpl in *; [done|].
    apply andb_true_iff in Hs as [[Ha Hu]%andb_true_iff Hl].
    destruct (IH Hl) as [-> ->]. rewrite lower_byte_fixed by by apply negb_true_iff.
    by rewrite Ha. }
  rewrite ToLower_ascii by done. unfold lower_ascii. by rewrite Hm, of_chars_chars.
Qed.

Lemma ToLower_idem s : is_ascii s = true → ToLower (ToLower s) = ToLower s.
Proof.
  intros Hs. rewrite (ToLower_ascii s) by done. by apply ToLower_fixed, lower_ascii_lower.
Qed.
End to_lower.

Lemma is_lower_append s t : is_lower (s +:+ t) = is_lower s && is_lower t.
Proof. unfold is_lower. by rewrite chars_app, forallb_app. Qed.

(** ** Comparing strings up to their first separator *)

(** Two strings cut at their first [sep] are equal part by part. *)
Lemma first_cut_inj c s s' t t' :
  has_byte c s = false → has_byte c s' = false →
  s +:+ String c t = s' +:+ String c t' → s = s' ∧ t = t'.
Proof.
  rewrite !has_byte_false. revert s'. induction s as [|a s IH]; intros [|a' s'] Hs Hs'; simpl in *.
  - by intros [= ->].
  - intros [= -> _]. exfalso. apply Hs'. left.
  - intros [= -> _]. exfalso. apply Hs. left.
  - intros [= -> H]. rewrite not_elem_of_cons in Hs, Hs'.
    destruct (IH s' (proj2 Hs) (proj2 Hs') H) as [-> ->]. done.
Qed.

Lemma TrimSuffix_no_last s c : HasSuffix s (String c EmptyString) = false →
  TrimSuffix s (String c EmptyString) = s.
Proof. apply TrimSuffix_no. Qed.

Lemma append_eq_nil s t : s +:+ t = EmptyString ↔ s = EmptyString ∧ t = EmptyString.
Proof. destruct s; simpl; naive_solver. Qed.

Lemma is_ascii_TrimSuffix s suf : is_ascii s = true → is_ascii (TrimSuffix s suf) = true.
Proof.
  destruct (TrimSuffix_cases s suf) as [E|[-> _]]; [|done].
  rewrite E at 1. rewrite is_ascii_append. by intros [? _]%andb_true_iff.
Qed.

Lemma lower_byte_dot a : lower_byte a = "."%char ↔ a = "."%char.
Proof. split; [by destruct a as [[] [] [] [] [] [] [] []] | by intros ->]. Qed.

Lemma HasSuffix_lower_dot s : HasSuffix (lower_ascii s) "." = HasSuffix s ".".
Proof.
  apply eq_bool_prop_intro. rewrite !Is_true_true, !HasSuffix_last.
  unfold lower_ascii. rewrite chars_of_chars.
  change (map lower_byte (chars s)) with (lower_byte <$> chars s). rewrite fmap_last.
  destruct (last (chars s)) as [a|]; simpl; [|done].
  split; intros [= E]; f_equal; by apply lower_byte_dot.
Qed.

(** ** Decimal integers: the verb [%d] *)

Definition fmt_d (z : Z) : string := pretty z.

Lemma pretty_N_go_colon x s : has_byte ":" s = false → has_byte ":" (pretty_N_go x s) = false.
Proof.
  revert s. induction (N.lt_wf_0 x) as [x _ IH]; intros s Hs.
  assert (x = 0 ∨ 0 < x)%N as [->|Hx] by lia; [by rewrite pretty_N_go_0|].
  rewrite pretty_N_go_step by done. apply IH; [by apply N.div_lt|].
  change (String ?a s) with (String a EmptyString +:+ s). rewrite has_byte_append, Hs, orb_false_r.
  unfold pretty_N_char. by repeat case_match.
Qed.

Lemma fmt_d_colon z : has_byte ":" (fmt_d z) = false.
Proof.
  assert (∀ p : positive, has_byte ":" (pretty p) = false) as Hp.
  { intros p. by apply (pretty_N_go_colon (Npos p) EmptyString). }
  destruct z as [|p|p]; [done|apply Hp|].
  change (has_byte ":" ("-" +:+ pretty p) = false). by rewrite has_byte_append, Hp.
Qed.

#[export] Instance fmt_d_inj : Inj (=) (=) fmt_d.
Proof. apply pretty_Z_inj. Qed.
