(* ===== verification/GoNet.v ===== *)
(** * Go's [net] package, as far as the program uses it

    [SplitHostPort] and [JoinHostPort] (used by the handler and the SNI proxy) and
    [ParseIP] with [IP.To4] (used to validate redirect targets), written as the
    library's loops: one pass over the characters, the errors where the library
    raises them.  An [IP] is the 16-byte slice [ParseIP] returns. *)

From S2P Require Import Prelude.
From S2P Require Import GoStrings.
From Stdlib Require Import Strings.Ascii Strings.String.

(** ** Host and port *)

(** [JoinHostPort(host, port)]: a host with a colon is an IPv6 literal. *)
Definition JoinHostPort (host port : string) : string :=
  if has_byte ":" host then "[" +:+ host +:+ "]:" +:+ port else host +:+ ":" +:+ port.

Inductive addr_error :=
| MissingPort | TooManyColons | MissingBracket | UnexpectedOpen | UnexpectedClose.

(** The bracketed half of [SplitHostPort]: the host and the offsets [j], [k]
    after which no bracket may follow. *)
Definition split_bracketed (hostport : string) (i : nat) : result addr_error (string * nat * nat) :=
  match IndexByte hostport "]" with
  | None => Err MissingBracket
  | Some e =>
      if decide (e + 1 = String.length hostport) then Err MissingPort
      else if decide (e + 1 = i) then Ok (str_drop 1 (str_take e hostport), 1, e + 1)
      else match String.get (e + 1) hostport with
           | Some ":"%char => Err TooManyColons
           | _ => Err MissingPort
           end
  end.

Definition SplitHostPort (hostport : string) : result addr_error (string * string) :=
  match LastIndexByte hostport ":" with
  | None => Err MissingPort
  | Some i =>
      let parts :=
        match hostport with
        | String "[" _ => split_bracketed hostport i
        | _ =>
            let host := str_take i hostport in
            if has_byte ":" host then Err TooManyColons else Ok (host, 0, 0)
        end in
      match parts with
      | Err e => Err e
      | Ok (host, j, k) =>
          if has_byte "[" (str_drop j hostport) then Err UnexpectedOpen
          else if has_byte "]" (str_drop k hostport) then Err UnexpectedClose
          else Ok (host, str_drop (i + 1) hostport)
      end
  end.

Lemma LastIndexByte_none c s : has_byte c s = false → LastIndexByte s c = None.
Proof.
  rewrite has_byte_false. induction s as [|a s IH]; simpl; [done|].
  rewrite not_elem_of_cons. intros [Ha Hs]. rewrite IH by done. by rewrite decide_False.
Qed.

Lemma LastIndexByte_append c s t :
  has_byte c t = false → LastIndexByte (s +:+ String c t) c = Some (String.length s).
Proof.
  intros Ht. induction s as [|a s IH]; simpl; [|by rewrite IH].
  rewrite LastIndexByte_none by done. by rewrite decide_True.
Qed.

(** A host name or IPv4 address, followed by a port. *)
Lemma SplitHostPort_simple host port :
  host ≠ EmptyString →
  Forall (λ c, has_byte c host = false ∧ has_byte c port = false) [":"; "["; "]"]%char →
  SplitHostPort (host +:+ ":" +:+ port) = Ok (host, port).
Proof.
  rewrite !Forall_cons. intros Hne ([Hc Hc'] & [Ho Ho'] & [Hx Hx'] & _).
  unfold SplitHostPort. change (":" +:+ port) with (String ":" port).
  rewrite LastIndexByte_append by done. rewrite str_take_append, Hc.
  assert (∀ A (x y : A), match host +:+ String ":" port with String "[" _ => x | _ => y end = y)
    as Hbr.
  { intros A x y. destruct host as [|a h]; [done|]. simpl.
    by destruct a as [[] [] [] [] [] [] [] []]. }
  rewrite Hbr. simpl.
  assert (∀ c, has_byte c host = false → has_byte c port = false → c ≠ ":"%char →
    has_byte c (str_drop 0 (host +:+ String ":" port)) = false) as Hnb.
  { intros c Hh Hp Hne'. unfold str_drop. rewrite drop_0, of_chars_chars, has_byte_append, Hh.
    change (String ":" port) with (String ":" EmptyString +:+ port).
    rewrite has_byte_append, Hp. unfold has_byte. simpl. by rewrite decide_False. }
  rewrite !Hnb by done. do 2 f_equal.
  change (host +:+ String ":" port) with (host +:+ (String ":" EmptyString +:+ port)).
  rewrite <- append_assoc.
  replace (String.length host + 1) with (String.length (host +:+ String ":" EmptyString))
    by (rewrite length_append; done).
  apply str_drop_append.
Qed.

(** ** IP addresses *)

Abbreviation IP := (list Z).

Definition digit_val (c : ascii) : option Z :=
  let n := nat_of_ascii c in
  if bool_decide (48 ≤ n) && bool_decide (n ≤ 57) then Some (Z.of_nat (n - 48)) else None.

Definition hex_val (c : ascii) : option Z :=
  let n := nat_of_ascii c in
  if bool_decide (48 ≤ n) && bool_decide (n ≤ 57) then Some (Z.of_nat (n - 48))
  else if bool_decide (97 ≤ n) && bool_decide (n ≤ 102) then Some (Z.of_nat (n - 97 + 10))
  else if bool_decide (65 ≤ n) && bool_decide (n ≤ 70) then Some (Z.of_nat (n - 65 + 10))
  else None.

(** [parseIPv4Fields]: [at_edge] is "at the start, or just after a dot". *)
Fixpoint parse_ipv4_fields (l : list ascii) (at_edge : bool) (val : Z) (digLen : nat)
    (fields : list Z) : option (list Z) :=
  match l with
  | [] => if decide (List.length fields < 3) then None else Some (fields ++ [val])
  | c :: rest =>
      match digit_val c with
      | Some d =>
          if bool_decide (digLen = 1) && Z.eqb val 0 then None
          else let val' := (val * 10 + d)%Z in
               if Z.ltb 255 val' then None
               else parse_ipv4_fields rest false val' (S digLen) fields
      | None =>
          if decide (c = "."%char) then
            if at_edge || bool_decide (rest = []) then None
            else if decide (List.length fields = 3) then None
            else parse_ipv4_fields rest true 0 0 (fields ++ [val])
          else None
      end
  end.

(** The hexadecimal group at the start of [l]: digits read, value, rest. *)
Fixpoint read_hex (l : list ascii) (off : nat) (acc : Z) : option (nat * Z * list ascii) :=
  match l with
  | [] => Some (off, acc, [])
  | c :: rest =>
      match hex_val c with
      | None => Some (off, acc, l)
      | Some d =>
          let acc' := (acc * 16 + d)%Z in
          if decide (3 < off) then None
          else if Z.ltb 65535 acc' then None
          else read_hex rest (S off) acc'
      end
  end.

(** The loop of [parseIPv6]; every round appends two bytes, so eight rounds
    exhaust the address ([i < 16]). Returns bytes, position of the ellipsis and
    the unread rest. *)
Fixpoint ipv6_loop (rounds : nat) (s : list ascii) (bytes : list Z) (ellipsis : option nat) :
    option (list Z * option nat * list ascii) :=
  match rounds with
  | 0 => Some (bytes, ellipsis, s)
  | S rounds' =>
      match read_hex s 0 0 with
      | None => None
      | Some (0, _, _) => None
      | Some (_, acc, rest) =>
          let bytes' := bytes ++ [Z.shiftr acc 8; Z.land acc 255] in
          match rest with
          | [] => Some (bytes', ellipsis, [])
          | "."%char :: _ =>
              if bool_decide (ellipsis = None) && negb (bool_decide (List.length bytes = 12))
              then None
              else if decide (16 < List.length bytes + 4) then None
              else f ← parse_ipv4_fields s true 0 0 []; Some (bytes ++ f, ellipsis, [])
          | ":"%char :: [] => None
          | ":"%char :: ":"%char :: rest' =>
              match ellipsis with
              | Some _ => None
              | None =>
                  let here := Some (List.length bytes') in
                  if decide (rest' = []) then Some (bytes', here, [])
                  else ipv6_loop rounds' rest' bytes' here
              end
          | ":"%char :: rest' => ipv6_loop rounds' rest' bytes' ellipsis
          | _ => None
          end
      end
  end.

Definition ipv6_finish (r : list Z * option nat * list ascii) : option IP :=
  let '(bytes, ellipsis, rest) := r in
  if decide (rest ≠ []) then None
  else if decide (List.length bytes < 16) then
    e ← ellipsis;
    Some (take e bytes ++ replicate (16 - List.length bytes) 0%Z ++ drop e bytes)
  else match ellipsis with Some _ => None | None => Some bytes end.

(** A zone makes [ParseIP] fail whether or not [parseIPv6] accepts it. *)
Definition parse_ipv6 (s : string) : option IP :=
  if has_byte "%" s then None
  else match chars s with
       | ":"%char :: ":"%char :: [] => Some (replicate 16 0%Z)
       | ":"%char :: ":"%char :: rest => ipv6_loop 8 rest [] (Some 0) ≫= ipv6_finish
       | l => ipv6_loop 8 l [] None ≫= ipv6_finish
       end.

Definition v4_in_v6 (fields : list Z) : IP := replicate 10 0%Z ++ [255; 255]%Z ++ fields.

Definition parse_ipv4 (s : string) : option IP :=
  v4_in_v6 <$> parse_ipv4_fields (chars s) true 0 0 [].

(** [ParseAddr] looks for the first of dot, colon and percent sign. *)
Fixpoint addr_family (l : list ascii) : option ascii :=
  match l with
  | [] => None
  | c :: rest => if decide (c ∈ ["."; ":"; "%"]%char) then Some c else addr_family rest
  end.

Definition ParseIP (s : string) : option IP :=
  match addr_family (chars s) with
  | Some "."%char => parse_ipv4 s
  | Some ":"%char => parse_ipv6 s
  | _ => None
  end.

(** [IP.To4] on a 16-byte address: the last four bytes of an IPv4-mapped one. *)
Definition To4 (ip : IP) : option IP :=
  if bool_decide (take 10 ip = replicate 10 0%Z) && bool_decide (take 2 (drop 10 ip) = [255; 255]%Z)
  then Some (drop 12 ip) else None.

(** A string [ParseIP] reads as an IPv4 address. *)
Definition is_ipv4 (s : string) : bool :=
  match ParseIP s with
  | Some ip => match To4 ip with Some _ => true | None => false end
  | None => false
  end.

Example ParseIP_v4 : ParseIP "10.0.0.1" = Some (v4_in_v6 [10; 0; 0; 1]%Z).
Proof. reflexivity. Qed.
Example ParseIP_bad :
  map ParseIP ["10.0.0"; "10.0.0.256"; "10.00.0.1"; "1.2.3.4.5"; ".1.2.3"; "netflix.com"; ":::";
    "1:2:3:4:5:6:7:8:9"; "fe80::1%eth0"; "::12345"; EmptyString]
  = replicate 11 None.
Proof. reflexivity. Qed.
Example ParseIP_v6 :
  ParseIP "2001:db8::ff" = Some ([32; 1; 13; 184] ++ replicate 11 0 ++ [255])%Z
  ∧ ParseIP "::" = Some (replicate 16 0%Z)
  ∧ ParseIP "::ffff:1.2.3.4" = Some (v4_in_v6 [1; 2; 3; 4]%Z)
  ∧ ParseIP "1:2:3:4:5:6:7:8" = Some [0; 1; 0; 2; 0; 3; 0; 4; 0; 5; 0; 6; 0; 7; 0; 8]%Z.
Proof. done. Qed.
Example SplitHostPort_ex :
  map SplitHostPort ["1.2.3.4:53"; "[::1]:853"; "host"; "a:b:c"; "[::1]"; "[::1]x:2"]
  = [Ok ("1.2.3.4", "53"); Ok ("::1", "853"); Err MissingPort; Err TooManyColons;
     Err MissingPort; Err MissingPort].
Proof. reflexivity. Qed.

(** ** Printing addresses: [IP.String] *)

Definition hex_char (d : Z) : ascii := nth (Z.to_nat d) (chars "0123456789abcdef") "0"%char.

(** [appendHex]: a 16-bit group without leading zeros. *)
Definition append_hex (x : Z) : list ascii :=
  (if (4096 <=? x)%Z then [hex_char (Z.shiftr x 12)] else []) ++
  (if (256 <=? x)%Z then [hex_char (Z.land (Z.shiftr x 8) 15)] else []) ++
  (if (16 <=? x)%Z then [hex_char (Z.land (Z.shiftr x 4) 15)] else []) ++
  [hex_char (Z.land x 15)].

Fixpoint groups (ip : IP) : list Z :=
  match ip with
  | hi :: lo :: ip => (hi * 256 + lo)%Z :: groups ip
  | _ => []
  end.

Fixpoint zero_prefix (gs : list Z) : nat :=
  match gs with
  | g :: gs => if Z.eqb g 0 then S (zero_prefix gs) else 0
  | [] => 0
  end.

(** The first of the longest runs of zero groups, when it has at least two: its position
    and its length. *)
Fixpoint zero_run (i : nat) (gs : list Z) (best : nat * nat) : nat * nat :=
  match gs with
  | [] => best
  | _ :: rest =>
      let l := zero_prefix gs in
      zero_run (S i) rest (if bool_decide (2 ≤ l) && bool_decide (best.2 < l) then (i, l) else best)
  end.

Definition join_groups (gs : list Z) : list ascii := chars (Join ((λ g, of_chars (append_hex g)) <$> gs) ":").

(** [netip.Addr.string6]. *)
Definition string6 (ip : IP) : string :=
  let gs := groups ip in
  match zero_run 0 gs (0, 0) with
  | (_, 0) => of_chars (join_groups gs)
  | (i, l) => of_chars (join_groups (take i gs) ++ [":"; ":"]%char ++ join_groups (drop (i + l) gs))
  end.

Definition string4 (ip : IP) : string := Join (fmt_d <$> ip) ".".

Definition IP_String (ip : IP) : string :=
  if decide (List.length ip = 0) then "<nil>"
  else if decide (List.length ip = 4) then string4 ip
  else if decide (List.length ip = 16) then
    match To4 ip with Some p4 => string4 p4 | None => string6 ip end
  else "?" +:+ of_chars (mbind (λ b, [hex_char (Z.shiftr b 4); hex_char (Z.land b 15)]) ip).

Example IP_String_examples :
  map (λ s, from_option IP_String EmptyString (ParseIP s)) ["::"; "0.0.0.0"; "2001:DB8:0:0:1:0:0:1"; "fe80::0001"; "1:0:2:0:3:0:4:0"] =
  ["::"; "0.0.0.0"; "2001:db8::1:0:0:1"; "fe80::1"; "1:0:2:0:3:0:4:0"].
Proof. vm_compute. reflexivity. Qed.
