(* ===== verification/GoUtf8.v ===== *)
(** * UTF-8: utf8.DecodeRuneInString and utf8.AppendRune

    Runes and bytes are numbers of type [N].  A string is valid when it is the encoding of
    Unicode scalar values; decoding an encoding gives back the value and what follows. *)

From S2P Require Import Prelude.
From S2P Require Import GoStrings.
From Stdlib Require Import Strings.Ascii Strings.String.

Module Utf8.

Definition code (c : ascii) : N := N_of_ascii c.
Definition char (n : N) : ascii := ascii_of_N n.

Definition RuneError : N := 65533.

(** Not a surrogate and not above U+10FFFF. *)
Definition scalar (r : N) : bool := ((r <? 55296) || (57344 <=? r) && (r <? 1114112))%N.

Definition in_range (lo hi : N) (c : ascii) : bool := ((lo <=? code c) && (code c <=? hi))%N.
Definition cont (c : ascii) : bool := in_range 128 191 c.

(** The bounds of the second byte after the lead byte [b]. *)
Definition second_range (b : N) : N * N :=
  (if b =? 224 then (160, 191) else if b =? 237 then (128, 159)
   else if b =? 240 then (144, 191) else if b =? 244 then (128, 143) else (128, 191))%N.

(** The rune and the number of bytes it takes; [RuneError] and one byte when the input does
    not start with a valid encoding, and no byte for the empty input. *)
Definition DecodeRune (l : list ascii) : N * nat :=
  match l with
  | [] => (RuneError, 0)
  | c0 :: l =>
      let b0 := code c0 in
      if (b0 <? 128)%N then (b0, 1)
      else if ((194 <=? b0) && (b0 <=? 223))%N then
        match l with
        | c1 :: _ => if cont c1 then (((b0 mod 32) * 64 + code c1 mod 64)%N, 2) else (RuneError, 1)
        | _ => (RuneError, 1)
        end
      else if ((224 <=? b0) && (b0 <=? 239))%N then
        match l with
        | c1 :: c2 :: _ =>
            if in_range (second_range b0).1 (second_range b0).2 c1 && cont c2
            then (((b0 mod 16) * 4096 + (code c1 mod 64) * 64 + code c2 mod 64)%N, 3)
            else (RuneError, 1)
        | _ => (RuneError, 1)
        end
      else if ((240 <=? b0) && (b0 <=? 244))%N then
        match l with
        | c1 :: c2 :: c3 :: _ =>
            if in_range (second_range b0).1 (second_range b0).2 c1 && cont c2 && cont c3
            then (((b0 mod 8) * 262144 + (code c1 mod 64) * 4096 + (code c2 mod 64) * 64 + code c3 mod 64)%N, 4)
            else (RuneError, 1)
        | _ => (RuneError, 1)
        end
      else (RuneError, 1)
  end.

(** A rune that is not a scalar value is encoded as [RuneError]. *)
Definition AppendRune (r : N) : list ascii :=
  let r := if scalar r then r else RuneError in
  if (r <? 128)%N then [char r]
  else if (r <? 2048)%N then [char (192 + r / 64); char (128 + r mod 64)]
  else if (r <? 65536)%N then [char (224 + r / 4096); char (128 + r / 64 mod 64); char (128 + r mod 64)]
  else [char (240 + r / 262144); char (128 + r / 4096 mod 64); char (128 + r / 64 mod 64); char (128 + r mod 64)].

Definition encodes (rs : list N) : list ascii := List.concat (AppendRune <$> rs).

(** The string is the encoding of scalar values. *)
Definition valid (l : list ascii) : Prop := ∃ rs, Forall (λ r, scalar r = true) rs ∧ l = encodes rs.

Lemma code_char n : (n < 256)%N → code (char n) = n.
Proof. apply N_ascii_embedding. Qed.

Lemma char_code c : char (code c) = c.
Proof. apply ascii_N_embedding. Qed.

Lemma code_lt c : (code c < 256)%N.
Proof. apply N_ascii_bounded. Qed.

Lemma scalar_spec r : scalar r = true ↔ (r < 55296 ∨ 57344 ≤ r < 1114112)%N.
Proof.
  unfold scalar. rewrite orb_true_iff, andb_true_iff, !N.ltb_lt, N.leb_le. done.
Qed.

(** Name the quotient and the remainder by a constant, for [lia]. *)
Ltac divmod n d q m :=
  let E := fresh "E" in let L := fresh "L" in
  pose proof (N.div_mod n d ltac:(lia)) as E; pose proof (N.mod_lt n d ltac:(lia)) as L;
  generalize dependent (n / d)%N; intros q; generalize dependent (n mod d)%N; intros m; intros.

Lemma cont_char x : (x < 64)%N → cont (char (128 + x)) = true ∧ (code (char (128 + x)) mod 64 = x)%N.
Proof.
  intros Hx. unfold cont, in_range. rewrite code_char by lia. split.
  - rewrite andb_true_iff, !N.leb_le. lia.
  - rewrite <- N.Div0.add_mod_idemp_l. change (128 mod 64)%N with 0%N. apply N.mod_small. lia.
Qed.

(** The second byte of an encoding is in the range its lead byte allows. *)
Lemma second_in_range b x : (x < 64)%N →
  ((b = 224 → 32 ≤ x) ∧ (b = 237 → x < 32) ∧ (b = 240 → 16 ≤ x) ∧ (b = 244 → x < 16))%N →
  in_range (second_range b).1 (second_range b).2 (char (128 + x)) = true.
Proof.
  intros Hx (H1 & H2 & H3 & H4). unfold in_range, second_range. rewrite code_char by lia.
  rewrite andb_true_iff, !N.leb_le.
  destruct (N.eqb_spec b 224); [cbn; lia|]. destruct (N.eqb_spec b 237); [cbn; lia|].
  destruct (N.eqb_spec b 240); [cbn; lia|]. destruct (N.eqb_spec b 244); cbn; lia.
Qed.

Lemma low_bits b x m : (b mod m = 0 → x < m → (b + x) mod m = x)%N.
Proof.
  intros Hb Hx. rewrite <- N.Div0.add_mod_idemp_l, Hb. by apply N.mod_small.
Qed.

Lemma DecodeRune_Append r rest : scalar r = true →
  DecodeRune (AppendRune r ++ rest) = (r, List.length (AppendRune r)).
Proof.
  intros Hs. unfold AppendRune. rewrite Hs. apply scalar_spec in Hs.
  assert (Hd : (r / 4096 = r / 64 / 64)%N) by by rewrite N.Div0.div_div.
  assert (Hd' : (r / 262144 = r / 64 / 64 / 64)%N) by by rewrite !N.Div0.div_div.
  rewrite Hd, Hd'. clear Hd Hd'.
  divmod r 64%N q1 m1. divmod q1 64%N q2 m2. divmod q2 64%N q3 m3.
  destruct (N.ltb_spec r 128) as [B1|B1].
  { cbn [app DecodeRune List.length]. rewrite code_char by lia. by rewrite (proj2 (N.ltb_lt _ _) B1). }
  destruct (cont_char m1) as [Hc1 Hm1]; [lia|]. destruct (cont_char m2) as [Hc2 Hm2]; [lia|].
  destruct (cont_char m3) as [Hc3 Hm3]; [lia|].
  destruct (N.ltb_spec r 2048) as [B2|B2].
  { cbn [app DecodeRune List.length]. rewrite code_char, Hc1, Hm1 by lia.
    rewrite (proj2 (N.ltb_ge _ _)), !(proj2 (N.leb_le _ _)) by lia. cbn [andb].
    rewrite low_bits by (done || lia). f_equal. lia. }
  destruct (N.ltb_spec r 65536) as [B3|B3].
  { cbn [app DecodeRune List.length]. rewrite code_char, Hc1, Hm1, Hm2 by lia.
    rewrite (proj2 (N.ltb_ge _ _)), (proj2 (N.leb_gt _ 223)), andb_false_r, !(proj2 (N.leb_le _ _)) by lia.
    cbn [andb]. rewrite second_in_range, low_bits by (done || lia). cbn [andb]. f_equal. lia. }
  cbn [app DecodeRune List.length]. rewrite code_char, Hc1, Hc2, Hm1, Hm2, Hm3 by lia.
  rewrite (proj2 (N.ltb_ge _ _)), (proj2 (N.leb_gt _ 223)), andb_false_r by lia.
  rewrite (proj2 (N.leb_gt _ 239)), andb_false_r, !(proj2 (N.leb_le _ _)) by lia.
  cbn [andb]. rewrite second_in_range, low_bits by (done || lia). cbn [andb]. f_equal. lia.
Qed.

Lemma AppendRune_nonempty r : AppendRune r ≠ [].
Proof. unfold AppendRune. repeat (case_match; try done). Qed.

(** An encoding of more than one byte has no ASCII byte. *)
Lemma AppendRune_high r : scalar r = true → (128 ≤ r)%N → Forall (λ c, 128 ≤ code c)%N (AppendRune r).
Proof.
  intros Hs Hr. unfold AppendRune. rewrite Hs. apply scalar_spec in Hs. rewrite (proj2 (N.ltb_ge _ _)) by done.
  assert (Hd : (r / 4096 = r / 64 / 64)%N) by by rewrite N.Div0.div_div.
  assert (Hd' : (r / 262144 = r / 64 / 64 / 64)%N) by by rewrite !N.Div0.div_div.
  rewrite Hd, Hd'. clear Hd Hd'.
  divmod r 64%N q1 m1. divmod q1 64%N q2 m2. divmod q2 64%N q3 m3.
  destruct (N.ltb_spec r 2048); [|destruct (N.ltb_spec r 65536)];
    repeat apply Forall_cons_2; try apply Forall_nil_2; rewrite code_char by lia; lia.
Qed.

Lemma AppendRune_ascii r : (r < 128)%N → AppendRune r = [char r].
Proof.
  intros Hr. unfold AppendRune. assert (scalar r = true) as -> by (apply scalar_spec; lia).
  by rewrite (proj2 (N.ltb_lt _ _) Hr).
Qed.

Lemma valid_nil : valid [].
Proof. by exists []. Qed.

Lemma valid_ascii l : Forall (λ c, code c < 128)%N l → valid l.
Proof.
  induction 1 as [|c l Hc Hl (rs & Hrs & ->)]; [apply valid_nil|]. exists (code c :: rs). split.
  - constructor; [apply scalar_spec; lia|done].
  - unfold encodes. cbn. by rewrite AppendRune_ascii, char_code.
Qed.

Lemma is_ascii_valid s : is_ascii s = true → valid (chars s).
Proof.
  intros Hs. apply valid_ascii, Forall_forall. intros c Hc. unfold is_ascii in Hs.
  rewrite forallb_forall in Hs. specialize (Hs c ltac:(by apply list_elem_of_In)).
  unfold is_ascii_byte in Hs. apply bool_decide_eq_true_1 in Hs. unfold code, nat_of_ascii in *. lia.
Qed.
End Utf8.
