(* ===== verification/GoBytes.v ===== *)
(** * Byte slices, big-endian integers and [io.ReadFull]

    A [[]byte] is a list of bytes and an [int] that indexes it a natural number (no
    index in the program exceeds a few times 65535).  Indexing and slicing out of
    range panic; slicing is stricter than Go's, which lets the upper bound reach the
    capacity of the slice, so a proof that it does not panic here covers Go's rule. *)

From S2P Require Import Prelude.
From S2P Require Import GoStrings.
From Stdlib Require Import Strings.Ascii Strings.String.

Local Open Scope go_scope.

Abbreviation bytes := (list byte).

Definition byte_nat (b : byte) : nat := N.to_nat (Byte.to_N b).

Definition index (b : bytes) (i : nat) : outcome byte :=
  match b !! i with Some x => Ret x | None => Panic "index out of range" end.

(** [b[i:]], [b[:j]] and [b[i:j]]. *)
Definition slice_from (b : bytes) (i : nat) : outcome bytes :=
  if decide (i ≤ List.length b) then Ret (drop i b) else Panic "slice bounds out of range".
Definition slice_to (b : bytes) (j : nat) : outcome bytes :=
  if decide (j ≤ List.length b) then Ret (take j b) else Panic "slice bounds out of range".
Definition slice (b : bytes) (i j : nat) : outcome bytes :=
  if decide (i ≤ j ∧ j ≤ List.length b) then Ret (drop i (take j b))
  else Panic "slice bounds out of range".

(** [binary.BigEndian.Uint16(b)]: [uint16(b[1]) | uint16(b[0])<<8]. *)
Definition Uint16 (b : bytes) : outcome nat :=
  b1 <-@ index b 1 ;;
  b0 <-@ index b 0 ;;
  Ret (N.to_nat (N.lor (Byte.to_N b1) (N.shiftl (Byte.to_N b0) 8))).

(** [string(b)] and [[]byte(s)]. *)
Definition string_of_bytes (b : bytes) : string := string_of_list_byte b.
Definition bytes_of_string (s : string) : bytes := list_byte_of_string s.

Lemma string_of_bytes_of_string s : string_of_bytes (bytes_of_string s) = s.
Proof. apply string_of_list_byte_of_string. Qed.

Lemma bytes_of_string_of_bytes b : bytes_of_string (string_of_bytes b) = b.
Proof. apply list_byte_of_string_of_list_byte. Qed.

(** The low eight bits of a number: [byte(n)]. *)
Definition byte_of_nat (n : nat) : byte :=
  match Byte.of_N (N.of_nat (n mod 256)) with Some b => b | None => x00 end.

Lemma byte_nat_lt b : byte_nat b < 256.
Proof. unfold byte_nat. pose proof (Byte.to_N_bounded b). lia. Qed.

Lemma byte_nat_of_nat n : byte_nat (byte_of_nat n) = n mod 256.
Proof.
  unfold byte_of_nat, byte_nat. pose proof (Nat.mod_upper_bound n 256 ltac:(lia)) as Hlt.
  destruct (Byte.of_N (N.of_nat (n mod 256))) as [b|] eqn:E.
  - apply Byte.to_of_N in E. rewrite E. lia.
  - apply Byte.of_N_None_iff in E. lia.
Qed.

Lemma byte_of_nat_nat b : byte_of_nat (byte_nat b) = b.
Proof.
  unfold byte_of_nat, byte_nat. pose proof (Byte.to_N_bounded b).
  rewrite Nat.mod_small, N2Nat.id by lia. by rewrite Byte.of_to_N.
Qed.

Lemma byte_of_nat_mod n : byte_of_nat (n mod 256) = byte_of_nat n.
Proof. unfold byte_of_nat. by rewrite Nat.Div0.mod_mod. Qed.

Lemma byte_of_nat_eq b n : n mod 256 = byte_nat b → byte_of_nat n = b.
Proof. intros E. by rewrite <- byte_of_nat_mod, E, byte_of_nat_nat. Qed.

(** Disjoint bits: the [or] of a byte and a shifted number is their sum. *)
Lemma lor_shiftl_8 a b : (b < 256)%N → N.lor b (N.shiftl a 8) = (a * 256 + b)%N.
Proof.
  intros Hb. assert (Hd : N.land b (N.shiftl a 8) = 0%N).
  { apply N.bits_inj_0. intros n. rewrite N.land_spec. destruct (N.ltb_spec n 8) as [Hn|Hn].
    - by rewrite N.shiftl_spec_low, andb_false_r.
    - rewrite <- (N.mod_small b (2 ^ 8)) by done. by rewrite N.mod_pow2_bits_high. }
  rewrite <- N.lxor_lor, <- N.add_nocarry_lxor, N.shiftl_mul_pow2 by done.
  change (2 ^ 8)%N with 256%N. lia.
Qed.

Lemma Uint16_cons b0 b1 rest : Uint16 (b0 :: b1 :: rest) = Ret (byte_nat b0 * 256 + byte_nat b1).
Proof.
  unfold Uint16, index. cbn [lookup list_lookup outcome_bind].
  pose proof (Byte.to_N_bounded b1). rewrite lor_shiftl_8 by lia.
  unfold byte_nat. f_equal. lia.
Qed.

Lemma Uint16_short b : List.length b < 2 → ∃ why, Uint16 b = Panic why.
Proof. destruct b as [|? [|]]; simpl; [eauto..|lia]. Qed.

Lemma Uint16_total b : 2 ≤ List.length b → ∃ n, Uint16 b = Ret n ∧ n < 256 * 256.
Proof.
  destruct b as [|b0 [|b1 rest]]; cbn [List.length]; [lia..|]. intros _. rewrite Uint16_cons.
  eexists. split; [done|]. pose proof (byte_nat_lt b0). pose proof (byte_nat_lt b1). lia.
Qed.

(** Big-endian encoding, the inverse of [Uint16]. *)
Definition put16 (n : nat) : bytes := [byte_of_nat (n / 256); byte_of_nat n].

Lemma Uint16_put16 n rest : n < 256 * 256 → Uint16 (put16 n ++ rest) = Ret n.
Proof.
  intros Hn. unfold put16. cbn [app]. rewrite Uint16_cons, !byte_nat_of_nat. f_equal.
  rewrite (Nat.mod_small (n / 256)) by (apply Nat.Div0.div_lt_upper_bound; lia).
  pose proof (Nat.div_mod_eq n 256). lia.
Qed.

(** ** Slices of concatenations *)

Lemma slice_from_ok b i : i ≤ List.length b → slice_from b i = Ret (drop i b).
Proof. intros. unfold slice_from. by rewrite decide_True. Qed.

Lemma slice_to_ok b j : j ≤ List.length b → slice_to b j = Ret (take j b).
Proof. intros. unfold slice_to. by rewrite decide_True. Qed.

Lemma slice_ok b i j : i ≤ j ≤ List.length b → slice b i j = Ret (drop i (take j b)).
Proof. intros [??]. unfold slice. by rewrite decide_True. Qed.

Lemma index_ok b i : i < List.length b → ∃ x, b !! i = Some x ∧ index b i = Ret x.
Proof.
  intros Hi. destruct (lookup_lt_is_Some_2 b i Hi) as [x Hx]. exists x. unfold index. by rewrite Hx.
Qed.

Lemma slice_from_app b c n : n = List.length b → slice_from (b ++ c) n = Ret c.
Proof.
  intros ->. rewrite slice_from_ok by (rewrite length_app; lia). by rewrite drop_app_length.
Qed.

Lemma slice_app b c d i j :
  i = List.length b → j = i + List.length c → slice (b ++ c ++ d) i j = Ret c.
Proof.
  intros -> ->. rewrite slice_ok by (rewrite !length_app; lia).
  by rewrite app_assoc, <- length_app, take_app_length, drop_app_length.
Qed.

Lemma index_app b x c i : i = List.length b → index (b ++ x :: c) i = Ret x.
Proof. intros ->. unfold index. by rewrite list_lookup_middle. Qed.

(** The same with the decomposition of the slice given by an equation. *)
Lemma index_at b pre x suf i : b = pre ++ x :: suf → i = List.length pre → index b i = Ret x.
Proof. intros -> ->. by apply index_app. Qed.

Lemma slice_from_at b pre suf i : b = pre ++ suf → i = List.length pre → slice_from b i = Ret suf.
Proof. intros -> ->. by apply slice_from_app. Qed.

Lemma slice_at b pre c suf i j :
  b = pre ++ c ++ suf → i = List.length pre → j = i + List.length c → slice b i j = Ret c.
Proof. intros ->. apply slice_app. Qed.

(** ** [io.ReadFull(conn, make([]byte, n))]

    A connection is the bytes that will arrive on it before it ends, fails or times
    out. *)
Definition ReadFull (n : nat) (conn : bytes) : result string (bytes * bytes) :=
  if decide (n ≤ List.length conn) then Ok (take n conn, drop n conn)
  else Err (if decide (conn = []) then "EOF" else "unexpected EOF").

Lemma ReadFull_app b c n : n = List.length b → ReadFull n (b ++ c) = Ok (b, c).
Proof.
  intros ->. unfold ReadFull. rewrite decide_True by (rewrite length_app; lia).
  by rewrite take_app_length, drop_app_length.
Qed.

Lemma ReadFull_inv n conn b rest : ReadFull n conn = Ok (b, rest) → conn = b ++ rest ∧ List.length b = n.
Proof.
  unfold ReadFull. case_decide as Hn; [|done]. intros [= <- <-].
  rewrite take_drop, length_take. split; [done | lia].
Qed.
