(* ===== verification/GoBase64.v ===== *)
(** * Unpadded base64url: Go's base64.RawURLEncoding

    [DecodeString] as the library decodes: line breaks are skipped, any other byte outside
    the alphabet is an error, the bits left over in the last group are ignored, and a
    single left-over character is an error.  [EncodeToString] is the encoding of RFC 4648,
    used to state the round trip. *)

From S2P Require Import Prelude.
From S2P Require Import GoStrings.
From Stdlib Require Import Strings.Ascii Strings.String.
From S2P Require Import GoBytes.

Module Base64.

Definition alphabet : string := "ABCDEFGHIJKLMNOPQRSTUVWXYZabcdefghijklmnopqrstuvwxyz0123456789-_".

(** The value of a character, below 64. *)
Definition sextet (c : ascii) : option nat := IndexByte alphabet c.
Definition letter (n : nat) : ascii := nth n (chars alphabet) "A"%char.

Definition is_newline (c : ascii) : bool := Ascii.eqb c "010" || Ascii.eqb c "013".

(** Groups of four characters. *)
Fixpoint decode_groups (l : list nat) : option bytes :=
  match l with
  | [] => Some []
  | [_] => None
  | [a; b] => Some [byte_of_nat (a * 4 + b / 16)]
  | [a; b; c] => Some [byte_of_nat (a * 4 + b / 16); byte_of_nat (b * 16 + c / 4)]
  | a :: b :: c :: d :: l =>
      rest ← decode_groups l;
      Some (byte_of_nat (a * 4 + b / 16) :: byte_of_nat (b * 16 + c / 4) :: byte_of_nat (c * 64 + d) :: rest)
  end.

Definition DecodeString (s : string) : option bytes :=
  l ← mapM sextet (filter (λ c, is_newline c = false) (chars s));
  decode_groups l.

Fixpoint encode_groups (b : bytes) : list nat :=
  match b with
  | [] => []
  | [x] => [byte_nat x / 4; byte_nat x mod 4 * 16]
  | [x; y] => [byte_nat x / 4; byte_nat x mod 4 * 16 + byte_nat y / 16; byte_nat y mod 16 * 4]
  | x :: y :: z :: b =>
      byte_nat x / 4 :: byte_nat x mod 4 * 16 + byte_nat y / 16 ::
      byte_nat y mod 16 * 4 + byte_nat z / 64 :: byte_nat z mod 64 :: encode_groups b
  end.

Definition EncodeToString (b : bytes) : string := of_chars (letter <$> encode_groups b).

(** ** The round trip *)

(** Induction on the groups of three bytes. *)
Lemma group_ind (P : bytes → Prop) :
  P [] → (∀ x, P [x]) → (∀ x y, P [x; y]) → (∀ x y z b, P b → P (x :: y :: z :: b)) → ∀ b, P b.
Proof.
  intros H0 H1 H2 H3. fix IH 1. intros [|x [|y [|z b]]]; [exact H0|apply H1|apply H2|apply H3, IH].
Qed.

Lemma decode_first x k : k < 16 → byte_of_nat (byte_nat x / 4 * 4 + (byte_nat x mod 4 * 16 + k) / 16) = x.
Proof.
  intros Hk. apply byte_of_nat_eq. pose proof (byte_nat_lt x). rewrite Nat.div_add_l, (Nat.div_small k) by lia.
  pose proof (Nat.div_mod_eq (byte_nat x) 4). rewrite Nat.mod_small; lia.
Qed.

Lemma decode_second a y k : k < 4 →
  byte_of_nat ((a * 16 + byte_nat y / 16) * 16 + (byte_nat y mod 16 * 4 + k) / 4) = y.
Proof.
  intros Hk. apply byte_of_nat_eq. pose proof (byte_nat_lt y). rewrite Nat.div_add_l, (Nat.div_small k) by lia.
  pose proof (Nat.div_mod_eq (byte_nat y) 16).
  replace ((a * 16 + byte_nat y / 16) * 16 + (byte_nat y mod 16 + 0)) with (byte_nat y + a * 256) by lia.
  rewrite Nat.Div0.mod_add. by apply Nat.mod_small.
Qed.

Lemma decode_third a z : byte_of_nat ((a * 4 + byte_nat z / 64) * 64 + byte_nat z mod 64) = z.
Proof.
  apply byte_of_nat_eq. pose proof (byte_nat_lt z). pose proof (Nat.div_mod_eq (byte_nat z) 64).
  replace ((a * 4 + byte_nat z / 64) * 64 + byte_nat z mod 64) with (byte_nat z + a * 256) by lia.
  rewrite Nat.Div0.mod_add. by apply Nat.mod_small.
Qed.

Lemma decode_encode_groups b : decode_groups (encode_groups b) = Some b.
Proof.
  induction b as [|x|x y|x y z b IH] using group_ind.
  - done.
  - cbn [encode_groups decode_groups]. do 2 f_equal. rewrite <- (Nat.add_0_r (_ mod 4 * 16)).
    apply decode_first. lia.
  - cbn [encode_groups decode_groups]. pose proof (byte_nat_lt y). f_equal. f_equal; [|f_equal].
    + apply decode_first. apply Nat.Div0.div_lt_upper_bound. lia.
    + rewrite <- (Nat.add_0_r (byte_nat y mod 16 * 4)). apply decode_second. lia.
  - cbn [encode_groups decode_groups]. rewrite IH. cbn [mbind option_bind].
    pose proof (byte_nat_lt y). pose proof (byte_nat_lt z). f_equal. f_equal; [|f_equal; [|f_equal]].
    + apply decode_first. apply Nat.Div0.div_lt_upper_bound. lia.
    + apply decode_second. apply Nat.Div0.div_lt_upper_bound. lia.
    + apply decode_third.
Qed.

Lemma encode_groups_range b : Forall (λ n, n < 64) (encode_groups b).
Proof.
  assert (Hd : ∀ x, byte_nat x / 4 < 64).
  { intros x. apply Nat.Div0.div_lt_upper_bound. pose proof (byte_nat_lt x). lia. }
  assert (Hm : ∀ x y, byte_nat x mod 4 * 16 + byte_nat y / 16 < 64).
  { intros x y. pose proof (Nat.mod_upper_bound (byte_nat x) 4 ltac:(lia)).
    assert (byte_nat y / 16 < 16) by (apply Nat.Div0.div_lt_upper_bound; pose proof (byte_nat_lt y); lia). lia. }
  assert (Hm' : ∀ x y, byte_nat x mod 16 * 4 + byte_nat y / 64 < 64).
  { intros x y. pose proof (Nat.mod_upper_bound (byte_nat x) 16 ltac:(lia)).
    assert (byte_nat y / 64 < 4) by (apply Nat.Div0.div_lt_upper_bound; pose proof (byte_nat_lt y); lia). lia. }
  induction b as [|x|x y|x y z b IH] using group_ind; cbn [encode_groups];
    repeat apply Forall_cons_2; try apply Forall_nil_2; auto.
  - pose proof (Nat.mod_upper_bound (byte_nat x) 4 ltac:(lia)). lia.
  - pose proof (Nat.mod_upper_bound (byte_nat y) 16 ltac:(lia)). lia.
  - apply Nat.mod_upper_bound. lia.
Qed.

(** The alphabet has 64 letters, none a line break. *)
Lemma letter_ok n : n < 64 → sextet (letter n) = Some n ∧ is_newline (letter n) = false.
Proof.
  intros Hn.
  assert (Hall : forallb (λ n, bool_decide (sextet (letter n) = Some n) && negb (is_newline (letter n))) (seq 0 64) = true)
    by by_eval.
  rewrite forallb_forall in Hall. specialize (Hall n ltac:(apply in_seq; lia)).
  apply andb_true_iff in Hall as [H1 H2]. split; [by eapply bool_decide_eq_true_1|by apply negb_true_iff].
Qed.

Lemma DecodeString_Encode b : DecodeString (EncodeToString b) = Some b.
Proof.
  unfold DecodeString, EncodeToString. rewrite chars_of_chars.
  assert (Hl : ∀ l, Forall (λ n, n < 64) l →
    mapM sextet (filter (λ c, is_newline c = false) (letter <$> l)) = Some l).
  { induction 1 as [|n l Hn Hl IH]; [done|]. destruct (letter_ok n Hn) as [Hs Hw].
    cbn [fmap list_fmap]. rewrite filter_cons_True by done. cbn [mapM]. rewrite Hs. cbn. by rewrite IH. }
  rewrite Hl by apply encode_groups_range. cbn. apply decode_encode_groups.
Qed.

End Base64.
