(* ===== verification/GoJson.v ===== *)
(** * JSON as encoding/json reads and writes it

    [escape] is the body of the string literal Marshal writes for a string (HTML characters
    escaped, invalid UTF-8 replaced); [parse] is the grammar the decoder's scanner accepts,
    with the nesting limit; [unquote] is the string a literal denotes.  Texts are lists of
    characters.  The parser runs on fuel and panics without it; it is shown to have enough. *)

From S2P Require Import Prelude.
From S2P Require Import GoStrings.
From Stdlib Require Import Strings.Ascii Strings.String.
From S2P Require Import GoUtf8.
Import Utf8.

Local Open Scope go_scope.

Module Json.

Abbreviation text := (list ascii).

(** ** Writing strings *)

Definition quote : ascii := "034"%char.
Definition backslash : ascii := "092"%char.

Definition hex_digit (n : N) : ascii := nth (N.to_nat n) (chars "0123456789abcdef") "0"%char.

(** [htmlSafeSet] *)
Definition html_safe (c : ascii) : bool :=
  (32 <=? code c)%N && (code c <? 128)%N &&
  negb (existsb (Ascii.eqb c) [quote; "&"; "<"; ">"; backslash]%char).

Definition escape_ascii (c : ascii) : text :=
  if html_safe c then [c]
  else if Ascii.eqb c quote || Ascii.eqb c backslash then [backslash; c]
  else if Ascii.eqb c "008" then [backslash; "b"%char]
  else if Ascii.eqb c "012" then [backslash; "f"%char]
  else if Ascii.eqb c "010" then [backslash; "n"%char]
  else if Ascii.eqb c "013" then [backslash; "r"%char]
  else if Ascii.eqb c "009" then [backslash; "t"%char]
  else (backslash :: chars "u00") ++ [hex_digit (code c / 16); hex_digit (code c mod 16)].

Fixpoint escape_loop (fuel : nat) (s : text) : text :=
  match fuel, s with
  | S fuel, c :: rest =>
      if (code c <? 128)%N then escape_ascii c ++ escape_loop fuel rest
      else
        let '(r, size) := DecodeRune s in
        if (r =? RuneError)%N && bool_decide (size = 1) then
          (backslash :: chars "ufffd") ++ escape_loop fuel (drop size s)
        else if (r =? 8232)%N || (r =? 8233)%N then
          (backslash :: chars "u202") ++ [hex_digit (r mod 16)] ++ escape_loop fuel (drop size s)
        else take size s ++ escape_loop fuel (drop size s)
  | _, _ => []
  end.

(** Every turn consumes a byte. *)
Definition escape (s : text) : text := escape_loop (List.length s) s.

Definition string_literal (s : text) : text := quote :: escape s ++ [quote].

(** ** Reading *)

(** Values, with strings as written: the literal between its quotes. *)
Inductive json :=
| JNull
| JBool (b : bool)
| JNumber
| JString (raw : text)
| JArray (l : list json)
| JObject (members : list (text * json)).

Definition is_space (c : ascii) : bool := existsb (Ascii.eqb c) [" "; "009"; "010"; "013"]%char.

Fixpoint skip_space (l : text) : text :=
  match l with c :: l' => if is_space c then skip_space l' else l | [] => [] end.

Definition hex_value (c : ascii) : option N :=
  let n := code c in
  if in_range 48 57 c then Some (n - 48)%N
  else if in_range 97 102 c then Some (n - 87)%N
  else if in_range 65 70 c then Some (n - 55)%N
  else None.

Definition is_hex (c : ascii) : bool := match hex_value c with Some _ => true | None => false end.
Definition is_digit (c : ascii) : bool := in_range 48 57 c.

(** The literal after the opening quote, and what follows the closing one. *)
Fixpoint scan_string (l : text) : option (text * text) :=
  match l with
  | [] => None
  | c :: l' =>
      if Ascii.eqb c quote then Some ([], l')
      else if Ascii.eqb c backslash then
        match l' with
        | [] => None
        | e :: l'' =>
            if Ascii.eqb e "u" then
              match l'' with
              | h1 :: h2 :: h3 :: h4 :: l3 =>
                  if is_hex h1 && is_hex h2 && is_hex h3 && is_hex h4 then
                    '(raw, rest) ← scan_string l3; Some (c :: e :: h1 :: h2 :: h3 :: h4 :: raw, rest)
                  else None
              | _ => None
              end
            else if existsb (Ascii.eqb e) [quote; backslash; "/"; "b"; "f"; "n"; "r"; "t"]%char then
              '(raw, rest) ← scan_string l''; Some (c :: e :: raw, rest)
            else None
        end
      else if (code c <? 32)%N then None
      else '(raw, rest) ← scan_string l'; Some (c :: raw, rest)
  end.

Fixpoint skip_digits (l : text) : text :=
  match l with c :: l' => if is_digit c then skip_digits l' else l | [] => [] end.

(** One digit at least. *)
Definition digits1 (l : text) : option text :=
  match l with c :: l' => if is_digit c then Some (skip_digits l') else None | [] => None end.

Definition starts (c : ascii) (l : text) : bool := match l with a :: _ => Ascii.eqb a c | [] => false end.

Definition scan_number (l : text) : option text :=
  let l := if starts "-" l then tail l else l in
  l ← (if starts "0" l then Some (tail l) else digits1 l);
  l ← (if starts "." l then digits1 (tail l) else Some l);
  if starts "e" l || starts "E" l then
    let l := tail l in
    digits1 (if starts "+" l || starts "-" l then tail l else l)
  else Some l.

(** [l] after the letters of [word]. *)
Fixpoint expect (word l : text) : option text :=
  match word, l with
  | [], _ => Some l
  | w :: word, c :: l => if Ascii.eqb w c then expect word l else None
  | _, [] => None
  end.

Definition maxNestingDepth : Z := 10000.

Definition syntax {A} : GoM A := Ret (Err "invalid character").

(** Lift a scanner of one token. *)
Definition token {A} (o : option A) : GoM A := match o with Some a => gret a | None => syntax end.

Fixpoint parse_value (fuel : nat) (depth : Z) (l : text) : GoM (json * text) :=
  match fuel with
  | O => Panic "out of fuel"
  | S fuel =>
      match l with
      | [] => syntax
      | c :: l' =>
          if Ascii.eqb c "{" then
            if (maxNestingDepth <? depth + 1)%Z then Ret (Err "exceeded max depth")
            else
              match skip_space l' with
              | "}"%char :: rest => gret (JObject [], rest)
              | l' => '(ms, rest) <- parse_members fuel (depth + 1) l' ;; gret (JObject ms, rest)
              end
          else if Ascii.eqb c "[" then
            if (maxNestingDepth <? depth + 1)%Z then Ret (Err "exceeded max depth")
            else
              match skip_space l' with
              | "]"%char :: rest => gret (JArray [], rest)
              | l' => '(vs, rest) <- parse_elements fuel (depth + 1) l' ;; gret (JArray vs, rest)
              end
          else if Ascii.eqb c quote then
            '(raw, rest) <- token (scan_string l') ;; gret (JString raw, rest)
          else if Ascii.eqb c "t" then rest <- token (expect (chars "rue") l') ;; gret (JBool true, rest)
          else if Ascii.eqb c "f" then rest <- token (expect (chars "alse") l') ;; gret (JBool false, rest)
          else if Ascii.eqb c "n" then rest <- token (expect (chars "ull") l') ;; gret (JNull, rest)
          else rest <- token (scan_number l) ;; gret (JNumber, rest)
      end
  end
(** The members of an object after its brace or a comma; [l] has no leading space. *)
with parse_members (fuel : nat) (depth : Z) (l : text) : GoM (list (text * json) * text) :=
  match fuel with
  | O => Panic "out of fuel"
  | S fuel =>
      match l with
      | [] => syntax
      | c :: l =>
          if Ascii.eqb c quote then
            '(key, l) <- token (scan_string l) ;;
            match skip_space l with
            | ":"%char :: l =>
                '(v, l) <- parse_value fuel depth (skip_space l) ;;
                match skip_space l with
                | ","%char :: l =>
                    '(ms, rest) <- parse_members fuel depth (skip_space l) ;; gret ((key, v) :: ms, rest)
                | "}"%char :: rest => gret ([(key, v)], rest)
                | _ => syntax
                end
            | _ => syntax
            end
          else syntax
      end
  end
with parse_elements (fuel : nat) (depth : Z) (l : text) : GoM (list json * text) :=
  match fuel with
  | O => Panic "out of fuel"
  | S fuel =>
      '(v, l) <- parse_value fuel depth l ;;
      match skip_space l with
      | ","%char :: l => '(vs, rest) <- parse_elements fuel depth (skip_space l) ;; gret (v :: vs, rest)
      | "]"%char :: rest => gret ([v], rest)
      | _ => syntax
      end
  end.

(** A whole text: one value, and space around it. *)
Definition parse (l : text) : GoM json :=
  '(v, rest) <- parse_value (S (2 * List.length l)) 0 (skip_space l) ;;
  match skip_space rest with [] => gret v | _ => syntax end.

(** ** The string a literal denotes *)

Definition hex4 (a b c d : ascii) : option N :=
  x ← hex_value a; y ← hex_value b; z ← hex_value c; w ← hex_value d;
  Some (x * 4096 + y * 256 + z * 16 + w)%N.

Definition surrogate (r : N) : bool := ((55296 <=? r) && (r <? 57344))%N.

(** [utf16.DecodeRune] *)
Definition decode_pair (r1 r2 : N) : N :=
  if ((55296 <=? r1) && (r1 <? 56320) && (56320 <=? r2) && (r2 <? 57344))%N
  then ((r1 - 55296) * 1024 + (r2 - 56320) + 65536)%N else RuneError.

Definition unescape (e : ascii) : ascii :=
  if Ascii.eqb e "b" then "008"%char else if Ascii.eqb e "f" then "012"%char
  else if Ascii.eqb e "n" then "010"%char else if Ascii.eqb e "r" then "013"%char
  else if Ascii.eqb e "t" then "009"%char else e.

Fixpoint unquote_loop (fuel : nat) (raw : text) : text :=
  match fuel, raw with
  | S fuel, c :: rest =>
      if Ascii.eqb c backslash then
        match rest with
        | "u"%char :: h1 :: h2 :: h3 :: h4 :: rest =>
            match hex4 h1 h2 h3 h4 with
            | None => []
            | Some r =>
                if surrogate r then
                  match rest with
                  | b :: "u"%char :: g1 :: g2 :: g3 :: g4 :: rest' =>
                      match hex4 g1 g2 g3 g4 with
                      | Some r' =>
                          if Ascii.eqb b backslash && negb (decode_pair r r' =? RuneError)%N then
                            AppendRune (decode_pair r r') ++ unquote_loop fuel rest'
                          else AppendRune RuneError ++ unquote_loop fuel rest
                      | None => AppendRune RuneError ++ unquote_loop fuel rest
                      end
                  | _ => AppendRune RuneError ++ unquote_loop fuel rest
                  end
                else AppendRune r ++ unquote_loop fuel rest
            end
        | e :: rest => unescape e :: unquote_loop fuel rest
        | [] => []
        end
      else if (code c <? 128)%N then c :: unquote_loop fuel rest
      else let '(r, size) := DecodeRune raw in AppendRune r ++ unquote_loop fuel (drop size raw)
  | _, _ => []
  end.
Definition unquote (raw : text) : text := unquote_loop (List.length raw) raw.

(** ** The parser has enough fuel *)

Lemma skip_space_le l : List.length (skip_space l) ≤ List.length l.
Proof. induction l as [|c l IH]; cbn; [done|]. case_match; cbn; lia. Qed.

Lemma scan_string_lt l raw rest : scan_string l = Some (raw, rest) → List.length rest < List.length l.
Proof.
  remember (List.length l) as n eqn:Hn. revert l Hn raw rest.
  induction n as [n IH] using lt_wf_ind. intros l -> raw rest.
  destruct l as [|c l]; cbn [scan_string]; [done|].
  destruct (Ascii.eqb c quote); [intros [= _ <-]; cbn; lia|].
  assert (Hrec : ∀ l' k, List.length l' < List.length (c :: l) →
    ('(raw, rest) ← scan_string l'; Some (k raw, rest)) = Some (raw, rest) → List.length rest < List.length (c :: l)).
  { intros l' k Hl. destruct (scan_string l') as [[raw' rest']|] eqn:E; cbn [mbind option_bind]; [|done].
    intros [= _ <-]. specialize (IH _ Hl l' eq_refl raw' rest' E). lia. }
  destruct (Ascii.eqb c backslash).
  - destruct l as [|e l]; [done|]. destruct (Ascii.eqb e "u").
    + destruct l as [|h1 [|h2 [|h3 [|h4 l]]]]; try done. destruct (_ && _); [|done].
      apply Hrec. cbn [List.length]. lia.
    + destruct (existsb _ _); [|done]. apply Hrec. cbn [List.length]. lia.
  - destruct (code c <? 32)%N; [done|]. apply Hrec. cbn [List.length]. lia.
Qed.

Lemma skip_digits_le l : List.length (skip_digits l) ≤ List.length l.
Proof. induction l as [|c l IH]; cbn; [done|]. case_match; cbn; lia. Qed.

Lemma digits1_lt l rest : digits1 l = Some rest → List.length rest < List.length l.
Proof.
  destruct l as [|c l]; cbn; [done|]. destruct (is_digit c); [|done]. intros [= <-].
  pose proof (skip_digits_le l). lia.
Qed.

Lemma tail_le (l : text) : List.length (tail l) ≤ List.length l.
Proof. destruct l; cbn; lia. Qed.

Lemma scan_number_lt l rest : scan_number l = Some rest → List.length rest < List.length l.
Proof.
  unfold scan_number.
  set (l1 := if starts "-" l then tail l else l).
  assert (H1 : List.length l1 ≤ List.length l) by (subst l1; pose proof (tail_le l); case_match; lia).
  clearbody l1.
  destruct (if starts "0" l1 then Some (tail l1) else digits1 l1) as [l2|] eqn:E2; cbn [mbind option_bind]; [|done].
  assert (H2 : List.length l2 < List.length l1).
  { destruct (starts "0" l1) eqn:E; [|by apply digits1_lt]. destruct l1; [done|]. injection E2 as <-. cbn. lia. }
  destruct (if starts "." l2 then digits1 (tail l2) else Some l2) as [l3|] eqn:E3; cbn [mbind option_bind]; [|done].
  assert (H3 : List.length l3 ≤ List.length l2).
  { destruct (starts "." l2); [|injection E3 as <-; done]. apply digits1_lt in E3. pose proof (tail_le l2). lia. }
  destruct (starts "e" l3 || starts "E" l3); [|intros [= <-]; lia].
  intros E4%digits1_lt. pose proof (tail_le l3). pose proof (tail_le (tail l3)).
  destruct (starts "+" (tail l3) || starts "-" (tail l3)); lia.
Qed.

Lemma expect_le w l rest : expect w l = Some rest → List.length rest ≤ List.length l.
Proof.
  revert l. induction w as [|a w IH]; intros [|c l]; cbn; try done; try (intros [= <-]; cbn; lia).
  destruct (Ascii.eqb a c); [|done]. intros ?%IH. lia.
Qed.

(** The computation ends, and what it leaves is shorter than [l]. *)
Definition progress {A} (m : GoM (A * text)) (l : text) : Prop :=
  ∃ r, m = Ret r ∧ ∀ v rest, r = Ok (v, rest) → List.length rest < List.length l.

Lemma progress_err {A} e (l : text) : progress (A := A) (Ret (Err e)) l.
Proof. eexists. by split. Qed.

Lemma progress_ret {A} (v : A) (rest l : text) : List.length rest < List.length l → progress (gret (v, rest)) l.
Proof. intros H. eexists. split; [done|]. by intros ? ? [= <- <-]. Qed.

Lemma progress_bind {A B} (m : GoM (A * text)) (k : A → text → GoM (B * text)) (l1 l : text) :
  progress m l1 → (∀ v rest, List.length rest < List.length l1 → progress (k v rest) l) →
  progress ('(v, rest) <- m ;; k v rest) l.
Proof.
  intros (r & -> & Hr) Hk. destruct r as [[v rest]|e]; cbn; [|apply progress_err].
  apply Hk. by eapply Hr.
Qed.

Lemma progress_token l l0 : List.length l ≤ List.length l0 → progress (token (scan_string l)) l0.
Proof.
  intros Hl. destruct (scan_string l) as [[raw rest]|] eqn:E; cbn; [|apply progress_err].
  apply progress_ret. apply scan_string_lt in E. lia.
Qed.

Lemma progress_rest {B} (o : option text) (v : B) (l : text) :
  (∀ rest, o = Some rest → List.length rest < List.length l) →
  progress (rest <- token o ;; gret (v, rest)) l.
Proof.
  intros H. destruct o as [rest|]; cbn; [|apply progress_err]. apply progress_ret. by apply H.
Qed.

(** What each of the three does with enough fuel, assuming it of the calls with less. *)
Lemma value_progress fuel depth l :
  (∀ depth l, 2 * List.length l + 1 ≤ fuel → progress (parse_members fuel depth l) l) →
  (∀ depth l, 2 * List.length l + 2 ≤ fuel → progress (parse_elements fuel depth l) l) →
  2 * List.length l + 1 ≤ S fuel → progress (parse_value (S fuel) depth l) l.
Proof.
  intros IHm IHe Hf.
  cbn [parse_value]. destruct l as [|c l]; [apply progress_err|]. cbn [List.length] in Hf.
  pose proof (skip_space_le l) as Hs.
  destruct (Ascii.eqb c "{"); [|destruct (Ascii.eqb c "["); [|destruct (Ascii.eqb c quote)]].
  + destruct (_ <? _)%Z; [apply progress_err|].
    assert (Hm : progress ('(ms, rest) <- parse_members fuel (depth + 1) (skip_space l) ;; gret (JObject ms, rest)) (c :: l)).
    { apply (progress_bind _ _ (skip_space l)); [apply IHm; lia|]. intros v rest Hr. apply progress_ret. cbn; lia. }
    destruct (skip_space l) as [|c' l'] eqn:E; [exact Hm|]. cbn [List.length] in Hs.
    destruct c' as [[] [] [] [] [] [] [] []]; try exact Hm. apply progress_ret. cbn; lia.
  + destruct (_ <? _)%Z; [apply progress_err|].
    assert (Hm : progress ('(vs, rest) <- parse_elements fuel (depth + 1) (skip_space l) ;; gret (JArray vs, rest)) (c :: l)).
    { apply (progress_bind _ _ (skip_space l)); [apply IHe; lia|]. intros v rest Hr. apply progress_ret. cbn; lia. }
    destruct (skip_space l) as [|c' l'] eqn:E; [exact Hm|]. cbn [List.length] in Hs.
    destruct c' as [[] [] [] [] [] [] [] []]; try exact Hm. apply progress_ret. cbn; lia.
  + apply (progress_bind _ (λ raw rest, gret (JString raw, rest)) (c :: l));
      [apply progress_token; cbn; lia|]. intros raw rest Hr. by apply progress_ret.
  + destruct (Ascii.eqb c "t"); [|destruct (Ascii.eqb c "f"); [|destruct (Ascii.eqb c "n")]];
      apply progress_rest; intros rest E; try (apply expect_le in E; cbn; lia). by apply scan_number_lt.
Qed.

Lemma members_progress fuel depth l :
  (∀ depth l, 2 * List.length l + 1 ≤ fuel → progress (parse_value fuel depth l) l) →
  (∀ depth l, 2 * List.length l + 1 ≤ fuel → progress (parse_members fuel depth l) l) →
  2 * List.length l + 1 ≤ S fuel → progress (parse_members (S fuel) depth l) l.
Proof.
  intros IHv IHm Hf.
  cbn [parse_members]. destruct l as [|c l]; [apply progress_err|]. cbn [List.length] in Hf.
  destruct (Ascii.eqb c quote); [|apply progress_err].
  apply (progress_bind _ (λ key l, _) (c :: l)); [apply progress_token; cbn; lia|]. intros key l1 H1.
  cbn [List.length] in H1. pose proof (skip_space_le l1) as Hs1.
  destruct (skip_space l1) as [|c2 l2]; [apply progress_err|]. cbn [List.length] in Hs1.
  destruct c2 as [[] [] [] [] [] [] [] []]; try apply progress_err.
  pose proof (skip_space_le l2) as Hs2.
  apply (progress_bind _ (λ v l, _) (skip_space l2)); [apply IHv; lia|]. intros v l3 H3.
  pose proof (skip_space_le l3) as Hs3.
  destruct (skip_space l3) as [|c4 l4]; [apply progress_err|]. cbn [List.length] in Hs3.
  pose proof (skip_space_le l4) as Hs4.
  destruct c4 as [[] [] [] [] [] [] [] []]; try apply progress_err.
  + apply progress_ret. cbn. lia.
  + apply (progress_bind _ (λ ms rest, gret ((key, v) :: ms, rest)) (skip_space l4)); [apply IHm; lia|].
    intros ms rest Hr. apply progress_ret. cbn. lia.
Qed.

Lemma elements_progress fuel depth l :
  (∀ depth l, 2 * List.length l + 1 ≤ fuel → progress (parse_value fuel depth l) l) →
  (∀ depth l, 2 * List.length l + 2 ≤ fuel → progress (parse_elements fuel depth l) l) →
  2 * List.length l + 2 ≤ S fuel → progress (parse_elements (S fuel) depth l) l.
Proof.
  intros IHv IHe Hf.
  cbn [parse_elements]. apply (progress_bind _ (λ v l, _) l); [apply IHv; lia|]. intros v l3 H3.
  pose proof (skip_space_le l3) as Hs3.
  destruct (skip_space l3) as [|c4 l4]; [apply progress_err|]. cbn [List.length] in Hs3.
  pose proof (skip_space_le l4) as Hs4.
  destruct c4 as [[] [] [] [] [] [] [] []]; try apply progress_err.
  + apply progress_ret. lia.
  + apply (progress_bind _ (λ vs rest, gret (v :: vs, rest)) (skip_space l4)); [apply IHe; lia|].
    intros ms rest Hr. apply progress_ret. lia.
Qed.

Lemma parse_progress fuel :
  (∀ depth l, 2 * List.length l + 1 ≤ fuel → progress (parse_value fuel depth l) l) ∧
  (∀ depth l, 2 * List.length l + 1 ≤ fuel → progress (parse_members fuel depth l) l) ∧
  (∀ depth l, 2 * List.length l + 2 ≤ fuel → progress (parse_elements fuel depth l) l).
Proof.
  induction fuel as [|fuel (IHv & IHm & IHe)]; [split_and!; intros; lia|].
  split_and!; intros depth l; [by apply value_progress|by apply members_progress|by apply elements_progress].
Qed.

Lemma parse_returns l : ∃ r, parse l = Ret r.
Proof.
  unfold parse. pose proof (skip_space_le l).
  destruct (proj1 (parse_progress (S (2 * List.length l))) 0%Z (skip_space l) ltac:(lia)) as (r & -> & _).
  destruct r as [[v rest]|e]; cbn; [|eauto]. destruct (skip_space rest); unfold syntax, gret; eauto.
Qed.

(** ** A string survives writing and reading *)

Lemma DecodeRune_size c l : 0 < (DecodeRune (c :: l)).2.
Proof. cbn [DecodeRune]. repeat (case_match; cbn [snd]; try lia). Qed.

Lemma escape_fuel n m s : List.length s ≤ n → List.length s ≤ m → escape_loop n s = escape_loop m s.
Proof.
  revert m s. induction n as [|n IH]; intros m s Hn Hm; (destruct s as [|c s]; [by destruct m|]); cbn [List.length] in *;
    [lia|]. destruct m as [|m]; [lia|]. cbn [escape_loop].
  destruct (code c <? 128)%N; [f_equal; apply IH; lia|].
  pose proof (DecodeRune_size c s). destruct (DecodeRune (c :: s)) as [r size]. cbn [snd] in *.
  assert (E : escape_loop n (drop size (c :: s)) = escape_loop m (drop size (c :: s)))
    by (apply IH; rewrite length_drop; cbn [List.length]; lia).
  by rewrite E.
Qed.

Lemma unquote_fuel n m s : List.length s ≤ n → List.length s ≤ m → unquote_loop n s = unquote_loop m s.
Proof.
  revert m s. induction n as [|n IH]; intros m s Hn Hm; (destruct s as [|c s]; [by destruct m|]); cbn [List.length] in *;
    [lia|]. destruct m as [|m]; [lia|].
  assert (IH' : ∀ s', List.length s' ≤ List.length s → unquote_loop n s' = unquote_loop m s') by (intros; apply IH; lia).
  cbn [unquote_loop]. destruct (Ascii.eqb c backslash).
  - destruct s as [|e s]; [done|].
    assert (Hplain : unescape e :: unquote_loop n s = unescape e :: unquote_loop m s)
      by (f_equal; apply IH'; cbn; lia).
    destruct e as [[] [] [] [] [] [] [] []]; try exact Hplain.
    destruct s as [|h1 [|h2 [|h3 [|h4 s]]]]; try exact Hplain.
    destruct (hex4 h1 h2 h3 h4) as [r|]; [|done]. cbn [List.length] in IH'.
    destruct (surrogate r); [|f_equal; apply IH'; lia].
    assert (Hlone : AppendRune RuneError ++ unquote_loop n s = AppendRune RuneError ++ unquote_loop m s)
      by (f_equal; apply IH'; lia).
    destruct s as [|b [|u [|g1 [|g2 [|g3 [|g4 s]]]]]]; try exact Hlone;
      destruct u as [[] [] [] [] [] [] [] []]; try exact Hlone.
    destruct (hex4 g1 g2 g3 g4) as [r'|]; [|exact Hlone].
    destruct (_ && _); [|exact Hlone]. f_equal. apply IH'. cbn. lia.
  - destruct (code c <? 128)%N; [f_equal; apply IH'; lia|].
    pose proof (DecodeRune_size c s). destruct (DecodeRune (c :: s)) as [r size]. cbn [snd] in *.
    f_equal. apply IH'. rewrite length_drop. cbn [List.length]. lia.
Qed.

(** How a scalar value is written. *)
Definition escape_rune (r : N) : text :=
  if (r <? 128)%N then escape_ascii (char r)
  else if (r =? 8232)%N || (r =? 8233)%N then (backslash :: chars "u202") ++ [hex_digit (r mod 16)]
  else AppendRune r.

Lemma AppendRune_cons r : scalar r = true → (128 ≤ r)%N →
  ∃ c l, AppendRune r = c :: l ∧ (128 ≤ code c)%N.
Proof.
  intros Hs Hr. pose proof (AppendRune_high r Hs Hr) as Hh. pose proof (AppendRune_nonempty r) as Hne.
  destruct (AppendRune r) as [|c l]; [done|]. apply Forall_cons in Hh as [? _]. eauto.
Qed.

Lemma escape_Append r s : scalar r = true → escape (AppendRune r ++ s) = escape_rune r ++ escape s.
Proof.
  intros Hs. unfold escape, escape_rune. destruct (N.ltb_spec r 128) as [Hr|Hr].
  - rewrite AppendRune_ascii by done. cbn [app List.length escape_loop]. rewrite code_char by lia.
    by rewrite (proj2 (N.ltb_lt _ _) Hr).
  - destruct (AppendRune_cons r Hs Hr) as (c & l & E & Hc).
    pose proof (DecodeRune_Append r s Hs) as Hd. rewrite E in Hd |- *. cbn [app List.length escape_loop] in Hd |- *.
    rewrite (proj2 (N.ltb_ge _ _) Hc). rewrite Hd.
    assert (Hdrop : drop (S (List.length l)) (c :: l ++ s) = s) by (cbn; by rewrite drop_app_length).
    assert (Htake : take (S (List.length l)) (c :: l ++ s) = c :: l) by (cbn; by rewrite take_app_length).
    assert (Herr : (r =? RuneError)%N && bool_decide (S (List.length l) = 1) = false).
    { destruct (N.eqb_spec r RuneError) as [->|]; [|done]. vm_compute in E. injection E as _ <-. done. }
    rewrite Herr, Hdrop, Htake. rewrite (escape_fuel (List.length (l ++ s)) (List.length s)) by (rewrite ?length_app; lia).
    destruct (_ || _); reflexivity.
Qed.

Lemma escape_encodes rs : Forall (λ r, scalar r = true) rs → escape (encodes rs) = List.concat (escape_rune <$> rs).
Proof.
  induction 1 as [|r rs Hr Hrs IH]; [done|]. unfold encodes in *. cbn [fmap list_fmap List.concat].
  by rewrite escape_Append, IH.
Qed.

Lemma scan_high p l : Forall (λ c, 128 ≤ code c)%N p →
  scan_string (p ++ l) = '(raw, rest) ← scan_string l; Some (p ++ raw, rest).
Proof.
  induction 1 as [|c p Hc Hp IH]; cbn [app].
  - by destruct (scan_string l) as [[raw rest]|].
  - cbn [scan_string]. assert (Hne : ∀ d, (code d < 128)%N → Ascii.eqb c d = false).
    { intros d Hd. apply Ascii.eqb_neq. intros ->. lia. }
    rewrite !Hne by (vm_compute; reflexivity). rewrite (proj2 (N.ltb_ge _ _)) by lia. rewrite IH.
    by destruct (scan_string l) as [[raw rest]|].
Qed.

(** Evaluate how a given character is written. *)
Ltac eval_escape :=
  match goal with |- context [escape_ascii ?c] =>
    let e := eval vm_compute in (escape_ascii c) in change (escape_ascii c) with e end.

Lemma scan_escape_ascii c l : (code c < 128)%N →
  scan_string (escape_ascii c ++ l) = '(raw, rest) ← scan_string l; Some (escape_ascii c ++ raw, rest).
Proof.
  intros Hc. destruct c as [[] [] [] [] [] [] [] []];
    first [by (exfalso; vm_compute in Hc) | eval_escape; cbn; by destruct (scan_string l) as [[raw rest]|]].
Qed.

Lemma scan_escape_rune r l : scalar r = true →
  scan_string (escape_rune r ++ l) = '(raw, rest) ← scan_string l; Some (escape_rune r ++ raw, rest).
Proof.
  intros Hs. unfold escape_rune. destruct (N.ltb_spec r 128) as [Hr|Hr].
  - apply scan_escape_ascii. rewrite code_char; lia.
  - destruct (N.eqb_spec r 8232) as [->|]; [cbn; by destruct (scan_string l) as [[raw rest]|]|].
    destruct (N.eqb_spec r 8233) as [->|]; [cbn; by destruct (scan_string l) as [[raw rest]|]|].
    by apply scan_high, AppendRune_high.
Qed.

Lemma scan_escape s rest : valid s → scan_string (escape s ++ quote :: rest) = Some (escape s, rest).
Proof.
  intros (rs & Hrs & ->). rewrite escape_encodes by done.
  induction Hrs as [|r rs Hr Hrs IH]; [done|]. cbn [fmap list_fmap List.concat].
  by rewrite <- app_assoc, scan_escape_rune, IH.
Qed.

Lemma unquote_loop_ascii n c l : (code c < 128)%N →
  unquote_loop (S n) (escape_ascii c ++ l) = c :: unquote_loop n l.
Proof.
  intros Hc. destruct c as [[] [] [] [] [] [] [] []];
    first [by (exfalso; vm_compute in Hc) | reflexivity].
Qed.

Lemma unquote_escape_rune r l : scalar r = true →
  unquote (escape_rune r ++ l) = AppendRune r ++ unquote l.
Proof.
  intros Hs. unfold unquote.
  assert (Hlen : ∃ k, List.length (escape_rune r ++ l) = S k ∧ List.length l ≤ k).
  { assert (escape_rune r ≠ []) as Hne.
    { unfold escape_rune. repeat case_match; [|done|by apply AppendRune_nonempty].
      unfold escape_ascii. repeat (case_match; try done). }
    destruct (escape_rune r) as [|c p]; [done|]. exists (List.length (p ++ l)). split; [done|].
    rewrite length_app. lia. }
  destruct Hlen as (k & -> & Hk). rewrite (unquote_fuel (List.length l) k) by lia.
  unfold escape_rune. destruct (N.ltb_spec r 128) as [Hr|Hr].
  - rewrite AppendRune_ascii by done.
    rewrite unquote_loop_ascii; [done|]. rewrite code_char; lia.
  - destruct (N.eqb_spec r 8232) as [->|]; [reflexivity|]. destruct (N.eqb_spec r 8233) as [->|]; [reflexivity|].
    cbn [orb]. destruct (AppendRune_cons r Hs Hr) as (c & p & E & Hc).
    pose proof (DecodeRune_Append r l Hs) as Hd. rewrite E in Hd. cbn [app List.length] in Hd.
    rewrite E at 1. cbn [app unquote_loop].
    assert (Hne : Ascii.eqb c backslash = false) by (apply Ascii.eqb_neq; intros ->; vm_compute in Hc; done).
    rewrite Hne, (proj2 (N.ltb_ge _ _) Hc), Hd. cbn [drop]. by rewrite drop_app_length.
Qed.

Lemma unquote_escape s : valid s → unquote (escape s) = s.
Proof.
  intros (rs & Hrs & ->). rewrite escape_encodes by done. unfold encodes.
  induction Hrs as [|r rs Hr Hrs IH]; [done|]. cbn [fmap list_fmap List.concat].
  by rewrite unquote_escape_rune, IH.
Qed.

End Json.
