(* ===== verification/GoScan.v ===== *)
(** * fmt.Sscanf with one word, and strconv.Atoi

    [Sscanf_word lit] is [fmt.Sscanf(input, lit + " %s", &word)]: the runes of [lit] in
    order, at least one space, then the maximal run of other runes.  A newline where a space
    is skipped is an error; what follows the word is not looked at.  The word is the UTF-8
    form of the runes read, so a byte that is not part of a valid encoding comes out as
    U+FFFD. *)

From S2P Require Import Prelude.
From S2P Require Import GoStrings.
From Stdlib Require Import Strings.Ascii Strings.String.
From S2P Require Import GoUtf8.
Import Utf8.

Local Open Scope go_scope.

Module Scan.

(** ** The runes of a string, as range and ReadRune deliver them *)

Fixpoint runes_loop (fuel : nat) (l : list ascii) : list N :=
  match fuel, l with
  | S fuel, _ :: _ => let '(r, size) := DecodeRune l in r :: runes_loop fuel (drop size l)
  | _, _ => []
  end.

Definition runes (s : string) : list N := runes_loop (List.length (chars s)) (chars s).

(** The string with the given runes. *)
Definition text_of (rs : list N) : string := of_chars (encodes rs).

(** [isSpace] of fmt/scan.go. *)
Definition isSpace (r : N) : bool :=
  existsb (λ b : N * N, (b.1 <=? r) && (r <=? b.2))%N
    [(9, 13); (32, 32); (133, 133); (160, 160); (5760, 5760); (8192, 8202);
     (8232, 8233); (8239, 8239); (8287, 8287); (12288, 12288)]%N.

Definition newline : N := 10.

(** A space that the format's space matches. *)
Definition blank (r : N) : bool := isSpace r && negb (r =? newline)%N.

Fixpoint scan_literal (lit input : list N) : option (list N) :=
  match lit, input with
  | [], _ => Some input
  | c :: lit, r :: input => if (r =? c)%N then scan_literal lit input else None
  | _ :: _, [] => None
  end.

Fixpoint skip_while (p : N → bool) (l : list N) : list N :=
  match l with
  | r :: rest => if p r then skip_while p rest else l
  | [] => []
  end.

Fixpoint take_while (p : N → bool) (l : list N) : list N :=
  match l with
  | r :: rest => if p r then r :: take_while p rest else []
  | [] => []
  end.

Definition not_space (r : N) : bool := negb (isSpace r).

Definition Sscanf_word (lit : string) (input : string) : result string string :=
  match scan_literal (runes lit) (runes input) with
  | None => Err "input does not match format"
  | Some [] => Err "unexpected EOF"
  | Some (r :: l) =>
      if negb (isSpace r) then Err "expected space in input to match format"
      else if (r =? newline)%N then Err "newline in input does not match format"
      else
        match skip_while blank l with
        | [] => Err "unexpected EOF"
        | r :: l =>
            if (r =? newline)%N then Err "unexpected newline"
            else Ok (text_of (take_while not_space (r :: l)))
        end
  end.

(** ** What it accepts *)

(** [input] is [lit], blanks, the runes [word], and nothing or a space and anything. *)
Definition word_after (lit input : string) (word : list N) : Prop :=
  ∃ sp rest, runes input = (runes lit ++ sp ++ word ++ rest)%list ∧
    sp ≠ [] ∧ forallb blank sp = true ∧ word ≠ [] ∧ forallb not_space word = true ∧
    match rest with [] => True | r :: _ => isSpace r = true end.

Lemma scan_literal_spec lit input rest :
  scan_literal lit input = Some rest ↔ input = (lit ++ rest)%list.
Proof.
  revert input. induction lit as [|c lit IH]; intros [|r input]; cbn [scan_literal app];
    try naive_solver.
  destruct (N.eqb_spec r c) as [->|Hne]; [rewrite IH|]; naive_solver.
Qed.

Lemma skip_while_spec p l : ∃ sp, l = (sp ++ skip_while p l)%list ∧ forallb p sp = true ∧
  match skip_while p l with [] => True | r :: _ => p r = false end.
Proof.
  induction l as [|r l (sp & IH1 & IH2 & IH3)]; cbn [skip_while]; [by exists []|].
  destruct (p r) eqn:E; [|by exists []]. exists (r :: sp). cbn. rewrite E, <- IH1. done.
Qed.

Lemma take_while_spec p l : ∃ rest, l = (take_while p l ++ rest)%list ∧
  forallb p (take_while p l) = true ∧ match rest with [] => True | r :: _ => p r = false end.
Proof.
  induction l as [|r l (rest & IH1 & IH2 & IH3)]; cbn [take_while]; [by exists []|].
  destruct (p r) eqn:E; [|by exists (r :: l)]. exists rest. cbn. rewrite E. split_and!; [by f_equal|done..].
Qed.

Lemma skip_while_app p sp l : forallb p sp = true →
  match l with [] => True | r :: _ => p r = false end → skip_while p (sp ++ l) = l.
Proof.
  intros Hsp Hl. induction sp as [|r sp IH]; cbn [app skip_while].
  - destruct l as [|r l]; [done|]. cbn. by rewrite Hl.
  - apply andb_true_iff in Hsp as [-> Hsp]. by apply IH.
Qed.

Lemma take_while_app p w l : forallb p w = true →
  match l with [] => True | r :: _ => p r = false end → take_while p (w ++ l) = w.
Proof.
  intros Hw Hl. induction w as [|r w IH]; cbn [app take_while].
  - destruct l as [|r l]; [done|]. cbn. by rewrite Hl.
  - apply andb_true_iff in Hw as [-> Hw]. f_equal. by apply IH.
Qed.

Lemma blank_space r : blank r = true ↔ isSpace r = true ∧ r ≠ newline.
Proof. unfold blank. by rewrite andb_true_iff, negb_true_iff, N.eqb_neq. Qed.

Lemma not_space_blank r : not_space r = true → blank r = false ∧ (r =? newline)%N = false.
Proof.
  unfold not_space, blank. intros Hr%negb_true_iff. rewrite Hr. split; [done|].
  apply N.eqb_neq. intros ->. by vm_compute in Hr.
Qed.

(** A word is read exactly from the inputs of the form [word_after]. *)
Lemma Sscanf_word_spec lit input tok :
  Sscanf_word lit input = Ok tok ↔ ∃ word, word_after lit input word ∧ tok = text_of word.
Proof.
  unfold Sscanf_word, word_after. split.
  - destruct (scan_literal _ _) as [[|r l]|] eqn:E; [done| |done]. apply scan_literal_spec in E.
    destruct (isSpace r) eqn:Hs; [|done]. cbn [negb]. destruct (N.eqb_spec r newline) as [|Hn]; [done|].
    destruct (skip_while_spec blank l) as (sp & Hl & Hsp & Hb).
    destruct (skip_while blank l) as [|w l'] eqn:Hk; [done|].
    destruct (N.eqb_spec w newline) as [|Hw]; [done|]. intros [= <-].
    assert (Hns : not_space w = true).
    { unfold not_space. apply negb_true_iff. destruct (isSpace w) eqn:Ew; [|done].
      exfalso. apply not_true_iff_false in Hb. apply Hb. by apply blank_space. }
    destruct (take_while_spec not_space (w :: l')) as (rest & Hr & Ht & Hrest).
    exists (take_while not_space (w :: l')). split; [|done]. exists (r :: sp), rest. split_and!; try done.
    + rewrite E, Hl, Hr at 1. by rewrite <- app_comm_cons.
    + cbn. rewrite Hsp, andb_true_r. by apply blank_space.
    + cbn. by rewrite Hns.
    + destruct rest; [done|]. by apply negb_false_iff in Hrest.
  - intros (word & (sp & rest & Hin & Hsp & Hbl & Hw & Hns & Hrest) & ->).
    apply scan_literal_spec in Hin. rewrite Hin. destruct sp as [|r sp]; [done|]. cbn [app].
    apply andb_true_iff in Hbl as [Hr Hbl]. apply blank_space in Hr as [Hr Hn]. rewrite Hr. cbn [negb].
    rewrite (proj2 (N.eqb_neq _ _) Hn). destruct word as [|w word]; [done|].
    pose proof Hns as Hns'. apply andb_true_iff in Hns' as [Hw' _]. apply not_space_blank in Hw' as [Hw1 Hw2].
    rewrite (skip_while_app blank sp) by done. cbn [app]. rewrite Hw2. do 2 f_equal.
    rewrite app_comm_cons. apply take_while_app; [done|]. destruct rest; [done|].
    unfold not_space. by rewrite Hrest.
Qed.

(** ** Decoding an encoding *)

Lemma runes_loop_encodes rs rest n : Forall (λ r, scalar r = true) rs →
  List.length (encodes rs ++ rest) ≤ n →
  runes_loop n (encodes rs ++ rest) = (rs ++ runes_loop (n - List.length rs) rest)%list.
Proof.
  intros Hrs. revert n. induction Hrs as [|r rs Hr Hrs IH]; intros n Hn.
  { cbn. by rewrite Nat.sub_0_r. }
  change (encodes (r :: rs)) with (AppendRune r ++ encodes rs)%list in *. rewrite <- app_assoc in *.
  pose proof (AppendRune_nonempty r) as Hne. pose proof (DecodeRune_Append r (encodes rs ++ rest) Hr) as Hd.
  destruct (AppendRune r) as [|c l] eqn:E; [done|]. rewrite length_app in Hn. cbn [List.length] in Hn.
  destruct n as [|n]; [lia|]. cbn [app runes_loop List.length Nat.sub] in *. rewrite Hd. f_equal.
  cbn [drop]. rewrite drop_app_length. apply IH. lia.
Qed.

Lemma runes_text_of rs : Forall (λ r, scalar r = true) rs → runes (text_of rs) = rs.
Proof.
  intros Hrs. unfold runes, text_of. rewrite chars_of_chars.
  pose proof (runes_loop_encodes rs [] _ Hrs (le_n _)) as H. rewrite app_nil_r in H. rewrite H.
  destruct (_ - _); cbn; by rewrite app_nil_r.
Qed.

Lemma mod_base b x m : (b mod m = 0 → b ≤ x → x < b + m → x mod m = x - b)%N.
Proof.
  intros Hb H1 H2. replace x with (b + (x - b))%N at 1 by lia. apply low_bits; [done|lia].
Qed.

Lemma second_range_bounds b : let '(lo, hi) := second_range b in
  (128 ≤ lo ∧ hi ≤ 191 ∧ (b = 224 → lo = 160) ∧ (b = 237 → hi = 159) ∧ (b = 240 → lo = 144) ∧ (b = 244 → hi = 143))%N.
Proof.
  unfold second_range. destruct (N.eqb_spec b 224) as [->|]; [lia|]. destruct (N.eqb_spec b 237) as [->|]; [lia|].
  destruct (N.eqb_spec b 240) as [->|]; [lia|]. destruct (N.eqb_spec b 244) as [->|]; lia.
Qed.

Ltac bytes_to_N :=
  repeat match goal with
  | H : (_ && _)%bool = true |- _ => apply andb_true_iff in H as [? ?]
  | H : cont _ = true |- _ => unfold cont in H
  | H : in_range _ _ _ = true |- _ => unfold in_range in H
  | H : (_ <? _)%N = true |- _ => apply N.ltb_lt in H
  | H : (_ <? _)%N = false |- _ => apply N.ltb_ge in H
  | H : (_ <=? _)%N = true |- _ => apply N.leb_le in H
  end.

(** What is decoded is a scalar value: neither a surrogate nor out of range. *)
Lemma DecodeRune_scalar l : scalar (DecodeRune l).1 = true.
Proof.
  assert (He : scalar RuneError = true) by done.
  destruct l as [|c0 l]; [done|]. unfold DecodeRune.
  pose proof (second_range_bounds (code c0)) as Hr. destruct (second_range (code c0)) as [lo hi].
  repeat (case_match; cbn [fst] in *; try done); apply scalar_spec; bytes_to_N.
  - lia.
  - rewrite (mod_base 192 (code c0)), (mod_base 128 (code _)) by (done || lia). lia.
  - rewrite (mod_base 224 (code c0)), !(mod_base 128 (code _)) by (done || cbn [fst snd] in *; lia).
    cbn [fst snd] in *. lia.
  - rewrite (mod_base 240 (code c0)), !(mod_base 128 (code _)) by (done || cbn [fst snd] in *; lia).
    cbn [fst snd] in *. lia.
Qed.

Lemma runes_scalar s : Forall (λ r, scalar r = true) (runes s).
Proof.
  unfold runes. generalize (List.length (chars s)). generalize (chars s). intros l n. revert l.
  induction n as [|n IH]; intros [|c l]; cbn [runes_loop]; try apply Forall_nil_2.
  pose proof (DecodeRune_scalar (c :: l)) as Hs. destruct (DecodeRune (c :: l)) as [r size].
  apply Forall_cons_2; [done|]. apply IH.
Qed.

(** A valid string is the text of its runes. *)
Lemma valid_text s : valid (chars s) → ∃ rs, Forall (λ r, scalar r = true) rs ∧ s = text_of rs.
Proof.
  intros (rs & Hrs & Hs). exists rs. split; [done|]. unfold text_of. by rewrite <- Hs, of_chars_chars.
Qed.

Lemma encodes_app rs rs' : encodes (rs ++ rs') = (encodes rs ++ encodes rs')%list.
Proof. unfold encodes. by rewrite fmap_app, concat_app. Qed.

Lemma text_of_app rs rs' : text_of (rs ++ rs') = text_of rs +:+ text_of rs'.
Proof. unfold text_of. by rewrite encodes_app, of_chars_app. Qed.

(** ** strconv.Atoi *)

Definition digit_value (c : ascii) : option Z :=
  if in_range 48 57 c then Some (Z.of_N (code c) - 48)%Z else None.

Fixpoint digits_value (acc : Z) (l : list ascii) : option Z :=
  match l with
  | [] => Some acc
  | c :: l => d ← digit_value c; digits_value (acc * 10 + d)%Z l
  end.

(** An optional sign. *)
Definition strip_sign (l : list ascii) : bool * list ascii :=
  match l with
  | "-"%char :: l => (true, l)
  | "+"%char :: l => (false, l)
  | l => (false, l)
  end.

(** An optional sign, digits, and a value of 64 bits. *)
Definition Atoi (s : string) : option Z :=
  let '(neg, ds) := strip_sign (chars s) in
  match ds with
  | [] => None
  | _ =>
      v ← digits_value 0 ds;
      let v := if neg : bool then (- v)%Z else v in
      if ((- 2 ^ 63 <=? v) && (v <? 2 ^ 63))%Z then Some v else None
  end.

Example Atoi_examples :
  Atoi "50" = Some 50%Z ∧ Atoi "-7" = Some (-7)%Z ∧ Atoi "+8" = Some 8%Z ∧ Atoi "007" = Some 7%Z ∧
  Atoi EmptyString = None ∧ Atoi "-" = None ∧ Atoi "1_0" = None ∧ Atoi "1e3" = None ∧
  Atoi "9223372036854775807" = Some 9223372036854775807%Z ∧ Atoi "9223372036854775808" = None.
Proof. repeat split; by_eval. Qed.

(** The digits that [%d] prints. *)
Lemma digit_value_pretty n : (n < 10)%N → digit_value (pretty_N_char n) = Some (Z.of_N n).
Proof.
  intros Hn. assert (n = 0 ∨ n = 1 ∨ n = 2 ∨ n = 3 ∨ n = 4 ∨ n = 5 ∨ n = 6 ∨ n = 7 ∨ n = 8 ∨ n = 9)%N as Hc by lia.
  by repeat (destruct Hc as [->|Hc]; [reflexivity|]); subst n.
Qed.

(** A fold over digits that multiplies by ten and adds. *)
Definition accumulates {A} (f : Z → list ascii → A) (bound : Z) : Prop :=
  ∀ x c d rest, (0 ≤ x)%Z → digit_value c = Some d → (x * 10 + d ≤ bound)%Z → f x (c :: rest) = f (x * 10 + d)%Z rest.

Lemma pretty_N_go_digits x s : ∃ ds, chars (pretty_N_go x s) = (ds ++ chars s)%list ∧
  Forall (λ c, is_Some (digit_value c)) ds ∧ ((0 < x)%N → ds ≠ []) ∧
  ∀ A (f : Z → list ascii → A) bound rest, accumulates f bound → (Z.of_N x ≤ bound)%Z →
    f 0%Z (ds ++ rest)%list = f (Z.of_N x) rest.
Proof.
  revert s. induction (N.lt_wf_0 x) as [x _ IH]; intros s.
  destruct (N.eq_0_gt_0_cases x) as [->|Hx].
  { exists []. rewrite pretty_N_go_0. split_and!; [done|done|lia|done]. }
  rewrite pretty_N_go_step by done.
  destruct (IH (x / 10)%N ltac:(by apply N.div_lt) (String (pretty_N_char (x mod 10)) s)) as (ds & Hds & Hd & _ & Hf).
  pose proof (N.div_mod x 10 ltac:(lia)) as Hdm. pose proof (N.mod_lt x 10 ltac:(lia)) as Hm.
  pose proof (digit_value_pretty _ Hm) as Hv.
  exists (ds ++ [pretty_N_char (x mod 10)]). split_and!.
  - rewrite Hds. by rewrite <- app_assoc.
  - apply Forall_app. split; [done|]. repeat constructor. by eexists.
  - by destruct ds.
  - intros A f bound rest Ha Hb. rewrite <- app_assoc. cbn [app].
    assert (Hz : Z.of_N x = (Z.of_N (x / 10) * 10 + Z.of_N (x mod 10))%Z) by (rewrite Hdm at 1; generalize (x / 10)%N; lia).
    assert (H0 : (0 ≤ Z.of_N (x / 10))%Z) by apply N2Z.is_nonneg.
    assert (H1 : (0 ≤ Z.of_N (x mod 10))%Z) by apply N2Z.is_nonneg.
    rewrite (Hf A f bound); [|done|generalize dependent (Z.of_N (x / 10)); generalize dependent (Z.of_N (x mod 10)); lia].
    rewrite (Ha _ _ _ _ H0 Hv) by (by rewrite <- Hz). by rewrite <- Hz.
Qed.

Lemma pretty_digits (n : N) : ∃ c ds, chars (pretty n) = c :: ds ∧ Forall (λ c, is_Some (digit_value c)) (c :: ds) ∧
  ∀ A (f : Z → list ascii → A) bound rest, accumulates f bound → (Z.of_N n ≤ bound)%Z →
    f 0%Z (c :: ds ++ rest)%list = f (Z.of_N n) rest.
Proof.
  unfold pretty, pretty_N. destruct (decide (n = 0%N)) as [->|Hn].
  - exists "0"%char, []. split_and!; [done|by repeat constructor; eexists|]. intros A f bound rest Ha Hb.
    cbn [app]. by rewrite (Ha 0%Z "0"%char 0%Z rest ltac:(lia) eq_refl Hb).
  - destruct (pretty_N_go_digits n EmptyString) as (ds & Hds & Hd & Hne & Hf). rewrite app_nil_r in Hds.
    destruct ds as [|c ds]; [by destruct Hne; [lia|]|]. exists c, ds. split_and!; [done|done|]. apply Hf.
Qed.

Lemma digits_value_accumulates bound : accumulates digits_value bound.
Proof. intros x c d rest _ Hd _. cbn. by rewrite Hd. Qed.

Lemma strip_sign_digit c l : is_Some (digit_value c) → strip_sign (c :: l) = (false, c :: l).
Proof. intros [d Hd]. by destruct c as [[] [] [] [] [] [] [] []]. Qed.

Lemma Atoi_range s n : Atoi s = Some n → (- 2 ^ 63 ≤ n < 2 ^ 63)%Z.
Proof.
  unfold Atoi. destruct (strip_sign (chars s)) as [neg [|c l]]; [done|].
  destruct (digits_value 0 (c :: l)) as [v|]; [|done]. cbn.
  destruct ((_ <=? _) && _)%Z eqn:Eb; [|done]. intros [= <-].
  apply andb_true_iff in Eb as [E1%Z.leb_le E2%Z.ltb_lt]. done.
Qed.

(** A printed number is read back. *)
Lemma Atoi_fmt_d (n : N) : (Z.of_N n < 2 ^ 63)%Z → Atoi (pretty n) = Some (Z.of_N n).
Proof.
  intros Hn. destruct (pretty_digits n) as (c & ds & Hc & Hd & Hf). unfold Atoi. rewrite Hc.
  rewrite strip_sign_digit by (by apply Forall_cons in Hd as [Hd _]). pose proof (Hf _ digits_value _ [] (digits_value_accumulates _) (Z.le_refl _)) as Hv.
  rewrite app_nil_r in Hv. rewrite Hv. cbn.
  rewrite (proj2 (Z.ltb_lt _ _) Hn), (proj2 (Z.leb_le _ _)) by lia. done.
Qed.

End Scan.
