(* ===== verification/GoTime.v ===== *)
(** * time.ParseDuration, Duration.String, strconv.ParseUint and decimal numbers

    Durations are numbers of nanoseconds.  The fractional part of a term goes through
    float64 arithmetic in the library; here it is the IEEE 754 arithmetic of [SpecFloat]. *)

From S2P Require Import Prelude.
From S2P Require Import GoStrings.
From Stdlib Require Import Strings.Ascii Strings.String.
From Stdlib Require Import Floats.SpecFloat.
From S2P Require Import GoUtf8.
From S2P Require Import GoScan.
Import Utf8 Scan.

Local Open Scope go_scope.

Module Time.

(** ** float64 *)

Definition float64 : Type := spec_float.
Definition float_of (z : Z) : float64 := binary_normalize 53 1024 z 0 false.
Definition float_mul : float64 → float64 → float64 := SFmul 53 1024.
Definition float_div : float64 → float64 → float64 := SFdiv 53 1024.

(** The conversion to uint64: truncation. *)
Definition uint64_of (f : float64) : Z :=
  match f with
  | S754_finite false m e => uint64_wrap (Z.shiftl (Z.pos m) e)
  | _ => 0
  end.

(** ** The parser *)

(** [None] is the overflow error. *)
Fixpoint leadingInt (x : Z) (l : list ascii) : option Z * list ascii :=
  match l with
  | c :: rest =>
      match digit_value c with
      | None => (Some x, l)
      | Some d =>
          if (2 ^ 63 / 10 <? x)%Z then (None, l)
          else
            let x := (x * 10 + d)%Z in
            if (2 ^ 63 <? x)%Z then (None, l) else leadingInt x rest
      end
  | [] => (Some x, l)
  end.

(** The value, the number of digits in it (its scale is a power of ten), and the rest; digits
    after the value has become too large are dropped. *)
Fixpoint leadingFraction (x : Z) (scale : Z) (overflow : bool) (l : list ascii) : Z * Z * list ascii :=
  match l with
  | c :: rest =>
      match digit_value c with
      | None => (x, scale, l)
      | Some d =>
          if overflow then leadingFraction x scale true rest
          else if ((2 ^ 63 - 1) / 10 <? x)%Z then leadingFraction x scale true rest
          else
            let y := (x * 10 + d)%Z in
            if (2 ^ 63 <? y)%Z then leadingFraction x scale true rest
            else leadingFraction y (scale * 10) false rest
      end
  | [] => (x, scale, l)
  end.

(** The characters up to a digit or a period. *)
Fixpoint unit_name (l : list ascii) : list ascii * list ascii :=
  match l with
  | c :: rest =>
      match digit_value c with
      | Some _ => ([], l)
      | None => if Ascii.eqb c "." then ([], l) else let '(u, l') := unit_name rest in (c :: u, l')
      end
  | [] => ([], [])
  end.

(** The two spellings of a microsecond have U+00B5 and U+03BC. *)
Definition unitMap : list (list ascii * Z) :=
  [(chars "ns", 1); (chars "us", 1000); (["194"; "181"; "s"]%char, 1000); (["206"; "188"; "s"]%char, 1000);
   (chars "ms", 1000000); (chars "s", 1000000000); (chars "m", 60000000000); (chars "h", 3600000000000)]%Z.

Definition unit_value (u : list ascii) : option Z :=
  match list_find (λ e : list ascii * Z, e.1 = u) unitMap with Some (_, e) => Some e.2 | None => None end.

Definition invalid {A} : GoM A := Ret (Err "time: invalid duration").

(** One term: its value in nanoseconds and what follows. *)
Definition parse_term (l : list ascii) : GoM (Z * list ascii) :=
  match l with
  | [] => invalid
  | c :: _ =>
      if negb (Ascii.eqb c "." || bool_decide (is_Some (digit_value c))) then invalid
      else
        match leadingInt 0 l with
        | (None, _) => invalid
        | (Some v, l1) =>
            let pre := negb (Nat.eqb (List.length l1) (List.length l)) in
            let '(f, scale, l2, post) :=
              match l1 with
              | "."%char :: l1 =>
                  let '(f, scale, l2) := leadingFraction 0 1 false l1 in
                  (f, scale, l2, negb (Nat.eqb (List.length l2) (List.length l1)))
              | _ => (0%Z, 1%Z, l1, false)
              end in
            if negb pre && negb post then invalid
            else
              let '(u, l3) := unit_name l2 in
              match u with
              | [] => Ret (Err "time: missing unit in duration")
              | _ =>
                  match unit_value u with
                  | None => Ret (Err "time: unknown unit")
                  | Some unit =>
                      if (2 ^ 63 / unit <? v)%Z then invalid
                      else
                        let v := (v * unit)%Z in
                        if (0 <? f)%Z then
                          let v := uint64_add v (uint64_of (float_mul (float_of f) (float_div (float_of unit) (float_of scale)))) in
                          if (2 ^ 63 <? v)%Z then invalid else gret (v, l3)
                        else gret (v, l3)
                  end
              end
        end
  end.

(** The terms; the sum is an unsigned 64-bit number. *)
Fixpoint parse_terms (fuel : nat) (d : Z) (l : list ascii) : GoM Z :=
  match l with
  | [] => gret d
  | _ =>
      match fuel with
      | O => Panic "out of fuel"
      | S fuel =>
          '(v, l) <- parse_term l ;;
          let d := uint64_add d v in
          if (2 ^ 63 <? d)%Z then invalid else parse_terms fuel d l
      end
  end.

Definition ParseDuration (s : string) : GoM Z :=
  let '(neg, l) := strip_sign (chars s) in
  if bool_decide (l = chars "0") then gret 0%Z
  else
    match l with
    | [] => invalid
    | _ =>
        d <- parse_terms (List.length l) 0 l ;;
        if neg : bool then gret (- d)%Z
        else if (2 ^ 63 - 1 <? d)%Z then invalid else gret d
    end.

Example ParseDuration_examples :
  ParseDuration "5s" = gret 5000000000%Z ∧ ParseDuration "1h15m30.918s" = gret 4530918000000%Z ∧
  ParseDuration "-1.5h" = gret (-5400000000000)%Z ∧ ParseDuration "0" = gret 0%Z ∧
  ParseDuration ".5us" = gret 500%Z ∧ ParseDuration "0.3333333333333333333h" = gret 1200000000000%Z ∧
  ParseDuration "0.830103483285477580700h" = gret 2988372539827%Z ∧
  ParseDuration "0.9223372036854775807h" = gret 3320413933267%Z ∧
  is_ok (A := Z) (match ParseDuration "5" with Ret r => r | Panic _ => Ok 0%Z end) = false ∧
  is_ok (A := Z) (match ParseDuration "3000000h" with Ret r => r | Panic _ => Ok 0%Z end) = false.
Proof. repeat split; by_eval. Qed.

(** ** strconv.ParseUint with base 10 *)

Definition ParseUint (s : string) (bits : Z) : option Z :=
  match chars s with
  | [] => None
  | l => v ← digits_value 0 l; if (v <? 2 ^ bits)%Z then Some v else None
  end.

(** ** Termination and range *)

Lemma leadingInt_length x l v l' : leadingInt x l = (v, l') → List.length l' ≤ List.length l.
Proof.
  revert x. induction l as [|c l IH]; intros x; cbn; [by intros [= <- <-]|].
  destruct (digit_value c) as [d|]; [|by intros [= <- <-]].
  destruct (_ <? x)%Z; [by intros [= <- <-]|]. destruct (_ <? _)%Z; [by intros [= <- <-]|].
  intros E%IH. lia.
Qed.

Lemma leadingFraction_length x s o l f s' l' : leadingFraction x s o l = (f, s', l') → List.length l' ≤ List.length l.
Proof.
  revert x s o. induction l as [|c l IH]; intros x s o; cbn; [by intros [= <- <- <-]|].
  destruct (digit_value c) as [d|]; [|by intros [= <- <- <-]].
  destruct o; [intros E%IH; lia|]. destruct (_ <? x)%Z; [intros E%IH; lia|].
  destruct (_ <? _)%Z; intros E%IH; lia.
Qed.

Lemma unit_name_length l u l' : unit_name l = (u, l') → List.length l = List.length u + List.length l'.
Proof.
  revert u l'. induction l as [|c l IH]; intros u l'; cbn; [by intros [= <- <-]|].
  destruct (digit_value c); [by intros [= <- <-]|]. destruct (Ascii.eqb c "."); [by intros [= <- <-]|].
  destruct (unit_name l) as [u1 l1] eqn:E. intros [= <- <-]. cbn. f_equal. by apply IH.
Qed.

(** A term is an error or takes some characters. *)
Lemma parse_term_returns l : (∃ e, parse_term l = Ret (Err e)) ∨
  ∃ v l', parse_term l = gret (v, l') ∧ List.length l' < List.length l.
Proof.
  unfold parse_term, invalid. destruct l as [|c l0]; [eauto|]. set (l := c :: l0).
  destruct (negb _); [eauto|]. destruct (leadingInt 0 l) as [[v|] l1] eqn:E1; [|eauto].
  apply leadingInt_length in E1.
  assert (Hf : ∃ f scale l2 post, match l1 with
      | "."%char :: l1 => let '(f, scale, l2) := leadingFraction 0 1 false l1 in
          (f, scale, l2, negb (Nat.eqb (List.length l2) (List.length l1)))
      | _ => (0%Z, 1%Z, l1, false) end = (f, scale, l2, post) ∧ List.length l2 ≤ List.length l1).
  { destruct l1 as [|a l1]; [by exists 0%Z, 1%Z, [], false|].
    assert (Hdot : a = "."%char ∨ a ≠ "."%char) by (destruct (ascii_dec a "."); auto). destruct Hdot as [->|Hdot].
    - destruct (leadingFraction 0 1 false l1) as [[f sc] l2] eqn:E2. apply leadingFraction_length in E2.
      do 4 eexists. split; [reflexivity|]. cbn. lia.
    - exists 0%Z, 1%Z, (a :: l1), false. split; [|done]. by destruct a as [[] [] [] [] [] [] [] []]. }
  destruct Hf as (f & scale & l2 & post & -> & Hl2).
  destruct (_ && _); [eauto|]. destruct (unit_name l2) as [[|a u] l3] eqn:E3; [eauto|].
  apply unit_name_length in E3. cbn [List.length] in E3.
  destruct (unit_value _) as [unit|]; [|eauto]. destruct (_ <? v)%Z; [eauto|].
  destruct (0 <? f)%Z; [destruct (_ <? _)%Z; [eauto|]|]; right; do 2 eexists; (split; [reflexivity|lia]).
Qed.

Lemma uint64_add_bounds x y : (0 ≤ uint64_add x y < 2 ^ 64)%Z.
Proof. apply uint64_wrap_range. Qed.

(** With a unit of fuel per character the terms are an error or a sum in range. *)
Lemma parse_terms_returns fuel d l : List.length l ≤ fuel → (0 ≤ d ≤ 2 ^ 63)%Z →
  (∃ e, parse_terms fuel d l = Ret (Err e)) ∨ ∃ v, parse_terms fuel d l = gret v ∧ (0 ≤ v ≤ 2 ^ 63)%Z.
Proof.
  revert d l. induction fuel as [|fuel IH]; intros d [|c l] Hl Hd; cbn [parse_terms];
    try (right; exists d; done); cbn [List.length] in Hl; [lia|].
  destruct (parse_term_returns (c :: l)) as [(e & ->)|(v & l' & -> & Hl')]; cbn [gbind gret]; [eauto|].
  pose proof (uint64_add_bounds d v). destruct (Z.ltb_spec (2 ^ 63) (uint64_add d v)); [unfold invalid; eauto|].
  cbn [List.length] in Hl'. apply IH; lia.
Qed.

Lemma ParseDuration_range s : (∃ e, ParseDuration s = Ret (Err e)) ∨
  ∃ d, ParseDuration s = gret d ∧ (- 2 ^ 63 ≤ d < 2 ^ 63)%Z.
Proof.
  unfold ParseDuration.
  destruct (strip_sign (chars s)) as [neg l]. case_bool_decide; [right; exists 0%Z; split; [done|lia]|].
  destruct l as [|c l]; [unfold invalid; eauto|].
  destruct (parse_terms_returns (List.length (c :: l)) 0 (c :: l)) as [(e & ->)|(v & -> & Hv)]; [lia..|cbn; eauto|].
  cbn [gbind gret]. destruct neg; [right; eexists; split; [done|lia]|].
  destruct (Z.ltb_spec (2 ^ 63 - 1) v); [unfold invalid; eauto|]. right. exists v. split; [done|lia].
Qed.

Lemma ParseUint_range s bits v : ParseUint s bits = Some v → (v < 2 ^ bits)%Z.
Proof.
  unfold ParseUint. destruct (chars s) as [|c l]; [done|]. destruct (digits_value 0 (c :: l)) as [w|]; [|done].
  cbn. destruct (Z.ltb_spec w (2 ^ bits)); [|done]. by intros [= <-].
Qed.

(** ** What is written with whole numbers is read back *)

Lemma leadingInt_accumulates : accumulates leadingInt (2 ^ 63).
Proof.
  intros x c d rest Hx Hd Hb. cbn [leadingInt]. rewrite Hd.
  assert (0 ≤ d)%Z.
  { unfold digit_value in Hd. destruct (in_range 48 57 c) eqn:E; [|done]. unfold in_range in E.
    apply andb_true_iff in E as [E _]. apply N.leb_le in E. injection Hd as <-. lia. }
  rewrite (proj2 (Z.ltb_ge _ x)), (proj2 (Z.ltb_ge _ (x * 10 + d))); [done|lia|].
  apply Z.div_le_lower_bound; lia.
Qed.

(** A term of the sum: a number and a unit. *)
Definition print_term (t : N * (list ascii * Z)) : list ascii := chars (pretty t.1) ++ t.2.1.
Definition print_terms (ts : list (N * (list ascii * Z))) : list ascii := List.concat (print_term <$> ts).
Definition term_value (t : N * (list ascii * Z)) : Z := (Z.of_N t.1 * t.2.2)%Z.
Definition terms_value (ts : list (N * (list ascii * Z))) : Z := fold_right (λ t z, (term_value t + z)%Z) 0%Z ts.

(** Nothing, or a digit. *)
Definition starts_term (l : list ascii) : Prop :=
  match l with [] => True | c :: _ => is_Some (digit_value c) end.

Lemma digit_not_dot c : is_Some (digit_value c) → c ≠ "."%char.
Proof. intros [d Hd] ->. by vm_compute in Hd. Qed.

(** The facts about the entries of the table that parsing a term needs. *)
Lemma unit_parses u v rest : (u, v) ∈ unitMap → starts_term rest →
  unit_name (u ++ rest) = (u, rest) ∧ unit_value u = Some v ∧ u ≠ [] ∧ (0 < v)%Z ∧
  ∃ c u', u = c :: u' ∧ digit_value c = None ∧ c ≠ "."%char.
Proof.
  intros Hu Hr.
  assert (Hn : unit_name rest = ([], rest)).
  { destruct rest as [|c rest]; [done|]. destruct Hr as [d Hd]. cbn. by rewrite Hd. }
  unfold unitMap in Hu. repeat (apply elem_of_cons in Hu as [[= -> ->]|Hu];
    [split; [cbn; by rewrite Hn|]; split; [by_eval|]; split; [done|]; split; [lia|]; by do 2 eexists|]).
  by apply elem_of_nil in Hu.
Qed.

Lemma parse_term_print t rest : t.2 ∈ unitMap → starts_term rest → (term_value t ≤ 2 ^ 63)%Z →
  parse_term (print_term t ++ rest) = gret (term_value t, rest).
Proof.
  destruct t as [n [u v]]. unfold print_term, term_value. cbn [fst snd]. intros Hu Hr Hb.
  destruct (unit_parses u v rest Hu Hr) as (Hname & Hval & Hne & Hv & c0 & u' & -> & Hc0 & Hdot0).
  destruct (pretty_digits n) as (c & ds & -> & Hd & Hf). rewrite <- app_assoc. cbn [app]. unfold parse_term.
  pose proof Hd as [Hc _]%Forall_cons. rewrite (bool_decide_eq_true_2 _ Hc), orb_true_r. cbn [negb].
  rewrite (Hf _ leadingInt (2 ^ 63)%Z) by (apply leadingInt_accumulates || nia).
  assert (Hl : leadingInt (Z.of_N n) (c0 :: u' ++ rest) = (Some (Z.of_N n), c0 :: u' ++ rest)) by (cbn; by rewrite Hc0).
  rewrite Hl.
  assert (Hf' : match c0 :: u' ++ rest with
      | "."%char :: l1 => let '(f, scale, l2) := leadingFraction 0 1 false l1 in
          (f, scale, l2, negb (Nat.eqb (List.length l2) (List.length l1)))
      | _ => (0%Z, 1%Z, c0 :: u' ++ rest, false) end = (0%Z, 1%Z, c0 :: u' ++ rest, false)).
  { destruct c0 as [[] [] [] [] [] [] [] []]; done. }
  rewrite Hf'. rewrite (proj2 (Nat.eqb_neq _ _)) by (cbn; repeat (rewrite length_app; cbn); lia). cbn [negb andb].
  change (c0 :: u' ++ rest) with ((c0 :: u') ++ rest). rewrite Hname, Hval.
  rewrite (proj2 (Z.ltb_ge _ _)); [done|]. apply Z.div_le_lower_bound; lia.
Qed.

Lemma starts_print ts : starts_term (print_terms ts).
Proof.
  destruct ts as [|[n [u v]] ts]; [done|]. unfold print_terms, print_term. cbn.
  destruct (pretty_digits n) as (c & ds & -> & Hd & _). by apply Forall_cons in Hd as [Hc _].
Qed.

Lemma term_value_nonneg t : t.2 ∈ unitMap → (0 ≤ term_value t)%Z.
Proof.
  destruct t as [n [u v]]. intros Hu. destruct (unit_parses u v [] Hu I) as (_ & _ & _ & Hv & _).
  unfold term_value. cbn [fst snd]. apply Z.mul_nonneg_nonneg; lia.
Qed.

Lemma terms_value_nonneg ts : Forall (λ t, t.2 ∈ unitMap) ts → (0 ≤ terms_value ts)%Z.
Proof.
  induction 1 as [|t ts Hu _ IH]; [done|]. cbn [terms_value fold_right]. fold (terms_value ts).
  apply term_value_nonneg in Hu. lia.
Qed.

Lemma parse_terms_print fuel d ts : Forall (λ t, t.2 ∈ unitMap) ts → List.length (print_terms ts) ≤ fuel →
  (0 ≤ d)%Z → (d + terms_value ts ≤ 2 ^ 63)%Z →
  parse_terms fuel d (print_terms ts) = gret (d + terms_value ts)%Z.
Proof.
  intros Hts. revert fuel d. induction Hts as [|t ts Hu Hts IH]; intros fuel d Hl Hd Hb.
  { cbn. destruct fuel; by rewrite Z.add_0_r. }
  change (print_terms (t :: ts)) with (print_term t ++ print_terms ts) in *. cbn [terms_value fold_right] in Hb.
  fold (terms_value ts) in Hb. pose proof (terms_value_nonneg ts Hts).
  pose proof (term_value_nonneg t Hu).
  pose proof (parse_term_print t (print_terms ts) Hu (starts_print ts) ltac:(lia)) as Hp.
  destruct (parse_term_returns (print_term t ++ print_terms ts)) as [(e & He)|(v & l' & He & Hlt)];
    rewrite Hp in He; [done|]. injection He as <- <-.
  rewrite length_app in Hl, Hlt. destruct fuel as [|fuel]; [lia|].
  destruct (print_term t ++ print_terms ts) as [|c l] eqn:E; [apply (f_equal List.length) in E; rewrite length_app in E; cbn in E; lia|].
  cbn [parse_terms]. rewrite Hp. cbn [gbind gret].
  unfold uint64_add. rewrite uint64_wrap_small by lia. rewrite (proj2 (Z.ltb_ge _ _)) by lia.
  rewrite IH by lia. f_equal. cbn [terms_value fold_right]. fold (terms_value ts). lia.
Qed.

Lemma ParseDuration_print ts : ts ≠ [] → Forall (λ t, t.2 ∈ unitMap) ts → (terms_value ts < 2 ^ 63)%Z →
  ParseDuration (of_chars (print_terms ts)) = gret (terms_value ts).
Proof.
  intros Hne Hts Hb. unfold ParseDuration. rewrite chars_of_chars.
  pose proof (parse_terms_print (List.length (print_terms ts)) 0 ts Hts (le_n _) ltac:(lia) ltac:(lia)) as Hp.
  assert (Hc : ∃ c l, print_terms ts = c :: l ∧ is_Some (digit_value c) ∧ l ≠ []).
  { destruct ts as [|[n [u v]] ts]; [done|]. apply Forall_cons in Hts as [Hu _]. cbn in Hu.
    destruct (unit_parses u v [] Hu I) as (_ & _ & Hune & _). unfold print_terms, print_term. cbn.
    destruct (pretty_digits n) as (c & ds & -> & Hd & _). apply Forall_cons in Hd as [Hc _].
    exists c, ((ds ++ u) ++ List.concat (print_term <$> ts)). split_and!; [done|done|]. by destruct ds, u. }
  destruct Hc as (c & l & E & [d Hd] & Hl). rewrite E in *.
  rewrite strip_sign_digit by (by eexists). rewrite bool_decide_eq_false_2 by (intros [= _ ->]; by destruct Hl).
  cbn [List.length] in Hp |- *. rewrite Hp. cbn [gbind gret]. by rewrite (proj2 (Z.ltb_ge _ _)) by lia.
Qed.

(** ** Duration.String *)

(** The last [prec] digits of [v] as a fraction, without trailing zeros, before [acc]; and
    the rest of [v]. *)
Fixpoint fmtFrac (prec : nat) (v : Z) (print : bool) (acc : string) : string * Z :=
  match prec with
  | O => (if print then "." +:+ acc else acc, v)
  | S prec =>
      let digit := (v mod 10)%Z in
      let print := print || negb (Z.eqb digit 0) in
      fmtFrac prec (v / 10) print (if print then fmt_d digit +:+ acc else acc)
  end.

Definition DurationString (d : Z) : string :=
  let u := uint64_wrap (Z.abs d) in
  let body :=
    if (u <? 1000000000)%Z then
      if (u =? 0)%Z then "0s"
      else
        let '(frac, u) :=
          if (u <? 1000)%Z then fmtFrac 0 u false "ns"
          else if (u <? 1000000)%Z then fmtFrac 3 u false "µs"
          else fmtFrac 6 u false "ms" in
        fmt_d u +:+ frac
    else
      let '(frac, u) := fmtFrac 9 u false "s" in
      let seconds := fmt_d (u mod 60) +:+ frac in
      let u := (u / 60)%Z in
      if (0 <? u)%Z then
        let minutes := fmt_d (u mod 60) +:+ "m" +:+ seconds in
        let u := (u / 60)%Z in
        if (0 <? u)%Z then fmt_d u +:+ "h" +:+ minutes else minutes
      else seconds in
  if (d <? 0)%Z then "-" +:+ body else body.

Example DurationString_examples :
  DurationString <$> [0; 1; 1100; 2200000; 3300000000; 245000000000; 245001000000; 18367001000000; 480000000001; - 2 ^ 63]%Z =
  ["0s"; "1ns"; "1.1µs"; "2.2ms"; "3.3s"; "4m5s"; "4m5.001s"; "5h6m7.001s"; "8m0.000000001s"; "-2562047h47m16.854775808s"].
Proof. by_eval. Qed.
End Time.
