(* ===== verification/External.v ===== *)
(** * The interfaces of the code the program calls

    Third-party packages and services are parameters of the model: type classes
    whose methods the components call, with the documented behaviour the theorems
    rely on as separate law classes.  [Models.v] has a concrete instance of each.

    - [GoCache], [GoCacheLaws]: github.com/patrickmn/go-cache;
    - [RedisClient], [RedisView], [RedisLaws]: a Redis server behind go-redis;
    - [DnsLib], [DnsNet], [ResponseWriter]: github.com/miekg/dns;
    - [ClickHouse], [ClickHouseLaws], [ClickHouseQuery]: a ClickHouse server behind
      clickhouse-go;
    - [Prometheus], [PrometheusLaws]: the collectors of prometheus/client_golang;
    - [GinContext], [GinBinding], [GinBindingLaws]: a request behind gin. *)

From S2P Require Import Prelude.
From S2P Require Import GoStrings.
From S2P Require Import GoUtf8.

(** ** go-cache

    Times are nanoseconds; [cache_Get] and [cache_Items] take the instant of the
    call, [cache_Set] the instant and the duration (0 is [DefaultExpiration]). *)

Class GoCache (V C : Type) := {
  cache_New : Z → Z → C;
  cache_expiration : C → Z;
  cache_Get : C → Z → string → option V;
  cache_Set : C → Z → string → V → Z → C;
  cache_Delete : C → string → C;
  cache_Items : C → Z → list (string * V);
  cache_Flush : C → C;
}.

Definition DefaultExpiration : Z := 0.

Definition cache_duration `{GoCache V C} (c : C) (d : Z) : Z :=
  if Z.eqb d DefaultExpiration then cache_expiration c else d.

Class GoCacheLaws (V C : Type) `{GoCache V C} := {
  Get_New d i t k : cache_Get (cache_New d i) t k = None;
  expiration_New d i : (0 < d)%Z → cache_expiration (cache_New d i) = d;
  Get_Set_eq c t k v d t' :
    (t ≤ t' < t + cache_duration c d)%Z → cache_Get (cache_Set c t k v d) t' k = Some v;
  (** An item is still there at the instant of its deadline. *)
  Get_Set_last c t k v d :
    (0 < cache_duration c d)%Z → cache_Get (cache_Set c t k v d) (t + cache_duration c d) k = Some v;
  Get_Set_expired c t k v d t' :
    (0 < cache_duration c d)%Z → (t + cache_duration c d < t')%Z →
    cache_Get (cache_Set c t k v d) t' k = None;
  Get_Set_any c t k v d t' :
    cache_Get (cache_Set c t k v d) t' k = Some v ∨ cache_Get (cache_Set c t k v d) t' k = None;
  Get_Set_ne c t k v d t' k' :
    k ≠ k' → cache_Get (cache_Set c t k v d) t' k' = cache_Get c t' k';
  Get_Delete_eq c t k : cache_Get (cache_Delete c k) t k = None;
  Get_Delete_ne c t k k' : k ≠ k' → cache_Get (cache_Delete c k) t k' = cache_Get c t k';
  Items_Get c t k v : (k, v) ∈ cache_Items c t ↔ cache_Get c t k = Some v;
  (** An expired item does not come back. *)
  Get_mono c t t' k v :
    (t ≤ t')%Z → cache_Get c t' k = Some v → cache_Get c t k = Some v;
  Get_Flush c t k : cache_Get (cache_Flush c) t k = None;
  expiration_Set c t k v d : cache_expiration (cache_Set c t k v d) = cache_expiration c;
  expiration_Delete c k : cache_expiration (cache_Delete c k) = cache_expiration c;
}.

(** ** Redis

    A command is a transition of the server as the client sees it: it may fail
    (network, timeout, wrong type) and then nothing is known of the state after.
    [RedisNil] is the error go-redis returns for an absent field. *)

Inductive redis_error := RedisNil | RedisErr (msg : string).

#[export] Instance redis_error_eq_dec : EqDecision redis_error.
Proof. solve_decision. Defined.

Definition RedisM (R A : Type) : Type := R → result redis_error A * R.

Definition rret {R A} (a : A) : RedisM R A := λ r, (Ok a, r).
Definition rbind {R A B} (m : RedisM R A) (f : A → RedisM R B) : RedisM R B :=
  λ r, match m r with (Ok a, r') => f a r' | (Err e, r') => (Err e, r') end.

Notation "x '<-r' m ;; k" := (rbind m (λ x, k))
  (at level 100, m at next level, right associativity) : go_scope.

Class RedisClient (R : Type) := {
  Ping : RedisM R unit;
  SMIsMember : string → list string → RedisM R (list bool);
  SAdd : string → list string → RedisM R Z;
  SRem : string → list string → RedisM R Z;
  SMembers : string → RedisM R (list string);
  HGet : string → string → RedisM R string;
  HSet : string → string → string → RedisM R Z;
  HDel : string → string → RedisM R Z;
  HGetAll : string → RedisM R (gmap string string);
  Publish : string → string → RedisM R Z;
  (** [redis.NewScript(...).Run]: the script as the server executes it. *)
  RunScript : RedisM R Z → RedisM R Z;
  ZREMRANGEBYSCORE : string → Z → Z → RedisM R Z;
  ZCARD : string → RedisM R Z;
  ZADD : string → Z → string → RedisM R Z;
  EXPIRE : string → Z → RedisM R Z;
}.

Inductive redis_value :=
| RSet (s : gset string)
| RHash (h : gmap string string)
| RZSet (z : gmap string Z).

(** What can be observed of a server: whether it answers, the live value and the
    remaining time to live (milliseconds) of each key, and the messages published
    so far, newest last.  [redis_elapse] lets the server's clock run. *)
Class RedisView (R : Type) := {
  redis_up : R → bool;
  redis_get : R → string → option redis_value;
  redis_ttl : R → string → option Z;
  redis_published : R → list (string * string);
  redis_elapse : Z → R → R;
}.

(** An absent key reads as the empty set, hash or sorted set; a key of another
    type makes the command fail. *)
Definition as_set (v : option redis_value) : option (gset string) :=
  match v with None => Some ∅ | Some (RSet s) => Some s | _ => None end.
Definition as_hash (v : option redis_value) : option (gmap string string) :=
  match v with None => Some ∅ | Some (RHash h) => Some h | _ => None end.
Definition as_zset (v : option redis_value) : option (gmap string Z) :=
  match v with None => Some ∅ | Some (RZSet z) => Some z | _ => None end.

(** The command touched key [k] only. *)
Definition redis_frame `{RedisView R} (k : string) (r r' : R) : Prop :=
  redis_up r' = true ∧ redis_published r' = redis_published r ∧
  ∀ k', k' ≠ k → redis_get r' k' = redis_get r k' ∧ redis_ttl r' k' = redis_ttl r k'.

Lemma redis_frame_refl `{RedisView R} k r : redis_up r = true → redis_frame k r r.
Proof. by intros ?. Qed.

Lemma redis_frame_trans `{RedisView R} k r1 r2 r3 :
  redis_frame k r1 r2 → redis_frame k r2 r3 → redis_frame k r1 r3.
Proof.
  intros (_ & P12 & F12) (U3 & P23 & F23). split_and!; [done | congruence |].
  intros k' Hne. destruct (F12 k' Hne), (F23 k' Hne). split; congruence.
Qed.

Class RedisLaws (R : Type) `{RedisClient R, RedisView R} := {
  Ping_up r : redis_up r = true → Ping r = (Ok tt, r);
  SMIsMember_up r k ms s :
    redis_up r = true → as_set (redis_get r k) = Some s → ms ≠ [] →
    SMIsMember k ms r = (Ok ((λ m, bool_decide (m ∈ s)) <$> ms), r);
  SAdd_up r k ms s :
    redis_up r = true → as_set (redis_get r k) = Some s → ms ≠ [] →
    ∃ n r', SAdd k ms r = (Ok n, r') ∧ redis_frame k r r' ∧
      as_set (redis_get r' k) = Some (s ∪ list_to_set ms);
  SRem_up r k ms s :
    redis_up r = true → as_set (redis_get r k) = Some s → ms ≠ [] →
    ∃ n r', SRem k ms r = (Ok n, r') ∧ redis_frame k r r' ∧
      as_set (redis_get r' k) = Some (s ∖ list_to_set ms);
  SMembers_up r k s :
    redis_up r = true → as_set (redis_get r k) = Some s →
    ∃ l, SMembers k r = (Ok l, r) ∧ l ≡ₚ elements s;
  HGet_up r k f h :
    redis_up r = true → as_hash (redis_get r k) = Some h →
    HGet k f r = (match h !! f with Some v => Ok v | None => Err RedisNil end, r);
  HSet_up r k f v h :
    redis_up r = true → as_hash (redis_get r k) = Some h →
    ∃ n r', HSet k f v r = (Ok n, r') ∧ redis_frame k r r' ∧
      as_hash (redis_get r' k) = Some (<[f := v]> h);
  HDel_up r k f h :
    redis_up r = true → as_hash (redis_get r k) = Some h →
    ∃ n r', HDel k f r = (Ok n, r') ∧ redis_frame k r r' ∧
      as_hash (redis_get r' k) = Some (delete f h);
  HGetAll_up r k h :
    redis_up r = true → as_hash (redis_get r k) = Some h → HGetAll k r = (Ok h, r);
  Publish_up r ch msg :
    redis_up r = true →
    ∃ n r', Publish ch msg r = (Ok n, r') ∧ redis_up r' = true ∧
      redis_published r' = (redis_published r ++ [(ch, msg)])%list ∧
      (∀ k, redis_get r' k = redis_get r k ∧ redis_ttl r' k = redis_ttl r k);
  RunScript_up r s : redis_up r = true → RunScript s r = s r;
  (** Members with a score between the bounds, both included, are removed; an
      emptied sorted set is deleted, and its deadline with it. *)
  ZREMRANGEBYSCORE_up r k lo hi z :
    redis_up r = true → as_zset (redis_get r k) = Some z →
    let z' := filter (λ ms : string * Z, ¬ (lo ≤ ms.2 ≤ hi)%Z) z in
    ∃ n r', ZREMRANGEBYSCORE k lo hi r = (Ok n, r') ∧ redis_frame k r r' ∧
      as_zset (redis_get r' k) = Some z' ∧
      (z' ≠ ∅ → redis_ttl r' k = redis_ttl r k);
  ZCARD_up r k z :
    redis_up r = true → as_zset (redis_get r k) = Some z →
    ZCARD k r = (Ok (Z.of_nat (size z)), r);
  ZADD_up r k score m z :
    redis_up r = true → as_zset (redis_get r k) = Some z →
    ∃ n r', ZADD k score m r = (Ok n, r') ∧ redis_frame k r r' ∧
      as_zset (redis_get r' k) = Some (<[m := score]> z);
  EXPIRE_up r k secs v :
    redis_up r = true → redis_get r k = Some v → (0 < secs)%Z →
    ∃ n r', EXPIRE k secs r = (Ok n, r') ∧ redis_frame k r r' ∧
      redis_get r' k = Some v ∧ redis_ttl r' k = Some (secs * 1000)%Z;
  elapse_up d r : redis_up (redis_elapse d r) = redis_up r;
  elapse_get d r k :
    (0 ≤ d)%Z →
    redis_get (redis_elapse d r) k =
      match redis_ttl r k with
      | Some t => if Z.leb t d then None else redis_get r k
      | None => redis_get r k
      end;
  elapse_ttl d r k :
    (0 ≤ d)%Z →
    redis_ttl (redis_elapse d r) k =
      match redis_ttl r k with
      | Some t => if Z.leb t d then None else Some (t - d)%Z
      | None => None
      end;
  elapse_published d r : redis_published (redis_elapse d r) = redis_published r;
  (** The commands on sets and hashes set no deadline. *)
  persistent_commands r k : redis_ttl r k = None →
    (∀ ms, redis_ttl (SAdd k ms r).2 k = None) ∧ (∀ ms, redis_ttl (SRem k ms r).2 k = None) ∧
    (∀ f v, redis_ttl (HSet k f v r).2 k = None) ∧ (∀ f, redis_ttl (HDel k f r).2 k = None);
}.

(** ** miekg/dns

    The fields of [dns.Msg] the program reads or writes. *)

Record Question := { q_Name : string; q_Qtype : Z }.

Record RR_Header := { h_Name : string; h_Rrtype : Z; h_Class : Z; h_Ttl : Z }.

Inductive RR :=
| RR_A (hdr : RR_Header) (ip : list Z)
| RR_AAAA (hdr : RR_Header) (ip : list Z)
| RR_other (hdr : RR_Header) (rdata : string).

Definition RR_hdr (rr : RR) : RR_Header :=
  match rr with RR_A h _ => h | RR_AAAA h _ => h | RR_other h _ => h end.

Record Msg := {
  m_Id : Z;
  m_Response : bool;
  m_RecursionDesired : bool;
  m_Rcode : Z;
  m_Question : list Question;
  m_Answer : list RR;
  m_Ns : list RR;
}.

#[export] Instance Question_eq_dec : EqDecision Question.
Proof. solve_decision. Defined.
#[export] Instance RR_Header_eq_dec : EqDecision RR_Header.
Proof. solve_decision. Defined.
#[export] Instance RR_eq_dec : EqDecision RR.
Proof. solve_decision. Defined.
#[export] Instance Msg_eq_dec : EqDecision Msg.
Proof. solve_decision. Defined.

Definition TypeA : Z := 1.
Definition TypeAAAA : Z := 28.
Definition ClassINET : Z := 1.
Definition RcodeSuccess : Z := 0.
Definition RcodeServerFailure : Z := 2.
Definition RcodeNameError : Z := 3.
Definition RcodeRefused : Z := 5.

(** [SetReply req] is [new(dns.Msg).SetReply(req)]; [TypeToString] is the map of
    that name, an unlisted type reading as the empty string. *)
Class DnsLib := {
  SetReply : Msg → Msg;
  TypeToString : Z → string;
  Pack : Msg → result string (list byte);
  Unpack : list byte → result string Msg;
}.

Class DnsLibLaws `{DnsLib} := {
  SetReply_Id m : m_Id (SetReply m) = m_Id m;
  SetReply_Response m : m_Response (SetReply m) = true;
  SetReply_Question m : m_Question (SetReply m) = take 1 (m_Question m);
  SetReply_Answer m : m_Answer (SetReply m) = [];
}.

(** [Client.Exchange(msg, addr)] on the network [N]; a nil reply is [None]. *)
Class DnsNet (N : Type) := {
  Exchange : Msg → string → N → result string (option Msg) * N;
}.

(** The interface [dns.ResponseWriter]: [RemoteAddr().Network()],
    [RemoteAddr().String()] and [WriteMsg]. *)
Class ResponseWriter (W : Type) := {
  rw_Network : W → string;
  rw_RemoteAddr : W → string;
  WriteMsg : Msg → W → result string unit * W;
}.

(** ** ClickHouse

    A connection [K] prepares a batch [B] for an insert statement; rows of type [Row] are
    appended to the batch and sent together. *)
Class ClickHouse (Row K B : Type) := {
  PrepareBatch : string → K → result string B * K;
  Append : Row → B → result string unit * B;
  Send : B → K → result string unit * K;
}.

(** The rows of the table and of a batch.  A statement that cannot be prepared inserts
    nothing, a row that is appended is in the batch, and a batch that is sent is
    inserted whole. *)
Class ClickHouseLaws (Row K B : Type) `{ClickHouse Row K B} := {
  table : K → list Row;
  pending : B → list Row;
  Prepare_ok q k b k' : PrepareBatch q k = (Ok b, k') → pending b = [] ∧ table k' = table k;
  Prepare_err q k e k' : PrepareBatch q k = (Err e, k') → table k' = table k;
  Append_ok row b b' : Append row b = (Ok tt, b') → pending b' = (pending b ++ [row])%list;
  Send_ok b k k' : Send b k = (Ok tt, k') → table k' = (table k ++ pending b)%list;
}.

(** [clickhouse.Open(&clickhouse.Options{...})] and [conn.Ping]; durations are
    nanoseconds. *)
Record ch_Options := {
  opt_Addr : list string;
  opt_Database : string;
  opt_Username : string;
  opt_Password : string;
  opt_Settings : list (string * Z);
  opt_Compression : string;
  opt_MaxOpenConns : Z;
  opt_MaxIdleConns : Z;
  opt_ConnMaxLifetime : Z;
}.

Record ch_driver (K : Type) := {
  ch_Open : ch_Options → result string K;
  ch_Ping : K → result string unit * K;
}.
Arguments ch_Open {K} c.
Arguments ch_Ping {K} c.

(** A select: the results of scanning the rows received, one after the other, and the
    error, if any, that ended the stream ([rows.Err()]). *)
Inductive ch_arg := ArgString (s : string) | ArgInt (z : Z).

Record Rows (Row : Type) := { rows_scanned : list (result string Row); rows_Err : option string }.
Arguments rows_scanned {Row} r.
Arguments rows_Err {Row} r.

Class ClickHouseQuery (Row K : Type) := {
  ch_Query : string → list ch_arg → K → result string (Rows Row) * K;
}.

(** ** Prometheus

    A collector is described by its kind, its name, its help text and its labels; bucket
    bounds are microseconds.  [metric_Add d values x] is
    [c.WithLabelValues(values...).Inc()], [.Add] or [.Observe] on the collector [c] that [d]
    describes; it panics when the values are not as many as the labels or not valid UTF-8. *)
Inductive metric_kind := CounterKind | HistogramKind (buckets : list Z).

Record metric_desc := mkDesc {
  md_kind : metric_kind;
  md_name : string;
  md_help : string;
  md_labels : list string;
}.

#[export] Instance metric_desc_eq_dec : EqDecision metric_desc.
Proof. unfold EqDecision. intros [k1 ? ? ?] [k2 ? ? ?]. assert (EqDecision metric_kind) by (unfold EqDecision; solve_decision). solve_decision. Defined.

Class Prometheus (Reg : Type) := {
  MustRegister : list metric_desc → Reg → outcome Reg;
  metric_Add : metric_desc → list string → Z → Reg → outcome Reg;
}.

(** [[a-zA-Z_:]] and [[a-zA-Z0-9_:]], the colon for metrics only. *)
Definition name_char (first colon : bool) (c : Ascii.ascii) : bool :=
  let n := Ascii.N_of_ascii c in
  (N.leb 97 n && N.leb n 122) || (N.leb 65 n && N.leb n 90) || N.eqb n 95 || (colon && N.eqb n 58) ||
  (negb first && N.leb 48 n && N.leb n 57).

Definition name_ok (colon : bool) (s : string) : bool :=
  match chars s with [] => false | c :: cs => name_char true colon c && forallb (name_char false colon) cs end.

Fixpoint increasing (l : list Z) : bool :=
  match l with x :: ((y :: _) as l') => Z.ltb x y && increasing l' | _ => true end.

Definition desc_ok (d : metric_desc) : bool :=
  name_ok true (md_name d) && forallb (λ l, name_ok false l && negb (HasPrefix l "__")) (md_labels d) &&
  bool_decide (NoDup (md_labels d)) &&
  match md_kind d with
  | CounterKind => true
  | HistogramKind buckets => increasing buckets && bool_decide ("le" ∉ md_labels d)
  end.

Class PrometheusLaws (Reg : Type) `{Prometheus Reg} := {
  metrics_registered : Reg → list metric_desc;
  metric_samples : Reg → metric_desc → list (list string * Z);
  MustRegister_ok r ds :
    forallb desc_ok ds = true → NoDup (md_name <$> (metrics_registered r ++ ds)%list) →
    ∃ r', MustRegister ds r = Ret r' ∧ metrics_registered r' = (metrics_registered r ++ ds)%list ∧
      ∀ d, metric_samples r' d = metric_samples r d;
  metric_Add_ok r d values x :
    d ∈ metrics_registered r → List.length values = List.length (md_labels d) →
    Forall (λ v, Utf8.valid (chars v)) values → (md_kind d = CounterKind → 0 ≤ x)%Z →
    ∃ r', metric_Add d values x r = Ret r' ∧ metrics_registered r' = metrics_registered r ∧
      metric_samples r' d = (metric_samples r d ++ [(values, x)])%list ∧
      ∀ d', d' ≠ d → metric_samples r' d' = metric_samples r d';
}.

(** ** gin

    What a handler reads of its [*gin.Context].  [ShouldBindJSON] decodes the body into a
    structure of type [Q] and validates it; [fields] are the string fields of [Q] that are
    tagged [binding:required].  Decoding JSON yields valid UTF-8. *)
Class GinContext (G : Type) := {
  GetHeader : G → string → string;
  c_Query : G → string → string;
  ClientIP : G → string;
}.

Class GinBinding (G Q : Type) := { ShouldBindJSON : G → result string Q }.

Class GinBindingLaws (G Q : Type) `{GinBinding G Q} (fields : Q → list string) := {
  bound_fields g q : ShouldBindJSON g = Ok q →
    Forall (λ s, s ≠ EmptyString ∧ Utf8.valid (chars s)) (fields q);
}.

(** ** Keys and certificates

    Randomness, keys and the files a certificate is read from.  [CreateCertificate] signs a
    template with a key of its own; [KeyPair] is the value [tls.Certificate]. *)

Record CertTemplate := {
  SerialNumber : Z; CommonName : string; Organization : list string;
  DNSNames : list string; IPAddresses : list (option (list Z));
  NotBefore : Z; NotAfter : Z; KeyUsage : Z; ExtKeyUsage : list Z; BasicConstraintsValid : bool;
}.

Class X509 (Key Cert : Type) := {
  LoadX509KeyPair : string → string → result string Cert;
  GenerateKey : result string Key;
  rand_Int : Z → result string Z;
  CreateCertificate : CertTemplate → Key → result string (list byte);
  KeyPair : list byte → Key → Cert;
}.
