(* ===== verification/Models.v ===== *)
(** * Concrete instances of the interfaces

    One executable instance per interface of [External.v], so that the theorems
    stated against an interface can be evaluated on concrete inputs.  No component
    is defined in terms of this file. *)

From Stdlib Require Import Strings.String.
From S2P Require Import Prelude.
From S2P Require Import GoStrings.
From S2P Require Import GoUtf8.
From S2P Require Import External.

(** ** A cache as a finite map of values with deadlines *)
Module MapCache.
Record t (V : Type) := mk { entries : gmap string (V * option Z); expiration : Z }.
Arguments mk {V} entries expiration.
Arguments entries {V} t.
Arguments expiration {V} t.

Definition live {V} (now : Z) (e : V * option Z) : bool :=
  match e.2 with Some t => Z.leb now t | None => true end.

Definition dur {V} (c : t V) (d : Z) : Z := if Z.eqb d 0 then expiration c else d.
Definition deadline (now d : Z) : option Z := if Z.ltb 0 d then Some (now + d)%Z else None.

#[global] Instance gocache V : GoCache V (t V) := {
  cache_New d _ := mk ∅ d;
  cache_expiration := expiration;
  cache_Get c now k :=
    e ← entries c !! k; if live now e then Some e.1 else None;
  cache_Set c now k v d := mk (<[k := (v, deadline now (dur c d))]> (entries c)) (expiration c);
  cache_Delete c k := mk (delete k (entries c)) (expiration c);
  cache_Items c now :=
    omap (λ ke, if live now ke.2 then Some (ke.1, ke.2.1) else None) (map_to_list (entries c));
  cache_Flush c := mk ∅ (expiration c);
}.

Lemma Items_iff {V} (c : t V) now k v :
  (k, v) ∈ cache_Items c now ↔ cache_Get c now k = Some v.
Proof.
  simpl. rewrite list_elem_of_omap. split.
  - intros ([k' e] & Hin & H). simpl in H. destruct (live now e) eqn:E; [|done].
    simplify_eq. apply elem_of_map_to_list in Hin. rewrite Hin. simpl. by rewrite E.
  - destruct (entries c !! k) as [e|] eqn:Hk; simpl; [|done].
    destruct (live now e) eqn:E; [|done]. intros [= <-].
    exists (k, e). split; [by apply elem_of_map_to_list|]. simpl. by rewrite E.
Qed.

Lemma set_get {V} (c : t V) now k v d t' :
  cache_Get (cache_Set c now k v d) t' k =
    if live t' (v, deadline now (cache_duration c d)) then Some v else None.
Proof. simpl. by rewrite lookup_insert_eq. Qed.

#[global] Instance gocache_laws V : GoCacheLaws V (t V).
Proof.
  split; try done.
  - intros c now k v d t' H. rewrite set_get. unfold live, deadline. simpl.
    rewrite (proj2 (Z.ltb_lt 0 _)) by lia. by rewrite (proj2 (Z.leb_le t' _)) by lia.
  - intros c now k v d H. rewrite set_get. unfold live, deadline. simpl.
    rewrite (proj2 (Z.ltb_lt 0 _)) by lia. by rewrite (proj2 (Z.leb_le _ _)) by lia.
  - intros c now k v d t' H H'. rewrite set_get. unfold live, deadline. simpl.
    rewrite (proj2 (Z.ltb_lt 0 _)) by lia. by rewrite (proj2 (Z.leb_gt t' _)) by lia.
  - intros c now k v d t'. rewrite set_get. case_match; auto.
  - intros c now k v d t' k' H. simpl. by rewrite lookup_insert_ne.
  - intros c now k. simpl. by rewrite lookup_delete_eq.
  - intros c now k k' H. simpl. by rewrite lookup_delete_ne.
  - intros. apply Items_iff.
  - intros c now now' k v Hle. simpl. destruct (entries c !! k) as [e|]; simpl; [|done].
    unfold live. destruct e.2 as [u|]; [|done].
    destruct (Z.leb_spec now' u); [|done]. by rewrite (proj2 (Z.leb_le now u)) by lia.
Qed.
End MapCache.

(** ** A Redis server as a finite map of values with deadlines *)
Module MapRedis.
Record t := mk {
  up : bool;
  keys : gmap string (redis_value * option Z);
  published : list (string * string);
}.

Definition empty : t := mk true ∅ [].

Definition get (r : t) (k : string) : option redis_value := fst <$> keys r !! k.
Definition ttl (r : t) (k : string) : option Z := keys r !! k ≫= snd.

Definition put (k : string) (v : redis_value) (r : t) : t :=
  mk (up r) (<[k := (v, ttl r k)]> (keys r)) (published r).
Definition del (k : string) (r : t) : t := mk (up r) (delete k (keys r)) (published r).

Definition elapse (d : Z) (r : t) : t :=
  mk (up r)
    (omap (λ vt : redis_value * option Z,
       match vt.2 with
       | Some u => if Z.leb u d then None else Some (vt.1, Some (u - d)%Z)
       | None => Some vt
       end) (keys r))
    (published r).

Definition fail {A} : RedisM t A := λ r, (Err (RedisErr "down"), r).
Definition wrongtype {A} : RedisM t A := λ r, (Err (RedisErr "WRONGTYPE"), r).

Definition on {A B} (read : option redis_value → option A) (k : string)
    (f : A → t → B * t) : RedisM t B :=
  λ r, if up r then
    match read (get r k) with
    | Some a => let '(b, r') := f a r in (Ok b, r')
    | None => wrongtype r
    end
  else fail r.

(** Writing back an empty collection deletes the key. *)
Definition put_set k (s : gset string) r := if decide (s = ∅) then del k r else put k (RSet s) r.
Definition put_hash k (h : gmap string string) r :=
  if decide (h = ∅) then del k r else put k (RHash h) r.
Definition put_zset k (z : gmap string Z) r :=
  if decide (z = ∅) then del k r else put k (RZSet z) r.

#[global] Instance client : RedisClient t := {
  Ping r := if up r then (Ok tt, r) else fail r;
  SMIsMember k ms := on as_set k (λ s r, ((λ m, bool_decide (m ∈ s)) <$> ms, r));
  SAdd k ms := on as_set k (λ s r,
    (Z.of_nat (size (list_to_set ms ∖ s)), put_set k (s ∪ list_to_set ms) r));
  SRem k ms := on as_set k (λ s r,
    (Z.of_nat (size (list_to_set ms ∩ s)), put_set k (s ∖ list_to_set ms) r));
  SMembers k := on as_set k (λ s r, (elements s, r));
  HGet k f r :=
    match on as_hash k (λ h r, (h !! f, r)) r with
    | (Ok (Some v), r') => (Ok v, r')
    | (Ok None, r') => (Err RedisNil, r')
    | (Err e, r') => (Err e, r')
    end;
  HSet k f v := on as_hash k (λ h r,
    (if h !! f then 0%Z else 1%Z, put_hash k (<[f := v]> h) r));
  HDel k f := on as_hash k (λ h r,
    (if h !! f then 1%Z else 0%Z, put_hash k (delete f h) r));
  HGetAll k := on as_hash k (λ h r, (h, r));
  Publish ch msg r :=
    if up r then (Ok 1%Z, mk true (keys r) (published r ++ [(ch, msg)])%list) else fail r;
  RunScript s := λ r, if up r then s r else fail r;
  ZREMRANGEBYSCORE k lo hi := on as_zset k (λ z r,
    let z' := filter (λ ms : string * Z, ¬ (lo ≤ ms.2 ≤ hi)%Z) z in
    ((Z.of_nat (size z) - Z.of_nat (size z'))%Z, put_zset k z' r));
  ZCARD k := on as_zset k (λ z r, (Z.of_nat (size z), r));
  ZADD k score m := on as_zset k (λ z r,
    (if z !! m then 0%Z else 1%Z, put_zset k (<[m := score]> z) r));
  EXPIRE k secs := λ r, if up r then
      match keys r !! k with
      | Some vt => (Ok 1%Z, if Z.ltb 0 secs
          then mk true (<[k := (vt.1, Some (secs * 1000)%Z)]> (keys r)) (published r)
          else del k r)
      | None => (Ok 0%Z, r)
      end
    else fail r;
}.

#[global] Instance view : RedisView t := {
  redis_up := up;
  redis_get := get;
  redis_ttl := ttl;
  redis_published := published;
  redis_elapse := elapse;
}.

Lemma get_put k v r k' : get (put k v r) k' = if decide (k = k') then Some v else get r k'.
Proof. unfold get, put. simpl. rewrite lookup_insert. by case_decide. Qed.

Lemma ttl_put k v r k' : ttl (put k v r) k' = ttl r k'.
Proof. unfold ttl at 1, put. simpl. rewrite lookup_insert. by case_decide; subst. Qed.

Lemma get_del k r k' : get (del k r) k' = if decide (k = k') then None else get r k'.
Proof. unfold get, del. simpl. rewrite lookup_delete. by case_decide. Qed.

Lemma ttl_del k r k' : k ≠ k' → ttl (del k r) k' = ttl r k'.
Proof. intros. unfold ttl, del. simpl. by rewrite lookup_delete_ne. Qed.

Lemma frame_put k v r : up r = true → redis_frame k r (put k v r).
Proof.
  intros Hup. split_and!; [done | done |]. intros k' Hne. simpl.
  rewrite get_put, ttl_put. by rewrite decide_False by congruence.
Qed.

Lemma frame_del k r : up r = true → redis_frame k r (del k r).
Proof.
  intros Hup. split_and!; [done | done |]. intros k' Hne. simpl.
  rewrite get_del, ttl_del by congruence. by rewrite decide_False by congruence.
Qed.

Lemma put_set_spec k s r : up r = true →
  redis_frame k r (put_set k s r) ∧ as_set (get (put_set k s r) k) = Some s.
Proof.
  intros Hup. unfold put_set. case_decide as E.
  - split; [by apply frame_del|]. rewrite get_del, decide_True by done. simpl. by rewrite E.
  - split; [by apply frame_put|]. by rewrite get_put, decide_True.
Qed.

Lemma put_hash_spec k h r : up r = true →
  redis_frame k r (put_hash k h r) ∧ as_hash (get (put_hash k h r) k) = Some h.
Proof.
  intros Hup. unfold put_hash. case_decide as E.
  - split; [by apply frame_del|]. rewrite get_del, decide_True by done. simpl. by rewrite E.
  - split; [by apply frame_put|]. by rewrite get_put, decide_True.
Qed.

Lemma put_zset_spec k z r : up r = true →
  redis_frame k r (put_zset k z r) ∧ as_zset (get (put_zset k z r) k) = Some z ∧
  (z ≠ ∅ → ttl (put_zset k z r) k = ttl r k).
Proof.
  intros Hup. unfold put_zset. case_decide as E.
  - split_and!; [by apply frame_del| |done]. rewrite get_del, decide_True by done.
    simpl. by rewrite E.
  - split_and!; [by apply frame_put| |]; [by rewrite get_put, decide_True|].
    intros _. apply ttl_put.
Qed.

Lemma on_ok {A B} (read : option redis_value → option A) k (f : A → t → B * t) r a :
  up r = true → read (get r k) = Some a →
  on read k f r = (let '(b, r') := f a r in (Ok b, r')).
Proof. intros Hup Ha. unfold on. by rewrite Hup, Ha. Qed.

Lemma get_elapse d r k :
  get (elapse d r) k =
    match ttl r k with
    | Some u => if Z.leb u d then None else get r k
    | None => get r k
    end.
Proof.
  unfold get, ttl, elapse. simpl. rewrite lookup_omap.
  destruct (keys r !! k) as [[v [u|]]|]; simpl; [|done..]. by destruct (Z.leb u d).
Qed.

Lemma ttl_elapse d r k :
  ttl (elapse d r) k =
    match ttl r k with
    | Some u => if Z.leb u d then None else Some (u - d)%Z
    | None => None
    end.
Proof.
  unfold ttl, elapse. simpl. rewrite lookup_omap.
  destruct (keys r !! k) as [[v [u|]]|]; simpl; [|done..]. by destruct (Z.leb u d).
Qed.

Lemma ttl_del_None k r : ttl (del k r) k = None.
Proof. unfold ttl, del. simpl. by rewrite lookup_delete_eq. Qed.

(** Writing a set or a hash back keeps a key without a deadline. *)
Lemma persistent_on {A B} (read : option redis_value → option A) k (f : A → B) (g : A → t → t) r :
  (∀ a r, ttl (g a r) k = ttl r k ∨ ttl (g a r) k = None) → ttl r k = None →
  ttl (on read k (λ a r, (f a, g a r)) r).2 k = None.
Proof.
  intros Hg Hk. unfold on, fail, wrongtype. destruct (up r); [|done]. destruct (read (get r k)) as [a|]; [|done]. simpl.
  destruct (Hg a r) as [-> | ->]; done.
Qed.

Lemma put_set_ttl k s r : ttl (put_set k s r) k = ttl r k ∨ ttl (put_set k s r) k = None.
Proof. unfold put_set. case_decide; [right; apply ttl_del_None|left; apply ttl_put]. Qed.

Lemma put_hash_ttl k h r : ttl (put_hash k h r) k = ttl r k ∨ ttl (put_hash k h r) k = None.
Proof. unfold put_hash. case_decide; [right; apply ttl_del_None|left; apply ttl_put]. Qed.

#[global] Instance laws : RedisLaws t.
Proof.
  split.
  - intros r Hup. simpl in *. by rewrite Hup.
  - intros r k ms s Hup Hs _. simpl in *. by rewrite (on_ok _ _ _ _ s).
  - intros r k ms s Hup Hs _. simpl in *. rewrite (on_ok _ _ _ _ s) by done.
    do 2 eexists. split; [done|]. by apply put_set_spec.
  - intros r k ms s Hup Hs _. simpl in *. rewrite (on_ok _ _ _ _ s) by done.
    do 2 eexists. split; [done|]. by apply put_set_spec.
  - intros r k s Hup Hs. simpl in *. rewrite (on_ok _ _ _ _ s) by done. eauto.
  - intros r k f h Hup Hh. simpl in *. rewrite (on_ok _ _ _ _ h) by done. by destruct (h !! f).
  - intros r k f v h Hup Hh. simpl in *. rewrite (on_ok _ _ _ _ h) by done.
    do 2 eexists. split; [done|]. by apply put_hash_spec.
  - intros r k f h Hup Hh. simpl in *. rewrite (on_ok _ _ _ _ h) by done.
    do 2 eexists. split; [done|]. by apply put_hash_spec.
  - intros r k h Hup Hh. simpl in *. by rewrite (on_ok _ _ _ _ h).
  - intros r ch msg Hup. simpl in *. rewrite Hup. by do 2 eexists.
  - intros r s Hup. simpl in *. by rewrite Hup.
  - intros r k lo hi z Hup Hz. simpl in *. rewrite (on_ok _ _ _ _ z) by done.
    do 2 eexists. split; [done|]. by apply put_zset_spec.
  - intros r k z Hup Hz. simpl in *. by rewrite (on_ok _ _ _ _ z).
  - intros r k score m z Hup Hz. simpl in *. rewrite (on_ok _ _ _ _ z) by done.
    do 2 eexists. split; [done|].
    destruct (put_zset_spec k (<[m:=score]> z) r Hup) as (? & ? & _). done.
  - intros r k secs v Hup Hv Hs. simpl in *. rewrite Hup. unfold get in Hv.
    destruct (keys r !! k) as [vt|] eqn:Hk; simpl in Hv; [|done]. simplify_eq.
    rewrite (proj2 (Z.ltb_lt 0 secs)) by done. do 2 eexists. split; [done|].
    unfold redis_frame, get, ttl. simpl. rewrite lookup_insert_eq. split_and!; try done.
    intros k' Hne. unfold get, ttl. simpl. by rewrite lookup_insert_ne by congruence.
  - done.
  - intros. apply get_elapse.
  - intros. apply ttl_elapse.
  - done.
  - intros r k Hk. split; [|split; [|split]]; intros.
    + by apply (persistent_on as_set k); [intros; apply put_set_ttl|].
    + by apply (persistent_on as_set k); [intros; apply put_set_ttl|].
    + by apply (persistent_on as_hash k); [intros; apply put_hash_ttl|].
    + by apply (persistent_on as_hash k); [intros; apply put_hash_ttl|].
Qed.
End MapRedis.

(** ** Messages, the network to the resolver, and the connection to a client

    The wire format is the library's: here [Pack] keeps the identifier and a result code that
    is not a success, and [Unpack] reads an identifier, the type of a question and its name. *)
Module SimpleDns.
Definition type_name (ty : Z) : string :=
  if Z.eqb ty 1 then "A" else if Z.eqb ty 28 then "AAAA" else if Z.eqb ty 5 then "CNAME"
  else if Z.eqb ty 65 then "HTTPS" else EmptyString.

Definition byte_of_Z (z : Z) : byte :=
  match Byte.of_N (Z.to_N (z mod 256)) with Some b => b | None => x00 end.

#[global] Instance lib : DnsLib := {
  SetReply m :=
    {| m_Id := m_Id m; m_Response := true; m_RecursionDesired := m_RecursionDesired m;
       m_Rcode := RcodeSuccess; m_Question := take 1 (m_Question m); m_Answer := []; m_Ns := [] |};
  TypeToString := type_name;
  Pack m := Ok ([byte_of_Z (m_Id m / 256); byte_of_Z (m_Id m)] ++
                if Z.eqb (m_Rcode m) RcodeSuccess then [] else [byte_of_Z (m_Rcode m)])%list;
  Unpack b :=
    let msg hi lo qs :=
      {| m_Id := byte_Z hi * 256 + byte_Z lo; m_Response := false; m_RecursionDesired := false;
         m_Rcode := RcodeSuccess; m_Question := qs; m_Answer := []; m_Ns := [] |} in
    match b with
    | [hi; lo] => Ok (msg hi lo [])
    | hi :: lo :: ty :: name =>
        Ok (msg hi lo [{| q_Name := String.string_of_list_byte name; q_Qtype := byte_Z ty |}])
    | _ => Err "dns: overflow unpacking uint16"
    end;
}.

#[global] Instance laws : DnsLibLaws.
Proof. by split. Qed.
End SimpleDns.

Module ScriptNet.
(** A resolver given by its answers, and the queries it has received. *)
Record t := mk { answer : Msg → string → result string (option Msg); asked : list (Msg * string) }.

#[global] Instance net : DnsNet t := {
  Exchange m addr n := (answer n m addr, mk (answer n) (asked n ++ [(m, addr)])%list);
}.
End ScriptNet.

Module SimpleWriter.
(** A connection to a client: the messages written so far, and whether it is broken. *)
Record t := mk { network : string; remote : string; broken : bool; written : list Msg }.

#[global] Instance writer : ResponseWriter t := {
  rw_Network := network;
  rw_RemoteAddr := remote;
  WriteMsg m w :=
    if broken w then (Err "broken pipe", w)
    else (Ok tt, mk (network w) (remote w) (broken w) (written w ++ [m])%list);
}.
End SimpleWriter.

(** ** A ClickHouse table as a list of rows *)
Module ListTable.
(** [refuses] is the statement's error, [rejects] picks the rows that cannot be appended. *)
Record t (Row : Type) := mk { refuses : bool; rejects : Row → bool; loses : bool; rows : list Row }.
Arguments mk {Row} refuses rejects loses rows.
Arguments refuses {Row} t.
Arguments rejects {Row} t.
Arguments loses {Row} t.
Arguments rows {Row} t.

Record batch (Row : Type) := mkBatch { bad : Row → bool; buffered : list Row }.
Arguments mkBatch {Row} bad buffered.
Arguments bad {Row} b : rename.
Arguments buffered {Row} b : rename.

#[global] Instance clickhouse Row : ClickHouse Row (t Row) (batch Row) := {
  PrepareBatch _ k := if refuses k then (Err "refused", k) else (Ok (mkBatch (rejects k) []), k);
  Append row b :=
    if bad b row then (Err "bad row", b) else (Ok tt, mkBatch (bad b) (buffered b ++ [row])%list);
  Send b k :=
    if loses k then (Err "connection lost", k)
    else (Ok tt, mk (refuses k) (rejects k) (loses k) (rows k ++ buffered b)%list);
}.

#[global] Instance clickhouse_laws Row : ClickHouseLaws Row (t Row) (batch Row).
Proof.
  refine {| table := rows; pending := buffered |}.
  - intros q k b k'. simpl. destruct (refuses k); [done|]. by intros [= <- <-].
  - intros q k e k'. simpl. destruct (refuses k); [|done]. by intros [= <- <-].
  - intros row b b'. simpl. destruct (bad b row); [done|]. by intros [= <-].
  - intros b k k'. simpl. destruct (loses k); [done|]. by intros [= <-].
Defined.
End ListTable.

(** ** Requests whose body is a list of strings

    [bind] makes a request structure of them, which is accepted when they are not empty and
    of ASCII characters. *)
Module ListRequest.
Record t := mk { headers : list (string * string); query : list (string * string); from : string; body : list string }.

Definition find (k : string) (l : list (string * string)) : string :=
  match list_find (λ kv, kv.1 = k) l with Some (_, kv) => kv.2 | None => EmptyString end.

#[global] Instance gin : GinContext t := {
  GetHeader g k := find k (headers g);
  c_Query g k := find k (query g);
  ClientIP := from;
}.

Definition field_ok (s : string) : bool := negb (String.eqb s EmptyString) && is_ascii s.

Definition bind {Q} (make : list string → option Q) (fields : Q → list string) (g : t) : result string Q :=
  match make (body g) with
  | Some q => if forallb field_ok (fields q) then Ok q else Err "required"
  | None => Err "EOF"
  end.

Lemma field_ok_valid s : field_ok s = true → s ≠ EmptyString ∧ Utf8.valid (chars s).
Proof.
  unfold field_ok. intros [He Ha]%andb_true_iff. split.
  - by apply String.eqb_neq, negb_true_iff.
  - by apply Utf8.is_ascii_valid.
Qed.

Lemma bind_fields {Q} (make : list string → option Q) fields g q :
  bind make fields g = Ok q → Forall (λ s, s ≠ EmptyString ∧ Utf8.valid (chars s)) (fields q).
Proof.
  unfold bind. destruct (make (body g)) as [q'|]; [|done]. destruct (forallb field_ok (fields q')) eqn:E; [|done].
  intros [= <-]. apply Forall_forall. intros s Hs%list_elem_of_In. rewrite forallb_forall in E.
  by apply field_ok_valid, E.
Qed.
End ListRequest.

(** ** Names of ASCII letters only: the Unicode tables are not consulted *)
Definition ascii_tables : UnicodeTables := {| map_unicode_lower := lower_ascii |}.

(** ** A registry of collectors as the lists of what was registered and recorded *)
Module ListRegistry.
Record t := mk { descs : list metric_desc; recorded : list (metric_desc * list string * Z) }.

Definition samples (r : t) (d : metric_desc) : list (list string * Z) :=
  omap (λ s : metric_desc * list string * Z, if decide (s.1.1 = d) then Some (s.1.2, s.2) else None) (recorded r).

#[global] Instance registry : Prometheus t := {
  MustRegister ds r :=
    if forallb desc_ok ds && bool_decide (NoDup (md_name <$> (descs r ++ ds)%list)) then Ret (mk (descs r ++ ds)%list (recorded r))
    else Panic "duplicate metrics collector registration attempted";
  metric_Add d values x r :=
    if decide (List.length values = List.length (md_labels d)) then Ret (mk (descs r) (recorded r ++ [(d, values, x)])%list)
    else Panic "inconsistent label cardinality";
}.

#[global] Instance registry_laws : PrometheusLaws t.
Proof.
  refine {| metrics_registered := descs; metric_samples := samples |}.
  - intros r ds Hok Hnd. cbn. rewrite Hok, bool_decide_true by done. by eexists.
  - intros r d values x _ Hl _ _. cbn. rewrite decide_True by done. eexists. split; [done|]. split; [done|]. unfold samples. cbn.
    split; [|intros d' Hne]; rewrite omap_app; f_equal; cbn; [by rewrite decide_True|].
    rewrite decide_False by done. by rewrite app_nil_r.
Defined.
End ListRegistry.
