(* ===== verification/Metrics.v ===== *)
(** * Metrics: src/internal/metrics/metrics.go

    [Module Metrics] has the three collectors as data, their registration and the calls by
    which the handler and the log aggregator record their samples. *)

From S2P Require Import Prelude.
From S2P Require Import GoStrings.
From Stdlib Require Import Strings.Ascii Strings.String.
From S2P Require Import GoUtf8.
From S2P Require Import External.
From S2P Require Import Models.

Local Open Scope go_scope.

Module Metrics.

Definition DNSQueriesTotal : metric_desc :=
  mkDesc CounterKind "dns_queries_total"
    "Total number of DNS queries processed, partitioned by protocol, status, and query type."
    ["protocol"; "status"; "query_type"].

(** [count] bounds, each [factor] times the one before. *)
Definition ExponentialBuckets (start factor : Z) (count : nat) : list Z :=
  (λ i, start * factor ^ Z.of_nat i)%Z <$> seq 0 count.

(** 0.0005 seconds are 500 microseconds. *)
Definition DNSQueryDurationSeconds : metric_desc :=
  mkDesc (HistogramKind (ExponentialBuckets 500 2 12)) "dns_query_duration_seconds"
    "DNS query processing latency in seconds." ["protocol"; "status"].

Definition AnalyticsDroppedLogs : metric_desc :=
  mkDesc CounterKind "analytics_dropped_logs_total"
    "Total number of analytics log entries dropped because of ClickHouse write failures." [].

Definition collectors : list metric_desc := [DNSQueriesTotal; DNSQueryDurationSeconds; AnalyticsDroppedLogs].

Section metrics.
Context {Reg : Type} `{Prometheus Reg}.

Definition init (reg : Reg) : outcome Reg := MustRegister collectors reg.

(** The two calls of [ProcessQuery]; [elapsed] is in nanoseconds. *)
Definition record_query (protocol status qtype : string) (elapsed : Z) (reg : Reg) : outcome Reg :=
  reg <-@ metric_Add DNSQueriesTotal [protocol; status; qtype] 1 reg ;;
  metric_Add DNSQueryDurationSeconds [protocol; status] elapsed reg.

(** The call of [flushBatch] when a batch of [n] records is lost. *)
Definition record_dropped (n : nat) (reg : Reg) : outcome Reg :=
  metric_Add AnalyticsDroppedLogs [] (Z.of_nat n) reg.

(** A history of queries and of lost batches. *)
Inductive sample := Query (protocol status qtype : string) (elapsed : Z) | Dropped (n : nat).

Fixpoint record_all (l : list sample) (reg : Reg) : outcome Reg :=
  match l with
  | [] => Ret reg
  | s :: l =>
      reg <-@ match s with
              | Query protocol status qtype elapsed => record_query protocol status qtype elapsed reg
              | Dropped n => record_dropped n reg
              end ;;
      record_all l reg
  end.

Definition sample_ok (s : sample) : Prop :=
  match s with
  | Query protocol status qtype _ => Utf8.valid (chars protocol) ∧ Utf8.valid (chars status) ∧ Utf8.valid (chars qtype)
  | Dropped _ => True
  end.

Context `{!PrometheusLaws Reg}.

(** The upper bounds of the histogram: 0.5 ms, doubled up to 1.024 s. *)
Lemma buckets_range : ExponentialBuckets 500 2 12 !! 0 = Some 500%Z ∧ last (ExponentialBuckets 500 2 12) = Some 1024000%Z ∧
  increasing (ExponentialBuckets 500 2 12) = true.
Proof. done. Qed.

(** Registration does not panic: the names and labels are well formed, the bounds increase,
    and no two collectors share a name.  A second registration would. *)
Lemma init_registers (reg : Reg) : metrics_registered reg = [] →
  ∃ reg', init reg = Ret reg' ∧ metrics_registered reg' = collectors ∧ ∀ d, metric_samples reg' d = metric_samples reg d.
Proof.
  intros Hr. destruct (MustRegister_ok reg collectors) as (reg' & E & Hr' & Hs); [by_eval| |].
  - rewrite Hr. apply (bool_decide_unpack _). by_eval.
  - exists reg'. rewrite Hr in Hr'. done.
Qed.

Lemma record_query_ok protocol status qtype elapsed (reg : Reg) : metrics_registered reg = collectors →
  sample_ok (Query protocol status qtype elapsed) →
  ∃ reg', record_query protocol status qtype elapsed reg = Ret reg' ∧ metrics_registered reg' = collectors ∧
    metric_samples reg' DNSQueriesTotal = metric_samples reg DNSQueriesTotal ++ [([protocol; status; qtype], 1%Z)] ∧
    metric_samples reg' DNSQueryDurationSeconds = metric_samples reg DNSQueryDurationSeconds ++ [([protocol; status], elapsed)] ∧
    metric_samples reg' AnalyticsDroppedLogs = metric_samples reg AnalyticsDroppedLogs.
Proof.
  intros Hr (Hp & Hs & Hq). unfold record_query.
  destruct (metric_Add_ok reg DNSQueriesTotal [protocol; status; qtype] 1) as (r1 & -> & H1r & H1s & H1o);
    [rewrite Hr; by left|done|by repeat constructor|lia|]. cbn [outcome_bind].
  destruct (metric_Add_ok r1 DNSQueryDurationSeconds [protocol; status] elapsed) as (r2 & -> & H2r & H2s & H2o);
    [rewrite H1r, Hr; right; by left|done|by repeat constructor|done|].
  exists r2. split; [done|]. split; [congruence|]. rewrite H2s, !H2o, H1s, !H1o by done. done.
Qed.

(** Recording never panics, and the collectors hold every sample, in order, under as many
    values as they have labels. *)
Theorem record_all_kept (l : list sample) (reg : Reg) : metrics_registered reg = collectors → Forall sample_ok l →
  ∃ reg', record_all l reg = Ret reg' ∧ metrics_registered reg' = collectors ∧
    metric_samples reg' DNSQueriesTotal = metric_samples reg DNSQueriesTotal ++
      omap (λ s, match s with Query p st q _ => Some ([p; st; q], 1%Z) | Dropped _ => None end) l ∧
    metric_samples reg' DNSQueryDurationSeconds = metric_samples reg DNSQueryDurationSeconds ++
      omap (λ s, match s with Query p st _ e => Some ([p; st], e) | Dropped _ => None end) l ∧
    metric_samples reg' AnalyticsDroppedLogs = metric_samples reg AnalyticsDroppedLogs ++
      omap (λ s, match s with Query _ _ _ _ => None | Dropped n => Some ([], Z.of_nat n) end) l.
Proof.
  intros Hr Hl. revert reg Hr. induction Hl as [|s l Hs _ IH]; intros reg Hr.
  { exists reg. cbn. by rewrite !app_nil_r. }
  assert (Hone : ∃ r1, match s with
      | Query p st q e => record_query p st q e reg | Dropped n => record_dropped n reg end = Ret r1 ∧
    metrics_registered r1 = collectors ∧
    metric_samples r1 DNSQueriesTotal = metric_samples reg DNSQueriesTotal ++ match s with Query p st q _ => [([p; st; q], 1%Z)] | Dropped _ => [] end ∧
    metric_samples r1 DNSQueryDurationSeconds = metric_samples reg DNSQueryDurationSeconds ++ match s with Query p st _ e => [([p; st], e)] | Dropped _ => [] end ∧
    metric_samples r1 AnalyticsDroppedLogs = metric_samples reg AnalyticsDroppedLogs ++ match s with Query _ _ _ _ => [] | Dropped n => [([], Z.of_nat n)] end).
  { destruct s as [p st q e|n].
    - destruct (record_query_ok p st q e reg Hr Hs) as (r1 & ? & ? & ? & ? & ?). exists r1. by rewrite app_nil_r.
    - unfold record_dropped. destruct (metric_Add_ok reg AnalyticsDroppedLogs [] (Z.of_nat n)) as (r1 & E & H1r & H1s & H1o);
        [rewrite Hr; do 2 right; by left|done|constructor|lia|].
      exists r1. rewrite !H1o, !app_nil_r by done. split; [done|]. split; [congruence|done]. }
  destruct Hone as (r1 & E & Hr1 & S1 & S2 & S3). destruct (IH r1 Hr1) as (r2 & E2 & Hr2 & T1 & T2 & T3).
  exists r2. cbn [record_all]. rewrite E. cbn [outcome_bind]. split; [done|]. split; [done|].
  rewrite T1, T2, T3, S1, S2, S3, <- !app_assoc. by destruct s.
Qed.
End metrics.
End Metrics.
