(* ===== verification/Config.v ===== *)
(** * Configuration: what the programs read from their environment

    [Module Config] has the environment as a function ([os.LookupEnv]) and one definition
    per place that reads it: [env] of the commands, the settings of cmd/edgedns,
    cmd/adminapi and cmd/sniproxy, [init] of internal/upstream, and internal/cert. *)

From S2P Require Import Prelude.
From S2P Require Import GoStrings.
From S2P Require Import GoNet.
From Stdlib Require Import Strings.Ascii Strings.String.
From S2P Require Import GoUtf8.
From S2P Require Import GoScan.
From S2P Require Import GoTime.
From S2P Require Import External.
Import Scan Time.

Local Open Scope go_scope.

Module Config.

(** [os.LookupEnv]. *)
Definition environment : Type := string → option string.

Definition Getenv (E : environment) (key : string) : string :=
  match E key with Some v => v | None => EmptyString end.

(** A variable that is set counts even when it is empty. *)
Definition env (E : environment) (key fallback : string) : string :=
  match E key with Some v => v | None => fallback end.

(** ** cmd/edgedns *)

Inductive level := LevelDebug | LevelInfo | LevelWarn | LevelError.

Definition logLevel (E : environment) : level :=
  let v := env E "LOG_LEVEL" "info" in
  if String.eqb v "debug" then LevelDebug
  else if String.eqb v "warn" then LevelWarn
  else if String.eqb v "error" then LevelError
  else LevelInfo.

Record edge_settings := {
  stdAddr : string; dohAddr : string; dotAddr : string; metricsAddr : string;
  redisAddr : string; chAddr : string; chDB : string; chUser : string; chPass : string;
}.

Definition read_edge_settings (E : environment) : edge_settings := {|
  stdAddr := env E "STD_ADDR" ":8053";
  dohAddr := env E "DOH_ADDR" ":8443";
  dotAddr := env E "DOT_ADDR" ":8853";
  metricsAddr := env E "METRICS_PORT" ":2112";
  redisAddr := env E "REDIS_ADDR" "localhost:6379";
  chAddr := env E "CLICKHOUSE_ADDR" "localhost:9000";
  chDB := env E "CLICKHOUSE_DB" "default";
  chUser := env E "CLICKHOUSE_USER" "default";
  chPass := env E "CLICKHOUSE_PASS" EmptyString;
|}.

(** The arguments of [handler.SetRateLimit], when it is called: queries, and one second. *)
Definition rateLimit (E : environment) : option (Z * Z) :=
  let rlq := env E "RATE_LIMIT_QUERIES" "100" in
  if negb (String.eqb rlq EmptyString) then
    match Atoi rlq with
    | Some n => if (0 <? n)%Z then Some (n, 1000000000)%Z else None
    | None => None
    end
  else None.

(** ** cmd/adminapi *)

Record admin_settings := {
  a_redisAddr : string; a_chAddr : string; a_chDB : string; a_chUser : string; a_chPass : string;
  a_listen : string; a_apiKey : string;
}.

Definition read_admin_settings (E : environment) : admin_settings := {|
  a_redisAddr := env E "REDIS_ADDR" "localhost:6379";
  a_chAddr := env E "CLICKHOUSE_ADDR" "localhost:9000";
  a_chDB := env E "CLICKHOUSE_DB" "default";
  a_chUser := env E "CLICKHOUSE_USER" "default";
  a_chPass := env E "CLICKHOUSE_PASS" EmptyString;
  a_listen := env E "ADMIN_API_ADDR" ":8080";
  a_apiKey := env E "ADMIN_API_KEY" EmptyString;
|}.

(** ** cmd/sniproxy *)

Record Proxy := { addr : string; dialTimeout : Z; readTimeout : Z; idleTimeout : Z }.

Definition NewProxy (addr : string) : Proxy :=
  {| addr := addr; dialTimeout := 10 * 1000000000; readTimeout := 10 * 1000000000; idleTimeout := 120 * 1000000000 |}.

Definition read_proxy (E : environment) : Proxy := NewProxy (env E "SNI_PROXY_ADDR" ":443").

(** ** internal/upstream: the package variables and [init] *)

Record client := { UpstreamAddr : string; Timeout : Z; UDPSize : Z }.

Definition default_client : client :=
  {| UpstreamAddr := "1.1.1.1:53"; Timeout := 5 * 1000000000; UDPSize := 1232 |}.

Definition upstream_init (E : environment) : outcome client :=
  let addr := Getenv E "UPSTREAM_DNS" in
  let UpstreamAddr := if negb (String.eqb addr EmptyString) then addr else UpstreamAddr default_client in
  let t := Getenv E "UPSTREAM_TIMEOUT" in
  timeout <-@ (if negb (String.eqb t EmptyString) then
                 d <-@ ParseDuration t ;;
                 Ret (match d with Ok d => d | Err _ => Timeout default_client end)
               else Ret (Timeout default_client)) ;;
  let s := Getenv E "UPSTREAM_UDP_SIZE" in
  let udp :=
    if negb (String.eqb s EmptyString) then
      match ParseUint s 16 with
      | Some n => if (0 <? n)%Z then n else UDPSize default_client
      | None => UDPSize default_client
      end
    else UDPSize default_client in
  Ret {| UpstreamAddr := UpstreamAddr; Timeout := timeout; UDPSize := udp |}.

(** ** internal/cert *)

Section cert.
Context {Key Cert : Type} `{X509 Key Cert}.

Definition hour : Z := 3600 * 1000000000.

Definition cert_template (serial now now' : Z) : CertTemplate := {|
  SerialNumber := serial;
  CommonName := "Edge DNS"; Organization := ["Edge DNS Dev"];
  DNSNames := ["*.mydns.com"; "mydns.com"; "localhost"];
  IPAddresses := [ParseIP "127.0.0.1"; ParseIP "::1"];
  NotBefore := now + -1 * hour;
  NotAfter := now' + 365 * 24 * hour;
  KeyUsage := Z.lor 1 4;
  ExtKeyUsage := [1%Z];
  BasicConstraintsValid := true;
|}.

(** [now] and [now'] are the two readings of the clock. *)
Definition GenerateSelfSigned (now now' : Z) : result string Cert :=
  priv <-? map_err (λ e, "generate key: " +:+ e) GenerateKey ;;
  serial <-? map_err (λ e, "generate serial: " +:+ e) (rand_Int (Z.shiftl 1 128)) ;;
  der <-? map_err (λ e, "create cert: " +:+ e) (CreateCertificate (cert_template serial now now') priv) ;;
  Ok (KeyPair der priv).

Definition LoadFromEnv (E : environment) (now now' : Z) : result string Cert :=
  let certFile := Getenv E "TLS_CERT_FILE" in
  let keyFile := Getenv E "TLS_KEY_FILE" in
  if negb (String.eqb certFile EmptyString) && negb (String.eqb keyFile EmptyString) then
    map_err (λ e, "load TLS cert from " +:+ certFile +:+ ", " +:+ keyFile +:+ ": " +:+ e) (LoadX509KeyPair certFile keyFile)
  else GenerateSelfSigned now now'.
End cert.

(** ** What any environment gives *)

Lemma rateLimit_range E n w : rateLimit E = Some (n, w) → (0 < n < 2 ^ 63)%Z ∧ w = 1000000000%Z.
Proof.
  unfold rateLimit. destruct (negb _); [|done]. destruct (Atoi (env E _ _)) as [m|] eqn:Hm; [|done].
  destruct (Z.ltb_spec 0 m); [|done]. intros [= <- <-]. split; [|done]. split; [done|].
  apply Atoi_range in Hm. lia.
Qed.

(** The settings of the resolver's client are in range whatever the environment holds, and
    a variable that cannot be read leaves the default. *)
Lemma upstream_init_range E : ∃ c, upstream_init E = Ret c ∧
  UpstreamAddr c ≠ EmptyString ∧ (- 2 ^ 63 ≤ Timeout c < 2 ^ 63)%Z ∧ (0 < UDPSize c < 2 ^ 16)%Z.
Proof.
  unfold upstream_init.
  assert (Ht : ∃ d, (if negb (String.eqb (Getenv E "UPSTREAM_TIMEOUT") EmptyString) then
      r <-@ ParseDuration (Getenv E "UPSTREAM_TIMEOUT") ;; Ret (match r with Ok d => d | Err _ => Timeout default_client end)
      else Ret (Timeout default_client)) = Ret d ∧ (- 2 ^ 63 ≤ d < 2 ^ 63)%Z).
  { destruct (negb _); [|by eexists].
    destruct (ParseDuration_range (Getenv E "UPSTREAM_TIMEOUT")) as [(e & ->)|(d & -> & Hd)]; by eexists. }
  destruct Ht as (d & -> & Hd). cbn [outcome_bind]. eexists. split; [done|]. cbn. split_and!; try lia.
  - by destruct (String.eqb_spec (Getenv E "UPSTREAM_DNS") EmptyString).
  - destruct (negb _); [|done]. destruct (ParseUint _ 16) as [n|]; [|done]. by destruct (Z.ltb_spec 0 n).
  - destruct (negb _); [|done]. destruct (ParseUint _ 16) as [n|] eqn:Hn; [|done]. apply ParseUint_range in Hn.
    destruct (Z.ltb_spec 0 n); [done|]. done.
Qed.

(** Whatever the environment holds, the resolver's client gets an address, a timeout of 64
    bits and a buffer of 1 to 65535 bytes; the timeout is the one written when it is written
    with whole numbers and units, and the limiter gets a positive limit or keeps its own. *)
Theorem configuration_ranges (E : environment) :
  (∃ c, upstream_init E = Ret c ∧ UpstreamAddr c ≠ EmptyString ∧ (- 2 ^ 63 ≤ Timeout c < 2 ^ 63)%Z ∧ (0 < UDPSize c < 2 ^ 16)%Z ∧
     ∀ ts, ts ≠ [] → Forall (λ t, t.2 ∈ unitMap) ts → (terms_value ts < 2 ^ 63)%Z →
       E "UPSTREAM_TIMEOUT" = Some (of_chars (print_terms ts)) → Timeout c = terms_value ts) ∧
  match rateLimit E with Some (n, w) => (0 < n < 2 ^ 63)%Z ∧ w = 1000000000%Z | None => True end ∧
  ∀ n : N, (0 < Z.of_N n < 2 ^ 63)%Z → E "RATE_LIMIT_QUERIES" = Some (pretty n) → rateLimit E = Some (Z.of_N n, 1000000000)%Z.
Proof.
  split; [|split].
  - destruct (upstream_init_range E) as (c & Hc & Ha & Ht & Hu). exists c. split; [done|]. split; [done|].
    split; [done|]. split; [done|]. intros ts Hne Hts Hb He. unfold upstream_init in Hc.
    assert (Hg : Getenv E "UPSTREAM_TIMEOUT" = of_chars (print_terms ts)) by (unfold Getenv; by rewrite He).
    rewrite Hg, ParseDuration_print in Hc by done.
    destruct (String.eqb_spec (of_chars (print_terms ts)) EmptyString) as [E0|_].
    + exfalso. apply (f_equal chars) in E0. rewrite chars_of_chars in E0.
      pose proof (ParseDuration_print ts Hne Hts Hb) as Hp. rewrite E0 in Hp. by vm_compute in Hp.
    + cbn in Hc. by injection Hc as <-.
  - destruct (rateLimit E) as [[n w]|] eqn:Hn; [|done]. by apply rateLimit_range in Hn.
  - intros n Hn He. unfold rateLimit, env. rewrite He, Atoi_fmt_d by lia.
    destruct (String.eqb_spec (pretty n) EmptyString) as [E0|_].
    + exfalso. destruct (pretty_digits n) as (ch & ds & Hd & _). by rewrite E0 in Hd.
    + cbn [negb]. by rewrite (proj2 (Z.ltb_lt 0 _)) by lia.
Qed.

(** A negative timeout is taken as it is. *)
Example negative_timeout :
  upstream_init (λ k, if String.eqb k "UPSTREAM_TIMEOUT" then Some "-5s" else None) =
  Ret {| UpstreamAddr := "1.1.1.1:53"; Timeout := -5000000000; UDPSize := 1232 |}.
Proof. by_eval. Qed.

(** ** A concrete instance of the hypotheses *)

Definition example_env : environment := λ k,
  if String.eqb k "UPSTREAM_TIMEOUT" then Some (of_chars (print_terms [(1%N, (chars "m", 60000000000%Z)); (30%N, (chars "s", 1000000000%Z))]))
  else if String.eqb k "UPSTREAM_UDP_SIZE" then Some "70000"
  else if String.eqb k "RATE_LIMIT_QUERIES" then Some (pretty 250%N) else None.

Lemma configuration_ranges_witness :
  (∃ c, upstream_init example_env = Ret c ∧ Timeout c = 90000000000%Z ∧ UDPSize c = 1232%Z) ∧
  rateLimit example_env = Some (250, 1000000000)%Z.
Proof.
  destruct (configuration_ranges example_env) as [(c & Hc & _ & _ & _ & Ht) [_ Hr]]. split.
  - exists c. split; [exact Hc|]. split.
    + apply (Ht [(1%N, (chars "m", 60000000000%Z)); (30%N, (chars "s", 1000000000%Z))]); [done| |by_eval|reflexivity].
      apply (bool_decide_unpack _). vm_compute. exact I.
    + vm_compute in Hc. injection Hc as <-. reflexivity.
  - apply (Hr 250%N); [lia|reflexivity].
Defined.
End Config.
