(* ===== verification/Checker.v ===== *)
(** * The rule checker: src/internal/rule/checker.go

    [Module Checker] has the state of a [*Checker] (its cache, its Redis client,
    the fallback list, the [enabled] flag) and one definition per method.  The
    cache is shared by two kinds of entries, as in the code: block decisions
    ([VBool]) and redirect targets ([VStr]).  A method that reads the clock takes
    the instants of its cache accesses as arguments: [t0] for the lookup, [t1] for
    the store.  Logging is left out. *)

From S2P Require Import Prelude.
From S2P Require Import GoStrings.
From S2P Require Import External.
From S2P Require Import Models.
From Stdlib Require Import Strings.Ascii Strings.String.

Local Open Scope go_scope.

Module Checker.

(** The dynamic type of a cached [interface{}]. *)
Inductive cval := VBool (b : bool) | VStr (s : string).

#[export] Instance cval_eq_dec : EqDecision cval.
Proof. solve_decision. Defined.

(** ** Patterns *)

Definition generatePatterns (domain : string) : list string :=
  let labels := Split domain "." in
  let labels :=
    if bool_decide (10 < List.length labels)
    then drop (List.length labels - 10) labels else labels in
  domain ::
  map (λ i, "*." +:+ Join (drop i labels) ".") (seq 1 (List.length labels - 1)).

Definition default_fallback : list string :=
  ["example-blocked.com"; "malware.test"; "ads.tracker.com"; "pornhub.com";
   "xvideos.com"; "doubleclick.net"; "google-analytics.com"].

(** The loop over a fallback list, shared by the checker and by rule.go. *)
Fixpoint fallback_loop (l : list string) (domain : string) : bool :=
  match l with
  | [] => false
  | blocked :: rest =>
      if String.eqb domain blocked || HasSuffix domain ("." +:+ blocked) then true
      else fallback_loop rest domain
  end.

Definition blocked_key (userID : string) : string := "user:settings:" +:+ userID +:+ ":blocked".
Definition redirects_key (userID : string) : string :=
  "user:settings:" +:+ userID +:+ ":redirects".

(** The keys of the two kinds of cache entries. *)
Definition check_key (userID domain : string) : string := userID +:+ ":" +:+ domain.
Definition redirect_key (userID domain : string) : string :=
  "redirect:" +:+ userID +:+ ":" +:+ domain.

Section checker.
Context `{UnicodeTables} {C R : Type} `{GoCache cval C, RedisClient R}.

Record t := mk {
  cache : C;
  rdb : R;
  fallback : list string;
  enabled : bool;
}.

Definition normalize (domain : string) : string := ToLower (TrimSuffix domain ".").

(** [NewChecker]: the fallback rules only, unless the first ping succeeds. *)
Definition NewChecker (r : R) : t :=
  let c := cache_New (60 * 1000000000) (120 * 1000000000) in
  match Ping r with
  | (Ok _, r') => mk c r' default_fallback true
  | (Err _, r') => mk c r' default_fallback false
  end.

Definition checkRedis (domain userID : string) : RedisM R bool :=
  vals <-r SMIsMember (blocked_key userID) (generatePatterns domain) ;;
  rret (existsb id vals).

Definition fallbackCheck (c : t) (domain : string) : Z :=
  if fallback_loop (fallback c) domain then 1 else 0.

(** What Redis contributes to a decision: nothing when it is disabled or fails. *)
Definition redis_decision (c : t) (userID domain : string) : bool * R :=
  if enabled c then
    match checkRedis domain userID (rdb c) with
    | (Ok b, r') => (b, r')
    | (Err _, r') => (false, r')
    end
  else (false, rdb c).

Definition Check (t0 t1 : Z) (c : t) (userID domain : string) : outcome (Z * t) :=
  let domain := normalize domain in
  let cacheKey := check_key userID domain in
  match cache_Get (cache c) t0 cacheKey with
  | Some (VBool b) => Ret (if b then 1%Z else 0%Z, c)
  | Some (VStr _) => Panic "interface conversion: interface {} is string, not bool"
  | None =>
      let '(blocked, r') := redis_decision c userID domain in
      let blocked := if negb blocked then Z.eqb (fallbackCheck c domain) 1 else blocked in
      let cache' := cache_Set (cache c) t1 cacheKey (VBool blocked) DefaultExpiration in
      Ret (if blocked then 1%Z else 0%Z, mk cache' r' (fallback c) (enabled c))
  end.

Definition SeedUserBlocklist (c : t) (userID : string) (domains : list string) : t :=
  let '(_, r') := SAdd (blocked_key userID) domains (rdb c) in
  mk (cache c) r' (fallback c) (enabled c).

(** [k] is one of the keys [ClearUserCache userID] deletes. *)
Definition clears (userID k : string) : bool :=
  HasPrefix k (userID +:+ ":") || HasPrefix k ("redirect:" +:+ userID +:+ ":").

Definition ClearUserCache (now : Z) (c : t) (userID : string) : t :=
  let cache' := fold_left (λ acc kv,
    if clears userID kv.1 then cache_Delete acc kv.1 else acc) (cache_Items (cache c) now) (cache c) in
  mk cache' (rdb c) (fallback c) (enabled c).

(** The loop of [redisGetRedirect]. *)
Fixpoint hget_first (key : string) (patterns : list string) : RedisM R string :=
  match patterns with
  | [] => rret EmptyString
  | pattern :: rest => λ r,
      match HGet key pattern r with
      | (Err RedisNil, r') => hget_first key rest r'
      | (Err e, r') => (Err e, r')
      | (Ok ip, r') => if String.eqb ip EmptyString then hget_first key rest r' else (Ok ip, r')
      end
  end.

Definition redisGetRedirect (userID domain : string) : RedisM R string :=
  hget_first (redirects_key userID) (generatePatterns domain).

Definition GetRedirect (t0 t1 : Z) (c : t) (userID domain : string) : (string * bool) * t :=
  let domain := normalize domain in
  let cacheKey := redirect_key userID domain in
  match cache_Get (cache c) t0 cacheKey with
  | Some (VStr ip) => ((ip, true), c)
  | Some (VBool _) => ((EmptyString, false), c)
  | None =>
      if enabled c then
        match redisGetRedirect userID domain (rdb c) with
        | (Ok ip, r') =>
            let cache' := cache_Set (cache c) t1 cacheKey (VStr ip) DefaultExpiration in
            let c' := mk cache' r' (fallback c) (enabled c) in
            if negb (String.eqb ip EmptyString) then ((ip, true), c') else ((EmptyString, false), c')
        | (Err _, r') => ((EmptyString, false), mk (cache c) r' (fallback c) (enabled c))
        end
      else ((EmptyString, false), c)
  end.

Definition SetRedirect (c : t) (userID domain targetIP : string) : result redis_error unit * t :=
  let domain := normalize domain in
  match HSet (redirects_key userID) domain targetIP (rdb c) with
  | (Err e, r') => (Err e, mk (cache c) r' (fallback c) (enabled c))
  | (Ok _, r') =>
      (Ok tt, mk (cache_Delete (cache c) (redirect_key userID domain)) r' (fallback c) (enabled c))
  end.

Definition RemoveRedirect (c : t) (userID domain : string) : result redis_error unit * t :=
  let domain := normalize domain in
  match HDel (redirects_key userID) domain (rdb c) with
  | (Err e, r') => (Err e, mk (cache c) r' (fallback c) (enabled c))
  | (Ok _, r') =>
      (Ok tt, mk (cache_Delete (cache c) (redirect_key userID domain)) r' (fallback c) (enabled c))
  end.

Definition ListRedirects (c : t) (userID : string) : result redis_error (gmap string string) * t :=
  let '(res, r') := HGetAll (redirects_key userID) (rdb c) in
  (res, mk (cache c) r' (fallback c) (enabled c)).
End checker.
Arguments t : clear implicits.

(** ** What a rule list means

    A rule is an exact name or a wildcard [*.parent]; a wildcard covers the names
    strictly below [parent], as long as [parent] has at most nine labels. *)

Definition covers (rule domain : string) : Prop :=
  rule = domain ∨
  ∃ pre parent, domain = pre +:+ "." +:+ parent ∧ rule = "*." +:+ parent ∧
    List.length (Split parent ".") ≤ 9.

(** The fallback list has no wildcards: an entry blocks itself and every name
    below it. *)
Definition under (blocked domain : string) : Prop :=
  domain = blocked ∨ ∃ pre, domain = pre +:+ "." +:+ blocked.

Definition blocked_by (rules : gset string) (fallback : list string) (domain : string) : Prop :=
  (∃ rule, rule ∈ rules ∧ covers rule domain) ∨ (∃ b, b ∈ fallback ∧ under b domain).

(** A user id that cannot be confused with another key of the cache. *)
Definition good_user (u : string) : bool :=
  negb (has_byte ":" u) && negb (String.eqb u "redirect").

(** ** Patterns *)

Definition kept_from (n : nat) : nat := if bool_decide (10 < n) then n - 10 else 0.

Lemma generatePatterns_eq d :
  let n := List.length (Split d ".") in
  generatePatterns d =
    d :: map (λ i, "*." +:+ Join (drop (kept_from n + i) (Split d ".")) ".") (seq 1 (n - kept_from n - 1)).
Proof.
  simpl. unfold generatePatterns, kept_from. case_bool_decide as E; simpl.
  - rewrite length_drop. f_equal. apply map_ext. intros i. by rewrite drop_drop.
  - by rewrite Nat.sub_0_r.
Qed.

Lemma length_labels_pos d : 0 < List.length (Split d ".").
Proof. pose proof (Split_not_nil d "."). destruct (Split d "."); simpl; [done | lia]. Qed.

Lemma elem_of_generatePatterns d p : p ∈ generatePatterns d ↔ covers p d.
Proof.
  rewrite generatePatterns_eq, elem_of_cons. unfold covers.
  pose proof (length_labels_pos d) as Hpos. f_equiv. rewrite list_elem_of_fmap. split.
  - intros (i & -> & Hi%list_elem_of_In%in_seq). unfold kept_from in *.
    set (j := _ + i). assert (0 < j < List.length (Split d ".")) as Hj by (subst j; case_bool_decide; lia).
    exists (Join (take j (Split d ".")) "."), (Join (drop j (Split d ".")) ".").
    split_and!; [by apply (Split_cut d ".") | done |].
    change "." with (sep_str "."). rewrite Split_drop_Join, length_drop by lia.
    subst j. case_bool_decide; lia.
  - intros (pre & parent & -> & -> & Hlen).
    change "." with (sep_str ".") in *. rewrite Split_append_gen, length_app.
    pose proof (length_labels_pos pre). pose proof (length_labels_pos parent).
    set (n := List.length (Split pre ".") + List.length (Split parent ".")) in *.
    assert (kept_from n < List.length (Split pre ".")) as Hk.
    { unfold kept_from. case_bool_decide; lia. }
    exists (List.length (Split pre ".") - kept_from n). split.
    + replace (kept_from n + _) with (List.length (Split pre ".")) by lia.
      by rewrite drop_app_length, Join_Split.
    + apply list_elem_of_In, in_seq. lia.
Qed.

(** [generatePatterns] produces exactly the rules that cover the domain: the
    name itself and the wildcards over its parents of at most nine labels. *)
Theorem generatePatterns_covers d p : p ∈ generatePatterns d ↔ covers p d.
Proof. apply elem_of_generatePatterns. Qed.

(** A query costs Redis at least one and at most ten patterns, however deep
    the name is: one per label that is kept. *)
Theorem generatePatterns_length d :
  List.length (generatePatterns d) = List.length (Split d ".") `min` 10 ∧
  1 ≤ List.length (generatePatterns d) ≤ 10.
Proof.
  rewrite generatePatterns_eq. simpl. rewrite length_map, length_seq. unfold kept_from.
  pose proof (length_labels_pos d). case_bool_decide; lia.
Qed.

(** ** Decisions *)

Lemma fallback_loop_spec l d : fallback_loop l d = true ↔ ∃ b, b ∈ l ∧ under b d.
Proof.
  induction l as [|b l IH]; simpl.
  - split; [done|]. by intros (b & ?%elem_of_nil & _).
  - setoid_rewrite elem_of_cons. destruct (String.eqb_spec d b) as [->|Hne]; simpl.
    { split; [|done]. intros _. exists b. split; [by left | by left]. }
    destruct (HasSuffix d (String "." b)) eqn:E.
    { split; [|done]. intros _. exists b. split; [by left | right].
      by apply HasSuffix_spec in E. }
    rewrite IH. split; [naive_solver|]. intros (b' & [->|Hb'] & Hu); [|eauto].
    exfalso. destruct Hu as [->|[pre ->]]; [done|].
    by rewrite HasSuffix_append in E.
Qed.

Section check.
Context `{UnicodeTables} {C R : Type}.
Context `{GoCache cval C} `{!GoCacheLaws cval C}.
Context `{RedisClient R, RedisView R} `{!RedisLaws R}.
Implicit Types c : t C R.

Lemma checkRedis_up d u r s :
  redis_up r = true → as_set (redis_get r (blocked_key u)) = Some s →
  ∃ b, checkRedis d u r = (Ok b, r) ∧ (b = true ↔ ∃ rule, rule ∈ s ∧ covers rule d).
Proof.
  intros Hup Hs. exists (existsb id ((λ m, bool_decide (m ∈ s)) <$> generatePatterns d)). split.
  - unfold checkRedis, rbind. by rewrite (SMIsMember_up _ _ _ s).
  - rewrite existsb_fmap_bool_decide. setoid_rewrite elem_of_generatePatterns. naive_solver.
Qed.

(** The decision of [Check] on a cache miss, and the entry it leaves. *)
Lemma Check_miss t0 t1 c u d :
  cache_Get (cache c) t0 (check_key u (normalize d)) = None →
  let v := (redis_decision c u (normalize d)).1 || fallback_loop (fallback c) (normalize d) in
  Check t0 t1 c u d =
    Ret (if v then 1%Z else 0%Z,
         mk (cache_Set (cache c) t1 (check_key u (normalize d)) (VBool v) DefaultExpiration)
            (redis_decision c u (normalize d)).2 (fallback c) (enabled c)).
Proof.
  intros Hmiss. unfold Check. rewrite Hmiss. unfold fallbackCheck.
  destruct (redis_decision c u (normalize d)) as [[] r']; simpl; [done|].
  by destruct (fallback_loop (fallback c) (normalize d)).
Qed.

(** With Redis answering, the decision is that of the rules and the fallback list. *)
Lemma redis_decision_up c u d s :
  enabled c = true → redis_up (rdb c) = true → as_set (redis_get (rdb c) (blocked_key u)) = Some s →
  ∃ b, redis_decision c u d = (b, rdb c) ∧
    (b || fallback_loop (fallback c) d = true ↔ blocked_by s (fallback c) d).
Proof.
  intros Hen Hup Hs. destruct (checkRedis_up d u (rdb c) s Hup Hs) as (b & Hb & Hspec).
  exists b. unfold redis_decision, blocked_by. rewrite Hen, Hb. split; [done|].
  by rewrite orb_true_iff, Hspec, fallback_loop_spec.
Qed.

Lemma get_after_set (ca : C) t1 t k v :
  (t1 ≤ t < t1 + cache_expiration ca)%Z →
  cache_Get (cache_Set ca t1 k v DefaultExpiration) t k = Some v.
Proof. intros Ht. by apply Get_Set_eq. Qed.

(** C1: the decision procedure. With Redis answering and nothing cached,
    [Check] blocks exactly the names that a rule of the user's set covers or that
    are on or below the fallback list; it never fails, leaves Redis as it is and
    records the decision for the lifetime of a cache entry. *)
Theorem Check_decides t0 t1 c u d s :
  enabled c = true → redis_up (rdb c) = true →
  as_set (redis_get (rdb c) (blocked_key u)) = Some s →
  cache_Get (cache c) t0 (check_key u (normalize d)) = None →
  ∃ v c', Check t0 t1 c u d = Ret (v, c') ∧ (v = 0 ∨ v = 1)%Z ∧
    (v = 1%Z ↔ blocked_by s (fallback c) (normalize d)) ∧ rdb c' = rdb c ∧
    ∀ t, (t1 ≤ t < t1 + cache_expiration (cache c))%Z →
      cache_Get (cache c') t (check_key u (normalize d)) = Some (VBool (Z.eqb v 1)).
Proof.
  intros Hen Hup Hs Hmiss.
  destruct (checkRedis_up (normalize d) u (rdb c) s Hup Hs) as (b & Hb & Hspec).
  do 2 eexists. split; [by apply Check_miss|].
  unfold blocked_by. rewrite <- Hspec, <- fallback_loop_spec.
  unfold redis_decision. rewrite Hen, Hb. simpl.
  destruct b, (fallback_loop (fallback c) (normalize d)); simpl; split_and!; try tauto;
    try (intros t Ht; by apply get_after_set); naive_solver.
Qed.

(** A decision is reused. Within the lifetime of the entry a first [Check]
    stored, the same question gets the same answer without touching Redis,
    whatever has become of the rules in the meantime. *)
Theorem Check_memo t0 t1 c u d v c1 t t' r :
  cache_Get (cache c) t0 (check_key u (normalize d)) = None →
  Check t0 t1 c u d = Ret (v, c1) →
  (t1 ≤ t < t1 + cache_expiration (cache c))%Z →
  let c2 := mk (cache c1) r (fallback c1) (enabled c1) in
  Check t t' c2 u d = Ret (v, c2).
Proof.
  intros Hmiss Hck Ht. rewrite Check_miss in Hck by done. simplify_eq.
  unfold Check. simpl. by rewrite get_after_set.
Qed.

(** C39: an outage fails open to the fallback list, and is remembered. When Redis
    is disabled or the query fails, [Check] decides by the fallback list alone and
    stores that decision like any other, so it outlives the outage. *)
Theorem Check_degraded t0 t1 c u d :
  cache_Get (cache c) t0 (check_key u (normalize d)) = None →
  (enabled c = false ∨
   is_ok (SMIsMember (blocked_key u) (generatePatterns (normalize d)) (rdb c)).1 = false) →
  ∃ v c', Check t0 t1 c u d = Ret (v, c') ∧ (v = 0 ∨ v = 1)%Z ∧
    (v = 1%Z ↔ ∃ b, b ∈ fallback c ∧ under b (normalize d)) ∧
    ∀ t, (t1 ≤ t < t1 + cache_expiration (cache c))%Z →
      cache_Get (cache c') t (check_key u (normalize d)) = Some (VBool (Z.eqb v 1)).
Proof.
  intros Hmiss Hdown. do 2 eexists. split; [by apply Check_miss|].
  rewrite <- fallback_loop_spec.
  assert ((redis_decision c u (normalize d)).1 = false) as ->.
  { unfold redis_decision, checkRedis, rbind. destruct Hdown as [->|Hdown]; [done|].
    destruct (enabled c); [|done].
    by destruct (SMIsMember _ _ (rdb c)) as [[vals|e] r']. }
  destruct (fallback_loop (fallback c) (normalize d)); simpl; split_and!; try tauto;
    try (intros t Ht; by apply get_after_set); naive_solver.
Qed.

(** ** Panics and the key space of the cache *)

(** What a well-typed cache holds: decisions under keys of well-formed users,
    addresses under redirect keys. *)
Definition entry_ok (k : string) (v : cval) : Prop :=
  match v with
  | VBool _ => ∃ u d, good_user u = true ∧ k = check_key u d
  | VStr _ => ∃ u d, k = redirect_key u d
  end.

Definition typed (ca : C) : Prop := ∀ t k v, cache_Get ca t k = Some v → entry_ok k v.

Lemma good_user_spec u : good_user u = true ↔ has_byte ":" u = false ∧ u ≠ "redirect".
Proof.
  unfold good_user. rewrite andb_true_iff, !negb_true_iff. by rewrite String.eqb_neq.
Qed.

Lemma keys_disjoint u d u' d' : good_user u = true → check_key u d ≠ redirect_key u' d'.
Proof.
  intros [Hc Hr]%good_user_spec E.
  by apply (first_cut_inj ":" u "redirect") in E as [? _].
Qed.

Lemma check_key_inj u d u' d' :
  good_user u = true → good_user u' = true → check_key u d = check_key u' d' → u = u' ∧ d = d'.
Proof. intros [Hc _]%good_user_spec [Hc' _]%good_user_spec. by apply first_cut_inj. Qed.

Lemma typed_New d i : typed (cache_New d i).
Proof. intros t k v. by rewrite Get_New. Qed.

Lemma typed_Set ca t k v d : typed ca → entry_ok k v → typed (cache_Set ca t k v d).
Proof.
  intros Hty Hv t' k' v'. destruct (decide (k = k')) as [->|Hne].
  - destruct (Get_Set_any ca t k' v d t') as [->| ->]; naive_solver.
  - rewrite Get_Set_ne by done. apply Hty.
Qed.

Lemma typed_Delete ca k : typed ca → typed (cache_Delete ca k).
Proof.
  intros Hty t k' v'. destruct (decide (k = k')) as [->|Hne].
  - by rewrite Get_Delete_eq.
  - rewrite Get_Delete_ne by done. apply Hty.
Qed.

Lemma typed_no_panic ca t u d s : typed ca → good_user u = true →
  cache_Get ca t (check_key u d) ≠ Some (VStr s).
Proof.
  intros Hty Hu (u' & d' & E)%Hty. by apply (keys_disjoint u d u' d') in Hu.
Qed.

Lemma Check_typed t0 t1 c u d : typed (cache c) → good_user u = true →
  ∃ v c', Check t0 t1 c u d = Ret (v, c') ∧ typed (cache c').
Proof.
  intros Hty Hu. destruct (cache_Get (cache c) t0 (check_key u (normalize d))) as [[b|s]|] eqn:E.
  - unfold Check. rewrite E. eauto.
  - by apply typed_no_panic in E.
  - rewrite Check_miss by done. do 2 eexists. split; [done|]. simpl.
    apply typed_Set; [done|]. simpl. eauto.
Qed.

Lemma GetRedirect_typed t0 t1 c u d : typed (cache c) →
  typed (cache (GetRedirect t0 t1 c u d).2).
Proof.
  intros Hty. unfold GetRedirect. destruct (cache_Get _ _ _) as [[]|]; [done..|].
  destruct (enabled c); [|done]. destruct (redisGetRedirect _ _ _) as [[ip|e] r']; [|done].
  destruct (negb _); simpl; apply typed_Set; simpl; eauto.
Qed.

Lemma fold_typed (f : string → bool) (l : list (string * cval)) ca :
  typed ca →
  typed (fold_left (λ acc kv, if f kv.1 then cache_Delete acc kv.1 else acc) l ca).
Proof.
  revert ca. induction l as [|[k v] l IH]; intros ca Hty; simpl; [done|].
  apply IH. destruct (f k); [by apply typed_Delete|done].
Qed.

Lemma SetRedirect_typed c u d ip : typed (cache c) → typed (cache (SetRedirect c u d ip).2).
Proof.
  intros Hty. unfold SetRedirect. destruct (HSet _ _ _ _) as [[]]; [|done]. by apply typed_Delete.
Qed.

Lemma RemoveRedirect_typed c u d : typed (cache c) → typed (cache (RemoveRedirect c u d).2).
Proof.
  intros Hty. unfold RemoveRedirect. destruct (HDel _ _ _) as [[]]; [|done]. by apply typed_Delete.
Qed.

(** The calls a process makes on its checker, in any order. *)
Inductive op :=
| OpCheck (t0 t1 : Z) (u d : string)
| OpGetRedirect (t0 t1 : Z) (u d : string)
| OpSetRedirect (u d ip : string)
| OpRemoveRedirect (u d : string)
| OpListRedirects (u : string)
| OpSeed (u : string) (ds : list string)
| OpClear (now : Z) (u : string).

Definition run_op (c : t C R) (o : op) : outcome (t C R) :=
  match o with
  | OpCheck t0 t1 u d => vc <-! Check t0 t1 c u d ;; Ret vc.2
  | OpGetRedirect t0 t1 u d => Ret (GetRedirect t0 t1 c u d).2
  | OpSetRedirect u d ip => Ret (SetRedirect c u d ip).2
  | OpRemoveRedirect u d => Ret (RemoveRedirect c u d).2
  | OpListRedirects u => Ret (ListRedirects c u).2
  | OpSeed u ds => Ret (SeedUserBlocklist c u ds)
  | OpClear now u => Ret (ClearUserCache now c u)
  end.

Fixpoint run_ops (c : t C R) (os : list op) : outcome (t C R) :=
  match os with
  | [] => Ret c
  | o :: rest => c' <-! run_op c o ;; run_ops c' rest
  end.

(** Only [Check] constrains its user: redirect keys have a prefix of their own. *)
Definition op_ok (o : op) : bool :=
  match o with OpCheck _ _ u _ => good_user u | _ => true end.

Lemma run_op_typed c o : typed (cache c) → op_ok o = true →
  ∃ c', run_op c o = Ret c' ∧ typed (cache c').
Proof.
  intros Hty Hok. destruct o; simpl in *; try (eexists; split; [done|]).
  - destruct (Check_typed t0 t1 c u d Hty Hok) as (v & c' & -> & ?). simpl. eauto.
  - by apply GetRedirect_typed.
  - by apply SetRedirect_typed.
  - by apply RemoveRedirect_typed.
  - unfold ListRedirects. by destruct (HGetAll _ _).
  - unfold SeedUserBlocklist. by destruct (SAdd _ _ _).
  - by apply fold_typed.
Qed.

(** No call changes [enabled]. *)
Lemma run_op_enabled c o c' : run_op c o = Ret c' → enabled c' = enabled c.
Proof.
  destruct o; simpl; try intros [= <-].
  - intros ((v & c1) & Hck & [= <-])%outcome_bind_ret. unfold Check in Hck.
    destruct (cache_Get _ _ _) as [[]|]; simplify_eq; [done|].
    destruct (redis_decision _ _ _). by simplify_eq.
  - unfold GetRedirect. destruct (cache_Get _ _ _) as [[]|]; [done..|].
    destruct (enabled c) eqn:E; [|done]. destruct (redisGetRedirect _ _ _) as [[ip|] ]; [|done].
    by destruct (negb _).
  - unfold SetRedirect. by destruct (HSet _ _ _ _) as [[]].
  - unfold RemoveRedirect. by destruct (HDel _ _ _) as [[]].
  - unfold ListRedirects. by destruct (HGetAll _ _).
  - unfold SeedUserBlocklist. by destruct (SAdd _ _ _).
  - done.
Qed.

Lemma run_ops_enabled c os c' : run_ops c os = Ret c' → enabled c' = enabled c.
Proof.
  revert c. induction os as [|o os IH]; intros c; simpl; [by intros [= <-]|].
  intros (c1 & Ho & Hos)%outcome_bind_ret. rewrite (IH _ Hos). by eapply run_op_enabled.
Qed.

(** As long as the users of [Check] have no colon in their id and are not
    called "redirect", no sequence of calls on a fresh checker ever panics,
    whatever Redis answers. *)
Theorem run_ops_no_panic r os :
  forallb op_ok os = true → ∃ c', run_ops (NewChecker r) os = Ret c'.
Proof.
  assert (∀ c, typed (cache c) → forallb op_ok os = true → ∃ c', run_ops c os = Ret c') as Hrun.
  { induction os as [|o os IH]; intros c Hty Hok; simpl in *; [eauto|].
    apply andb_true_iff in Hok as [Ho Hos].
    destruct (run_op_typed c o Hty Ho) as (c' & -> & Hty'). simpl. by apply IH. }
  apply Hrun. unfold NewChecker. destruct (Ping r) as [[]]; apply typed_New.
Qed.

Lemma normalize_fixed d :
  is_lower d = true → HasSuffix d "." = false → normalize d = d.
Proof. intros Hl Hs. unfold normalize. by rewrite TrimSuffix_no, ToLower_fixed. Qed.

(** One normalisation is enough, unless the name has two trailing dots. *)
Lemma normalize_idem d :
  is_ascii d = true → HasSuffix (TrimSuffix d ".") "." = false →
  normalize (normalize d) = normalize d.
Proof.
  intros Ha Hs. apply (is_ascii_TrimSuffix d ".") in Ha.
  unfold normalize at 2 3. rewrite ToLower_ascii by done.
  apply normalize_fixed; [by apply lower_ascii_lower | by rewrite HasSuffix_lower_dot].
Qed.

Lemma normalize_user_domain u d :
  is_lower u = true → is_lower d = true → HasSuffix d "." = false → d ≠ EmptyString →
  normalize (u +:+ ":" +:+ d) = u +:+ ":" +:+ d.
Proof.
  intros Hu Hd Hs Hne. apply normalize_fixed.
  - rewrite is_lower_append, Hu. change (is_lower (":" +:+ d) = true).
    by rewrite is_lower_append, Hd.
  - rewrite HasSuffix_append_nonempty by done.
    change (HasSuffix (":" +:+ d) "." = false). by rewrite HasSuffix_append_nonempty.
Qed.

(** The type assertion [val.(bool)] of [Check] can fail. After any user [u]
    asked for the redirect of [d], a [Check] of the name "u:d" for a user called
    "redirect" finds the string cached for [u] and panics: the two key formats
    overlap. *)
Theorem Check_key_collision t0 t1 c u d ip r' t t' :
  is_lower u = true → is_lower d = true → HasSuffix d "." = false → d ≠ EmptyString →
  enabled c = true → cache_Get (cache c) t0 (redirect_key u d) = None →
  redisGetRedirect u d (rdb c) = (Ok ip, r') →
  (t1 ≤ t < t1 + cache_expiration (cache c))%Z →
  ∃ why, Check t t' (GetRedirect t0 t1 c u d).2 "redirect" (u +:+ ":" +:+ d) = Panic why.
Proof.
  intros Hu Hd Hs Hne Hen Hmiss Hredis Ht. unfold GetRedirect.
  rewrite (normalize_fixed d) by done. rewrite Hmiss, Hen, Hredis.
  unfold Check. rewrite normalize_user_domain by done.
  change (check_key "redirect" (u +:+ ":" +:+ d)) with (redirect_key u d).
  destruct (negb _); simpl; rewrite get_after_set by done; eauto.
Qed.

(** ** Clearing a user *)

Lemma fold_delete_get (f : string → bool) (l : list (string * cval)) ca t k :
  cache_Get (fold_left (λ acc kv, if f kv.1 then cache_Delete acc kv.1 else acc) l ca) t k =
    if f k && bool_decide (k ∈ l.*1) then None else cache_Get ca t k.
Proof.
  revert ca. induction l as [|[k' v] l IH]; intros ca.
  - simpl. by rewrite andb_false_r.
  - rewrite fmap_cons. cbn [fold_left fst]. rewrite IH. destruct (decide (k = k')) as [->|Hne].
    + destruct (f k') eqn:Ef; simpl; [|done].
      rewrite (bool_decide_eq_true_2 (k' ∈ k' :: l.*1)) by left.
      rewrite Get_Delete_eq. by case_bool_decide.
    + assert (bool_decide (k ∈ k' :: l.*1) = bool_decide (k ∈ l.*1)) as ->.
      { apply bool_decide_ext. rewrite elem_of_cons. naive_solver. }
      destruct (f k && _); [done|]. destruct (f k'); [|done]. by apply Get_Delete_ne.
Qed.

(** [ClearUserCache] removes exactly the keys with one of the user's two prefixes. *)
Lemma ClearUserCache_get now c u t k :
  (now ≤ t)%Z →
  cache_Get (cache (ClearUserCache now c u)) t k =
    if clears u k then None else cache_Get (cache c) t k.
Proof.
  intros Ht. unfold ClearUserCache. simpl. rewrite fold_delete_get.
  destruct (clears u k); simpl; [|done]. case_bool_decide as Hin; [done|].
  destruct (cache_Get (cache c) t k) as [v|] eqn:E; [|done].
  exfalso. apply Hin. apply list_elem_of_fmap. exists (k, v). split; [done|].
  apply Items_Get. by apply (Get_mono _ now t).
Qed.

Lemma clears_own u d : clears u (check_key u d) = true ∧ clears u (redirect_key u d) = true.
Proof.
  unfold clears. split; apply orb_true_iff; [left|right]; apply HasPrefix_spec; exists d.
  - unfold check_key. by rewrite append_assoc.
  - unfold redirect_key. by rewrite !append_assoc.
Qed.

Lemma clears_other u v d : good_user u = true → good_user v = true → u ≠ v →
  clears u (check_key v d) = false ∧ clears u (redirect_key v d) = false.
Proof.
  intros Hu Hv Hne. pose proof Hu as [Hcu Hru]%good_user_spec.
  pose proof Hv as [Hcv Hrv]%good_user_spec.
  assert (∀ k, (∀ t, k ≠ u +:+ String ":" t) → (∀ t, k ≠ "redirect" +:+ String ":" (u +:+ String ":" t)) →
    clears u k = false) as Hcl.
  { intros k H1' H2'. unfold clears. apply orb_false_iff.
    split; apply not_true_iff_false; rewrite HasPrefix_spec; intros [t E].
    - apply (H1' t). by rewrite append_assoc in E.
    - apply (H2' t). rewrite !append_assoc in E. done. }
  split; apply Hcl; intros t E; unfold check_key, redirect_key in E.
  - by apply (first_cut_inj ":" v u) in E as [-> _].
  - by apply (first_cut_inj ":" v "redirect") in E as [-> _].
  - by apply (first_cut_inj ":" "redirect" u) in E as [<- _].
  - apply (first_cut_inj ":" "redirect" "redirect") in E as [_ E]; [|done..].
    by apply (first_cut_inj ":" v u) in E as [-> _].
Qed.

(** Clearing is complete and isolated. After [ClearUserCache u] every question
    of [u], block or redirect, is decided afresh, and what was cached for any
    other well-formed user is still there. *)
Theorem ClearUserCache_isolated now c u v t d :
  (now ≤ t)%Z → good_user u = true → good_user v = true → u ≠ v →
  let c' := ClearUserCache now c u in
  cache_Get (cache c') t (check_key u d) = None ∧
  cache_Get (cache c') t (redirect_key u d) = None ∧
  cache_Get (cache c') t (check_key v d) = cache_Get (cache c) t (check_key v d) ∧
  cache_Get (cache c') t (redirect_key v d) = cache_Get (cache c) t (redirect_key v d).
Proof.
  intros Ht Hu Hv Hne c'. subst c'.
  destruct (clears_own u d) as [O1 O2], (clears_other u v d Hu Hv Hne) as [N1 N2].
  rewrite !ClearUserCache_get by done. by rewrite O1, O2, N1, N2.
Qed.
End check.

(** ** Concrete instances of the hypotheses *)
#[local] Existing Instance ascii_tables.

Definition example_redis : MapRedis.t :=
  (SAdd (blocked_key "alice") ["*.tracker.com"; "bad.org"] MapRedis.empty).2.
Definition example_checker : t (MapCache.t cval) MapRedis.t := NewChecker example_redis.

Lemma Check_decides_witness :
  (∃ v c', Check 0 0 example_checker "alice" "Ads.Tracker.com." = Ret (v, c') ∧
     (v = 1%Z ↔ blocked_by {["*.tracker.com"; "bad.org"]} default_fallback "ads.tracker.com")) ∧
  (∃ c', Check 0 0 example_checker "alice" "tracker.com" = Ret (0%Z, c')).
Proof.
  split.
  - destruct (Check_decides 0 0 example_checker "alice" "Ads.Tracker.com."
      {["*.tracker.com"; "bad.org"]} ltac:(by_eval) ltac:(by_eval) ltac:(by_eval) ltac:(by_eval))
      as (v & c' & Hck & _ & Hiff & _).
    exists v, c'. split; [exact Hck | exact Hiff].
  - eexists. vm_compute. reflexivity.
Defined.

Lemma Check_memo_witness :
  ∃ c1, Check 0 5 example_checker "alice" "bad.org" = Ret (1%Z, c1) ∧
    Check 1000 1001 (mk (cache c1) MapRedis.empty (fallback c1) (enabled c1)) "alice" "bad.org"
    = Ret (1%Z, mk (cache c1) MapRedis.empty (fallback c1) (enabled c1)).
Proof.
  eexists. split; [vm_compute; reflexivity|].
  apply (Check_memo 0 5 example_checker "alice" "bad.org"); by_eval.
Defined.

Lemma Check_degraded_witness :
  let down := mk (cache example_checker) (MapRedis.mk false ∅ []) default_fallback true in
  ∃ v c', Check 0 0 down "alice" "www.doubleclick.net" = Ret (v, c') ∧ (v = 0 ∨ v = 1)%Z.
Proof.
  intros down.
  destruct (Check_degraded 0 0 down "alice" "www.doubleclick.net") as (v & c' & Hck & Hv & _);
    [by_eval | right; by_eval |].
  exists v, c'. split; [exact Hck | exact Hv].
Defined.

Definition example_ops : list op :=
  [OpGetRedirect 0 1 "redirect" "a.com"; OpCheck 2 3 "alice" "redirect:a.com";
   OpSetRedirect "alice" "a.com" "10.0.0.1"; OpClear 4 "alice"; OpCheck 5 6 "bob" "a.com"].

Lemma run_ops_no_panic_witness : ∃ c', run_ops example_checker example_ops = Ret c'.
Proof. exact (run_ops_no_panic example_redis example_ops ltac:(by_eval)). Defined.

Lemma Check_key_collision_witness :
  ∃ why, Check 9 9 (GetRedirect 0 1 example_checker "alice" "evil.com").2 "redirect" "alice:evil.com"
    = Panic why.
Proof.
  apply (Check_key_collision 0 1 example_checker "alice" "evil.com" EmptyString example_redis 9 9);
    first [discriminate | by_eval].
Defined.

Lemma ClearUserCache_isolated_witness :
  match run_ops example_checker [OpCheck 0 1 "alice" "bad.org"; OpCheck 0 1 "bob" "bad.org"] with
  | Ret c =>
      cache_Get (cache c) 9 (check_key "alice" "bad.org") = Some (VBool true) ∧
      cache_Get (cache (ClearUserCache 7 c "alice")) 9 (check_key "alice" "bad.org") = None ∧
      cache_Get (cache (ClearUserCache 7 c "alice")) 9 (check_key "bob" "bad.org")
      = cache_Get (cache c) 9 (check_key "bob" "bad.org")
  | Panic _ => False
  end.
Proof.
  destruct (run_ops example_checker _) as [c|why] eqn:E; [|vm_compute in E; discriminate].
  assert (7 ≤ 9)%Z as H79 by lia.
  destruct (ClearUserCache_isolated 7 c "alice" "bob" 9 "bad.org" H79 ltac:(by_eval) ltac:(by_eval) ltac:(discriminate))
    as (Ha & _ & Hb & _).
  split; [|split; [exact Ha | exact Hb]].
  vm_compute in E. injection E as <-. vm_compute. reflexivity.
Defined.

End Checker.
