(* ===== verification/Redirect.v ===== *)
(** * Redirects: the second half of src/internal/rule/checker.go

    The theorems about [GetRedirect], [SetRedirect] and [RemoveRedirect] of
    [Checker.v]: the target found is the one of the most specific rule, what the
    cache does to it, and how an update becomes visible. *)

From S2P Require Import Prelude.
From S2P Require Import GoStrings.
From S2P Require Import External.
From S2P Require Import Models.
From S2P Require Import Checker.
From Stdlib Require Import Strings.Ascii Strings.String.
Import Checker.

Module Redirect.

(** ** The specification *)

(** The redirect of the first pattern, in order, that has a non-empty target. *)
Fixpoint best_redirect (h : gmap string string) (patterns : list string) : option (string * string) :=
  match patterns with
  | [] => None
  | p :: rest =>
      match h !! p with
      | Some ip => if String.eqb ip EmptyString then best_redirect h rest else Some (p, ip)
      | None => best_redirect h rest
      end
  end.

(** [rule] is at least as specific as [rule'] for [domain]: it is the name itself,
    or a wildcard over a parent that is at least as long. *)
Definition at_least_as_specific (domain rule rule' : string) : Prop :=
  rule = domain ∨ String.length rule' ≤ String.length rule.

(** The redirect [d] should get from the table [h]: a non-empty target of a rule
    that covers [d], such that no covering rule with a target is more specific. *)
Definition redirects_to (h : gmap string string) (d ip : string) : Prop :=
  ip ≠ EmptyString ∧
  ∃ rule, h !! rule = Some ip ∧ covers rule d ∧
    ∀ rule' ip', covers rule' d → h !! rule' = Some ip' → ip' ≠ EmptyString →
      at_least_as_specific d rule rule'.

Definition not_redirected (h : gmap string string) (d : string) : Prop :=
  ∀ rule ip, covers rule d → h !! rule = Some ip → ip = EmptyString.

Lemma best_redirect_none h ps :
  best_redirect h ps = None ↔ ∀ p ip, p ∈ ps → h !! p = Some ip → ip = EmptyString.
Proof.
  induction ps as [|p ps IH]; simpl.
  - split; [|done]. by intros _ p ip ?%elem_of_nil.
  - setoid_rewrite elem_of_cons. destruct (h !! p) as [ip|] eqn:Hp.
    + destruct (String.eqb_spec ip EmptyString) as [->|Hne].
      * rewrite IH. naive_solver.
      * split; [done|]. intros Hall. exfalso. eauto.
    + rewrite IH. naive_solver.
Qed.

(** The pattern found, and the ones tried before it without success. *)
Lemma best_redirect_some h ps p ip :
  best_redirect h ps = Some (p, ip) →
  ip ≠ EmptyString ∧ h !! p = Some ip ∧
  ∃ before after, ps = (before ++ p :: after)%list ∧
    ∀ q ipq, q ∈ before → h !! q = Some ipq → ipq = EmptyString.
Proof.
  induction ps as [|q ps IH]; simpl; [done|].
  assert (best_redirect h ps = Some (p, ip) → (∀ ipq, h !! q = Some ipq → ipq = EmptyString) →
    ip ≠ EmptyString ∧ h !! p = Some ip ∧ ∃ before after, q :: ps = (before ++ p :: after)%list ∧
    ∀ q' ipq, q' ∈ before → h !! q' = Some ipq → ipq = EmptyString) as Hskip.
  { intros (Hne & Hp & before & after & -> & Hb)%IH Hq. split_and!; [done..|].
    exists (q :: before), after. split; [done|]. intros q' ipq [->|?]%elem_of_cons; eauto. }
  destruct (h !! q) as [ipq|] eqn:Hq; [|intros; apply Hskip; naive_solver].
  destruct (String.eqb_spec ipq EmptyString) as [->|Hne]; [intros; apply Hskip; naive_solver|].
  intros [= -> ->]. split_and!; [done..|]. exists [], ps. split; [done|]. by intros ?? ?%elem_of_nil.
Qed.

(** After the name itself the patterns get shorter and shorter. *)
Lemma generatePatterns_sorted d before p after q :
  generatePatterns d = (before ++ p :: after)%list → q ∈ after → before ≠ [] →
  String.length q ≤ String.length p.
Proof.
  rewrite generatePatterns_eq. intros E Hq Hne.
  destruct before as [|x before]; [done|]. injection E as <- E.
  set (n := List.length (Split d ".")) in *.
  set (f := λ i, "*." +:+ Join (drop (kept_from n + i) (Split d ".")) ".").
  change (map f (seq 1 (n - kept_from n - 1)) = before ++ p :: after)%list in E.
  apply list_elem_of_lookup in Hq as [k Hk].
  assert (map f (seq 1 (n - kept_from n - 1)) !! List.length before = Some p) as Hp.
  { rewrite E. by rewrite list_lookup_middle. }
  assert (map f (seq 1 (n - kept_from n - 1)) !! (List.length before + S k) = Some q) as Hq.
  { rewrite E, lookup_app_r by lia. by replace (_ + S k - _) with (S k) by lia. }
  apply list_lookup_fmap_Some in Hp as (i & -> & [-> _]%lookup_seq).
  apply list_lookup_fmap_Some in Hq as (j & -> & [-> _]%lookup_seq).
  subst f. simpl. do 2 apply le_n_S. apply length_Join_drop. lia.
Qed.

Lemma best_redirect_spec h d :
  match best_redirect h (generatePatterns d) with
  | Some (_, ip) => redirects_to h d ip
  | None => not_redirected h d
  end.
Proof.
  destruct (best_redirect h (generatePatterns d)) as [[p ip]|] eqn:E.
  - apply best_redirect_some in E as (Hne & Hp & before & after & Hps & Hb).
    split; [done|]. exists p. split_and!; [done | |].
    + apply elem_of_generatePatterns. rewrite Hps. set_solver.
    + intros rule' ip' Hcov Hr' Hne'. apply elem_of_generatePatterns in Hcov. rewrite Hps in Hcov.
      destruct before as [|x before].
      { left. rewrite generatePatterns_eq in Hps. by injection Hps. }
      right. apply elem_of_app in Hcov as [Hin|[->|Hin]%elem_of_cons]; [naive_solver | lia |].
      by eapply generatePatterns_sorted.
  - intros rule ip Hcov Hr. eapply best_redirect_none in E; [done| |done].
    by apply elem_of_generatePatterns.
Qed.

Section redirect.
Context `{UnicodeTables} {C R : Type}.
Context `{GoCache cval C} `{!GoCacheLaws cval C}.
Context `{RedisClient R, RedisView R} `{!RedisLaws R}.
Implicit Types c : Checker.t C R.

(** What a caller of [GetRedirect] sees. *)
Definition redirect_answer (t0 t1 : Z) (c : Checker.t C R) (u d : string) : string * bool :=
  (GetRedirect t0 t1 c u d).1.

Lemma hget_first_up k ps r h :
  redis_up r = true → as_hash (redis_get r k) = Some h →
  hget_first k ps r = (Ok (from_option snd EmptyString (best_redirect h ps)), r).
Proof.
  intros Hup Hh. induction ps as [|p ps IH]; simpl; [done|].
  rewrite (HGet_up _ _ _ h) by done. destruct (h !! p) as [ip|]; [|done].
  by destruct (String.eqb ip EmptyString).
Qed.

(** [GetRedirect] on a cache miss, with Redis answering. *)
Lemma GetRedirect_miss t0 t1 c u d h :
  enabled c = true → redis_up (rdb c) = true →
  as_hash (redis_get (rdb c) (redirects_key u)) = Some h →
  cache_Get (cache c) t0 (redirect_key u (normalize d)) = None →
  let best := best_redirect h (generatePatterns (normalize d)) in
  let ip := from_option snd EmptyString best in
  GetRedirect t0 t1 c u d =
    ((ip, bool_decide (is_Some best)),
     mk (cache_Set (cache c) t1 (redirect_key u (normalize d)) (VStr ip) DefaultExpiration)
        (rdb c) (fallback c) (enabled c)).
Proof.
  intros Hen Hup Hh Hmiss. unfold GetRedirect, redisGetRedirect.
  rewrite Hmiss, Hen, (hget_first_up _ _ _ h) by done.
  destruct (best_redirect h (generatePatterns (normalize d))) as [[p ip]|] eqn:E; simpl; [|done].
  apply best_redirect_some in E as [Hne _]. apply String.eqb_neq in Hne. by rewrite Hne.
Qed.

Lemma GetRedirect_spec t0 t1 c u d h :
  enabled c = true → redis_up (rdb c) = true →
  as_hash (redis_get (rdb c) (redirects_key u)) = Some h →
  cache_Get (cache c) t0 (redirect_key u (normalize d)) = None →
  match redirect_answer t0 t1 c u d with
  | (ip, true) => redirects_to h (normalize d) ip
  | (ip, false) => ip = EmptyString ∧ not_redirected h (normalize d)
  end.
Proof.
  intros Hen Hup Hh Hmiss. unfold redirect_answer. rewrite (GetRedirect_miss _ _ _ _ _ h) by done. cbn [fst].
  pose proof (best_redirect_spec h (normalize d)) as Hs.
  by destruct (best_redirect h _) as [[p ip]|].
Qed.

(** C18: redirect lookup. With Redis answering and nothing cached, [GetRedirect]
    returns the target of the most specific rule that covers the name, and reports
    "no redirect" exactly when no covering rule has a target. *)
Theorem GetRedirect_most_specific t0 t1 c u d h :
  enabled c = true → redis_up (rdb c) = true →
  as_hash (redis_get (rdb c) (redirects_key u)) = Some h →
  cache_Get (cache c) t0 (redirect_key u (normalize d)) = None →
  match redirect_answer t0 t1 c u d with
  | (ip, true) => redirects_to h (normalize d) ip
  | (ip, false) => ip = EmptyString ∧ not_redirected h (normalize d)
  end.
Proof. apply GetRedirect_spec. Qed.

(** A cached miss is reported as a hit. When a name has no redirect, the first
    [GetRedirect] says so ("", false) and caches the empty string; every further
    call within the lifetime of that entry returns ("", true). *)
Theorem GetRedirect_negative_hit t0 t1 c u d h t t' :
  enabled c = true → redis_up (rdb c) = true →
  as_hash (redis_get (rdb c) (redirects_key u)) = Some h →
  cache_Get (cache c) t0 (redirect_key u (normalize d)) = None →
  not_redirected h (normalize d) →
  (t1 ≤ t < t1 + cache_expiration (cache c))%Z →
  let '(first, c1) := GetRedirect t0 t1 c u d in
  first = (EmptyString, false) ∧ redirect_answer t t' c1 u d = (EmptyString, true).
Proof.
  intros Hen Hup Hh Hmiss Hno Ht. unfold redirect_answer. rewrite (GetRedirect_miss _ _ _ _ _ h) by done.
  assert (best_redirect h (generatePatterns (normalize d)) = None) as ->.
  { apply best_redirect_none. intros p ip Hp%elem_of_generatePatterns. by apply Hno. }
  split; [done|]. unfold redirect_answer, GetRedirect. simpl. by rewrite get_after_set.
Qed.

(** An update is visible at once. [SetRedirect] succeeds while Redis answers,
    and from then on any spelling of the name (case, trailing dot) is redirected
    to the new target, even if an older answer was cached. *)
Theorem SetRedirect_visible c u d ip h :
  enabled c = true → redis_up (rdb c) = true →
  as_hash (redis_get (rdb c) (redirects_key u)) = Some h → ip ≠ EmptyString →
  (SetRedirect c u d ip).1 = Ok tt ∧
  ∀ d' t0 t1, normalize d' = normalize d →
    redirect_answer t0 t1 (SetRedirect c u d ip).2 u d' = (ip, true).
Proof.
  intros Hen Hup Hh Hne. unfold SetRedirect, redirect_answer.
  destruct (HSet_up (rdb c) (redirects_key u) (normalize d) ip h Hup Hh)
    as (n & r' & -> & (Hup' & _) & Hh').
  split; [done|]. intros d' t0 t1 Hd.
  unfold redirect_answer. rewrite (GetRedirect_miss _ _ _ _ _ (<[normalize d := ip]> h)); simpl; rewrite ?Hd; try done.
  - rewrite lookup_insert_eq. apply String.eqb_neq in Hne. by rewrite Hne.
  - by rewrite Get_Delete_eq.
Qed.

(** After [RemoveRedirect] the name is redirected only as the remaining rules
    say: by a wildcard, or not at all. *)
Theorem RemoveRedirect_visible c u d h :
  enabled c = true → redis_up (rdb c) = true →
  as_hash (redis_get (rdb c) (redirects_key u)) = Some h →
  (RemoveRedirect c u d).1 = Ok tt ∧
  ∀ d' t0 t1, normalize d' = normalize d →
    match redirect_answer t0 t1 (RemoveRedirect c u d).2 u d' with
    | (ip, true) => redirects_to (delete (normalize d) h) (normalize d) ip
    | (ip, false) => ip = EmptyString ∧ not_redirected (delete (normalize d) h) (normalize d)
    end.
Proof.
  intros Hen Hup Hh. unfold RemoveRedirect.
  destruct (HDel_up (rdb c) (redirects_key u) (normalize d) h Hup Hh)
    as (n & r' & -> & (Hup' & _) & Hh').
  split; [done|]. intros d' t0 t1 Hd. rewrite <- Hd.
  apply GetRedirect_spec; simpl; rewrite ?Hd; try done. by rewrite Get_Delete_eq.
Qed.

(** An update evicts one name only. A wildcard rule set or changed with
    [SetRedirect] leaves the cached answers of the names it covers in place: they
    keep their old target until their entries expire or the user is cleared. *)
Theorem SetRedirect_wildcard_stale c u w ip d old t t' :
  normalize d ≠ normalize w →
  cache_Get (cache c) t (redirect_key u (normalize d)) = Some (VStr old) →
  redirect_answer t t' (SetRedirect c u w ip).2 u d = (old, true).
Proof.
  intros Hne Hget. unfold SetRedirect, redirect_answer.
  destruct (HSet _ _ _ _) as [[n|e] r']; unfold GetRedirect; simpl; [|by rewrite Hget].
  rewrite Get_Delete_ne; [by rewrite Hget|]. unfold redirect_key.
  intros E. apply append_inj_l, append_inj_l, append_inj_l in E. congruence.
Qed.
End redirect.

(** ** Concrete instances of the hypotheses *)
#[local] Existing Instance ascii_tables.

Definition example_hash : gmap string string :=
  {["*.example.com" := "10.0.0.1"; "*.com" := "10.0.0.2"; "a.net" := EmptyString]}.
Definition example_redis : MapRedis.t :=
  MapRedis.put_hash (redirects_key "bob") example_hash MapRedis.empty.
Definition example_checker : Checker.t (MapCache.t cval) MapRedis.t := NewChecker example_redis.

Lemma GetRedirect_most_specific_witness :
  redirect_answer 0 0 example_checker "bob" "WWW.Example.com." = ("10.0.0.1", true) ∧
  redirects_to example_hash "www.example.com" "10.0.0.1".
Proof.
  split; [vm_compute; reflexivity|].
  exact (GetRedirect_most_specific 0 0 example_checker "bob" "WWW.Example.com." example_hash
    ltac:(by_eval) ltac:(by_eval) ltac:(by_eval) ltac:(by_eval)).
Defined.

Lemma GetRedirect_negative_hit_witness :
  let '(first, c1) := GetRedirect 0 1 example_checker "bob" "a.net" in
  first = (EmptyString, false) ∧ redirect_answer 5 6 c1 "bob" "a.net" = (EmptyString, true).
Proof.
  apply (GetRedirect_negative_hit 0 1 example_checker "bob" "a.net" example_hash 5 6);
    [by_eval | by_eval | by_eval | by_eval | | by_eval].
  intros rule ip Hc. apply (proj1 (best_redirect_none example_hash (generatePatterns "a.net"))
      ltac:(by_eval) rule ip). apply elem_of_generatePatterns, Hc.
Defined.

Lemma SetRedirect_visible_witness :
  redirect_answer 0 1 (SetRedirect example_checker "bob" "Netflix.COM." "10.9.9.9").2 "bob" "netflix.com"
  = ("10.9.9.9", true).
Proof.
  destruct (SetRedirect_visible example_checker "bob" "Netflix.COM." "10.9.9.9" example_hash
    ltac:(by_eval) ltac:(by_eval) ltac:(by_eval) ltac:(discriminate)) as [_ Hget].
  exact (Hget "netflix.com" 0%Z 1%Z ltac:(by_eval)).
Defined.

Lemma RemoveRedirect_visible_witness :
  (RemoveRedirect example_checker "bob" "*.example.com").1 = Ok tt.
Proof.
  exact (proj1 (RemoveRedirect_visible example_checker "bob" "*.example.com" example_hash
    ltac:(by_eval) ltac:(by_eval) ltac:(by_eval))).
Defined.

Lemma SetRedirect_wildcard_stale_witness :
  let c1 := (GetRedirect 0 1 example_checker "bob" "www.example.com").2 in
  redirect_answer 5 6 (SetRedirect c1 "bob" "*.example.com" "10.7.7.7").2 "bob" "www.example.com"
  = ("10.0.0.1", true).
Proof.
  exact (SetRedirect_wildcard_stale (GetRedirect 0 1 example_checker "bob" "www.example.com").2
    "bob" "*.example.com" "10.7.7.7" "www.example.com" "10.0.0.1" 5 6 ltac:(discriminate) ltac:(by_eval)).
Defined.
End Redirect.
