(* ===== verification/Interleaving.v ===== *)
(** * The checker under concurrent queries: src/internal/rule/checker.go

    Every query runs in a goroutine of its own, and nothing but the cache's lock orders
    their accesses: a lookup that misses reads Redis and stores what it read some time
    later, while other queries, evictions of the configuration worker and changes of the
    Redis server happen in between.  [Module Interleaving] splits [Check] and [GetRedirect]
    at that point and runs the halves as a transition system ([step]); a run keeps the list
    of the states it passed, so that a theorem can say which of them an answer comes from.

    [D] is the longest time a lookup takes from its read to its store.  It is a parameter:
    each finite run has one. *)

From S2P Require Import Prelude.
From S2P Require Import GoStrings.
From Stdlib Require Import Strings.Ascii Strings.String.
From S2P Require Import External.
From S2P Require Import Models.
From S2P Require Import Checker.
Import Checker.

Local Open Scope go_scope.

Module Interleaving.

Section halves.
Context `{UnicodeTables} {C R : Type} `{GoCache cval C, RedisClient R}.
Implicit Types c : Checker.t C R.

(** The two halves of [Check] on a cache miss: the decision, and storing it. *)
Definition Check_read c (userID domain : string) : bool * R :=
  let domain := normalize domain in
  let '(blocked, r') := redis_decision c userID domain in
  (if negb blocked then Z.eqb (fallbackCheck c domain) 1 else blocked, r').

Definition Check_store (t1 : Z) c (userID domain : string) (blocked : bool) : Checker.t C R :=
  Checker.mk (cache_Set (cache c) t1 (check_key userID (normalize domain)) (VBool blocked) DefaultExpiration)
    (rdb c) (fallback c) (enabled c).

(** [GetRedirect] on a miss asks Redis for one pattern after the other.  One round of its
    loop: the target, the patterns that are left, or an error. *)
Inductive probed := Found (ip : string) | Again (patterns : list string) | Failed (e : redis_error).

Definition probe (userID : string) (patterns : list string) : R → probed * R := λ r,
  match patterns with
  | [] => (Found EmptyString, r)
  | pattern :: rest =>
      match HGet (redirects_key userID) pattern r with
      | (Err RedisNil, r') => (Again rest, r')
      | (Err e, r') => (Failed e, r')
      | (Ok ip, r') => (if String.eqb ip EmptyString then Again rest else Found ip, r')
      end
  end.

Definition Redirect_store (t1 : Z) c (userID domain : string) (ip : string) : Checker.t C R :=
  Checker.mk (cache_Set (cache c) t1 (redirect_key userID (normalize domain)) (VStr ip) DefaultExpiration)
    (rdb c) (fallback c) (enabled c).

Definition with_server (r : R) c : Checker.t C R := Checker.mk (cache c) r (fallback c) (enabled c).

(** [Check] on a miss is its two halves. *)
Lemma Check_halves t0 t1 c u d :
  cache_Get (cache c) t0 (check_key u (normalize d)) = None →
  let '(v, r') := Check_read c u d in
  Check t0 t1 c u d = Ret (if v then 1%Z else 0%Z, Check_store t1 (with_server r' c) u d v).
Proof.
  intros Hmiss. unfold Check, Check_read, Check_store. rewrite Hmiss.
  by destruct (redis_decision c u (normalize d)).
Qed.

(** The loop of [redisGetRedirect] is its rounds. *)
Lemma hget_first_probe u ps r :
  hget_first (redirects_key u) ps r =
    match probe u ps r with
    | (Found ip, r') => (Ok ip, r')
    | (Again ps', r') => hget_first (redirects_key u) ps' r'
    | (Failed e, r') => (Err e, r')
    end.
Proof.
  destruct ps as [|p ps]; [done|]. cbn [hget_first probe].
  destruct (HGet _ _ _) as [[ip|[]] r']; [|done..]. by destruct (String.eqb ip EmptyString).
Qed.

(** [GetRedirect] on a miss is the loop and the store of what it found. *)
Lemma GetRedirect_halves t0 t1 c u d :
  cache_Get (cache c) t0 (redirect_key u (normalize d)) = None → enabled c = true →
  GetRedirect t0 t1 c u d =
    match hget_first (redirects_key u) (generatePatterns (normalize d)) (rdb c) with
    | (Ok ip, r') =>
        (if String.eqb ip EmptyString then (EmptyString, false) else (ip, true),
         Redirect_store t1 (with_server r' c) u d ip)
    | (Err _, r') => ((EmptyString, false), with_server r' c)
    end.
Proof.
  intros Hmiss Hen. unfold GetRedirect, redisGetRedirect. rewrite Hmiss, Hen.
  destruct (hget_first _ _ _) as [[ip|e] r']; unfold Redirect_store, with_server; rewrite Hen; [|done].
  by destruct (String.eqb ip EmptyString).
Qed.

(** A lookup between its halves, with the instant at which it read its answer. *)
Inductive lookup :=
| LCheck (u d : string) (v : bool) (start : Z)
| LRedirect (u d : string) (ip : string) (start : Z).

(** What a query is told. *)
Inductive answer :=
| Decision (u d : string) (blocked : bool)
| Redirected (u d : string) (ip : string).

(** [probing] are the redirect lookups in their loop, with the patterns that are left. *)
Record state := mkState {
  clock : Z;
  edge : Checker.t C R;
  probing : list (string * string * list string);
  pending : list lookup;
}.

Definition lookup_user (l : lookup) : string := match l with LCheck u _ _ _ | LRedirect u _ _ _ => u end.
Definition started (l : lookup) : Z := match l with LCheck _ _ _ s | LRedirect _ _ _ s => s end.

(** The key a lookup stores under, and the value. *)
Definition lookup_key (l : lookup) : string :=
  match l with
  | LCheck u d _ _ => check_key u (normalize d)
  | LRedirect u d _ _ => redirect_key u (normalize d)
  end.
Definition lookup_val (l : lookup) : cval :=
  match l with LCheck _ _ v _ => VBool v | LRedirect _ _ ip _ => VStr ip end.
Definition lookup_answer (l : lookup) : answer :=
  match l with LCheck u d v _ => Decision u d v | LRedirect u d ip _ => Redirected u d ip end.

(** The second half of a lookup. *)
Definition store (now : Z) (l : lookup) c : Checker.t C R :=
  match l with
  | LCheck u d v _ => Check_store now c u d v
  | LRedirect u d ip _ => Redirect_store now c u d ip
  end.

Variable D : Z.

(** A lookup has missed the cache some time before its read, so reading has no condition on
    the cache of now. *)
Inductive step : state → option answer → state → Prop :=
| step_clock s d : (0 ≤ d)%Z → step s None (mkState (clock s + d) (edge s) (probing s) (pending s))
| step_server s r : step s None (mkState (clock s) (with_server r (edge s)) (probing s) (pending s))
| step_evict s u :
    step s None (mkState (clock s) (ClearUserCache (clock s) (edge s) u) (probing s) (pending s))
| step_check_hit s u d v t1 :
    good_user u = true → cache_Get (cache (edge s)) (clock s) (check_key u (normalize d)) ≠ None →
    Check (clock s) t1 (edge s) u d = Ret (if v : bool then 1%Z else 0%Z, edge s) →
    step s (Some (Decision u d v)) s
| step_check_read s u d v r :
    good_user u = true → Check_read (edge s) u d = (v, r) →
    step s None (mkState (clock s) (with_server r (edge s)) (probing s) (LCheck u d v (clock s) :: pending s))
| step_redirect_hit s u d ip t1 :
    good_user u = true → cache_Get (cache (edge s)) (clock s) (redirect_key u (normalize d)) ≠ None →
    GetRedirect (clock s) t1 (edge s) u d = ((ip, true), edge s) →
    step s (Some (Redirected u d ip)) s
| step_redirect_start s u d :
    good_user u = true → enabled (edge s) = true →
    step s None (mkState (clock s) (edge s) ((u, d, generatePatterns (normalize d)) :: probing s) (pending s))
| step_probe_found s u d ps before after ip r :
    probing s = before ++ (u, d, ps) :: after → probe u ps (rdb (edge s)) = (Found ip, r) →
    step s None (mkState (clock s) (with_server r (edge s)) (before ++ after) (LRedirect u d ip (clock s) :: pending s))
| step_probe_again s u d ps before after ps' r :
    probing s = before ++ (u, d, ps) :: after → probe u ps (rdb (edge s)) = (Again ps', r) →
    step s None (mkState (clock s) (with_server r (edge s)) (before ++ (u, d, ps') :: after) (pending s))
| step_probe_failed s u d ps before after e r :
    probing s = before ++ (u, d, ps) :: after → probe u ps (rdb (edge s)) = (Failed e, r) →
    step s (Some (Redirected u d EmptyString)) (mkState (clock s) (with_server r (edge s)) (before ++ after) (pending s))
| step_store s l before after :
    pending s = before ++ l :: after → (clock s ≤ started l + D)%Z →
    step s (Some (lookup_answer l)) (mkState (clock s) (store (clock s) l (edge s)) (probing s) (before ++ after)).

(** A run and the states it passed, the last one included. *)
Inductive run (s0 : state) : list state → state → Prop :=
| run_start : run s0 [s0] s0
| run_step vs s a s' : run s0 vs s → step s a s' → run s0 (vs ++ [s']) s'.
End halves.
Arguments state : clear implicits.

(** ** The invariant of runs *)

Section staleness.
Context `{UnicodeTables} {C R : Type} `{GoCache cval C, !GoCacheLaws cval C, RedisClient R}.
Variable D : Z.
Implicit Types (s : state C R) (l : lookup).

(** The state [s] is one a lookup has read its answer from: the decision, or the target of
    one of the patterns of the name. *)
Definition reads s l : Prop :=
  match l with
  | LCheck u d v _ => (Check_read (edge s) u d).1 = v
  | LRedirect u d ip _ => ip = EmptyString ∨
      ∃ p, p ∈ generatePatterns (normalize d) ∧ (HGet (redirects_key u) p (rdb (edge s))).1 = Ok ip
  end.

(** A lookup's answer comes from a state of the run. *)
Definition from_run (vs : list (state C R)) l : Prop :=
  good_user (lookup_user l) = true ∧ ∃ s, s ∈ vs ∧ clock s = started l ∧ reads s l.

Definition expiration s : Z := cache_expiration (cache (edge s)).

(** What a run keeps, for the keys in [P]: the lookups that will be stored and the entries
    that can be read come from states of the run, and entries do not outlive the longest
    lookup and the lifetime of an entry. *)
Record inv (P : string → Prop) (exp : Z) (vs : list (state C R)) s : Prop := {
  inv_here : s ∈ vs;
  inv_clock : Forall (λ s', clock s' ≤ clock s)%Z vs;
  inv_exp : expiration s = exp;
  inv_probing : Forall (λ w : string * string * list string, good_user w.1.1 = true ∧
    ∀ p, p ∈ w.2 → p ∈ generatePatterns (normalize w.1.2)) (probing s);
  inv_pending : ∀ l, l ∈ pending s → P (lookup_key l) → from_run vs l;
  inv_cached : ∀ t k v, P k → (clock s ≤ t)%Z → cache_Get (cache (edge s)) t k = Some v →
    ∃ l, lookup_key l = k ∧ lookup_val l = v ∧ from_run vs l ∧ (t ≤ started l + D + exp)%Z
}.

Lemma from_run_app vs vs' l : from_run vs l → from_run (vs ++ vs') l.
Proof. intros (Hu & s & Hs & Hr). split; [done|]. exists s. split; [|done]. apply elem_of_app. by left. Qed.

(** A state with the same cache, lookups and a later clock. *)
Lemma inv_same_cache P exp vs s s' :
  inv P exp vs s → (clock s ≤ clock s')%Z → cache (edge s') = cache (edge s) →
  Forall (λ w : string * string * list string, good_user w.1.1 = true ∧
    ∀ p, p ∈ w.2 → p ∈ generatePatterns (normalize w.1.2)) (probing s') →
  (∀ l, l ∈ pending s' → l ∈ pending s ∨ from_run (vs ++ [s']) l) →
  inv P exp (vs ++ [s']) s'.
Proof.
  intros [I1 I2 I3 I4 I5 I6] Hc Hca Hpr Hpe. split.
  - apply elem_of_app. right. by left.
  - apply Forall_app. split; [|by repeat constructor]. eapply Forall_impl; [done|]. intros s'' ?. cbn in *. lia.
  - unfold expiration. by rewrite Hca.
  - done.
  - intros l [Hl|Hl]%Hpe HP; [|done]. apply from_run_app. by apply I5.
  - intros t k v HP Ht Hg. rewrite Hca in Hg.
    destruct (I6 t k v HP ltac:(lia) Hg) as (l & Hk & Hv & Hf & Hb). exists l. split_and!; try done. by apply from_run_app.
Qed.

Lemma probe_found u ps (r : R) ip r' : probe u ps r = (Found ip, r') →
  ip = EmptyString ∨ ∃ p, p ∈ ps ∧ (HGet (redirects_key u) p r).1 = Ok ip.
Proof.
  destruct ps as [|p ps]; cbn [probe]; [intros; simplify_eq; by left|].
  destruct (HGet _ _ _) as [[ip'|[]] r1] eqn:E; try done. destruct (String.eqb ip' EmptyString); [done|].
  intros [= <- <-]. right. exists p. split; [by left|]. by rewrite E.
Qed.

Lemma probe_again u ps (r : R) ps' r' : probe u ps r = (Again ps', r') → ∀ p, p ∈ ps' → p ∈ ps.
Proof.
  destruct ps as [|p ps]; cbn [probe]; [done|].
  destruct (HGet _ _ _) as [[ip'|[]] r1]; [destruct (String.eqb ip' EmptyString)|..]; try done;
    intros [= <- <-] p' ?; by right.
Qed.

Lemma store_cache now l (c : Checker.t C R) :
  cache (store now l c) = cache_Set (cache c) now (lookup_key l) (lookup_val l) DefaultExpiration.
Proof. by destruct l. Qed.

Lemma clear_expiration now (c : Checker.t C R) u :
  cache_expiration (cache (ClearUserCache now c u)) = cache_expiration (cache c).
Proof.
  unfold ClearUserCache. cbn [cache]. generalize (cache_Items (cache c) now). intros l. generalize (cache c).
  induction l as [|kv l IH]; intros ca; [done|]. cbn [fold_left]. rewrite IH.
  destruct (clears u kv.1); [apply expiration_Delete|done].
Qed.

(** An eviction drops entries. *)
Lemma inv_evict P exp vs s u : inv P exp vs s →
  let s' := mkState (clock s) (ClearUserCache (clock s) (edge s) u) (probing s) (pending s) in inv P exp (vs ++ [s']) s'.
Proof.
  intros [I1 I2 I3 I4 I5 I6] s'. split; cbn [clock edge probing pending].
  - apply elem_of_app. right. by left.
  - apply Forall_app. split; [done|]. by repeat constructor.
  - unfold expiration. cbn [edge s']. by rewrite clear_expiration.
  - done.
  - intros l Hl HP. apply from_run_app. by apply I5.
  - intros t k v HP Ht Hg. cbn [edge s'] in Hg. rewrite ClearUserCache_get in Hg by done. destruct (clears u k); [done|].
    destruct (I6 t k v HP Ht Hg) as (l & Hk & Hv & Hf & Hb). exists l. split_and!; try done. by apply from_run_app.
Qed.

(** A lookup that ends stores what it has read. *)
Lemma inv_store P exp vs s l before after : (0 < exp)%Z → inv P exp vs s →
  pending s = before ++ l :: after → (clock s ≤ started l + D)%Z →
  let s' := mkState (clock s) (store (clock s) l (edge s)) (probing s) (before ++ after) in inv P exp (vs ++ [s']) s'.
Proof.
  intros Hexp [I1 I2 I3 I4 I5 I6] Hp Hl s'.
  assert (Hin : ∀ l', l' ∈ before ++ after → l' ∈ pending s) by (rewrite Hp; set_solver).
  split; cbn [clock edge probing pending].
  - apply elem_of_app. right. by left.
  - apply Forall_app. split; [done|]. by repeat constructor.
  - unfold expiration. cbn [edge s']. by rewrite store_cache, expiration_Set.
  - done.
  - intros l' Hl' HP. apply from_run_app. apply I5; auto.
  - intros t k v HP Ht Hg. cbn [edge s'] in Hg. rewrite store_cache in Hg. destruct (decide (lookup_key l = k)) as [Hk|Hk].
    + rewrite Hk in Hg. exists l. split; [done|].
      assert (Hlate : (t ≤ clock s + exp)%Z).
      { destruct (Z.le_gt_cases t (clock s + exp)) as [|Hgt]; [done|].
        rewrite Get_Set_expired in Hg; [done|unfold expiration in I3; cbn; lia..]. }
      destruct (Get_Set_any (cache (edge s)) (clock s) k (lookup_val l) DefaultExpiration t) as [E|E];
        rewrite E in Hg; [|done]. injection Hg as <-. split; [done|]. split; [|lia].
      apply from_run_app, I5; [rewrite Hp; set_solver|by rewrite Hk].
    + rewrite Get_Set_ne in Hg by done. destruct (I6 t k v HP Ht Hg) as (l' & Hk' & Hv & Hf & Hb).
      exists l'. split_and!; try done. by apply from_run_app.
Qed.

Lemma step_inv P exp vs s a s' : (0 < exp)%Z → inv P exp vs s → step D s a s' → inv P exp (vs ++ [s']) s'.
Proof.
  intros Hexp I Hst. pose proof I as [I1 I2 I3 I4 I5 I6].
  destruct Hst as [s d Hd|s r|s u|s u d v t1 Hu Hg Hck|s u d v r Hu Hr|s u d ip t1 Hu Hg Hck|s u d Hu Hen
    |s u d ps before after ip r Hp Hr|s u d ps before after ps' r Hp Hr|s u d ps before after e r Hp Hr
    |s l before after Hp Hl].
  1,2: apply (inv_same_cache P exp vs s); cbn; [done|lia|done|done|by left].
  - by apply inv_evict.
  - apply (inv_same_cache P exp vs s); [done|lia|done|done|by left].
  - apply (inv_same_cache P exp vs s); cbn; [done|lia|done|done|]. intros l [->|?]%elem_of_cons; [right|by left].
    split; [done|]. exists s. split_and!; [apply elem_of_app; by left|done|]. cbn. by rewrite Hr.
  - apply (inv_same_cache P exp vs s); [done|lia|done|done|by left].
  - apply (inv_same_cache P exp vs s); cbn; [done|lia|done| |by left]. constructor; [|done]. by split.
  - rewrite Hp in I4. apply Forall_app in I4 as [I4a [[Hu Hps] I4b]%Forall_cons]. cbn in Hu, Hps.
    apply (inv_same_cache P exp vs s); cbn; [done|lia|done|by apply Forall_app|].
    intros l [->|?]%elem_of_cons; [right|by left]. split; [done|]. exists s.
    split_and!; [apply elem_of_app; by left|done|]. cbn [reads].
    destruct (probe_found u ps _ _ _ Hr) as [?|(p & Hin & Hg)]; [by left|right]. exists p. auto.
  - rewrite Hp in I4. apply Forall_app in I4 as [I4a [[Hu Hps] I4b]%Forall_cons]. cbn in Hu, Hps.
    apply (inv_same_cache P exp vs s); cbn; [done|lia|done| |by left]. apply Forall_app. split; [done|]. constructor; [|done].
    split; [done|]. cbn. intros p Hin. apply Hps. by apply (probe_again u ps _ _ _ Hr).
  - rewrite Hp in I4. apply Forall_app in I4 as [I4a [_ I4b]%Forall_cons].
    apply (inv_same_cache P exp vs s); cbn; [done|lia|done|by apply Forall_app|by left].
  - by apply inv_store.
Qed.

(** A state with nothing to be read, and no lookup to be stored, under the keys in [P]. *)
Definition fresh (P : string → Prop) s : Prop :=
  (∀ t k, P k → (clock s ≤ t)%Z → cache_Get (cache (edge s)) t k = None) ∧
  (∀ l, l ∈ pending s → ¬ P (lookup_key l)) ∧
  Forall (λ w : string * string * list string, good_user w.1.1 = true ∧
    ∀ p, p ∈ w.2 → p ∈ generatePatterns (normalize w.1.2)) (probing s).

Lemma run_inv P s0 vs s : (0 < expiration s0)%Z → fresh P s0 → run D s0 vs s → inv P (expiration s0) vs s.
Proof.
  intros Hexp (Hg & Hpe & Hpr) Hrun. induction Hrun as [|vs s a s' Hrun IH Hst]; [|by eapply step_inv].
  split; [by left|by repeat constructor|done|done| |].
  - intros l Hl HP. by apply Hpe in Hl.
  - intros t k v HP Ht. by rewrite Hg.
Qed.

Lemma hit_value (c : Checker.t C R) t t1 u d v :
  cache_Get (cache c) t (check_key u (normalize d)) ≠ None →
  Check t t1 c u d = Ret (if v : bool then 1%Z else 0%Z, c) →
  cache_Get (cache c) t (check_key u (normalize d)) = Some (VBool v).
Proof.
  intros Hne Hck. unfold Check in Hck. destruct (cache_Get _ _ _) as [[b|ip]|]; [|done..].
  by destruct b, v; simplify_eq.
Qed.

(** An answer is one that a lookup has read in the run, not longer ago than an entry and a
    lookup can last together. *)
Lemma decision_from_run P s0 vs s u d v s' :
  (0 < expiration s0)%Z → fresh P s0 → run D s0 vs s → P (check_key u (normalize d)) →
  step D s (Some (Decision u d v)) s' →
  ∃ s'', s'' ∈ vs ∧ (clock s - expiration s0 - D ≤ clock s'' ≤ clock s)%Z ∧ (Check_read (edge s'') u d).1 = v.
Proof.
  intros Hexp Hfr Hrun HP Hst. destruct (run_inv P s0 vs s Hexp Hfr Hrun) as [I1 I2 I3 I4 I5 I6].
  rewrite Forall_forall in I2.
  assert (Hread : ∀ l, good_user u = true → from_run vs l → lookup_key l = check_key u (normalize d) →
    lookup_val l = VBool v → ∃ s'', s'' ∈ vs ∧ clock s'' = started l ∧ (Check_read (edge s'') u d).1 = v).
  { intros l Hu (Hul & s'' & Hs'' & Hc & Hr) Hk Hv. destruct l as [u' d' v' start|]; [|done]. cbn in *.
    apply check_key_inj in Hk as [-> Hd]; [|done..]. injection Hv as ->. exists s''. split_and!; try done.
    unfold Check_read in *. by rewrite <- Hd. }
  inversion Hst as [| | |? ? ? ? t1 Hu Hg Hck| | | | | |? ? ? ? ? ? ? r Hp Hr|? l before after Hp Hl]; subst; try done.
  - apply hit_value in Hck; [|done]. destruct (I6 _ _ _ HP (Z.le_refl _) Hck) as (l & Hk & Hv & Hf & Hb).
    destruct (Hread l Hu Hf Hk Hv) as (s'' & Hs'' & Hc & Hr). exists s''. split_and!; [done| |by apply I2|done]. lia.
  - destruct l as [u' d' v' start|]; simplify_eq. cbn [started] in Hl.
    destruct (I5 (LCheck u d v start)) as (Hu & s'' & Hs'' & Hc & Hr); [rewrite Hp; set_solver|done|].
    exists s''. cbn in *. split_and!; [done|lia|by apply I2|done].
Qed.
End staleness.

(** ** The properties *)

Section properties.
Context `{UnicodeTables} {C R : Type} `{GoCache cval C, !GoCacheLaws cval C}.
Context `{RedisClient R, RedisView R, !RedisLaws R}.
Variable D : Z.
Implicit Types (s : state C R) (l : lookup).

(** What the rules of a state say, when its Redis answers. *)
Definition decides s (u d : string) (v : bool) : Prop :=
  ∀ B, enabled (edge s) = true → redis_up (rdb (edge s)) = true →
    as_set (redis_get (rdb (edge s)) (blocked_key u)) = Some B →
    (v = true ↔ blocked_by B (fallback (edge s)) (normalize d)).

Lemma Check_read_decides s u d v : (Check_read (edge s) u d).1 = v → decides s u d v.
Proof.
  intros <- B Hen Hup HB. destruct (redis_decision_up (edge s) u (normalize d) B Hen Hup HB) as (b & Hb & Hspec).
  unfold Check_read, fallbackCheck. rewrite Hb, <- Hspec. by destruct b, (fallback_loop _ _).
Qed.

(** C14: Bounded staleness: however queries, evictions and changes of Redis interleave, a
    decision that is given at an instant is the decision of the rules as they were at some
    instant not earlier than the lifetime of a cache entry plus the longest lookup before
    it. *)
Theorem decision_bounded_staleness s0 vs s u d v s' :
  (0 < expiration s0)%Z → fresh (λ _, True) s0 → run D s0 vs s → step D s (Some (Decision u d v)) s' →
  ∃ s'', s'' ∈ vs ∧ (clock s - expiration s0 - D ≤ clock s'' ≤ clock s)%Z ∧ decides s'' u d v.
Proof.
  intros Hexp Hfr Hrun Hst.
  destruct (decision_from_run D (λ _, True) s0 vs s u d v s' Hexp Hfr Hrun I Hst) as (s'' & Hs'' & Hc & Hr).
  exists s''. split; [done|]. split; [done|]. by apply Check_read_decides.
Qed.

Definition evict (u : string) s : state C R :=
  mkState (clock s) (ClearUserCache (clock s) (edge s) u) (probing s) (pending s).

Definition keys_of (u k : string) : Prop := ∃ d, k = check_key u d ∨ k = redirect_key u d.

Lemma keys_of_clears u k : keys_of u k → clears u k = true.
Proof. intros (d & [->| ->]); apply clears_own. Qed.

Lemma lookup_key_other u l : good_user u = true → good_user (lookup_user l) = true → lookup_user l ≠ u →
  ¬ keys_of u (lookup_key l).
Proof.
  intros Hu Hl Hne Hk. apply keys_of_clears in Hk.
  destruct l as [v d ? ?|v d ? ?]; cbn [lookup_key lookup_user] in *;
    destruct (clears_other u v (normalize d) Hu Hl (not_eq_sym Hne)); congruence.
Qed.

(** C21: An eviction is complete but for the lookups in progress: once the worker has evicted
    a user while none of his lookups had its answer read and not yet stored, every later
    decision for that user is one of the rules as they were since the eviction; when they
    have stayed the same, it is theirs. *)
Theorem eviction_complete s vs s1 u d v s' B :
  (0 < expiration s)%Z → good_user u = true →
  Forall (λ l, good_user (lookup_user l) = true ∧ lookup_user l ≠ u) (pending s) →
  Forall (λ w : string * string * list string, good_user w.1.1 = true ∧
    ∀ p, p ∈ w.2 → p ∈ generatePatterns (normalize w.1.2)) (probing s) →
  run D (evict u s) vs s1 → step D s1 (Some (Decision u d v)) s' →
  Forall (λ s2, enabled (edge s2) = true ∧ redis_up (rdb (edge s2)) = true ∧
    fallback (edge s2) = fallback (edge s) ∧ as_set (redis_get (rdb (edge s2)) (blocked_key u)) = Some B) vs →
  v = true ↔ blocked_by B (fallback (edge s)) (normalize d).
Proof.
  intros Hexp Hu Hpe Hpr Hrun Hst Hvs. rewrite Forall_forall in Hpe.
  assert (Hfr : fresh (keys_of u) (evict u s)).
  { split; [|split; [|done]]; cbn [clock edge pending evict].
    - intros t k Hk Ht. rewrite ClearUserCache_get by done. by rewrite (keys_of_clears u k Hk).
    - intros l Hl. apply Hpe in Hl as [? ?]. by apply lookup_key_other. }
  assert (Hexp' : (0 < expiration (evict u s))%Z) by (unfold expiration, evict; cbn [edge]; by rewrite clear_expiration).
  destruct (decision_from_run D (keys_of u) (evict u s) vs s1 u d v s' Hexp' Hfr Hrun) as (s2 & Hs2 & _ & Hr);
    [by exists (normalize d); left|done|].
  rewrite Forall_forall in Hvs. destruct (Hvs s2 Hs2) as (Hen & Hup & Hfb & HB).
  rewrite <- Hfb. by apply (Check_read_decides s2 u d v Hr).
Qed.

(** The type invariant: the cache is well typed and every lookup is of a well-formed user. *)
Definition well_typed s : Prop :=
  typed (cache (edge s)) ∧ Forall (λ l, good_user (lookup_user l) = true) (pending s) ∧
  Forall (λ w : string * string * list string, good_user w.1.1 = true) (probing s).

Lemma store_typed now l (c : Checker.t C R) : typed (cache c) → good_user (lookup_user l) = true → typed (cache (store now l c)).
Proof.
  intros Hty Hl. rewrite store_cache. apply typed_Set; [done|]. destruct l as [u d v start|u d ip start]; cbn in *; eauto.
Qed.

Lemma step_typed s a s' : well_typed s → step D s a s' → well_typed s'.
Proof.
  intros (Hty & Hpe & Hpr) Hst. unfold well_typed.
  destruct Hst as [s d Hd|s r|s u|s u d v t1 Hu Hg Hck|s u d v r Hu Hr|s u d ip t1 Hu Hg Hck|s u d Hu Hen
    |s u d ps before after ip r Hp Hr|s u d ps before after ps' r Hp Hr|s u d ps before after e r Hp Hr
    |s l before after Hp Hl]; cbn [edge pending probing with_server cache]; try done;
    try (rewrite Hp in Hpr; apply Forall_app in Hpr as [Hpr1 [Hu Hpr2]%Forall_cons]).
  - split; [|done]. by apply fold_typed.
  - split_and!; [done|by constructor|done].
  - split_and!; [done..|]. by constructor.
  - split_and!; [done|by constructor|by apply Forall_app].
  - split_and!; [done..|]. apply Forall_app. split; [done|by constructor].
  - split_and!; [done..|by apply Forall_app].
  - rewrite Hp in Hpe. apply Forall_app in Hpe as [Hpe1 [Hul Hpe2]%Forall_cons].
    split_and!; [by apply store_typed|by apply Forall_app|done].
Qed.

(** C34: The cache stays well typed in every interleaving, so a query never panics: in each
    state of a run, [Check] of a well-formed user returns a decision. *)
Theorem interleaving_typed s0 vs s :
  well_typed s0 → run D s0 vs s →
  well_typed s ∧ ∀ u d t t1, good_user u = true → ∃ v c, Check t t1 (edge s) u d = Ret (v, c) ∧ typed (cache c).
Proof.
  intros Hty Hrun. assert (Hs : well_typed s) by (induction Hrun; [done|by eapply step_typed]).
  split; [done|]. intros u d t t1 Hu. apply Check_typed; [apply Hs|done].
Qed.
End properties.

(** ** Concrete instances of the hypotheses

    A lookup of alice reads her empty rules, a rule is added and the user evicted, and the
    lookup stores what it had read: the next query is answered from the entry. *)
#[local] Existing Instance ascii_tables.

Definition example_start : state (MapCache.t cval) MapRedis.t :=
  mkState 0 (NewChecker MapRedis.empty) [] [].

Definition example_rules : MapRedis.t := (SAdd (blocked_key "alice") ["games.net"] MapRedis.empty).2.

Definition in_progress : state (MapCache.t cval) MapRedis.t :=
  mkState 0 (NewChecker MapRedis.empty) [] [LCheck "alice" "games.net" false 0].
Definition changed : state (MapCache.t cval) MapRedis.t :=
  mkState 0 (with_server example_rules (NewChecker MapRedis.empty)) [] [LCheck "alice" "games.net" false 0].
Definition stored (now : Z) : state (MapCache.t cval) MapRedis.t :=
  mkState now (Check_store 3 (with_server example_rules (NewChecker MapRedis.empty)) "alice" "games.net" false) [] [].

Lemma example_fresh : fresh (λ _, True) example_start.
Proof.
  split; [|split; [|done]].
  - intros t k _ _. apply (Get_New (C := MapCache.t cval)).
  - by intros l ?%elem_of_nil.
Qed.

Lemma example_run : ∃ vs, run 10 example_start vs (stored 9).
Proof.
  eexists. eapply (run_step 10 _ _ (stored 3) None); [|apply (step_clock 10 (stored 3) 6); lia].
  eapply (run_step 10 _ _ (mkState 3 (edge changed) [] (pending changed)) _);
    [|apply (step_store 10 (mkState 3 (edge changed) [] (pending changed)) (LCheck "alice" "games.net" false 0) [] []);
      [reflexivity|cbn; lia]].
  eapply (run_step 10 _ _ changed None); [|apply (step_clock 10 changed 3); lia].
  eapply (run_step 10 _ _ changed None); [|exact (step_evict 10 changed "alice")].
  eapply (run_step 10 _ _ in_progress None); [|exact (step_server 10 in_progress example_rules)].
  eapply (run_step 10 _ _ example_start None); [apply run_start|].
  exact (step_check_read 10 example_start "alice" "games.net" false MapRedis.empty eq_refl eq_refl).
Qed.

Lemma decision_bounded_staleness_witness :
  ∃ vs s'', run 10 example_start vs (stored 9) ∧ s'' ∈ vs ∧
    (9 - 60000000000 - 10 ≤ clock s'' ≤ 9)%Z ∧ decides s'' "alice" "games.net" false.
Proof.
  destruct example_run as [vs Hrun].
  assert (He : (0 < expiration example_start)%Z) by by_eval.
  destruct (decision_bounded_staleness 10 example_start vs (stored 9) "alice" "games.net" false (stored 9)
    He example_fresh Hrun) as (s'' & Hs'' & Hc & Hd).
  - apply (step_check_hit 10 (stored 9) "alice" "games.net" false 9); [by_eval..|]. vm_compute. reflexivity.
  - exists vs, s''. split; [exact Hrun|]. split; [exact Hs''|]. split; [exact Hc|exact Hd].
Defined.

(** The same lookup, stored before the eviction: the change is seen. *)
Definition evicted : state (MapCache.t cval) MapRedis.t :=
  mkState 9 (with_server example_rules (edge (stored 9))) [] [].

Lemma eviction_complete_witness :
  true = true ↔ blocked_by {["games.net"]} default_fallback "games.net".
Proof.
  set (s0 := evict "alice" evicted).
  set (s1 := mkState 9 (with_server example_rules (edge s0)) [] [LCheck "alice" "games.net" true 9] : state (MapCache.t cval) MapRedis.t).
  assert (Hrun : run 10 s0 [s0; s1] s1).
  { apply (run_step 10 s0 [s0] s0 None s1 (run_start 10 s0)).
    refine (step_check_read 10 s0 "alice" "games.net" true example_rules eq_refl _). by_eval. }
  refine (eviction_complete 10 evicted [s0; s1] s1 "alice" "games.net" true
    (mkState 9 (store 9 (LCheck "alice" "games.net" true 9) (edge s1)) [] []) {["games.net"]} _ eq_refl _ _ Hrun _ _).
  - by_eval.
  - constructor.
  - constructor.
  - apply (step_store 10 s1 (LCheck "alice" "games.net" true 9) [] []); [reflexivity|cbn; lia].
  - repeat (constructor; [split; [by_eval|split; [by_eval|split; by_eval]]|]). constructor.
Defined.

Lemma interleaving_typed_witness :
  well_typed (stored 9) ∧ ∃ v c, Check 9 9 (edge (stored 9)) "alice" "games.net" = Ret (v, c) ∧ typed (cache c).
Proof.
  destruct example_run as [vs Hrun].
  destruct (interleaving_typed 10 example_start vs (stored 9)) as [Hty Hck]; [|exact Hrun|].
  - split; [|split; constructor]. apply (typed_New (C := MapCache.t cval)).
  - split; [exact Hty|]. apply (Hck "alice" "games.net" 9%Z 9%Z). reflexivity.
Defined.
End Interleaving.
