(* ===== verification/Rule.v ===== *)
(** * The process-wide rule interface: src/internal/rule/rule.go

    [Module Rule] has the two package variables ([global], the checker installed by
    [InitChecker], and the [totalChecks] counter) as a state record and one
    definition per exported function. *)

From S2P Require Import Prelude.
From S2P Require Import GoStrings.
From S2P Require Import External.
From S2P Require Import Models.
From S2P Require Import Checker.
From Stdlib Require Import Strings.Ascii Strings.String.
Import Checker.

Local Open Scope go_scope.

Module Rule.

Inductive rule_error := NotInitialized | RedisNotAvailable | RedisFailed (e : redis_error).

Definition defaultFallback : list string :=
  ["example-blocked.com"; "malware.test"; "ads.tracker.com"; "pornhub.com";
   "xvideos.com"; "doubleclick.net"; "google-analytics.com"].

Section rule.
Context `{UnicodeTables} {C R : Type} `{GoCache cval C, RedisClient R}.

Record state := mkState {
  global : option (Checker.t C R);
  totalChecks : Z;
}.

(** Before [InitChecker]: the zero values of the package variables. *)
Definition uninitialized : state := mkState None 0.

Definition InitChecker (r : R) (st : state) : state :=
  mkState (Some (NewChecker r)) (totalChecks st).

Definition CheckRule (t0 t1 : Z) (st : state) (userID domain : string) : outcome (Z * state) :=
  let total := uint64_add (totalChecks st) 1 in
  let domain := normalize domain in
  match global st with
  | Some c =>
      vc <-! Check t0 t1 c userID domain ;;
      Ret (vc.1, mkState (Some vc.2) total)
  | None =>
      Ret (if fallback_loop defaultFallback domain then 1%Z else 0%Z, mkState None total)
  end.

Definition GetRedirectDomain (t0 t1 : Z) (st : state) (userID domain : string) :
    (string * bool) * state :=
  match global st with
  | Some c =>
      let '(res, c') := GetRedirect t0 t1 c userID domain in
      (res, mkState (Some c') (totalChecks st))
  | None => ((EmptyString, false), st)
  end.

Definition SetRedirectRule (st : state) (userID domain targetIP : string) :
    result rule_error unit * state :=
  match global st with
  | Some c =>
      let '(res, c') := SetRedirect c userID domain targetIP in
      (map_err RedisFailed res, mkState (Some c') (totalChecks st))
  | None => (Err NotInitialized, st)
  end.

Definition RemoveRedirectRule (st : state) (userID domain : string) :
    result rule_error unit * state :=
  match global st with
  | Some c =>
      let '(res, c') := RemoveRedirect c userID domain in
      (map_err RedisFailed res, mkState (Some c') (totalChecks st))
  | None => (Err NotInitialized, st)
  end.

Definition ListRedirectRules (st : state) (userID : string) :
    result rule_error (gmap string string) * state :=
  match global st with
  | Some c =>
      let '(res, c') := ListRedirects c userID in
      (map_err RedisFailed res, mkState (Some c') (totalChecks st))
  | None => (Err NotInitialized, st)
  end.

Definition ClearUserCache (now : Z) (st : state) (userID : string) : state :=
  match global st with
  | Some c => mkState (Some (Checker.ClearUserCache now c userID)) (totalChecks st)
  | None => st
  end.

Definition PingRedis (st : state) : result rule_error unit * state :=
  match global st with
  | None => (Err NotInitialized, st)
  | Some c =>
      if negb (enabled c) then (Err RedisNotAvailable, st)
      else
        let '(res, r') := Ping (rdb c) in
        (map_err RedisFailed res,
         mkState (Some (mk (cache c) r' (fallback c) (enabled c))) (totalChecks st))
  end.

Definition TotalChecks (st : state) : Z := totalChecks st.

Definition IsBlockedDomain (t0 t1 : Z) (st : state) (domain : string) : outcome (bool * state) :=
  match global st with
  | Some c =>
      vc <-! Check t0 t1 c "default" domain ;;
      Ret (Z.eqb vc.1 1, mkState (Some vc.2) (totalChecks st))
  | None => Ret (fallback_loop defaultFallback (normalize domain), st)
  end.

(** A run of queries against the process. *)
Fixpoint check_all (st : state) (qs : list (Z * Z * string * string)) : outcome state :=
  match qs with
  | [] => Ret st
  | (t0, t1, u, d) :: rest => vs <-! CheckRule t0 t1 st u d ;; check_all vs.2 rest
  end.
End rule.
Arguments state : clear implicits.

Section rule_proofs.
Context `{UnicodeTables} {C R : Type}.
Context `{GoCache cval C} `{!GoCacheLaws cval C}.
Context `{RedisClient R, RedisView R} `{!RedisLaws R}.
Implicit Types st : state C R.

Lemma CheckRule_total t0 t1 st u d v st' :
  CheckRule t0 t1 st u d = Ret (v, st') → totalChecks st' = uint64_add (totalChecks st) 1.
Proof.
  unfold CheckRule. destruct (global st) as [c|]; [|by intros [= _ <-]].
  by intros (vc & _ & [= _ <-])%outcome_bind_ret.
Qed.

(** [totalChecks] counts the queries, modulo 2^64. *)
Theorem check_all_counts st qs st' :
  (0 ≤ totalChecks st < 2 ^ 64)%Z → check_all st qs = Ret st' →
  TotalChecks st' = uint64_wrap (totalChecks st + Z.of_nat (List.length qs)).
Proof.
  unfold TotalChecks. intros Hr. revert st Hr.
  induction qs as [|[[[t0 t1] u] d] qs IH]; intros st Hr; simpl.
  - intros [= <-]. rewrite Z.add_0_r. by rewrite uint64_wrap_small.
  - intros ([v st1] & Hck & Hrest)%outcome_bind_ret. apply CheckRule_total in Hck.
    assert (0 ≤ totalChecks st1 < 2 ^ 64)%Z as Hr1 by (rewrite Hck; apply uint64_wrap_range).
    rewrite (IH _ Hr1 Hrest), Hck.
    unfold uint64_add. change (uint64_wrap (uint64_wrap (totalChecks st + 1) + ?n))
      with (uint64_add (uint64_wrap (totalChecks st + 1)) n).
    rewrite uint64_add_wrap. f_equal. lia.
Qed.

(** The two fallbacks agree. A process without a checker (the inline fallback of
    [CheckRule]) and one whose checker started without Redis decide every ASCII name
    with at most one trailing dot in the same way. *)
Theorem CheckRule_fallbacks_agree t0 t1 st u d r e :
  global st = None → (Ping r).1 = Err e →
  is_ascii d = true → HasSuffix (TrimSuffix d ".") "." = false →
  ∃ v st1 st2,
    CheckRule t0 t1 st u d = Ret (v, st1) ∧
    CheckRule t0 t1 (InitChecker r st) u d = Ret (v, st2) ∧
    (v = 1%Z ↔ ∃ b, b ∈ defaultFallback ∧ under b (normalize d)) ∧ (v = 0 ∨ v = 1)%Z.
Proof.
  intros Hg Hping Ha Hs. unfold CheckRule, InitChecker, NewChecker. rewrite Hg.
  destruct (Ping r) as [[[]|e'] r']; simpl in Hping; [done|].
  cbn [global]. rewrite Check_miss by apply Get_New.
  unfold redis_decision. cbn [enabled rdb fallback fst snd orb outcome_bind].
  rewrite normalize_idem by done. change default_fallback with defaultFallback.
  do 3 eexists. split_and!; [done | done | |].
  - rewrite <- fallback_loop_spec. by destruct (fallback_loop defaultFallback _).
  - destruct (fallback_loop defaultFallback _); auto.
Qed.

(** A process that starts while Redis is down never uses it. Whatever happens
    afterwards, [enabled] stays false: the health check keeps failing with "redis
    not available" even when the server answers again, and every decision is made by
    the fallback list. *)
Theorem disabled_at_start_disabled_forever r e os c n :
  (Ping r).1 = Err e → run_ops (NewChecker r) os = Ret c →
  (PingRedis (mkState (Some c) n)).1 = Err RedisNotAvailable ∧
  ∀ t0 t1 u d, cache_Get (cache c) t0 (check_key u (normalize d)) = None →
    ∃ v c', Check t0 t1 c u d = Ret (v, c') ∧ (v = 1%Z ↔ fallback_loop (fallback c) (normalize d) = true).
Proof.
  intros Hping Hrun. assert (enabled c = false) as Hen.
  { rewrite (run_ops_enabled _ _ _ Hrun). unfold NewChecker.
    by destruct (Ping r) as [[[]|e'] r']. }
  unfold PingRedis. simpl. rewrite Hen. split; [done|].
  intros t0 t1 u d Hmiss. rewrite Check_miss by done. unfold redis_decision. rewrite Hen. simpl.
  do 2 eexists. split; [done|]. by destruct (fallback_loop _ _).
Qed.
End rule_proofs.

(** ** Concrete instances of the hypotheses *)

#[local] Existing Instance ascii_tables.

Definition down : MapRedis.t := MapRedis.mk false ∅ [].
Definition no_checker : state (MapCache.t cval) MapRedis.t := uninitialized.

Lemma check_all_counts_witness :
  ∃ st', check_all no_checker [(0%Z, 0%Z, "u", "a.com"); (1%Z, 1%Z, "u", "b.com")] = Ret st' ∧
    TotalChecks st' = uint64_wrap (0 + 2).
Proof.
  eexists. split; [vm_compute; reflexivity|].
  apply (check_all_counts no_checker [(0%Z, 0%Z, "u", "a.com"); (1%Z, 1%Z, "u", "b.com")]); by_eval.
Defined.

Lemma CheckRule_fallbacks_agree_witness :
  ∃ v st1 st2,
    CheckRule 0 1 no_checker "u" "Ads.Tracker.com." = Ret (v, st1) ∧
    CheckRule 0 1 (InitChecker down no_checker) "u" "Ads.Tracker.com." = Ret (v, st2).
Proof.
  destruct (CheckRule_fallbacks_agree 0 1 no_checker "u" "Ads.Tracker.com." down (RedisErr "down"))
    as (v & st1 & st2 & E1 & E2 & _); [by_eval | by_eval | by_eval | by_eval |].
  exists v, st1, st2. split; [exact E1 | exact E2].
Defined.

Lemma disabled_at_start_disabled_forever_witness :
  match run_ops (NewChecker (C := MapCache.t cval) down) [OpCheck 0 1 "u" "a.com"] with
  | Ret c => (PingRedis (mkState (Some c) 1)).1 = Err RedisNotAvailable
  | Panic _ => False
  end.
Proof.
  destruct (run_ops _ _) as [c|why] eqn:E; [|vm_compute in E; discriminate].
  assert ((Ping down).1 = Err (RedisErr "down")) as Hping by by_eval.
  exact (proj1 (disabled_at_start_disabled_forever down (RedisErr "down") _ c 1 Hping E)).
Defined.
End Rule.
