(* ===== verification/RateLimit.v ===== *)
(** * The sliding-window rate limiter: src/internal/ratelimit/limiter.go

    [Module RateLimit] has the Lua script as a Redis program, [AllowQuery] with its
    unit conversions and the process-wide member counter, and the abstract sliding
    window it implements.  Scores are milliseconds. *)

From S2P Require Import Prelude.
From S2P Require Import GoStrings.
From S2P Require Import External.
From S2P Require Import Models.
From Stdlib Require Import Strings.Ascii Strings.String.

Local Open Scope go_scope.

Module RateLimit.

Definition rl_key (userID : string) : string := "dns:ratelimit:" +:+ userID.

(** [fmt.Sprintf("%d:%d", nowMs, memberCounter.Add(1))]. *)
Definition fmt_member (nowMs counter : Z) : string := fmt_d nowMs +:+ ":" +:+ fmt_d counter.

(** [window.Milliseconds()]: integer division, truncated. *)
Definition duration_ms (window : Z) : Z := Z.quot window 1000000.

(** [int64(math.Ceil(window.Seconds()))].  [Seconds] is a float64; below 2^22
    seconds (48 days) it is precise enough that the ceiling is the exact one. *)
Definition ceil_seconds (window : Z) : Z := (- ((- window) / 1000000000))%Z.

Section limiter.
Context {R : Type} `{RedisClient R}.

(** The Lua script. *)
Definition allowScript (key : string) (now_ms win_ms limit ttl_sec : Z) (member : string) : RedisM R Z :=
  let min_score := (now_ms - win_ms)%Z in
  _ <-r ZREMRANGEBYSCORE key 0 min_score ;;
  count <-r ZCARD key ;;
  if Z.ltb count limit then
    _ <-r ZADD key now_ms member ;;
    _ <-r EXPIRE key ttl_sec ;;
    rret 1%Z
  else rret 0%Z.

(** The limiter's client and the package variable [memberCounter]. *)
Record t := mk { client : R; memberCounter : Z }.

Definition NewRateLimiter (client : R) (memberCounter : Z) : t := mk client memberCounter.

Definition AllowQuery (nowMs : Z) (rl : t) (userID : string) (limit window : Z) :
    result redis_error bool * t :=
  let key := rl_key userID in
  let counter := uint64_add (memberCounter rl) 1 in
  let member := fmt_member nowMs counter in
  match RunScript (allowScript key nowMs (duration_ms window) limit (ceil_seconds window) member)
          (client rl) with
  | (Err e, r') => (Err e, mk r' counter)
  | (Ok res, r') => (Ok (Z.eqb res 1), mk r' counter)
  end.
End limiter.
Arguments t : clear implicits.

(** ** The specification: a sliding window of admission times *)

Definition live (win now : Z) (adm : list Z) : list Z := filter (λ s, now - win < s)%Z adm.

(** A query at [now] is admitted when fewer than [limit] were in the last [win]. *)
Definition window_allow (win limit now : Z) (adm : list Z) : bool * list Z :=
  let l := live win now adm in
  if Z.ltb (Z.of_nat (List.length l)) limit then (true, now :: l) else (false, l).

(** The answers of the window to queries that come [delays] apart. *)
Fixpoint spec_run (win limit now : Z) (adm : list Z) (delays : list Z) : list bool :=
  match delays with
  | [] => []
  | d :: rest =>
      let '(a, adm') := window_allow win limit (now + d) adm in
      a :: spec_run win limit (now + d) adm' rest
  end.

(** The instants at which a sequence of queries was admitted. *)
Fixpoint admitted (now : Z) (delays : list Z) (answers : list (result redis_error bool)) : list Z :=
  match delays, answers with
  | d :: ds, a :: rest =>
      let tl := admitted (now + d) ds rest in
      match a with Ok true => (now + d)%Z :: tl | _ => tl end
  | _, _ => []
  end.

(** How many of them fall in the interval of length [win] that ends at [t]. *)
Definition in_window (win t : Z) (times : list Z) : nat :=
  List.length (filter (λ s, t - win < s ≤ t)%Z times).

Lemma in_window_cons win t s l :
  in_window win t (s :: l) = (if bool_decide (t - win < s ≤ t)%Z then 1 else 0) + in_window win t l.
Proof. unfold in_window. rewrite filter_cons. case_decide; by case_bool_decide. Qed.

Lemma in_window_live win now t l :
  (now ≤ t)%Z → in_window win t l ≤ List.length (live win now l).
Proof.
  intros Ht. unfold live. induction l as [|s l IH]; [done|].
  rewrite in_window_cons, filter_cons. case_bool_decide; case_decide; simpl; lia.
Qed.

Lemma live_live win now now' l : (now ≤ now')%Z → live win now' (live win now l) = live win now' l.
Proof.
  intros Hle. unfold live. rewrite list_filter_filter. apply list_filter_iff. intros s. lia.
Qed.

(** The bound carried through a run; [hist] is everything admitted so far. *)
Lemma spec_run_bound win limit now adm hist delays :
  (∀ now', now ≤ now' → live win now' adm = live win now' hist)%Z →
  Forall (λ s, s ≤ now)%Z hist → Forall (λ d, 0 ≤ d)%Z delays →
  (∀ t, Z.of_nat (in_window win t hist) ≤ Z.max 0 limit)%Z →
  ∀ t, (Z.of_nat (in_window win t hist) +
        Z.of_nat (in_window win t (admitted now delays (map Ok (spec_run win limit now adm delays))))
        ≤ Z.max 0 limit)%Z.
Proof.
  revert now adm hist. induction delays as [|d ds IH]; intros now adm hist Hadm Hhist Hds Hb t.
  { specialize (Hb t). unfold in_window at 2. simpl. lia. }
  apply Forall_cons in Hds as [Hd Hds]. simpl. unfold window_allow.
  rewrite (Hadm (now + d)%Z) by lia.
  assert (Forall (λ s, s ≤ now + d)%Z hist) as Hhist'
    by (eapply Forall_impl; [exact Hhist|]; simpl; lia).
  destruct (Z.ltb_spec (Z.of_nat (List.length (live win (now + d) hist))) limit) as [Hlt|Hge]; simpl.
  - assert (∀ t', Z.of_nat (in_window win t' ((now + d)%Z :: hist)) ≤ Z.max 0 limit)%Z as Hb'.
    { intros t'. rewrite in_window_cons. case_bool_decide as Hin.
      - pose proof (in_window_live win (now + d) t' hist ltac:(lia)). lia.
      - apply Hb. }
    specialize (IH (now + d)%Z ((now + d)%Z :: live win (now + d) hist) ((now + d)%Z :: hist)).
    rewrite in_window_cons.
    enough (Z.of_nat (in_window win t ((now + d)%Z :: hist)) +
      Z.of_nat (in_window win t (admitted (now + d) ds (map Ok (spec_run win limit (now + d)
        ((now + d)%Z :: live win (now + d) hist) ds)))) ≤ Z.max 0 limit)%Z as He
      by (rewrite in_window_cons in He; lia).
    apply IH; [|by constructor; [simpl; lia|]|done|done].
    intros now' Hle. unfold live at 1 3. rewrite !filter_cons.
    fold (live win now' (live win (now + d) hist)). fold (live win now' hist).
    by rewrite live_live.
  - apply IH; [|done..]. intros now' Hle. by apply live_live.
Qed.

(** ** Members *)

Lemma fmt_member_inj s i s' i' : fmt_member s i = fmt_member s' i' → s = s' ∧ i = i'.
Proof.
  intros [Hs Hi]%(first_cut_inj ":"); [|apply fmt_d_colon..].
  split; by apply (inj fmt_d).
Qed.

Lemma ceil_seconds_ms window :
  (0 < window)%Z → (duration_ms window ≤ ceil_seconds window * 1000)%Z ∧ (0 < ceil_seconds window)%Z.
Proof.
  intros Hw. unfold duration_ms, ceil_seconds. rewrite Z.quot_div_nonneg by lia.
  pose proof (Z.div_mod window 1000000 ltac:(lia)).
  pose proof (Z.mod_pos_bound window 1000000 ltac:(lia)).
  pose proof (Z.div_mod (- window) 1000000000 ltac:(lia)).
  pose proof (Z.mod_pos_bound (- window) 1000000000 ltac:(lia)). lia.
Qed.

(** ** The script on a live server *)

Section script.
Context {R : Type} `{RedisClient R, RedisView R} `{!RedisLaws R}.

(** What is left of a sorted set of non-negative scores after the purge. *)
Definition recent (win now : Z) (z : gmap string Z) : gmap string Z :=
  filter (λ ms : string * Z, ¬ (0 ≤ ms.2 ≤ now - win)%Z) z.

Lemma lookup_recent win now z m s :
  recent win now z !! m = Some s ↔ z !! m = Some s ∧ ¬ (0 ≤ s ≤ now - win)%Z.
Proof. unfold recent. apply map_lookup_filter_Some. Qed.

Definition admits (limit win now : Z) (z : gmap string Z) : bool :=
  Z.ltb (Z.of_nat (size (recent win now z))) limit.

Lemma allowScript_up r key now win limit ttl m z :
  redis_up r = true → as_zset (redis_get r key) = Some z → (0 < ttl)%Z →
  ∃ r', allowScript key now win limit ttl m r
          = (Ok (if admits limit win now z then 1%Z else 0%Z), r') ∧
    redis_frame key r r' ∧
    as_zset (redis_get r' key) =
      Some (if admits limit win now z then <[m := now]> (recent win now z) else recent win now z) ∧
    if admits limit win now z then redis_ttl r' key = Some (ttl * 1000)%Z
    else recent win now z ≠ ∅ → redis_ttl r' key = redis_ttl r key.
Proof.
  intros Hup Hz Httl. unfold allowScript, rbind, rret.
  destruct (ZREMRANGEBYSCORE_up r key 0 (now - win) z Hup Hz)
    as (n1 & r1 & -> & F1 & Hz1 & T1). pose proof F1 as (Hup1 & _).
  rewrite (ZCARD_up _ _ _ Hup1 Hz1). fold (recent win now z) in *. unfold admits.
  destruct (Z.ltb _ _); [|eauto 10].
  destruct (ZADD_up r1 key now m _ Hup1 Hz1) as (n2 & r2 & -> & F2 & Hz2).
  pose proof F2 as (Hup2 & _).
  destruct (redis_get r2 key) as [v|] eqn:Hget.
  2:{ injection Hz2 as Hz2. symmetry in Hz2. by apply insert_non_empty in Hz2. }
  destruct (EXPIRE_up r2 key ttl v Hup2 Hget Httl) as (n3 & r3 & -> & F3 & Hg3 & T3).
  eexists. split_and!; [done | by eauto using redis_frame_trans | by rewrite Hg3 | done].
Qed.

Lemma AllowQuery_up nowMs rl u limit window z :
  redis_up (client rl) = true → as_zset (redis_get (client rl) (rl_key u)) = Some z →
  (0 < window)%Z →
  let win := duration_ms window in
  let m := fmt_member nowMs (uint64_add (memberCounter rl) 1) in
  ∃ r', AllowQuery nowMs rl u limit window
          = (Ok (admits limit win nowMs z), mk r' (uint64_add (memberCounter rl) 1)) ∧
    redis_frame (rl_key u) (client rl) r' ∧
    as_zset (redis_get r' (rl_key u)) =
      Some (if admits limit win nowMs z then <[m := nowMs]> (recent win nowMs z)
            else recent win nowMs z) ∧
    if admits limit win nowMs z then redis_ttl r' (rl_key u) = Some (ceil_seconds window * 1000)%Z
    else recent win nowMs z ≠ ∅ → redis_ttl r' (rl_key u) = redis_ttl (client rl) (rl_key u).
Proof.
  intros Hup Hz Hw win m. subst win m. unfold AllowQuery. rewrite RunScript_up by done.
  destruct (allowScript_up (client rl) (rl_key u) nowMs (duration_ms window) limit
    (ceil_seconds window) (fmt_member nowMs (uint64_add (memberCounter rl) 1)) z Hup Hz)
    as (r' & -> & Hrest); [by apply ceil_seconds_ms|].
  exists r'. split; [|done]. by destruct (admits _ _ _ _).
Qed.
(** ** Refinement *)

(** The sorted set [z] of a user, whose key has the deadline [ttl], tracks the admissions
    [ms], the members written with their times, of a limiter whose counter is [k]. *)
Record tracks (win now : Z) (ttl : option Z) (k : Z) (z : gmap string Z) (ms : list (string * Z)) : Prop := {
  tr_members : NoDup ms.*1;
  tr_scores : (∀ m s, z !! m = Some s → 0 ≤ s)%Z;
  tr_counter : ∀ m s, (z !! m = Some s ∨ (m, s) ∈ ms) → ∃ t i, m = fmt_member t i ∧ (0 < i ≤ k)%Z;
  tr_live : ∀ m s, (now - win < s)%Z → z !! m = Some s ↔ (m, s) ∈ ms;
  tr_times : ∀ m s, (m, s) ∈ ms → (s ≤ now)%Z ∧ ((now - win < s)%Z → ∃ τ, ttl = Some τ ∧ s + win - now ≤ τ)%Z;
}.

(** The client and the server at client time [now], [adm] being the admission
    times of the specification: every admission that still counts is in the sorted
    set, under a member of its own, and the key will not expire before it stops
    counting. *)
Record represents (window now : Z) (u : string) (rl : t R) (adm : list Z) : Prop := {
  rep_up : redis_up (client rl) = true;
  rep_counter : (0 ≤ memberCounter rl)%Z;
  rep_zset : ∃ z ms, as_zset (redis_get (client rl) (rl_key u)) = Some z ∧ adm = ms.*2 ∧
    tracks (duration_ms window) now (redis_ttl (client rl) (rl_key u)) (memberCounter rl) z ms;
}.

(** The limiter after [d] milliseconds without a call. *)
Definition wait (d : Z) (rl : t R) : t R := mk (redis_elapse d (client rl)) (memberCounter rl).

Lemma represents_wait window now u rl adm d :
  (0 ≤ d)%Z → represents window now u rl adm → represents window (now + d) u (wait d rl) adm.
Proof.
  intros Hd [Hup Hc (z & ms & Hz & -> & [Hnd Hpos Hmem Hlive Hms])].
  split; simpl; [by rewrite elapse_up | done |]. rewrite elapse_get, elapse_ttl by done.
  destruct (redis_ttl (client rl) (rl_key u)) as [τ|] eqn:Httl; [destruct (Z.leb_spec τ d) as [Hle|Hgt]|].
  - exists ∅, ms. do 2 (split; [done|]). split; try done.
    + intros m s [?%lookup_empty_Some|Hin]; [done|]. eauto.
    + intros m s Hs. rewrite lookup_empty. split; [done|]. intros Hin. exfalso.
      destruct (Hms m s Hin) as [_ Hτ]. destruct Hτ as (τ' & [= <-] & ?); lia.
    + intros m s Hin. destruct (Hms m s Hin) as [? Hτ]. split; [lia|]. intros Hs.
      destruct Hτ as (τ' & [= <-] & ?); lia.
  - exists z, ms. do 2 (split; [done|]). split; try done.
    + intros m s Hs. apply Hlive. lia.
    + intros m s Hin. destruct (Hms m s Hin) as [? Hτ]. split; [lia|]. intros Hs.
      destruct Hτ as (τ' & [= <-] & ?); [lia|]. exists (τ - d)%Z. split; [done | lia].
  - exists z, ms. do 2 (split; [done|]). split; try done.
    + intros m s Hs. apply Hlive. lia.
    + intros m s Hin. destruct (Hms m s Hin) as [? Hτ]. split; [lia|]. intros Hs.
      destruct Hτ as (τ' & [=] & _). lia.
Qed.

(** The admissions that still count, with their members. *)
Definition live_members (win now : Z) (ms : list (string * Z)) : list (string * Z) :=
  filter (λ x, now - win < x.2)%Z ms.

Lemma live_members_live win now ms : (live_members win now ms).*2 = live win now ms.*2.
Proof.
  unfold live_members, live. induction ms as [|[m s] ms IH]; [done|].
  rewrite fmap_cons, !filter_cons. cbn [snd]. case_decide; [by rewrite fmap_cons, IH | done].
Qed.

Lemma NoDup_live_members win now ms : NoDup ms.*1 → NoDup (live_members win now ms).*1.
Proof. intros Hnd. eapply sublist_NoDup; [exact Hnd|]. apply fmap_sublist, sublist_filter. Qed.

Lemma recent_live_members win now z ms :
  NoDup ms.*1 → (∀ m s, z !! m = Some s → 0 ≤ s)%Z →
  (∀ m s, (now - win < s)%Z → z !! m = Some s ↔ (m, s) ∈ ms) →
  recent win now z = list_to_map (live_members win now ms).
Proof.
  intros Hnd Hpos Hlive. apply map_eq. intros m. apply option_eq. intros s.
  rewrite lookup_recent, <- elem_of_list_to_map by by apply NoDup_live_members.
  unfold live_members. rewrite list_elem_of_filter. simpl. split.
  - intros [Hz Hs]. pose proof (Hpos m s Hz).
    assert (now - win < s)%Z by lia. split; [done|]. by apply Hlive.
  - intros [Hs Hin]. apply Hlive in Hin; [|done]. split; [done | lia].
Qed.

Lemma size_recent win now z ms :
  NoDup ms.*1 → (∀ m s, z !! m = Some s → 0 ≤ s)%Z →
  (∀ m s, (now - win < s)%Z → z !! m = Some s ↔ (m, s) ∈ ms) →
  size (recent win now z) = List.length (live win now ms.*2).
Proof.
  intros Hnd Hpos Hlive. rewrite (recent_live_members _ _ _ ms) by done.
  rewrite map_size_list_to_map by by apply NoDup_live_members.
  by rewrite <- live_members_live, length_fmap.
Qed.

Lemma fresh_member now (counter : Z) (ms : list (string * Z)) m s s' i :
  (m, s) ∈ ms → m = fmt_member s' i → (i ≤ counter)%Z → fmt_member now (counter + 1) ≠ m.
Proof. intros _ -> Hi [_ E]%fmt_member_inj. lia. Qed.

(** One call: the same answer as the window, and the representation again. *)
Lemma tracks_recent win now ttl k z ms m s : tracks win now ttl k z ms →
  recent win now z !! m = Some s ↔ (m, s) ∈ live_members win now ms.
Proof.
  intros [Hnd Hpos _ Hlive _]. rewrite (recent_live_members _ _ _ _ Hnd Hpos Hlive). symmetry.
  by apply elem_of_list_to_map, NoDup_live_members.
Qed.

Lemma live_members_elem win now ms m s : (m, s) ∈ live_members win now ms → (m, s) ∈ ms ∧ (now - win < s)%Z.
Proof. unfold live_members. rewrite list_elem_of_filter. naive_solver. Qed.

(** An admission is written under a fresh member, and the deadline covers the window. *)
Lemma tracks_admit win now ttl τ k z ms : tracks win now ttl k z ms → (0 ≤ now)%Z → (0 ≤ k)%Z → (win ≤ τ)%Z →
  tracks win now (Some τ) (k + 1) (<[fmt_member now (k + 1) := now]> (recent win now z))
    ((fmt_member now (k + 1), now) :: live_members win now ms).
Proof.
  intros Htr Hnow Hk Hτ. pose proof (λ m s, tracks_recent _ _ _ _ _ _ m s Htr) as Hin.
  pose proof Htr as [Hnd Hpos Hmem Hlive Hms]. pose proof (live_members_elem win now ms) as Hsub.
  assert (Hfresh : ∀ m s, (m, s) ∈ ms → fmt_member now (k + 1) ≠ m).
  { intros m s Hm. destruct (Hmem m s (or_intror Hm)) as (s' & i & Hmi & Hi). eapply fresh_member; [done..|lia]. }
  split.
  - rewrite fmap_cons. apply NoDup_cons. split; [|by apply NoDup_live_members].
    intros ([m s] & E & Hm)%list_elem_of_fmap. apply Hsub in Hm as [Hm _]. by eapply Hfresh.
  - intros m s. rewrite lookup_insert_Some. intros [[_ <-]|[_ Hm]]; [done|]. apply lookup_recent in Hm as [Hm _]. eauto.
  - intros m s. rewrite lookup_insert_Some, elem_of_cons. intros Hcases.
    assert (m = fmt_member now (k + 1) ∨ (m, s) ∈ ms) as [->|Hm].
    { destruct Hcases as [[[<- _]|[_ Hm%Hin%Hsub]]|[[= -> _]|Hm%Hsub]]; naive_solver. }
    { do 2 eexists. split; [done | lia]. }
    destruct (Hmem m s (or_intror Hm)) as (t & i & -> & ?). do 2 eexists. split; [done | lia].
  - intros m s _. rewrite lookup_insert_Some, elem_of_cons, Hin. split.
    + intros [[<- <-]|[_ Hm]]; auto.
    + intros [[= -> ->]|Hm]; [by left|]. right. split; [|done]. by eapply Hfresh, Hsub.
  - intros m s [[= _ ->]|[Hm _]%Hsub]%elem_of_cons; (split; [|intros _; exists τ; split; [done|]]); try lia.
    + by apply (Hms m s).
    + destruct (Hms m s Hm). lia.
Qed.

(** A refusal only drops what has left the window. *)
Lemma tracks_refuse win now ttl ttl' k k' z ms : tracks win now ttl k z ms → (k ≤ k')%Z →
  (recent win now z ≠ ∅ → ttl' = ttl) → tracks win now ttl' k' (recent win now z) (live_members win now ms).
Proof.
  intros Htr Hk Httl. pose proof (λ m s, tracks_recent _ _ _ _ _ _ m s Htr) as Hin.
  pose proof Htr as [Hnd Hpos Hmem Hlive Hms]. pose proof (live_members_elem win now ms) as Hsub. split.
  - by apply NoDup_live_members.
  - intros m s [Hm _]%lookup_recent. eauto.
  - intros m s Hcases. assert ((m, s) ∈ ms) as Hm by (destruct Hcases as [Hm%Hin%Hsub|Hm%Hsub]; tauto).
    destruct (Hmem m s (or_intror Hm)) as (t & i & -> & ?). do 2 eexists. split; [done | lia].
  - intros m s _. apply Hin.
  - intros m s Hm. pose proof (Hsub m s Hm) as [Hm' Hs]. destruct (Hms m s Hm') as [? Hτ].
    split; [done|]. intros _. rewrite Httl; [by apply Hτ|]. apply Hin in Hm. intros E. by rewrite E in Hm.
Qed.

Lemma represents_allow window now u rl adm limit :
  (0 < window)%Z → (0 ≤ now)%Z → (memberCounter rl < 2 ^ 64 - 1)%Z →
  represents window now u rl adm →
  ∃ rl', AllowQuery now rl u limit window
      = (Ok (window_allow (duration_ms window) limit now adm).1, rl') ∧
    represents window now u rl' (window_allow (duration_ms window) limit now adm).2 ∧
    memberCounter rl' = (memberCounter rl + 1)%Z.
Proof.
  intros Hw Hnow Hc64 [Hup Hc (z & ms & Hz & -> & Htr)]. pose proof Htr as [Hnd Hpos _ Hlive _].
  destruct (AllowQuery_up now rl u limit window z Hup Hz Hw) as (r' & -> & (Hup' & _) & Hz' & Httl).
  assert (uint64_add (memberCounter rl) 1 = memberCounter rl + 1)%Z as Hcnt by (apply uint64_wrap_small; lia).
  rewrite Hcnt in Hz' |- *. exists (mk r' (memberCounter rl + 1)). split; [|split; [|done]].
  { unfold admits, window_allow. rewrite (size_recent _ _ _ ms) by done. by destruct (Z.ltb _ limit). }
  unfold window_allow. rewrite <- live_members_live. unfold admits in Hz', Httl.
  rewrite (size_recent _ _ _ ms), <- live_members_live in Hz', Httl by done.
  destruct (Z.ltb _ limit); (split; simpl; [done | lia |]).
  - eexists _, ((fmt_member now (memberCounter rl + 1), now) :: live_members _ now ms).
    split; [exact Hz'|]. split; [by rewrite fmap_cons|]. rewrite Httl. apply (tracks_admit _ _ _ _ _ _ _ Htr); [done..|]. pose proof (ceil_seconds_ms window Hw). lia.
  - eexists _, (live_members _ now ms). split; [exact Hz'|]. split; [done|]. apply (tracks_refuse _ _ _ _ _ _ _ _ Htr); [lia|exact Httl].
Qed.
(** A sequence of queries of one user to one process, each some milliseconds after
    the one before; the two clocks run together. *)
Fixpoint run (window limit now : Z) (u : string) (rl : t R) (delays : list Z) :
    list (result redis_error bool) :=
  match delays with
  | [] => []
  | d :: rest =>
      let '(a, rl') := AllowQuery (now + d) (wait d rl) u limit window in
      a :: run window limit (now + d) u rl' rest
  end.

Lemma run_spec_run window limit now u rl adm delays :
  (0 < window)%Z → (0 ≤ now)%Z → Forall (λ d, 0 ≤ d)%Z delays →
  (memberCounter rl + Z.of_nat (List.length delays) < 2 ^ 64)%Z →
  represents window now u rl adm →
  run window limit now u rl delays = map Ok (spec_run (duration_ms window) limit now adm delays).
Proof.
  intros Hw. revert now rl adm. induction delays as [|d delays IH]; intros now rl adm Hnow Hds Hc Hrep.
  { done. }
  apply Forall_cons in Hds as [Hd Hds]. rewrite length_cons in Hc.
  destruct (represents_allow window (now + d) u (wait d rl) adm limit) as (rl' & Hq & Hrep' & Hc').
  { done. } { lia. } { simpl. lia. } { by apply represents_wait. }
  simpl. rewrite Hq. destruct (window_allow _ _ _ _) as [a adm'] eqn:Ha. simpl in *. f_equal.
  apply IH; [lia | done | simpl in Hc'; lia | done].
Qed.

Lemma represents_fresh window now u rl :
  redis_up (client rl) = true → as_zset (redis_get (client rl) (rl_key u)) = Some ∅ →
  (0 ≤ memberCounter rl)%Z → represents window now u rl [].
Proof.
  intros Hup Hz Hc. split; [done..|]. exists ∅, [].
  do 2 (split; [done|]). split; try done; try apply NoDup_nil_2; intros m s.
  - intros [?|?%elem_of_nil]; done.
  - intros _. split; [done | by intros ?%elem_of_nil].
  - by intros ?%elem_of_nil.
Qed.

(** C15: the limiter is a sliding window. Against a server that answers and holds
    nothing for the user, any sequence of calls of one process gives the answers of
    the abstract window: admitted exactly when fewer than [limit] queries were
    admitted in the last [window], key expiry included. *)
Theorem AllowQuery_refines_window window limit now u rl delays :
  (0 < window)%Z → (0 ≤ now)%Z → Forall (λ d, 0 ≤ d)%Z delays →
  redis_up (client rl) = true → as_zset (redis_get (client rl) (rl_key u)) = Some ∅ →
  (0 ≤ memberCounter rl)%Z → (memberCounter rl + Z.of_nat (List.length delays) < 2 ^ 64)%Z →
  run window limit now u rl delays = map Ok (spec_run (duration_ms window) limit now [] delays).
Proof. intros. by apply run_spec_run, represents_fresh. Qed.


(** [n] processes that share the server, each with its own [memberCounter] at the
    same value, are asked once in the same millisecond. *)
Fixpoint replicas (n : nat) (nowMs c limit window : Z) (u : string) (r : R) :
    list (result redis_error bool) :=
  match n with
  | 0 => []
  | S n' =>
      let '(a, rl') := AllowQuery nowMs (mk r c) u limit window in
      a :: replicas n' nowMs c limit window u (client rl')
  end.

Lemma recent_now win now m : (0 < win)%Z → recent win now {[m := now]} = {[m := now]}.
Proof.
  intros Hw. apply map_eq. intros m'. apply option_eq. intros s.
  rewrite lookup_recent, lookup_singleton_Some. naive_solver lia.
Qed.

Lemma replicas_same_member n nowMs c limit window u r z :
  redis_up r = true → as_zset (redis_get r (rl_key u)) = Some z →
  (z = ∅ ∨ z = {[fmt_member nowMs (uint64_add c 1) := nowMs]}) →
  (0 < window)%Z → (0 < duration_ms window)%Z → (2 ≤ limit)%Z →
  replicas n nowMs c limit window u r = replicate n (Ok true).
Proof.
  intros Hup Hz Hcases Hw Hw' Hl. revert r z Hup Hz Hcases.
  induction n as [|n IH]; intros r z Hup Hz Hcases; [done|]. simpl.
  destruct (AllowQuery_up nowMs (mk r c) u limit window z Hup Hz Hw)
    as (r' & -> & (Hup' & _) & Hz' & _). simpl in *.
  assert (recent (duration_ms window) nowMs z = z) as Hrec
    by (destruct Hcases as [-> | ->]; [done | by apply recent_now]).
  assert (admits limit (duration_ms window) nowMs z = true) as Hadm.
  { unfold admits. rewrite Hrec. apply Z.ltb_lt.
    destruct Hcases as [-> | ->]; [rewrite map_size_empty | rewrite map_size_singleton]; lia. }
  rewrite Hadm in Hz' |- *. f_equal. eapply IH; [done | exact Hz' |]. right. rewrite Hrec.
  destruct Hcases as [-> | ->]; [done | apply insert_singleton_eq].
Qed.

(** The limit does not hold across processes. The members of the sorted set are
    made of the millisecond and a per-process counter; replicas whose counters are
    equal write the same member, the set does not grow, and any number of them is
    admitted in one millisecond once [limit] is at least two. *)
Theorem replicas_exceed_limit n nowMs c limit window u r :
  redis_up r = true → as_zset (redis_get r (rl_key u)) = Some ∅ →
  (0 < window)%Z → (0 < duration_ms window)%Z → (2 ≤ limit)%Z →
  replicas n nowMs c limit window u r = replicate n (Ok true).
Proof. intros. eapply replicas_same_member; eauto. Qed.
End script.

(** ** Concrete instances of the hypotheses *)

Definition fresh : t MapRedis.t := mk MapRedis.empty 0.

(** Five queries at once pass a limit of two only twice; a second later one of the
    next two passes per free slot. *)
Lemma AllowQuery_refines_window_witness :
  run 1000000000 2 5000 "u" fresh [0; 1; 1; 0; 999; 1]%Z
  = map Ok [true; true; false; false; true; true].
Proof.
  rewrite (AllowQuery_refines_window 1000000000 2 5000 "u" fresh [0; 1; 1; 0; 999; 1]%Z);
    [by_eval | lia | lia | by_decide | by_eval | by_eval | by_eval | by_eval].
Defined.


Lemma replicas_exceed_limit_witness :
  replicas 3 5000 0 2 1000000000 "u" MapRedis.empty = [Ok true; Ok true; Ok true].
Proof.
  apply (replicas_exceed_limit 3 5000 0 2 1000000000 "u" MapRedis.empty);
    first [lia | by_eval].
Defined.

End RateLimit.
