(* ===== verification/SniProxy.v ===== *)
(** * The SNI proxy (cmd/sniproxy/main.go)

    The parser of the first TLS record of a connection ([readRecord],
    [parseClientHello], [extractSNI], [parseSNI]), the copying loop [transfer] and
    the connection handler [handleConn] that composes them.  The grammar of the
    hellos the parser accepts is [hello] with its encoding; the parser is proved to
    accept exactly the encodings.

    Positions are natural numbers: they stay below 2^17, far from the bounds of an
    [int].  Deadlines are not modelled: a read that runs into one is a read event with
    the error [Timeout].  Two [transfer]s run concurrently, each on its own source and
    destination, so each direction is a function of the reads of its source and the
    writes of its destination. *)

From S2P Require Import Prelude.
From S2P Require Import GoStrings.
From S2P Require Import GoNet.
From Stdlib Require Import Strings.Ascii Strings.String.
From S2P Require Import GoBytes.

Local Open Scope go_scope.

Module SniProxy.

Definition recordTypeHandshake : byte := x16.
Definition handshakeTypeClientHello : byte := x01.
Definition extensionTypeSNI : nat := 0.
Definition sniNameTypeHost : byte := x00.

(** ** Operations *)

Definition uint24 (b : bytes) : outcome nat :=
  if decide (List.length b < 3) then Ret 0
  else
    b0 <-@ index b 0 ;;
    b1 <-@ index b 1 ;;
    b2 <-@ index b 2 ;;
    Ret (N.to_nat (N.lor (N.lor (N.shiftl (Byte.to_N b0) 16) (N.shiftl (Byte.to_N b1) 8)) (Byte.to_N b2))).

Record tlsRecord := TlsRecord {
  ContentType : byte;
  Version : nat;
  Length : nat;
  Payload : bytes;
  Raw : bytes
}.

(** The record read and the bytes still to come on the connection. *)
Definition readRecord (conn : bytes) : GoM (tlsRecord * bytes) :=
  '(header, conn) <- Ret (map_err (append "read header: ") (ReadFull 5 conn)) ;;
  ty <-@ index header 0 ;;
  v <-@ slice header 1 3 ;;
  version <-@ Uint16 v ;;
  l <-@ slice header 3 5 ;;
  length <-@ Uint16 l ;;
  '(payload, conn) <- Ret (map_err (append "read payload: ") (ReadFull length conn)) ;;
  gret (TlsRecord ty version length payload (header ++ payload), conn).

Definition parseSNI (data : bytes) : GoM string :=
  let len := List.length data in
  fail_if: bool_decide (len < 2) with "sni list too short" ;;
  l <-@ slice data 0 2 ;;
  listLen <-@ Uint16 l ;;
  fail_if: bool_decide (listLen = 0) with "empty sni list" ;;
  let pos := 2 in
  let end_ := pos + listLen in
  fail_if: bool_decide (len < end_) with "sni list truncated" ;;
  fail_if: bool_decide (end_ < pos + 3) with "sni entry truncated" ;;
  nameType <-@ index data pos ;;
  fail_if: bool_decide (nameType ≠ sniNameTypeHost)
    with ("unsupported sni name type: " +:+ fmt_d (byte_Z nameType)) ;;
  let pos := pos + 1 in
  d <-@ slice_from data pos ;;
  nameLen <-@ Uint16 d ;;
  let pos := pos + 2 in
  fail_if: bool_decide (end_ < pos + nameLen) with "sni name truncated" ;;
  name <-@ slice data pos (pos + nameLen) ;;
  gret (string_of_bytes name).

(** The loop over the extensions.  Each turn advances [pos] by four at least; running
    out of fuel is a panic, so that the theorems on panics cover termination too. *)
Fixpoint ext_loop (fuel : nat) (clientHello : bytes) (pos end_ : nat) : GoM string :=
  match fuel with
  | O => Panic "out of fuel"
  | S fuel =>
      if decide (pos + 4 ≤ end_) then
        t <-@ slice_from clientHello pos ;;
        extType <-@ Uint16 t ;;
        l <-@ slice_from clientHello (pos + 2) ;;
        extDataLen <-@ Uint16 l ;;
        let pos := pos + 4 in
        fail_if: bool_decide (end_ < pos + extDataLen) with "extension data truncated" ;;
        if decide (extType = extensionTypeSNI) then
          data <-@ slice clientHello pos (pos + extDataLen) ;;
          parseSNI data
        else ext_loop fuel clientHello (pos + extDataLen) end_
      else Ret (Err "sni extension not found")
  end.

Definition extractSNI (clientHello : bytes) : GoM string :=
  let len := List.length clientHello in
  fail_if: bool_decide (len < 2) with "client hello too short for version" ;;
  let pos := 2 in
  fail_if: bool_decide (len < pos + 32) with "client hello too short for random" ;;
  let pos := pos + 32 in
  fail_if: bool_decide (len < pos + 1) with "client hello too short for session id length" ;;
  sid <-@ index clientHello pos ;;
  let sessionIDLen := byte_nat sid in
  let pos := pos + 1 in
  fail_if: bool_decide (len < pos + sessionIDLen) with "client hello truncated in session id" ;;
  let pos := pos + sessionIDLen in
  fail_if: bool_decide (len < pos + 2) with "client hello too short for cipher suites length" ;;
  c <-@ slice_from clientHello pos ;;
  cipherSuiteLen <-@ Uint16 c ;;
  let pos := pos + 2 in
  fail_if: bool_decide (len < pos + cipherSuiteLen) with "client hello truncated in cipher suites" ;;
  let pos := pos + cipherSuiteLen in
  fail_if: bool_decide (len < pos + 1) with "client hello too short for compression methods length" ;;
  cm <-@ index clientHello pos ;;
  let compLen := byte_nat cm in
  let pos := pos + 1 in
  fail_if: bool_decide (len < pos + compLen) with "client hello truncated in compression methods" ;;
  let pos := pos + compLen in
  fail_if: bool_decide (len < pos + 2) with "client hello too short for extensions length" ;;
  e <-@ slice_from clientHello pos ;;
  extLen <-@ Uint16 e ;;
  let pos := pos + 2 in
  fail_if: bool_decide (extLen = 0) with "no extensions" ;;
  let end_ := pos + extLen in
  fail_if: bool_decide (len < end_) with "client hello truncated in extensions" ;;
  ext_loop (S len) clientHello pos end_.

(** The server name, the raw record, and the bytes still to come. *)
Definition parseClientHello (conn : bytes) : GoM (string * bytes * bytes) :=
  '(record, conn) <- (r <-@ readRecord conn ;; Ret (map_err (append "read record: ") r)) ;;
  fail_if: bool_decide (ContentType record ≠ recordTypeHandshake)
    with ("expected handshake record, got " +:+ fmt_d (byte_Z (ContentType record))) ;;
  fail_if: bool_decide (List.length (Payload record) < 1) with "empty handshake payload" ;;
  ty <-@ index (Payload record) 0 ;;
  fail_if: bool_decide (ty ≠ handshakeTypeClientHello)
    with ("expected client hello, got " +:+ fmt_d (byte_Z ty)) ;;
  let helloData := Payload record in
  fail_if: bool_decide (List.length helloData < 4) with "truncated handshake header" ;;
  h <-@ slice helloData 1 4 ;;
  handshakeLen <-@ uint24 h ;;
  helloBody <-@ slice_from helloData 4 ;;
  fail_if: bool_decide (List.length helloBody < handshakeLen) with "truncated handshake body" ;;
  helloBody <-@ slice_to helloBody handshakeLen ;;
  sni <- (r <-@ extractSNI helloBody ;; Ret (map_err (append "extract sni: ") r)) ;;
  gret (sni, Raw record, conn).

(** One [src.Read]: the bytes it returned and its error. *)
Inductive read_error := EOF | Timeout | OtherError.
Record read_event := ReadEvent { rd_bytes : bytes; rd_err : option read_error }.

Definition isTimeoutErr (err : option read_error) : bool :=
  match err with Some Timeout => true | _ => false end.

(** [dst.Write]: it succeeds, or fails after [n] bytes. *)
Inductive write_result := WriteOk | WriteFailed (n : nat).

(** [transfer]: the bytes written to [dst], and whether the loop has returned; with
    no further read event it is blocked in [Read].  [w] is the number of the next
    write on [dst]. *)
Fixpoint transfer (writes : nat → write_result) (w : nat) (reads : list read_event) : bytes * bool :=
  match reads with
  | [] => ([], false)
  | r :: reads =>
      let continue w :=
        match rd_err r with
        | Some e =>
            if negb (match e with EOF => true | _ => false end) && negb (isTimeoutErr (Some e)) then ([], true)
            else ([], true)
        | None => transfer writes w reads
        end in
      if decide (0 < List.length (rd_bytes r)) then
        match writes w with
        | WriteOk => let '(out, fin) := continue (S w) in (rd_bytes r ++ out, fin)
        | WriteFailed n => (take n (rd_bytes r), true)
        end
      else continue w
  end.

(** What [handleConn] depends on: the resolver, the dialer, the way the bytes of the
    client after its hello reach [Read], what the upstream sends and how writes to
    both sides end. *)
Record env := Env {
  LookupHost : string → result string (list string);
  DialContext : string → result string unit;
  client_reads : bytes → list read_event;
  upstream_reads : list read_event;
  upstream_writes : nat → write_result;
  client_writes : nat → write_result
}.

(** What a connection did: the name looked up, the address dialled, the bytes
    written to each side and whether the handler has returned. *)
Record session := Session {
  looked_up : option string;
  dialled : option string;
  to_upstream : bytes;
  to_client : bytes;
  returned : bool
}.

Definition handleConn (e : env) (client : bytes) : outcome session :=
  r <-@ parseClientHello client ;;
  match r with
  | Err _ => Ret (Session None None [] [] true)
  | Ok (sni, clientHello, rest) =>
      match LookupHost e sni with
      | Err _ | Ok [] => Ret (Session (Some sni) None [] [] true)
      | Ok (ip :: _) =>
          let target := JoinHostPort ip "443" in
          match DialContext e target with
          | Err _ => Ret (Session (Some sni) (Some target) [] [] true)
          | Ok _ =>
              match upstream_writes e 0 with
              | WriteFailed n =>
                  Ret (Session (Some sni) (Some target) (take n clientHello) [] true)
              | WriteOk =>
                  let '(up, up_done) := transfer (upstream_writes e) 1 (client_reads e rest) in
                  let '(down, down_done) := transfer (client_writes e) 0 (upstream_reads e) in
                  Ret (Session (Some sni) (Some target) (clientHello ++ up) down (up_done && down_done))
              end
          end
      end
  end.

(** ** The grammar *)

Definition enc8 (v : bytes) : bytes := byte_of_nat (List.length v) :: v.
Definition enc16 (v : bytes) : bytes := put16 (List.length v) ++ v.
Definition put24 (n : nat) : bytes := byte_of_nat (n / (256 * 256)) :: put16 n.
Definition enc24 (v : bytes) : bytes := put24 (List.length v) ++ v.

Definition fits8 (v : bytes) : Prop := List.length v < 256.
Definition fits16 (v : bytes) : Prop := List.length v < 256 * 256.

(** An extension: its type and its data. *)
Definition ext : Type := nat * bytes.
Definition enc_ext (x : ext) : bytes := put16 (fst x) ++ enc16 (snd x).
Definition enc_exts (xs : list ext) : bytes := List.concat (enc_ext <$> xs).
Definition ext_ok (x : ext) : Prop := fst x < 256 * 256 ∧ fits16 (snd x).

(** A hello with a server name: what precedes the server-name extension, the first
    name, and arbitrary bytes wherever the parser does not look. *)
Record hello := Hello {
  h_record_version : bytes;
  h_version : bytes;
  h_random : bytes;
  h_session : bytes;
  h_ciphers : bytes;
  h_compression : bytes;
  h_before : list ext;
  h_name : bytes;
  h_more_names : bytes;     (* the rest of the server-name list *)
  h_sni_slack : bytes;      (* after the list, in the extension *)
  h_after : bytes;          (* after the extension, in the block *)
  h_trailer : bytes;        (* after the block, in the hello *)
  h_rest : bytes            (* after the hello, in the record *)
}.

Definition names (h : hello) : bytes := [sniNameTypeHost] ++ enc16 (h_name h) ++ h_more_names h.
Definition sni_data (h : hello) : bytes := enc16 (names h) ++ h_sni_slack h.
Definition exts (h : hello) : bytes :=
  enc_exts (h_before h) ++ enc_ext (extensionTypeSNI, sni_data h) ++ h_after h.
Definition body (h : hello) : bytes :=
  h_version h ++ h_random h ++ enc8 (h_session h) ++ enc16 (h_ciphers h)
    ++ enc8 (h_compression h) ++ enc16 (exts h) ++ h_trailer h.
Definition payload (h : hello) : bytes := [handshakeTypeClientHello] ++ enc24 (body h) ++ h_rest h.
Definition encode (h : hello) : bytes :=
  [recordTypeHandshake] ++ h_record_version h ++ enc16 (payload h).

Record valid (h : hello) : Prop := {
  v_record_version : List.length (h_record_version h) = 2;
  v_version : List.length (h_version h) = 2;
  v_random : List.length (h_random h) = 32;
  v_session : fits8 (h_session h);
  v_compression : fits8 (h_compression h);
  v_before : Forall (λ x, ext_ok x ∧ fst x ≠ extensionTypeSNI) (h_before h);
  v_payload : fits16 (payload h)
}.

(** ** Decoding one field

    [vec8] and [vec16] are the guards and reads the parser repeats for its
    length-prefixed fields; each accepts exactly the encodings. *)

Lemma split256 a b : b < 256 → (a * 256 + b) / 256 = a ∧ (a * 256 + b) mod 256 = b.
Proof.
  intros Hb. rewrite Nat.div_add_l, Nat.div_small, Nat.add_0_r by lia. split; [done|].
  by rewrite Nat.add_comm, Nat.Div0.mod_add, Nat.mod_small.
Qed.

Lemma put16_cons b0 b1 : put16 (byte_nat b0 * 256 + byte_nat b1) = [b0; b1].
Proof.
  destruct (split256 (byte_nat b0) (byte_nat b1) (byte_nat_lt b1)) as [Hd Hm].
  unfold put16. by rewrite Hd, <- (byte_of_nat_mod (_ + _)), Hm, !byte_of_nat_nat.
Qed.

Lemma Uint16_iff b n : Uint16 b = Ret n ↔ n < 256 * 256 ∧ ∃ rest, b = put16 n ++ rest.
Proof.
  split.
  - intros Hn. destruct b as [|b0 [|b1 rest]]; [done..|].
    destruct (Uint16_total (b0 :: b1 :: rest)) as (m & Hm & Hlt); [cbn [List.length]; lia|].
    rewrite Hn in Hm. injection Hm as <-. split; [done|]. exists rest.
    rewrite Uint16_cons in Hn. injection Hn as <-. by rewrite put16_cons.
  - intros (Hn & rest & ->). by apply Uint16_put16.
Qed.

Definition vec8 (b : bytes) (pos : nat) (e1 e2 : string) : GoM nat :=
  fail_if: bool_decide (List.length b < pos + 1) with e1 ;;
  n <-@ index b pos ;;
  fail_if: bool_decide (List.length b < pos + 1 + byte_nat n) with e2 ;;
  gret (pos + 1 + byte_nat n).

Definition vec16 (b : bytes) (pos : nat) (e1 e2 : string) : GoM nat :=
  fail_if: bool_decide (List.length b < pos + 2) with e1 ;;
  c <-@ slice_from b pos ;;
  n <-@ Uint16 c ;;
  fail_if: bool_decide (List.length b < pos + 2 + n) with e2 ;;
  gret (pos + 2 + n).

Lemma vec8_iff pre suf p e1 e2 :
  vec8 (pre ++ suf) (List.length pre) e1 e2 = Ret (Ok p) ↔
  ∃ v suf', suf = enc8 v ++ suf' ∧ fits8 v ∧ p = List.length (pre ++ enc8 v).
Proof.
  unfold vec8, enc8, fits8. split.
  - case_bool_decide as H1; [done|]. rewrite length_app in H1.
    destruct suf as [|x suf]; cbn [List.length] in H1; [lia|].
    rewrite index_app by done. cbn [outcome_bind].
    case_bool_decide as H2; [done|]. intros [= <-]. pose proof (byte_nat_lt x).
    rewrite length_app in H2. cbn [List.length] in H2.
    assert (Hl : List.length (take (byte_nat x) suf) = byte_nat x) by (rewrite length_take; lia).
    exists (take (byte_nat x) suf), (drop (byte_nat x) suf).
    rewrite Hl, byte_of_nat_nat. cbn [app]. rewrite take_drop, length_app. cbn [List.length].
    split; [done|]. split; lia.
  - intros (v & suf' & -> & Hv & ->). cbn [app]. rewrite index_app by done. cbn [outcome_bind].
    rewrite byte_nat_of_nat, Nat.mod_small by done.
    rewrite !bool_decide_eq_false_2; rewrite ?length_app; cbn [List.length];
      rewrite ?length_app; cbn [List.length]; [|lia..].
    unfold gret. do 2 f_equal. lia.
Qed.

Lemma length_put16 n : List.length (put16 n) = 2.
Proof. done. Qed.

Lemma length_enc16 v : List.length (enc16 v) = 2 + List.length v.
Proof. done. Qed.

Lemma Uint16_split b n : Uint16 b = Ret n → n + 2 ≤ List.length b →
  ∃ v rest, b = enc16 v ++ rest ∧ fits16 v ∧ List.length v = n.
Proof.
  intros (Hn & rest & ->)%Uint16_iff Hlen. rewrite length_app, length_put16 in Hlen.
  assert (Hl : List.length (take n rest) = n) by (rewrite length_take; lia).
  exists (take n rest), (drop n rest). unfold enc16, fits16. rewrite Hl, <- app_assoc, take_drop. done.
Qed.

Lemma Uint16_enc16 v rest : fits16 v → Uint16 (enc16 v ++ rest) = Ret (List.length v).
Proof. intros Hv. unfold enc16. rewrite <- app_assoc. by apply Uint16_put16. Qed.

Lemma vec16_iff pre suf p e1 e2 :
  vec16 (pre ++ suf) (List.length pre) e1 e2 = Ret (Ok p) ↔
  ∃ v suf', suf = enc16 v ++ suf' ∧ fits16 v ∧ p = List.length (pre ++ enc16 v).
Proof.
  unfold vec16. split.
  - case_bool_decide as H1; [done|]. rewrite slice_from_app by done. cbn [outcome_bind].
    destruct (Uint16 suf) as [n|] eqn:E; [|done]. cbn [outcome_bind].
    case_bool_decide as H2; [done|]. intros [= <-]. rewrite length_app in H2.
    destruct (Uint16_split suf n E ltac:(lia)) as (v & suf' & -> & Hv & <-).
    exists v, suf'. split; [done|]. split; [done|]. rewrite length_app, length_enc16. lia.
  - intros (v & suf' & -> & Hv & ->). rewrite slice_from_app by done. cbn [outcome_bind].
    rewrite Uint16_enc16 by done. cbn [outcome_bind].
    rewrite !bool_decide_eq_false_2; rewrite ?length_app, ?length_enc16; [|lia..].
    unfold gret. do 2 f_equal. lia.
Qed.

(** ** The parser never panics and always returns *)

Definition returns {A} (m : GoM A) : Prop := ∃ r, m = Ret r.

Lemma returns_ret {A} (r : result string A) : returns (Ret r).
Proof. by exists r. Qed.

(** One guard or read of the parser: the guards make the bounds of the reads that
    follow them linear arithmetic. *)
Ltac total_step :=
  match goal with
  | |- returns (Ret _) => apply returns_ret
  | |- returns (gret _) => apply returns_ret
  | |- context [if bool_decide ?P then _ else _] => case_bool_decide; [apply returns_ret|]
  | |- context [slice_from ?b ?i] => rewrite (slice_from_ok b i) by lia; cbn [outcome_bind]
  | |- context [slice_to ?b ?i] => rewrite (slice_to_ok b i) by lia; cbn [outcome_bind]
  | |- context [slice ?b ?i ?j] => rewrite (slice_ok b i j) by lia; cbn [outcome_bind]
  | |- context [index ?b ?i] =>
      let x := fresh "x" in let E := fresh "E" in
      destruct (index_ok b i) as (x & _ & E); [lia|]; rewrite E; cbn [outcome_bind]; clear E
  | |- context [Uint16 ?b] =>
      let n := fresh "n" in let E := fresh "E" in
      destruct (Uint16_total b) as (n & E & ?);
      [rewrite ?length_drop, ?length_take; lia|]; rewrite E; cbn [outcome_bind]; clear E
  end.

Lemma parseSNI_returns data : returns (parseSNI data).
Proof. unfold parseSNI. repeat total_step. Qed.

Lemma ext_loop_returns fuel b pos end_ :
  pos ≤ end_ ≤ List.length b → end_ < pos + 4 * fuel → returns (ext_loop fuel b pos end_).
Proof.
  revert pos. induction fuel as [|fuel IH]; intros pos Hend Hfuel; [lia|]. cbn [ext_loop].
  destruct (decide (pos + 4 ≤ end_)) as [Hpos|]; [|apply returns_ret].
  total_step. total_step. total_step. total_step. total_step.
  case_decide; [|apply IH; lia]. total_step. apply parseSNI_returns.
Qed.

Lemma extractSNI_returns b : returns (extractSNI b).
Proof.
  unfold extractSNI. repeat total_step. apply ext_loop_returns; lia.
Qed.

(** ** What each part of the parser accepts *)

(** Equality of concatenations of encodings up to associativity. *)
Ltac by_app :=
  repeat match goal with x := _ |- _ => subst x end; subst;
  unfold enc16, enc8 in *; repeat (cbn [app] || rewrite <- app_assoc); done.

Lemma parseSNI_sound data name : parseSNI data = Ret (Ok name) →
  ∃ nm more slack, name = string_of_bytes nm ∧
    data = enc16 ([sniNameTypeHost] ++ enc16 nm ++ more) ++ slack ∧
    fits16 ([sniNameTypeHost] ++ enc16 nm ++ more).
Proof.
  unfold parseSNI.
  case_bool_decide as H1; [done|]. rewrite slice_ok by lia. cbn [outcome_bind].
  destruct (Uint16 (drop 0 (take 2 data))) as [l|] eqn:El; [|done]. cbn [outcome_bind].
  apply Uint16_iff in El as (Hl & junk & El). rewrite drop_0 in El.
  case_bool_decide as H2; [done|]. case_bool_decide as H3; [done|]. case_bool_decide as H4; [done|].
  destruct (Uint16_split data l) as (names & slack & -> & Hnames & Hlen); [|lia|].
  { apply Uint16_iff. split; [done|]. exists (junk ++ drop 2 data).
    by rewrite app_assoc, <- El, take_drop. }
  destruct names as [|ty names]; [cbn [List.length] in Hlen; lia|].
  rewrite (index_at _ (put16 (List.length (ty :: names))) ty (names ++ slack)) by (done || by_app).
  cbn [outcome_bind].
  case_bool_decide as H5; [done|]. destruct (decide (ty = sniNameTypeHost)) as [->|]; [|done].
  rewrite (slice_from_at _ (put16 (List.length (sniNameTypeHost :: names)) ++ [sniNameTypeHost])
             (names ++ slack)) by (done || by_app).
  cbn [outcome_bind].
  destruct (Uint16 (names ++ slack)) as [n|] eqn:En; [|done]. cbn [outcome_bind].
  case_bool_decide as H6; [done|]. cbn [List.length] in Hlen.
  assert (Hn : Uint16 names = Ret n).
  { destruct names as [|b0 [|b1 rest]]; cbn [List.length] in Hlen; [lia..|].
    cbn [app] in En. by rewrite Uint16_cons in *. }
  destruct (Uint16_split names n Hn) as (nm & more & -> & Hnm & <-); [lia|].
  rewrite (slice_at _ (put16 (List.length (sniNameTypeHost :: enc16 nm ++ more))
                         ++ [sniNameTypeHost] ++ put16 (List.length nm)) nm (more ++ slack));
    [|by_app|done|done].
  intros [= <-]. exists nm, more, slack. split_and!; [done|by_app|done].
Qed.

Lemma parseSNI_complete nm more slack : fits16 ([sniNameTypeHost] ++ enc16 nm ++ more) →
  parseSNI (enc16 ([sniNameTypeHost] ++ enc16 nm ++ more) ++ slack) = Ret (Ok (string_of_bytes nm)).
Proof.
  unfold parseSNI.
  intros Hfit.
  set (all := [sniNameTypeHost] ++ enc16 nm ++ more) in *.
  assert (Hlen : List.length all = 3 + List.length nm + List.length more).
  { unfold all, enc16. rewrite !length_app. cbn. lia. }
  assert (Hnm : fits16 nm) by (unfold fits16 in *; lia).
  rewrite bool_decide_eq_false_2 by (rewrite length_app, length_enc16; lia).
  rewrite (slice_at _ [] (put16 (List.length all)) (all ++ slack)) by (done || by_app).
  cbn [outcome_bind]. rewrite <- (app_nil_r (put16 _)), Uint16_put16 by done. cbn [outcome_bind].
  rewrite !bool_decide_eq_false_2 by (rewrite ?length_app, ?length_enc16; lia).
  rewrite (index_at _ (put16 (List.length all)) sniNameTypeHost (enc16 nm ++ more ++ slack))
    by (done || by_app).
  cbn [outcome_bind]. rewrite bool_decide_eq_false_2 by (intros Hne; by apply Hne).
  rewrite (slice_from_at _ (put16 (List.length all) ++ [sniNameTypeHost]) (enc16 nm ++ more ++ slack))
    by (done || by_app).
  cbn [outcome_bind]. rewrite Uint16_enc16 by done. cbn [outcome_bind].
  rewrite bool_decide_eq_false_2 by lia.
  rewrite (slice_at _ (put16 (List.length all) ++ [sniNameTypeHost] ++ put16 (List.length nm)) nm
             (more ++ slack)) by (done || by_app).
  done.
Qed.

Lemma parseSNI_iff data name :
  parseSNI data = Ret (Ok name) ↔
  ∃ nm more slack, name = string_of_bytes nm ∧
    data = enc16 ([sniNameTypeHost] ++ enc16 nm ++ more) ++ slack ∧
    fits16 ([sniNameTypeHost] ++ enc16 nm ++ more).
Proof.
  split; [apply parseSNI_sound|]. intros (nm & more & slack & -> & -> & Hfit). by apply parseSNI_complete.
Qed.

Lemma length_enc_ext x : List.length (enc_ext x) = 4 + List.length (snd x).
Proof. done. Qed.

(** One turn of the loop on a well-formed extension. *)
Lemma ext_loop_step fuel pre ty v block tail :
  ext_ok (ty, v) →
  ext_loop (S fuel) (pre ++ (enc_ext (ty, v) ++ block) ++ tail) (List.length pre)
    (List.length (pre ++ enc_ext (ty, v) ++ block)) =
  if decide (ty = extensionTypeSNI) then parseSNI v
  else ext_loop fuel ((pre ++ enc_ext (ty, v)) ++ block ++ tail) (List.length (pre ++ enc_ext (ty, v)))
         (List.length ((pre ++ enc_ext (ty, v)) ++ block)).
Proof.
  intros [Hty Hv]. cbn [fst snd] in *. cbn [ext_loop].
  assert (Hlen : List.length (pre ++ enc_ext (ty, v) ++ block)
                 = List.length pre + 4 + List.length v + List.length block).
  { rewrite !length_app, length_enc_ext. cbn [snd]. lia. }
  rewrite decide_True by lia. unfold enc_ext at 1. cbn [fst snd].
  rewrite (slice_from_at _ pre (put16 ty ++ enc16 v ++ block ++ tail)) by (done || by_app).
  cbn [outcome_bind]. rewrite Uint16_put16 by done. cbn [outcome_bind].
  rewrite (slice_from_at _ (pre ++ put16 ty) (enc16 v ++ block ++ tail))
    by (by_app || by rewrite length_app).
  cbn [outcome_bind]. rewrite Uint16_enc16 by done. cbn [outcome_bind].
  rewrite bool_decide_eq_false_2 by lia. case_decide.
  - rewrite (slice_at _ (pre ++ put16 ty ++ put16 (List.length v)) v (block ++ tail));
      [done | unfold enc_ext; cbn [fst snd]; by_app | rewrite !length_app; cbn; lia | lia].
  - f_equal; [by_app | rewrite length_app, length_enc_ext; cbn; lia | by rewrite app_assoc].
Qed.

(** A turn that does not fail has read a well-formed extension. *)
Lemma ext_loop_step_inv fuel pre block tail name :
  ext_loop fuel (pre ++ block ++ tail) (List.length pre) (List.length (pre ++ block)) = Ret (Ok name) →
  ∃ ty v block', block = enc_ext (ty, v) ++ block' ∧ ext_ok (ty, v).
Proof.
  destruct fuel as [|fuel]; [done|]. cbn [ext_loop]. case_decide as Hpos; [|done].
  rewrite slice_from_app by done. cbn [outcome_bind]. rewrite length_app in *.
  destruct (Uint16 (block ++ tail)) as [ty|] eqn:Ety; [|done]. cbn [outcome_bind].
  assert (Hty : ∃ block1, block = put16 ty ++ block1 ∧ ty < 256 * 256).
  { destruct block as [|b0 [|b1 block1]]; cbn [List.length] in Hpos; [lia..|].
    cbn [app] in Ety. rewrite Uint16_cons in Ety. injection Ety as <-.
    exists block1. rewrite put16_cons. split; [done|].
    pose proof (byte_nat_lt b0). pose proof (byte_nat_lt b1). lia. }
  destruct Hty as (block1 & -> & Hty). rewrite length_app, length_put16 in *.
  rewrite (slice_from_at _ (pre ++ put16 ty) (block1 ++ tail)) by (by_app || by rewrite length_app).
  cbn [outcome_bind].
  destruct (Uint16 (block1 ++ tail)) as [n|] eqn:En; [|done]. cbn [outcome_bind].
  case_bool_decide as Hn; [done|]. intros _.
  assert (Hb : Uint16 block1 = Ret n).
  { destruct block1 as [|b0 [|b1 rest]]; cbn [List.length] in Hpos; [lia..|].
    cbn [app] in En. by rewrite Uint16_cons in *. }
  destruct (Uint16_split block1 n Hb ltac:(lia)) as (v & block' & -> & Hv & _).
  exists ty, v, block'. split; [unfold enc_ext; by_app | done].
Qed.

Lemma ext_loop_iff fuel pre block tail name :
  List.length block < 4 * fuel →
  ext_loop fuel (pre ++ block ++ tail) (List.length pre) (List.length (pre ++ block)) = Ret (Ok name) ↔
  ∃ before data after, block = enc_exts before ++ enc_ext (extensionTypeSNI, data) ++ after ∧
    Forall (λ x, ext_ok x ∧ fst x ≠ extensionTypeSNI) before ∧ fits16 data ∧
    parseSNI data = Ret (Ok name).
Proof.
  revert pre block. induction fuel as [|fuel IH]; intros pre block Hfuel; [lia|]. split.
  - intros Hrun.
    destruct (ext_loop_step_inv _ _ _ _ _ Hrun) as (ty & v & block' & -> & Hok).
    rewrite ext_loop_step in Hrun by done. rewrite length_app, length_enc_ext in Hfuel.
    case_decide as Hty; [subst ty; exists [], v, block'; split; [done|]; destruct Hok; done|].
    apply IH in Hrun as (before & data & after & -> & Hb & Hd & Hp); [|lia].
    exists ((ty, v) :: before), data, after. split; [unfold enc_exts; cbn; by rewrite <- app_assoc|].
    split; [|done]. by apply Forall_cons_2.
  - intros (before & data & after & -> & Hb & Hd & Hp).
    destruct before as [|[ty v] before].
    + change (enc_exts []) with (@nil byte). cbn [app].
      rewrite ext_loop_step by (split; [unfold extensionTypeSNI; cbn [fst]; lia | done]).
      by rewrite decide_True.
    + apply Forall_cons in Hb as [[Hok Hne] Hb].
      change (enc_exts ((ty, v) :: before)) with (enc_ext (ty, v) ++ enc_exts before) in *.
      rewrite <- (app_assoc (enc_ext (ty, v)) (enc_exts before)) in *.
      rewrite ext_loop_step by done.
      rewrite decide_False by done. apply IH; [|eauto 8].
      rewrite length_app, length_enc_ext in Hfuel. lia.
Qed.

(** The extension block of the hello, at [pos]. *)
Definition ext_block (b : bytes) (pos : nat) : GoM string :=
  fail_if: bool_decide (List.length b < pos + 2) with "client hello too short for extensions length" ;;
  e <-@ slice_from b pos ;;
  extLen <-@ Uint16 e ;;
  fail_if: bool_decide (extLen = 0) with "no extensions" ;;
  fail_if: bool_decide (List.length b < pos + 2 + extLen) with "client hello truncated in extensions" ;;
  ext_loop (S (List.length b)) b (pos + 2) (pos + 2 + extLen).

Lemma extractSNI_fields b :
  extractSNI b =
  fail_if: bool_decide (List.length b < 2) with "client hello too short for version" ;;
  fail_if: bool_decide (List.length b < 34) with "client hello too short for random" ;;
  pos <- vec8 b 34 "client hello too short for session id length" "client hello truncated in session id" ;;
  pos <- vec16 b pos "client hello too short for cipher suites length" "client hello truncated in cipher suites" ;;
  pos <- vec8 b pos "client hello too short for compression methods length" "client hello truncated in compression methods" ;;
  ext_block b pos.
Proof.
  unfold extractSNI, vec8, vec16, gret. change (2 + 32) with 34.
  do 3 (case_bool_decide; [done|]). destruct (index b 34); [|done]. cbn [outcome_bind].
  case_bool_decide; [done|]. cbn [gbind]. case_bool_decide; [done|].
  destruct (slice_from b _); [|done]. cbn [outcome_bind]. destruct (Uint16 _); [|done]. cbn [outcome_bind].
  case_bool_decide; [done|]. cbn [gbind]. case_bool_decide; [done|].
  destruct (index b _); [|done]. cbn [outcome_bind].
  case_bool_decide; done.
Qed.

Lemma ext_block_iff pre suf name :
  ext_block (pre ++ suf) (List.length pre) = Ret (Ok name) ↔
  ∃ before data after trailer,
    suf = enc16 (enc_exts before ++ enc_ext (extensionTypeSNI, data) ++ after) ++ trailer ∧
    fits16 (enc_exts before ++ enc_ext (extensionTypeSNI, data) ++ after) ∧
    Forall (λ x, ext_ok x ∧ fst x ≠ extensionTypeSNI) before ∧ fits16 data ∧
    parseSNI data = Ret (Ok name).
Proof.
  unfold ext_block. split.
  - case_bool_decide as H1; [done|]. rewrite slice_from_app by done. cbn [outcome_bind].
    destruct (Uint16 suf) as [n|] eqn:E; [|done]. cbn [outcome_bind].
    case_bool_decide as H2; [done|]. case_bool_decide as H3; [done|]. rewrite length_app in H3.
    destruct (Uint16_split suf n E ltac:(lia)) as (block & trailer & -> & Hf & <-).
    intros Hrun.
    assert (Heq : pre ++ enc16 block ++ trailer = (pre ++ put16 (List.length block)) ++ block ++ trailer)
      by by_app.
    rewrite Heq in Hrun. replace (List.length pre + 2) with (List.length (pre ++ put16 (List.length block)))
      in Hrun by (by rewrite length_app).
    rewrite <- length_app in Hrun. apply ext_loop_iff in Hrun.
    + destruct Hrun as (before & data & after & -> & ?). exists before, data, after, trailer.
      split; [done|]. by split.
    + rewrite !length_app. lia.
  - intros (before & data & after & trailer & -> & Hf & Hrest).
    set (block := enc_exts before ++ enc_ext (extensionTypeSNI, data) ++ after) in *.
    assert (Hpos : List.length block ≠ 0).
    { unfold block. rewrite !length_app, length_enc_ext. lia. }
    rewrite slice_from_app by done. cbn [outcome_bind]. rewrite Uint16_enc16 by done. cbn [outcome_bind].
    rewrite !bool_decide_eq_false_2 by (rewrite ?length_app, ?length_enc16; lia).
    assert (Heq : pre ++ enc16 block ++ trailer = (pre ++ put16 (List.length block)) ++ block ++ trailer)
      by (unfold enc16; by rewrite <- !app_assoc).
    rewrite Heq. replace (List.length pre + 2) with (List.length (pre ++ put16 (List.length block)))
      by (by rewrite length_app).
    rewrite <- length_app. apply ext_loop_iff; [rewrite !length_app; lia|].
    by exists before, data, after.
Qed.

Lemma extractSNI_iff b name :
  extractSNI b = Ret (Ok name) ↔
  ∃ version random session ciphers comp before data after trailer,
    b = version ++ random ++ enc8 session ++ enc16 ciphers ++ enc8 comp
          ++ enc16 (enc_exts before ++ enc_ext (extensionTypeSNI, data) ++ after) ++ trailer ∧
    List.length version = 2 ∧ List.length random = 32 ∧ fits8 session ∧ fits16 ciphers ∧ fits8 comp ∧
    fits16 (enc_exts before ++ enc_ext (extensionTypeSNI, data) ++ after) ∧
    Forall (λ x, ext_ok x ∧ fst x ≠ extensionTypeSNI) before ∧ fits16 data ∧
    parseSNI data = Ret (Ok name).
Proof.
  rewrite extractSNI_fields. split.
  - case_bool_decide as H1; [done|]. case_bool_decide as H2; [done|].
    rewrite <- (take_drop 2 b), <- (take_drop 32 (drop 2 b)). rewrite drop_drop.
    assert (Hv : List.length (take 2 b) = 2) by (rewrite length_take; lia).
    assert (Hr : List.length (take 32 (drop 2 b)) = 32) by (rewrite length_take, length_drop; lia).
    revert Hv Hr. generalize (take 2 b) (take 32 (drop 2 b)) (drop (2 + 32) b).
    clear b H1 H2. intros version random suf Hv Hr. rewrite app_assoc.
    replace 34 with (List.length (version ++ random)) by (rewrite length_app; lia).
    intros (p1 & (session & s1 & -> & Hs & ->)%vec8_iff & Hrun)%gbind_ok. rewrite app_assoc in Hrun.
    apply gbind_ok in Hrun as (p2 & (ciphers & s2 & -> & Hc & ->)%vec16_iff & Hrun).
    rewrite app_assoc in Hrun.
    apply gbind_ok in Hrun as (p3 & (comp & s3 & -> & Hm & ->)%vec8_iff & Hrun). rewrite app_assoc in Hrun.
    apply ext_block_iff in Hrun as (before & data & after & trailer & -> & Hrest).
    exists version, random, session, ciphers, comp, before, data, after, trailer.
    split; [by rewrite <- !app_assoc|]. do 5 (split; [done|]). done.
  - intros (version & random & session & ciphers & comp & before & data & after & trailer & -> &
            Hv & Hr & Hs & Hc & Hm & Hrest).
    rewrite !bool_decide_eq_false_2 by (rewrite !length_app; lia). rewrite app_assoc.
    replace 34 with (List.length (version ++ random)) by (rewrite length_app; lia).
    apply gbind_ok. eexists. split; [by apply vec8_iff; eauto|]. rewrite app_assoc.
    apply gbind_ok. eexists. split; [by apply vec16_iff; eauto|]. rewrite app_assoc.
    apply gbind_ok. eexists. split; [by apply vec8_iff; eauto|]. rewrite app_assoc.
    apply ext_block_iff. by exists before, data, after, trailer.
Qed.

(** ** The record layer *)

Lemma uint24_cons b0 b1 b2 :
  uint24 [b0; b1; b2] = Ret ((byte_nat b0 * 256 + byte_nat b1) * 256 + byte_nat b2).
Proof.
  unfold uint24. rewrite decide_False by (cbn [List.length]; lia).
  unfold index. cbn [lookup list_lookup outcome_bind].
  pose proof (Byte.to_N_bounded b1). pose proof (Byte.to_N_bounded b2).
  replace (N.shiftl (Byte.to_N b0) 16) with (N.shiftl (N.shiftl (Byte.to_N b0) 8) 8)
    by (by rewrite N.shiftl_shiftl).
  rewrite <- N.shiftl_lor, (N.lor_comm (N.shiftl (Byte.to_N b0) 8)), N.lor_comm, !lor_shiftl_8 by lia.
  unfold byte_nat. f_equal. lia.
Qed.

Lemma put24_cons b0 b1 b2 :
  put24 ((byte_nat b0 * 256 + byte_nat b1) * 256 + byte_nat b2) = [b0; b1; b2].
Proof.
  unfold put24, put16. rewrite <- Nat.Div0.div_div.
  destruct (split256 (byte_nat b0 * 256 + byte_nat b1) _ (byte_nat_lt b2)) as [Hd Hm].
  destruct (split256 (byte_nat b0) _ (byte_nat_lt b1)) as [Hd' Hm'].
  rewrite <- (byte_of_nat_mod (_ + byte_nat b2)), Hm, Hd, Hd'.
  by rewrite <- (byte_of_nat_mod (_ + byte_nat b1)), Hm', !byte_of_nat_nat.
Qed.

Lemma put24_bytes n : n < 256 * 256 → ∃ b0 b1 b2, put24 n = [b0; b1; b2] ∧
  n = (byte_nat b0 * 256 + byte_nat b1) * 256 + byte_nat b2.
Proof.
  intros Hn. unfold put24, put16. do 3 eexists. split; [done|].
  rewrite !byte_nat_of_nat, <- Nat.Div0.div_div.
  pose proof (Nat.div_mod_eq n 256). pose proof (Nat.div_mod_eq (n / 256) 256).
  rewrite (Nat.mod_small (n / 256 / 256)); [lia|].
  apply Nat.Div0.div_lt_upper_bound, Nat.Div0.div_lt_upper_bound. lia.
Qed.

Lemma readRecord_iff conn r rest :
  readRecord conn = Ret (Ok (r, rest)) ↔
  ∃ ty version v payload, List.length version = 2 ∧ Uint16 version = Ret v ∧ fits16 payload ∧
    r = TlsRecord ty v (List.length payload) payload ([ty] ++ version ++ enc16 payload) ∧
    conn = Raw r ++ rest.
Proof.
  unfold readRecord. split.
  - destruct (ReadFull 5 conn) as [[header conn']|] eqn:E; [|done]. cbn [map_err gbind].
    apply ReadFull_inv in E as [-> Hlen].
    destruct header as [|ty [|v0 [|v1 [|l0 [|l1 [|]]]]]]; try done.
    cbn [index lookup list_lookup outcome_bind]. rewrite !slice_ok by (cbn [List.length]; lia).
    cbn [take drop outcome_bind]. rewrite !Uint16_cons. cbn [outcome_bind].
    destruct (ReadFull _ conn') as [[payload conn'']|] eqn:E; [|done]. cbn [map_err gbind].
    apply ReadFull_inv in E as [-> Hp]. intros [= <- <-].
    exists ty, [v0; v1], (byte_nat v0 * 256 + byte_nat v1), payload.
    split; [done|]. split; [by rewrite Uint16_cons|].
    pose proof (byte_nat_lt l0). pose proof (byte_nat_lt l1).
    split; [unfold fits16; lia|]. cbn [Raw]. unfold enc16. rewrite Hp, put16_cons. done.
  - intros (ty & version & v & payload & Hv & Huv & Hp & -> & ->). cbn [Raw].
    destruct version as [|v0 [|v1 [|]]]; try done.
    replace (([ty] ++ [v0; v1] ++ enc16 payload) ++ rest)
      with (([ty; v0; v1] ++ put16 (List.length payload)) ++ payload ++ rest) by by_app.
    rewrite ReadFull_app by done. cbn [map_err gbind].
    rewrite (index_at _ [] ty ([v0; v1] ++ put16 (List.length payload))) by done. cbn [outcome_bind].
    rewrite (slice_at _ [ty] [v0; v1] (put16 (List.length payload))) by done. cbn [outcome_bind].
    rewrite Huv. cbn [outcome_bind].
    rewrite (slice_at _ [ty; v0; v1] (put16 (List.length payload)) []) by (done || by rewrite app_nil_r).
    cbn [outcome_bind]. rewrite <- (app_nil_r (put16 _)) at 1. rewrite Uint16_put16 by done. cbn [outcome_bind].
    rewrite ReadFull_app by done. cbn [map_err gbind]. unfold gret. do 4 f_equal.
Qed.

Lemma readRecord_returns conn : returns (readRecord conn).
Proof.
  unfold readRecord. destruct (ReadFull 5 conn) as [[header conn']|] eqn:E; [|apply returns_ret].
  apply ReadFull_inv in E as [-> Hlen]. cbn [map_err gbind]. repeat total_step.
  by destruct (ReadFull n0 conn') as [[payload rest]|]; [apply returns_ret|apply returns_ret].
Qed.

(** ** The whole parser *)

Lemma fits16_app_r a b : fits16 (a ++ b) → fits16 b.
Proof. unfold fits16. rewrite length_app. lia. Qed.

Lemma fits16_app_l a b : fits16 (a ++ b) → fits16 a.
Proof. unfold fits16. rewrite length_app. lia. Qed.

Lemma fits16_enc16 v : fits16 (enc16 v) → fits16 v.
Proof. unfold fits16. rewrite length_enc16. lia. Qed.

Lemma valid_fits h : valid h →
  fits16 (body h) ∧ fits16 (h_ciphers h) ∧ fits16 (exts h) ∧ fits16 (sni_data h) ∧ fits16 (names h).
Proof.
  intros Hv. pose proof (v_payload h Hv) as Hp.
  assert (Hb : fits16 (body h)).
  { unfold payload, enc24 in Hp. by apply fits16_app_r, fits16_app_l, fits16_app_r in Hp. }
  split; [done|]. pose proof Hb as Hr. unfold body in Hr. do 3 apply fits16_app_r in Hr.
  split; [by apply fits16_app_l, fits16_enc16 in Hr|]. do 2 apply fits16_app_r in Hr.
  apply fits16_app_l, fits16_enc16 in Hr. split; [done|]. unfold exts in Hr.
  apply fits16_app_r, fits16_app_l in Hr. unfold enc_ext in Hr. apply fits16_app_r, fits16_enc16 in Hr.
  cbn [snd] in Hr. split; [done|]. by apply fits16_app_l, fits16_enc16 in Hr.
Qed.

Lemma uint24_total b : List.length b = 3 → ∃ n, uint24 b = Ret n.
Proof. destruct b as [|b0 [|b1 [|b2 [|]]]]; intros [=]. rewrite uint24_cons. eauto. Qed.

Lemma parseClientHello_complete h rest :
  valid h →
  parseClientHello (encode h ++ rest) = Ret (Ok (string_of_bytes (h_name h), encode h, rest)).
Proof.
  intros Hv. destruct (valid_fits h Hv) as (Hb & Hc & He & Hd & Hn). destruct Hv.
  unfold parseClientHello.
  destruct (Uint16_total (h_record_version h)) as (v & Hver & _); [lia|].
  assert (Hread : readRecord (encode h ++ rest) =
    Ret (Ok (TlsRecord recordTypeHandshake v (List.length (payload h)) (payload h) (encode h), rest))).
  { apply readRecord_iff. by exists recordTypeHandshake, (h_record_version h), v, (payload h). }
  rewrite Hread. cbn [outcome_bind map_err gbind ContentType Payload Raw].
  rewrite !(bool_decide_eq_false_2 (_ ≠ _)) by (intros Hne; by apply Hne).
  assert (Hlen : List.length (payload h) = 4 + List.length (body h) + List.length (h_rest h)).
  { unfold payload. rewrite !length_app. cbn. lia. }
  rewrite !bool_decide_eq_false_2 by lia. unfold payload, enc24.
  rewrite (index_at _ [] handshakeTypeClientHello
             ((put24 (List.length (body h)) ++ body h) ++ h_rest h)) by done.
  cbn [outcome_bind]. rewrite bool_decide_eq_false_2 by (intros Hne; by apply Hne).
  rewrite (slice_at _ [handshakeTypeClientHello] (put24 (List.length (body h))) (body h ++ h_rest h))
    by (done || by_app).
  cbn [outcome_bind].
  destruct (put24_bytes (List.length (body h)) Hb) as (b0 & b1 & b2 & Hput & Heq).
  rewrite Hput, uint24_cons, <- Heq, <- Hput. cbn [outcome_bind].
  rewrite (slice_from_at _ ([handshakeTypeClientHello] ++ put24 (List.length (body h))) (body h ++ h_rest h))
    by (done || by_app).
  cbn [outcome_bind]. rewrite bool_decide_eq_false_2 by (rewrite length_app; lia).
  rewrite slice_to_ok by (rewrite length_app; lia). rewrite take_app_length. cbn [outcome_bind].
  assert (Hx : extractSNI (body h) = Ret (Ok (string_of_bytes (h_name h)))).
  { apply extractSNI_iff.
    exists (h_version h), (h_random h), (h_session h), (h_ciphers h), (h_compression h), (h_before h),
      (sni_data h), (h_after h), (h_trailer h).
    do 6 (split; [done|]). split; [done|]. split; [done|]. split; [done|].
    apply parseSNI_iff. by exists (h_name h), (h_more_names h), (h_sni_slack h). }
  by rewrite Hx.
Qed.

Lemma parseClientHello_sound conn sni raw rest :
  parseClientHello conn = Ret (Ok (sni, raw, rest)) →
  ∃ h, valid h ∧ sni = string_of_bytes (h_name h) ∧ raw = encode h ∧ conn = encode h ++ rest.
Proof.
  unfold parseClientHello. intros ([record conn'] & Hread & Hrun)%gbind_ok.
  destruct (readRecord conn) as [[[r0 c0]|]|] eqn:E; [|done..].
  injection Hread as -> ->. apply readRecord_iff in E as (ty & version & v & pl & Hv & _ & Hp & -> & ->).
  cbn [ContentType Payload Raw] in *.
  case_bool_decide as Hty; [done|]. destruct (decide (ty = recordTypeHandshake)) as [->|]; [clear Hty|done].
  case_bool_decide as H1; [done|]. destruct pl as [|t pl]; [cbn in H1; lia|].
  cbn [index lookup list_lookup outcome_bind] in Hrun.
  case_bool_decide as Ht; [done|]. destruct (decide (t = handshakeTypeClientHello)) as [->|]; [clear Ht|done].
  case_bool_decide as H4; [done|].
  destruct pl as [|b0 [|b1 [|b2 pl]]]; try (cbn [List.length] in H4; lia).
  rewrite slice_ok in Hrun by (cbn [List.length]; lia). cbn [take drop outcome_bind] in Hrun.
  rewrite uint24_cons in Hrun. cbn [outcome_bind] in Hrun.
  rewrite slice_from_ok in Hrun by (cbn [List.length]; lia). cbn [drop outcome_bind] in Hrun.
  case_bool_decide as Hl; [done|]. rewrite slice_to_ok in Hrun by lia. cbn [outcome_bind] in Hrun.
  set (n := (byte_nat b0 * 256 + byte_nat b1) * 256 + byte_nat b2) in *.
  apply gbind_ok in Hrun as (name & Hx & [= <- <- <-]).
  rewrite drop_0 in *.
  destruct (extractSNI (take n pl)) as [[name'|]|] eqn:Ex; [|discriminate Hx..]. injection Hx as ->.
  apply extractSNI_iff in Ex as (ver & random & session & ciphers & comp & before & data & after & trailer
    & Hb & Hver & Hr & Hs & Hc & Hm & He & Hbef & Hd & Hsni).
  apply parseSNI_iff in Hsni as (nm & more & slack & -> & -> & Hnames).
  exists (Hello version ver random session ciphers comp before nm more slack after trailer (drop n pl)).
  set (h := Hello _ _ _ _ _ _ _ _ _ _ _ _ _).
  assert (Hbody : body h = take n pl) by by rewrite Hb.
  assert (Hpl : payload h = handshakeTypeClientHello :: b0 :: b1 :: b2 :: pl).
  { unfold payload, enc24. rewrite Hbody, length_take, Nat.min_l by lia. unfold n at 1. rewrite put24_cons.
    cbn. by rewrite take_drop. }
  assert (Henc : encode h = [recordTypeHandshake] ++ version ++ enc16 (handshakeTypeClientHello :: b0 :: b1 :: b2 :: pl)).
  { unfold encode. by rewrite Hpl. }
  split; [split; try done; by rewrite Hpl|]. rewrite Henc. done.
Qed.

Lemma parseClientHello_returns conn : returns (parseClientHello conn).
Proof.
  unfold parseClientHello. destruct (readRecord_returns conn) as [r ->]. cbn [outcome_bind].
  destruct r as [[record rest]|]; [|apply returns_ret]. cbn [map_err gbind].
  repeat total_step.
  match goal with |- context [uint24 ?b] =>
    destruct (uint24_total b) as [n ->]; [rewrite length_drop, length_take; lia|] end.
  cbn [outcome_bind]. repeat total_step.
  match goal with |- context [extractSNI ?b] => destruct (extractSNI_returns b) as [r ->] end.
  destruct r; apply returns_ret.
Qed.

(** ** Copying *)

(** Every write succeeds. *)
Definition all_writes_ok (writes : nat → write_result) : Prop := ∀ w, writes w = WriteOk.

(** The reads up to and including the first one with an error: the ones [transfer]
    makes. *)
Fixpoint reads_made (reads : list read_event) : list read_event :=
  match reads with
  | [] => []
  | r :: reads => r :: match rd_err r with Some _ => [] | None => reads_made reads end
  end.

Definition stream (reads : list read_event) : bytes := List.concat (rd_bytes <$> reads).

(** Every error ends the loop in the same way. *)
Lemma if_same {A : Type} (b : bool) (x : A) : (if b then x else x) = x.
Proof. by destruct b. Qed.

Lemma transfer_ok writes w reads :
  all_writes_ok writes →
  transfer writes w reads = (stream (reads_made reads), existsb (λ r, bool_decide (rd_err r ≠ None)) reads).
Proof.
  intros Hw. revert w. induction reads as [|r reads IH]; intros w; [done|]. cbn [transfer reads_made existsb].
  assert (Hempty : ¬ 0 < List.length (rd_bytes r) → rd_bytes r = []) by (destruct (rd_bytes r); cbn; [done|lia]).
  rewrite (Hw w). unfold stream. cbn [fmap list_fmap List.concat].
  destruct (rd_err r) as [e|].
  - rewrite if_same, bool_decide_eq_true_2 by done. cbn. case_decide as Hn; [done|]. by rewrite Hempty.
  - rewrite bool_decide_eq_false_2 by (intros Hne; by apply Hne).
    case_decide as Hn; rewrite IH; [done|]. by rewrite Hempty.
Qed.

(** Whatever the writes do, what reaches the destination is a prefix of what the
    source sent. *)
Lemma transfer_prefix writes w reads : fst (transfer writes w reads) `prefix_of` stream reads.
Proof.
  revert w. induction reads as [|r reads IH]; intros w; [done|]. cbn [transfer].
  change (stream (r :: reads)) with (rd_bytes r ++ stream reads).
  assert (Hempty : ¬ 0 < List.length (rd_bytes r) → rd_bytes r = []) by (destruct (rd_bytes r); cbn; [done|lia]).
  case_decide as Hn.
  - destruct (writes w) as [|n]; [|cbn; apply prefix_app_r, prefix_take].
    destruct (rd_err r).
    + rewrite if_same. cbn. apply prefix_app, prefix_nil.
    + specialize (IH (S w)). destruct (transfer writes (S w) reads). cbn in *. by apply prefix_app.
  - rewrite Hempty by done. destruct (rd_err r); [rewrite if_same; apply prefix_nil|apply IH].
Qed.

(** ** Theorems *)

(** C24: Parsing the first record of any byte stream returns: it never indexes or slices
    out of range and its loop over the extensions terminates, whatever the client sends. *)
Theorem parseClientHello_total (conn : bytes) : ∃ r, parseClientHello conn = Ret r.
Proof. exact (parseClientHello_returns conn). Qed.

(** C5: The parser accepts exactly the streams that start with a record holding a complete
    ClientHello with a server name: it succeeds if and only if the stream is the encoding of
    a valid hello followed by the bytes it leaves on the connection, it returns the first
    host name of the first server-name extension, and the raw bytes it keeps for the replay
    are the record, byte for byte. *)
Theorem parseClientHello_exact (conn : bytes) (sni : string) (raw rest : bytes) :
  parseClientHello conn = Ret (Ok (sni, raw, rest)) ↔
  ∃ h, valid h ∧ sni = string_of_bytes (h_name h) ∧ raw = encode h ∧ conn = raw ++ rest.
Proof.
  split.
  - intros (h & ? & ? & -> & ->)%parseClientHello_sound. by exists h.
  - intros (h & Hv & -> & -> & ->). by apply parseClientHello_complete.
Qed.

(** C19: A connection whose hello names a host that resolves and answers is proxied
    transparently: the proxy dials port 443 of the first address of the name, and with no
    write failing the upstream receives exactly the bytes the client sent, the hello
    included, and the client exactly the bytes the upstream sent, each up to the read that
    ended its direction. *)
Theorem handleConn_transparent (e : env) (h : hello) (rest : bytes) (ip : string) (ips : list string) :
  valid h →
  LookupHost e (string_of_bytes (h_name h)) = Ok (ip :: ips) →
  DialContext e (JoinHostPort ip "443") = Ok tt →
  all_writes_ok (upstream_writes e) → all_writes_ok (client_writes e) →
  ∃ fin,
  handleConn e (encode h ++ rest) =
  Ret (Session (Some (string_of_bytes (h_name h))) (Some (JoinHostPort ip "443"))
         (encode h ++ stream (reads_made (client_reads e rest)))
         (stream (reads_made (upstream_reads e)))
         fin).
Proof.
  intros Hv Hl Hd Hup Hcl. unfold handleConn. rewrite parseClientHello_complete by done.
  cbn [outcome_bind]. rewrite Hl, Hd, Hup, !transfer_ok by done. eauto.
Qed.

(** Nothing reaches an upstream but what the client sent, in order and from its first
    byte: whatever resolver, dialer and writes do, the handler returns normally or goes on
    copying, an address is dialled only for a valid hello that names it, and the bytes
    written upstream are a prefix of the client's stream. *)
Theorem handleConn_prefix (e : env) (client : bytes) :
  (∀ rest, stream (client_reads e rest) `prefix_of` rest) →
  ∃ s, handleConn e client = Ret s ∧ to_upstream s `prefix_of` client ∧
    ∀ target, dialled s = Some target → ∃ h rest ip ips,
      valid h ∧ client = encode h ++ rest ∧ LookupHost e (string_of_bytes (h_name h)) = Ok (ip :: ips) ∧
      target = JoinHostPort ip "443".
Proof.
  intros Hreads. unfold handleConn. destruct (parseClientHello_returns client) as [r Hr].
  rewrite Hr. cbn [outcome_bind].
  destruct r as [[[sni raw] rest]|]; [|eexists; split; [done|]; split; [apply prefix_nil|done]].
  apply parseClientHello_sound in Hr as (h & Hv & -> & -> & ->).
  destruct (LookupHost e _) as [[|ip ips]|] eqn:Hl;
    [eexists; split; [done|]; split; [apply prefix_nil|done]| |
     eexists; split; [done|]; split; [apply prefix_nil|done]].
  assert (Hdial : ∀ target, Some (JoinHostPort ip "443") = Some target → ∃ h0 rest0 ip0 ips0,
      valid h0 ∧ encode h ++ rest = encode h0 ++ rest0 ∧
      LookupHost e (string_of_bytes (h_name h0)) = Ok (ip0 :: ips0) ∧ target = JoinHostPort ip0 "443").
  { intros target [= <-]. by exists h, rest, ip, ips. }
  destruct (DialContext e _); [|eexists; split; [done|]; split; [apply prefix_nil|done]].
  destruct (upstream_writes e 0).
  - pose proof (transfer_prefix (upstream_writes e) 1 (client_reads e rest)) as Hp.
    destruct (transfer (upstream_writes e) _ _) as [up ?]. destruct (transfer (client_writes e) _ _).
    eexists. split; [done|]. split; [|done].
    cbn [fst to_upstream] in *. apply prefix_app. by trans (stream (client_reads e rest)).
  - eexists. split; [done|]. split; [|done]. cbn [to_upstream]. apply prefix_app_r, prefix_take.
Qed.

(** A direction that stays silent for the idle timeout is closed for good while the
    other goes on: once a read has timed out [transfer] forwards nothing that arrives later,
    and nothing tells the peer. *)
Theorem transfer_idle_stops (writes : nat → write_result) (before later : list read_event) :
  all_writes_ok writes →
  Forall (λ r, rd_err r = None) before →
  transfer writes 0 (before ++ ReadEvent [] (Some Timeout) :: later) = (stream before, true).
Proof.
  intros Hw Hb. rewrite transfer_ok by done. f_equal.
  - induction Hb as [|r before Hr Hb IH]; cbn [app reads_made]; [done|].
    rewrite Hr. unfold stream in *. cbn [fmap list_fmap List.concat]. by f_equal.
  - rewrite existsb_app. cbn. apply orb_true_r.
Qed.

(** ** Witnesses *)

(** A hello for example.org with a supported-versions extension before the name. *)
Definition sample_hello : hello :=
  Hello [x03; x01] [x03; x03] (replicate 32 x2a) (replicate 32 x07) [x13; x01; x13; x02] [x00]
    [(43, [x02; x03; x04])] (bytes_of_string "example.org") [] [] [x00; x17; x00; x00] [] [].

Definition sample_env : env :=
  Env (λ name, if decide (name = "example.org") then Ok ["192.0.2.7"; "192.0.2.8"] else Err "no such host")
    (λ target, if decide (target = "192.0.2.7:443") then Ok tt else Err "connection refused")
    (λ rest, [ReadEvent (take 2 rest) None; ReadEvent (drop 2 rest) (Some EOF)])
    [ReadEvent [x01; x02] None; ReadEvent [] (Some Timeout); ReadEvent [x03] None]
    (λ _, WriteOk) (λ _, WriteOk).

Lemma sample_hello_valid : valid sample_hello.
Proof.
  split.
  1-3: reflexivity.
  1-2: apply Nat.ltb_lt; vm_compute; reflexivity.
  - apply Forall_singleton. split; [split; apply Nat.ltb_lt; vm_compute; reflexivity|discriminate].
  - apply Nat.ltb_lt. vm_compute. reflexivity.
Qed.

Example parseClientHello_sample :
  parseClientHello (encode sample_hello ++ [x14; x03; x03]) =
  Ret (Ok ("example.org", encode sample_hello, [x14; x03; x03])).
Proof. vm_compute. reflexivity. Qed.

(** A hello cut into two records is refused, however complete it is. *)
Example parseClientHello_fragmented :
  parseClientHello ([x16; x03; x01; x00; x05; x01; x00; x00; x50; x03] ++ encode sample_hello) =
  Ret (Err "truncated handshake body").
Proof. vm_compute. reflexivity. Qed.

Lemma handleConn_transparent_witness :
  ∃ fin, handleConn sample_env (encode sample_hello ++ [x14; x03; x03]) =
    Ret (Session (Some "example.org") (Some "192.0.2.7:443")
           (encode sample_hello ++ [x14; x03; x03]) [x01; x02] fin).
Proof.
  apply (handleConn_transparent sample_env sample_hello [x14; x03; x03] "192.0.2.7" ["192.0.2.8"]).
  - exact sample_hello_valid.
  - by_eval.
  - by_eval.
  - intros w. reflexivity.
  - intros w. reflexivity.
Defined.

Lemma handleConn_prefix_witness :
  ∃ s, handleConn sample_env (encode sample_hello ++ [x14; x03; x03]) = Ret s ∧
    to_upstream s `prefix_of` encode sample_hello ++ [x14; x03; x03] ∧
    ∀ target, dialled s = Some target → ∃ h rest ip ips,
      valid h ∧ encode sample_hello ++ [x14; x03; x03] = encode h ++ rest ∧
      LookupHost sample_env (string_of_bytes (h_name h)) = Ok (ip :: ips) ∧
      target = JoinHostPort ip "443".
Proof.
  apply (handleConn_prefix sample_env (encode sample_hello ++ [x14; x03; x03])).
  intros rest. unfold stream. cbn [client_reads sample_env fmap list_fmap List.concat rd_bytes].
  rewrite app_nil_r, take_drop. reflexivity.
Defined.

Lemma transfer_idle_stops_witness :
  transfer (λ _, WriteOk) 0
    ([ReadEvent [x01] None] ++ ReadEvent [] (Some Timeout) :: [ReadEvent [x02; x03] None]) = ([x01], true).
Proof.
  apply (transfer_idle_stops (λ _, WriteOk) [ReadEvent [x01] None] [ReadEvent [x02; x03] None]).
  - intros w. reflexivity.
  - repeat constructor.
Defined.

End SniProxy.
