(* ===== verification/Upstream.v ===== *)
(** * The upstream resolver and its response cache: src/internal/upstream

    [Module Upstream] has one definition per function of upstream.go and cache.go.  The
    package variables [responseCache] and [client] are the state; the address of the
    resolver is a parameter, read from the environment by [init].  [Resolve] sets
    [RecursionDesired] on the message it is given, which the caller keeps: the updated
    message is part of its result. *)

From S2P Require Import Prelude.
From S2P Require Import GoStrings.
From S2P Require Import External.
From S2P Require Import Models.
From Stdlib Require Import Strings.Ascii Strings.String.

Local Open Scope go_scope.

Module Upstream.

(** [time.Second], in nanoseconds. *)
Definition Second : Z := 1000000000.

(** [int64(^uint32(0) >> 1)]: 2^31 - 1. *)
Definition max_ttl : Z := Z.shiftr (Z.lxor (2 ^ 32 - 1) 0) 1.

Definition set_RecursionDesired (msg : Msg) : Msg :=
  {| m_Id := m_Id msg; m_Response := m_Response msg; m_RecursionDesired := true;
     m_Rcode := m_Rcode msg; m_Question := m_Question msg; m_Answer := m_Answer msg;
     m_Ns := m_Ns msg |}.

(** One turn of the loops of [respMinTTL], on [min] and [found]. *)
Definition ttl_step (acc : Z * bool) (rr : RR) : Z * bool :=
  let '(min, found) := acc in
  if Z.ltb (h_Ttl (RR_hdr rr)) min then (h_Ttl (RR_hdr rr), true) else (min, found).

Definition respMinTTL (resp : Msg) : Z :=
  let acc := (max_ttl, false) in
  let acc := fold_left ttl_step (m_Answer resp) acc in
  let '(min, found) := fold_left ttl_step (m_Ns resp) acc in
  if negb found then 0 else min * Second.

Section upstream.
Context `{UnicodeTables, DnsLib} {N C : Type} `{DnsNet N, GoCache Msg C}.
Variable UpstreamAddr : string.

Record state := mkState { net : N; responseCache : option C }.

Definition InitCache (defaultTTL cleanupInterval : Z) (st : state) : state :=
  mkState (net st) (Some (cache_New defaultTTL cleanupInterval)).

(** The reply, the caller's message as it is left, and the network. *)
Definition Resolve (msg : Msg) (n : N) : result string Msg * Msg * N :=
  let msg := set_RecursionDesired msg in
  match Exchange msg UpstreamAddr n with
  | (Err e, n) => (Err ("upstream exchange " +:+ UpstreamAddr +:+ ": " +:+ e), msg, n)
  | (Ok None, n) => (Err "empty response from upstream", msg, n)
  | (Ok (Some resp), n) => (Ok resp, msg, n)
  end.

Definition cacheKey (msg : Msg) : option string :=
  match m_Question msg with
  | [] => None
  | q :: _ => Some (ToLower (q_Name q) +:+ ":" +:+ TypeToString (q_Qtype q))
  end.

(** The lookup at the instant [t0], the store at [t1]. *)
Definition ResolveCached (t0 t1 : Z) (msg : Msg) (st : state) : result string Msg * Msg * state :=
  let key := cacheKey msg in
  let hit := k ← key; c ← responseCache st; cache_Get c t0 k in
  match hit with
  | Some cached => (Ok cached, msg, st)
  | None =>
      match Resolve msg (net st) with
      | (Err e, msg, n) => (Err e, msg, mkState n (responseCache st))
      | (Ok resp, msg, n) =>
          let c :=
            match key, responseCache st with
            | Some k, Some c =>
                if Z.eqb (m_Rcode resp) RcodeSuccess then
                  let ttl := respMinTTL resp in
                  if Z.ltb 0 ttl then Some (cache_Set c t1 k resp ttl) else Some c
                else Some c
            | _, c => c
            end in
          (Ok resp, msg, mkState n c)
      end
  end.

Definition ClearCache (st : state) : state := mkState (net st) (cache_Flush <$> responseCache st).

(** ** The time to live of a reply *)

Definition ttl_of (rr : RR) : Z := h_Ttl (RR_hdr rr).

(** TTLs are unsigned 32-bit numbers. *)
Definition ttls_ok (resp : Msg) : Prop :=
  Forall (λ rr, 0 ≤ ttl_of rr < 2 ^ 32)%Z (m_Answer resp ++ m_Ns resp).

Lemma fold_ttl_step rrs min found :
  let '(min', found') := fold_left ttl_step rrs (min, found) in
  (min' ≤ min)%Z ∧ (∀ rr, rr ∈ rrs → min' ≤ ttl_of rr)%Z ∧
  (found' = false → found = false ∧ min' = min) ∧
  (found' = true → (found = true ∧ min' = min) ∨ ∃ rr, rr ∈ rrs ∧ ttl_of rr = min' ∧ (min' < min)%Z).
Proof.
  revert min found. induction rrs as [|rr rrs IH]; intros min found; cbn [fold_left].
  - split_and!; [lia | by intros ? ?%elem_of_nil | done | auto].
  - unfold ttl_step at 2. fold (ttl_of rr). destruct (Z.ltb_spec (ttl_of rr) min) as [Hlt|Hge].
    + specialize (IH (ttl_of rr) true). destruct (fold_left _ _ _) as [m f].
      destruct IH as (Hle & Hall & Hf & Ht). split_and!.
      * lia.
      * intros x [->|Hx]%elem_of_cons; [done|by apply Hall].
      * intros ?. by destruct Hf.
      * intros ->. right. destruct Ht as [[_ ->]|(x & Hx & ? & ?)]; [done| |].
        -- exists rr. split; [apply elem_of_cons; by left|]. lia.
        -- exists x. split; [apply elem_of_cons; by right|]. lia.
    + specialize (IH min found). destruct (fold_left _ _ _) as [m f].
      destruct IH as (Hle & Hall & Hf & Ht). split_and!; [done| |done|].
      * intros x [->|Hx]%elem_of_cons; [lia|by apply Hall].
      * intros E. destruct (Ht E) as [?|(x & Hx & ?)]; [by left|right].
        exists x. split; [apply elem_of_cons; by right|done].
Qed.

(** Both loops are one loop over the answer and the authority records. *)
Lemma respMinTTL_all resp :
  respMinTTL resp =
  let '(min, found) := fold_left ttl_step (m_Answer resp ++ m_Ns resp) (max_ttl, false) in
  if negb found then 0%Z else (min * Second)%Z.
Proof. unfold respMinTTL. by rewrite fold_left_app. Qed.

Lemma respMinTTL_le resp rr :
  rr ∈ m_Answer resp ++ m_Ns resp → (0 ≤ ttl_of rr)%Z → (respMinTTL resp ≤ ttl_of rr * Second)%Z.
Proof.
  intros Hin Hpos. rewrite respMinTTL_all.
  pose proof (fold_ttl_step (m_Answer resp ++ m_Ns resp) max_ttl false) as Hs.
  destruct (fold_left _ _ _) as [min found]. destruct Hs as (_ & Hall & _).
  specialize (Hall rr Hin). unfold Second. destruct found; cbn [negb]; lia.
Qed.

Lemma respMinTTL_range resp : ttls_ok resp → (0 ≤ respMinTTL resp < 2 ^ 63)%Z.
Proof.
  intros Hok. rewrite respMinTTL_all.
  pose proof (fold_ttl_step (m_Answer resp ++ m_Ns resp) max_ttl false) as Hs.
  destruct (fold_left _ _ _) as [min found]. destruct Hs as (Hle & _ & _ & Ht).
  unfold Second. change max_ttl with 2147483647%Z in *. destruct found; cbn [negb]; [|lia].
  destruct Ht as [[? _]|(rr & Hin & Hrr & _)]; [done..|].
  eapply Forall_forall in Hok; [|exact Hin]. cbn in Hok. lia.
Qed.

(** The lifetime [respMinTTL] gives a reply is the least TTL of its answer and authority
    records, in nanoseconds and without overflow, when one of them is below 2^31 - 1; it is
    0, that is no caching, for a reply without records or whose TTLs are all larger. *)
Theorem respMinTTL_spec (resp : Msg) :
  ttls_ok resp →
  (0 ≤ respMinTTL resp < 2 ^ 63)%Z ∧
  ((∀ rr, rr ∈ m_Answer resp ++ m_Ns resp → (2 ^ 31 - 1 ≤ ttl_of rr)%Z) ∧ respMinTTL resp = 0%Z
   ∨ ∃ rr, rr ∈ m_Answer resp ++ m_Ns resp ∧ (ttl_of rr < 2 ^ 31 - 1)%Z ∧
       respMinTTL resp = (ttl_of rr * Second)%Z ∧
       ∀ rr', rr' ∈ m_Answer resp ++ m_Ns resp → (ttl_of rr ≤ ttl_of rr')%Z).
Proof.
  intros Hok. split; [by apply respMinTTL_range|]. rewrite respMinTTL_all.
  pose proof (fold_ttl_step (m_Answer resp ++ m_Ns resp) max_ttl false) as Hs.
  destruct (fold_left _ _ _) as [min found]. destruct Hs as (Hle & Hall & Hf & Ht).
  change max_ttl with (2 ^ 31 - 1)%Z in *. destruct found; cbn [negb].
  - right. destruct Ht as [[? _]|(rr & Hin & <- & ?)]; [done..|]. exists rr. by split_and!.
  - left. destruct Hf as [_ ->]; [done|]. by split.
Qed.

(** ** The response cache *)

Context `{!GoCacheLaws Msg C}.

(** A query that misses the cache: it is resolved, and the reply stored when it may be. *)
Lemma ResolveCached_store t0 t1 msg n c k resp n' :
  cacheKey msg = Some k → cache_Get c t0 k = None →
  Exchange (set_RecursionDesired msg) UpstreamAddr n = (Ok (Some resp), n') →
  m_Rcode resp = RcodeSuccess → (0 < respMinTTL resp)%Z →
  ResolveCached t0 t1 msg (mkState n (Some c)) =
  (Ok resp, set_RecursionDesired msg, mkState n' (Some (cache_Set c t1 k resp (respMinTTL resp)))).
Proof.
  intros Hk Hmiss Hex Hrc Httl. unfold ResolveCached. cbn [responseCache net].
  rewrite Hk. cbn. rewrite Hmiss. unfold Resolve. rewrite Hex, Hrc. cbn.
  by rewrite (proj2 (Z.ltb_lt _ _) Httl).
Qed.

Lemma ResolveCached_hit t0 t1 msg n c k cached :
  cacheKey msg = Some k → cache_Get c t0 k = Some cached →
  ResolveCached t0 t1 msg (mkState n (Some c)) = (Ok cached, msg, mkState n (Some c)).
Proof. intros Hk Hhit. unfold ResolveCached. cbn. rewrite Hk. cbn. by rewrite Hhit. Qed.

Lemma cache_duration_pos (c : C) d : (0 < d)%Z → cache_duration c d = d.
Proof. intros Hd. unfold cache_duration, DefaultExpiration. destruct (Z.eqb_spec d 0); [lia|done]. Qed.

(** A successful reply is repeated, without a query to the resolver, for every query of
    the same name, whatever its case, and the same type name until the least of its TTLs has
    passed.  The repeated reply is the first one unchanged: its Id is that of the query
    that filled the cache, not that of the query it answers. *)
Theorem ResolveCached_memo (t0 t1 t t' : Z) (msg msg' : Msg) (n : N) (c : C) (k : string) (resp : Msg) (n' : N) :
  cacheKey msg = Some k → cache_Get c t0 k = None →
  Exchange (set_RecursionDesired msg) UpstreamAddr n = (Ok (Some resp), n') →
  m_Rcode resp = RcodeSuccess →
  cacheKey msg' = cacheKey msg →
  (t1 ≤ t < t1 + respMinTTL resp)%Z →
  let '(_, _, st) := ResolveCached t0 t1 msg (mkState n (Some c)) in
  net st = n' ∧ ResolveCached t t' msg' st = (Ok resp, msg', st).
Proof.
  intros Hk Hmiss Hex Hrc Hk' Ht. rewrite (ResolveCached_store _ _ _ _ _ k resp n') by (done || lia).
  split; [done|]. apply (ResolveCached_hit _ _ _ _ _ k); [congruence|].
  apply Get_Set_eq. rewrite cache_duration_pos; lia.
Qed.

(** No record is served from the cache after its TTL: a query made later than the TTL of
    any record of the stored reply goes to the resolver. *)
Theorem ResolveCached_no_stale (t0 t1 t t' : Z) (msg msg' : Msg) (n : N) (c : C) (k : string)
    (resp : Msg) (n' : N) (rr : RR) :
  cacheKey msg = Some k → cache_Get c t0 k = None →
  Exchange (set_RecursionDesired msg) UpstreamAddr n = (Ok (Some resp), n') →
  m_Rcode resp = RcodeSuccess →
  cacheKey msg' = cacheKey msg →
  rr ∈ m_Answer resp ++ m_Ns resp → (0 ≤ ttl_of rr)%Z → (t0 ≤ t)%Z → (t1 + ttl_of rr * Second < t)%Z →
  let '(_, _, st) := ResolveCached t0 t1 msg (mkState n (Some c)) in
  net st = n' ∧
  (ResolveCached t t' msg' st).1.1 = (Resolve msg' n').1.1.
Proof.
  intros Hk Hmiss Hex Hrc Hk' Hrr Hpos Hle Ht.
  assert (Hmiss' : ∀ c', cache_Get c' t k = None →
    (ResolveCached t t' msg' (mkState n' (Some c'))).1.1 = (Resolve msg' n').1.1).
  { intros c' Hc'. unfold ResolveCached. cbn [responseCache net]. rewrite Hk', Hk. cbn. rewrite Hc'.
    by destruct (Resolve msg' n') as [[[resp'|e] m] n'']. }
  pose proof (respMinTTL_le resp rr Hrr Hpos) as Hmin.
  destruct (Z.ltb_spec 0 (respMinTTL resp)) as [Httl|Httl].
  - rewrite (ResolveCached_store _ _ _ _ _ k resp n') by done. split; [done|].
    apply Hmiss'. apply Get_Set_expired; rewrite cache_duration_pos; lia.
  - assert (Hrun : ResolveCached t0 t1 msg (mkState n (Some c)) =
      (Ok resp, set_RecursionDesired msg, mkState n' (Some c))).
    { unfold ResolveCached. cbn [responseCache net]. rewrite Hk. cbn. rewrite Hmiss.
      unfold Resolve. rewrite Hex, Hrc. cbn. by rewrite (proj2 (Z.ltb_ge _ _) Httl). }
    rewrite Hrun. split; [done|]. apply Hmiss'.
    destruct (cache_Get c t k) as [v|] eqn:E; [|done].
    apply (Get_mono c t0) in E; [congruence|done].
Qed.

(** The cache key of a type without a name is the bare name of the query: two such types
    share an entry, and a query for the one is answered with the records of the other. *)
Theorem ResolveCached_unknown_types (t0 t1 t t' : Z) (msg msg' : Msg) (q q' : Question) (n : N) (c : C)
    (resp : Msg) (n' : N) :
  m_Question msg = [q] → m_Question msg' = [q'] → q_Name q = q_Name q' →
  TypeToString (q_Qtype q) = EmptyString → TypeToString (q_Qtype q') = EmptyString →
  cache_Get c t0 (ToLower (q_Name q) +:+ ":") = None →
  Exchange (set_RecursionDesired msg) UpstreamAddr n = (Ok (Some resp), n') →
  m_Rcode resp = RcodeSuccess → (t1 ≤ t < t1 + respMinTTL resp)%Z →
  let '(_, _, st) := ResolveCached t0 t1 msg (mkState n (Some c)) in
  (ResolveCached t t' msg' st).1.1 = Ok resp.
Proof.
  intros Hq Hq' Hname Hty Hty' Hmiss Hex Hrc Ht.
  assert (Hk : cacheKey msg = Some (ToLower (q_Name q) +:+ ":")).
  { unfold cacheKey. by rewrite Hq, Hty. }
  assert (Hk' : cacheKey msg' = Some (ToLower (q_Name q) +:+ ":")).
  { unfold cacheKey. by rewrite Hq', Hty', Hname. }
  rewrite (ResolveCached_store _ _ _ _ _ _ resp n' Hk) by (done || lia).
  rewrite (ResolveCached_hit _ _ _ _ _ _ resp Hk'); [done|].
  apply Get_Set_eq. rewrite cache_duration_pos; lia.
Qed.

End upstream.


(** ** Witnesses *)

#[local] Existing Instance ascii_tables.

Definition sample_query (id ty : Z) : Msg :=
  {| m_Id := id; m_Response := false; m_RecursionDesired := false; m_Rcode := RcodeSuccess;
     m_Question := [{| q_Name := "Example.org."; q_Qtype := ty |}]; m_Answer := []; m_Ns := [] |}.

Definition sample_rr (ttl : Z) : RR :=
  RR_A {| h_Name := "example.org."; h_Rrtype := TypeA; h_Class := ClassINET; h_Ttl := ttl |} [192; 0; 2; 1]%Z.

Definition sample_reply (id ty : Z) : Msg :=
  {| m_Id := id; m_Response := true; m_RecursionDesired := true; m_Rcode := RcodeSuccess;
     m_Question := [{| q_Name := "Example.org."; q_Qtype := ty |}];
     m_Answer := [sample_rr 300; sample_rr 60]; m_Ns := [sample_rr 3600] |}.

(** A resolver that answers every query with two addresses. *)
Definition sample_net : ScriptNet.t :=
  ScriptNet.mk (λ m _, Ok (Some (sample_reply (m_Id m) (match m_Question m with q :: _ => q_Qtype q | [] => 0 end)%Z))) [].

Definition sample_net_after (m : Msg) : ScriptNet.t :=
  ScriptNet.mk (ScriptNet.answer sample_net) [(set_RecursionDesired m, "1.1.1.1:53")].

Definition empty_cache : MapCache.t Msg := cache_New (300 * Second)%Z (600 * Second)%Z.

Definition sample_state (n : ScriptNet.t) : state (N := ScriptNet.t) (C := MapCache.t Msg) :=
  mkState n (Some empty_cache).

Lemma respMinTTL_spec_witness :
  ttls_ok (sample_reply 1 1) ∧ (0 ≤ respMinTTL (sample_reply 1 1) < 2 ^ 63)%Z.
Proof.
  assert (Hok : ttls_ok (sample_reply 1 1)) by by_decide.
  split; [exact Hok|]. exact (proj1 (respMinTTL_spec (sample_reply 1 1) Hok)).
Defined.

(** The query with Id 7 is answered from the cache with a reply whose Id is 1. *)
Lemma ResolveCached_memo_witness :
  let '(_, _, st) := ResolveCached "1.1.1.1:53" 0 10 (sample_query 1 1) (sample_state sample_net) in
  net st = sample_net_after (sample_query 1 1) ∧
  ResolveCached "1.1.1.1:53" (59 * Second) 0 (sample_query 7 1) st = (Ok (sample_reply 1 1), sample_query 7 1, st).
Proof.
  apply (ResolveCached_memo "1.1.1.1:53" 0 10 (59 * Second) 0 (sample_query 1 1) (sample_query 7 1) sample_net
    empty_cache "example.org.:A" (sample_reply 1 1) (sample_net_after (sample_query 1 1))).
  1-5: by_eval.
  vm_compute. split; [discriminate | reflexivity].
Defined.

Lemma ResolveCached_no_stale_witness :
  let '(_, _, st) := ResolveCached "1.1.1.1:53" 0 10 (sample_query 1 1) (sample_state sample_net) in
  net st = sample_net_after (sample_query 1 1) ∧
  (ResolveCached "1.1.1.1:53" (61 * Second) 0 (sample_query 7 1) st).1.1 =
  (Resolve "1.1.1.1:53" (sample_query 7 1) (sample_net_after (sample_query 1 1))).1.1.
Proof.
  apply (ResolveCached_no_stale "1.1.1.1:53" 0 10 (61 * Second) 0 (sample_query 1 1) (sample_query 7 1) sample_net
    empty_cache "example.org.:A" (sample_reply 1 1) (sample_net_after (sample_query 1 1)) (sample_rr 60)).
  1-5: by_eval.
  - by_decide.
  - by_eval.
  - by_eval.
  - by_eval.
Defined.

(** Types 65280 and 65281, of the range for private use. *)
Lemma ResolveCached_unknown_types_witness :
  let '(_, _, st) := ResolveCached "1.1.1.1:53" 0 10 (sample_query 1 65280) (sample_state sample_net) in
  (ResolveCached "1.1.1.1:53" (59 * Second) 0 (sample_query 2 65281) st).1.1 = Ok (sample_reply 1 65280).
Proof.
  apply (ResolveCached_unknown_types "1.1.1.1:53" 0 10 (59 * Second) 0 (sample_query 1 65280) (sample_query 2 65281)
    {| q_Name := "Example.org."; q_Qtype := 65280 |} {| q_Name := "Example.org."; q_Qtype := 65281 |}
    sample_net empty_cache (sample_reply 1 65280) (sample_net_after (sample_query 1 65280))).
  1-8: by_eval.
  vm_compute. split; [discriminate | reflexivity].
Defined.

End Upstream.
