(* ===== verification/Analytics.v ===== *)
(** * The query log pipeline: src/internal/analytics

    [Module Analytics] has the [LogAggregator] as a record, [SubmitLog], [flush] and
    [flushBatch] as functions, and the [select] loop of [StartWorker] as the events of a
    transition system: any number of goroutines submit while one worker receives, ticks
    or sees its context cancelled, in any order, so a run is a list of events.  [step]
    executes one event, [None] when it cannot occur. *)

From S2P Require Import Prelude.
From S2P Require Import GoStrings.
From S2P Require Import GoTime.
From S2P Require Import External.
From S2P Require Import Models.

Local Open Scope go_scope.

Module Analytics.

Inductive LogStatus := StatusAllowed | StatusBlocked | StatusRedirect.

Definition status_string (s : LogStatus) : string :=
  match s with StatusAllowed => "ALLOWED" | StatusBlocked => "BLOCKED" | StatusRedirect => "REDIRECTED" end.

(** Instants and durations are nanoseconds. *)
Record DNSLog := mkLog {
  Timestamp : Z;
  UserID : string;
  ClientIP : string;
  Domain : string;
  QueryType : string;
  Status : LogStatus;
  ResponseTime : Z
}.

#[export] Instance LogStatus_eq_dec : EqDecision LogStatus.
Proof. solve_decision. Defined.
#[export] Instance DNSLog_eq_dec : EqDecision DNSLog.
Proof. solve_decision. Defined.

(** [DNSLog.String]. *)
Definition String (l : DNSLog) : string :=
  "DNSLog{user=" +:+ UserID l +:+ " domain=" +:+ Domain l +:+ " type=" +:+ QueryType l +:+ " status=" +:+
  status_string (Status l) +:+ " elapsed=" +:+ Time.DurationString (ResponseTime l) +:+ "}".

(** The row appended for a log; the response time is converted to an unsigned 64-bit
    integer. *)
Definition row : Type := Z * string * string * string * string * string * Z.
Definition row_of (log : DNSLog) : row :=
  (Timestamp log, UserID log, ClientIP log, Domain log, QueryType log, status_string (Status log),
   uint64_wrap (ResponseTime log)).

Definition insert_stmt : string :=
  "INSERT INTO dns_logs (timestamp, user_id, client_ip, domain, query_type, status, response_time_ns)".

Section analytics.
Context {K B : Type} `{ClickHouse row K B}.

(** [metric] is the counter [metrics.AnalyticsDroppedLogs]; [running] tells whether the
    worker's goroutine is in its loop. *)
Record LogAggregator := mkAggregator {
  logCh : list DNSLog;
  bufferSize : nat;
  batch : list DNSLog;
  flushThreshold : nat;
  droppedCount : Z;
  flushedCount : Z;
  chConn : option K;
  metric : Z;
  running : bool
}.

Definition NewLogAggregator (bufferSize flushThreshold : nat) : LogAggregator :=
  mkAggregator [] bufferSize [] flushThreshold 0 0 None 0 false.

(** The options of the connection. *)
Definition ch_options (addr database username password : string) : ch_Options := {|
  opt_Addr := [addr];
  opt_Database := database; opt_Username := username; opt_Password := password;
  opt_Settings := [("max_execution_time", 60%Z)];
  opt_Compression := "LZ4";
  opt_MaxOpenConns := 10; opt_MaxIdleConns := 5; opt_ConnMaxLifetime := 3600 * 1000000000
|}.

Definition set_chConn (k : K) (a : LogAggregator) : LogAggregator :=
  mkAggregator (logCh a) (bufferSize a) (batch a) (flushThreshold a) (droppedCount a)
    (flushedCount a) (Some k) (metric a) (running a).

(** The connection is kept only if it opens and answers the ping. *)
Definition InitClickHouse (driver : ch_driver K) (addr database username password : string) (a : LogAggregator) :
    result string unit * LogAggregator :=
  match ch_Open driver (ch_options addr database username password) with
  | Err err => (Err err, a)
  | Ok conn =>
      match ch_Ping driver conn with
      | (Err err, _) => (Err err, a)
      | (Ok _, conn) => (Ok tt, set_chConn conn a)
      end
  end.

(** The [select] with a [default]: the log is queued if the channel has room. *)
Definition SubmitLog (log : DNSLog) (a : LogAggregator) : LogAggregator :=
  if decide (List.length (logCh a) < bufferSize a) then
    mkAggregator (logCh a ++ [log]) (bufferSize a) (batch a) (flushThreshold a) (droppedCount a)
      (flushedCount a) (chConn a) (metric a) (running a)
  else
    mkAggregator (logCh a) (bufferSize a) (batch a) (flushThreshold a) (uint64_add (droppedCount a) 1)
      (flushedCount a) (chConn a) (metric a) (running a).

(** The loop over the batch: a row that cannot be appended is skipped. *)
Definition append_rows (logs : list DNSLog) (b : B) : B :=
  fold_left (λ b log, snd (Append (row_of log) b)) logs b.

(** The connection and the metric after the batch. *)
Definition flushBatch (logs : list DNSLog) (conn : option K) (metric : Z) : option K * Z :=
  match conn with
  | None => (None, metric)
  | Some k =>
      match PrepareBatch insert_stmt k with
      | (Err _, k) => (Some k, metric + Z.of_nat (List.length logs))%Z
      | (Ok chBatch, k) =>
          match Send (append_rows logs chBatch) k with
          | (Err _, k) => (Some k, metric + Z.of_nat (List.length logs))%Z
          | (Ok _, k) => (Some k, metric)
          end
      end
  end.

Definition flush (a : LogAggregator) : LogAggregator :=
  if decide (List.length (batch a) = 0) then a
  else
    let '(conn, metric) := flushBatch (batch a) (chConn a) (metric a) in
    mkAggregator (logCh a) (bufferSize a) [] (flushThreshold a) (droppedCount a)
      (uint64_add (flushedCount a) (Z.of_nat (List.length (batch a)))) conn metric (running a).

Definition Stats (a : LogAggregator) : Z * Z := (flushedCount a, droppedCount a).

(** ** The worker *)

Inductive event :=
| Submit (log : DNSLog)    (* a goroutine calls [SubmitLog] *)
| Start                    (* [StartWorker] *)
| Receive                  (* [case log := <-a.logCh] *)
| Tick                     (* [case <-a.ticker.C] *)
| Done.                    (* [case <-ctx.Done()] *)

Definition set_running (r : bool) (a : LogAggregator) : LogAggregator :=
  mkAggregator (logCh a) (bufferSize a) (batch a) (flushThreshold a) (droppedCount a)
    (flushedCount a) (chConn a) (metric a) r.

Definition step (e : event) (a : LogAggregator) : option LogAggregator :=
  match e with
  | Submit log => Some (SubmitLog log a)
  | Start => if running a then None else Some (set_running true a)
  | Receive =>
      if running a then
        match logCh a with
        | [] => None
        | log :: rest =>
            let a := mkAggregator rest (bufferSize a) (batch a ++ [log]) (flushThreshold a)
                       (droppedCount a) (flushedCount a) (chConn a) (metric a) (running a) in
            Some (if decide (flushThreshold a ≤ List.length (batch a)) then flush a else a)
        end
      else None
  | Tick =>
      if running a then Some (if decide (0 < List.length (batch a)) then flush a else a) else None
  | Done => if running a then Some (set_running false (flush a)) else None
  end.

Fixpoint run (es : list event) (a : LogAggregator) : option LogAggregator :=
  match es with
  | [] => Some a
  | e :: es => a ← step e a; run es a
  end.

(** ** What a run accepted, refused and flushed *)

(** The logs an event adds to each of the three. *)
Definition accepted1 (e : event) (a : LogAggregator) : list DNSLog :=
  match e with
  | Submit log => if decide (List.length (logCh a) < bufferSize a) then [log] else []
  | _ => []
  end.
Definition refused1 (e : event) (a : LogAggregator) : list DNSLog :=
  match e with
  | Submit log => if decide (List.length (logCh a) < bufferSize a) then [] else [log]
  | _ => []
  end.
Definition flushed1 (e : event) (a : LogAggregator) : list DNSLog :=
  if running a then
    match e with
    | Receive =>
        match logCh a with
        | [] => []
        | log :: _ =>
            if decide (flushThreshold a ≤ List.length (batch a ++ [log])) then batch a ++ [log] else []
        end
    | Tick | Done => batch a
    | _ => []
    end
  else [].

Fixpoint trace (f : event → LogAggregator → list DNSLog) (es : list event) (a : LogAggregator) : list DNSLog :=
  match es with
  | [] => []
  | e :: es => f e a ++ match step e a with Some a => trace f es a | None => [] end
  end.

Definition accepted := trace accepted1.
Definition refused := trace refused1.
Definition flushed := trace flushed1.

(** The logs submitted, in order. *)
Definition submitted (es : list event) : list DNSLog :=
  omap (λ e, match e with Submit log => Some log | _ => None end) es.

(** The part of the state flushing leaves alone. *)
Lemma flush_fields a :
  logCh (flush a) = logCh a ∧ bufferSize (flush a) = bufferSize a ∧ batch (flush a) = [] ∧
  flushThreshold (flush a) = flushThreshold a ∧ droppedCount (flush a) = droppedCount a ∧
  running (flush a) = running a.
Proof.
  unfold flush. case_decide as E.
  - by destruct (batch a).
  - by destruct (flushBatch _ _ _).
Qed.

Lemma flush_count a :
  (0 ≤ flushedCount a < 2 ^ 64)%Z →
  flushedCount (flush a) = uint64_wrap (flushedCount a + Z.of_nat (List.length (batch a))).
Proof.
  intros Hr. unfold flush. case_decide as E.
  - rewrite E. rewrite uint64_wrap_small; [|lia]. cbn. lia.
  - by destruct (flushBatch _ _ _).
Qed.

(** The queue of the worker: what it holds and what waits in the channel. *)
Definition held (a : LogAggregator) : list DNSLog := batch a ++ logCh a.

Lemma step_queue e a a' : step e a = Some a' → held a ++ accepted1 e a = flushed1 e a ++ held a'.
Proof.
  unfold held, flushed1. intros Hs. destruct e as [log| | | |]; cbn [step accepted1] in *.
  - injection Hs as <-. unfold SubmitLog. destruct (running a); cbn [app];
      (case_decide; cbn; [by rewrite app_assoc | by rewrite app_nil_r]).
  - destruct (running a); [done|]. injection Hs as <-. cbn. by rewrite app_nil_r.
  - destruct (running a); [|done]. destruct (logCh a) as [|log rest] eqn:E; [done|].
    injection Hs as <-. cbn [flushThreshold batch]. case_decide.
    + match goal with |- context [flush ?x] => destruct (flush_fields x) as (-> & _ & -> & _) end.
      cbn. by rewrite app_nil_r, <- app_assoc.
    + cbn. by rewrite app_nil_r, <- app_assoc.
  - destruct (running a); [|done]. injection Hs as <-. rewrite app_nil_r. case_decide as E.
    + by destruct (flush_fields a) as (-> & _ & -> & _).
    + by destruct (batch a); cbn in *; [|lia].
  - destruct (running a); [|done]. injection Hs as <-. rewrite app_nil_r. cbn.
    by destruct (flush_fields a) as (-> & _ & -> & _).
Qed.

Lemma run_queue es a a' : run es a = Some a' → held a ++ accepted es a = flushed es a ++ held a'.
Proof.
  revert a. induction es as [|e es IH]; intros a; cbn.
  - intros [= <-]. by rewrite app_nil_r.
  - destruct (step e a) as [a1|] eqn:Hs; cbn; [|done]. intros Hr.
    by rewrite app_assoc, (step_queue _ _ _ Hs), <- !app_assoc, (IH _ Hr).
Qed.

(** ** Bounds and counters *)

Record wf (a : LogAggregator) : Prop := {
  wf_channel : List.length (logCh a) ≤ bufferSize a;
  wf_batch : batch a ≠ [] → List.length (batch a) < flushThreshold a;
  wf_flushed : (0 ≤ flushedCount a < 2 ^ 64)%Z
}.

Lemma uint64_add_range x y : (0 ≤ uint64_add x y < 2 ^ 64)%Z.
Proof. apply uint64_wrap_range. Qed.

Lemma flush_wf a : List.length (logCh a) ≤ bufferSize a → (0 ≤ flushedCount a < 2 ^ 64)%Z → wf (flush a).
Proof.
  intros Hc Hf. destruct (flush_fields a) as (E1 & E2 & E3 & _). split; rewrite ?E1, ?E2, ?E3; [done|done|].
  rewrite flush_count by done. apply uint64_wrap_range.
Qed.

Lemma step_wf e a a' : wf a → step e a = Some a' → wf a'.
Proof.
  intros [Hc Hb Hf] Hs. destruct e as [log| | | |]; cbn [step] in Hs.
  - injection Hs as <-. unfold SubmitLog. case_decide; split; cbn; rewrite ?length_app; cbn; (done || lia).
  - destruct (running a); [done|]. by injection Hs as <-.
  - destruct (running a); [|done]. destruct (logCh a) as [|log rest] eqn:E; [done|]. cbn in Hc.
    injection Hs as <-. cbn [flushThreshold batch]. case_decide.
    + apply flush_wf; cbn; [lia|done].
    + split; cbn; [lia| |done]. intros _. lia.
  - destruct (running a); [|done]. injection Hs as <-. case_decide; [by apply flush_wf|done].
  - destruct (running a); [|done]. injection Hs as <-.
    destruct (flush_wf a Hc Hf) as [? ? ?]. by split.
Qed.

Lemma New_wf n m : wf (NewLogAggregator n m).
Proof. split; cbn; (done || lia). Qed.

Lemma step_counts e a a' : wf a → step e a = Some a' →
  droppedCount a' = uint64_wrap (droppedCount a + Z.of_nat (List.length (refused1 e a))) ∨
    droppedCount a' = droppedCount a ∧ refused1 e a = [].
Proof.
  intros Hw Hs. destruct e as [log| | | |]; cbn [step refused1] in *.
  - injection Hs as <-. unfold SubmitLog. case_decide; cbn; [by right|by left].
  - destruct (running a); [done|]. injection Hs as <-. by right.
  - destruct (running a); [|done]. destruct (logCh a); [done|]. injection Hs as <-. right.
    split; [|done]. case_decide; [|done].
    match goal with |- context [flush ?x] => by destruct (flush_fields x) as (_ & _ & _ & _ & -> & _) end.
  - destruct (running a); [|done]. injection Hs as <-. right. split; [|done].
    case_decide; [|done]. by destruct (flush_fields a) as (_ & _ & _ & _ & -> & _).
  - destruct (running a); [|done]. injection Hs as <-. right. split; [|done].
    cbn. by destruct (flush_fields a) as (_ & _ & _ & _ & -> & _).
Qed.

Lemma step_flushed e a a' : wf a → step e a = Some a' →
  flushedCount a' = uint64_wrap (flushedCount a + Z.of_nat (List.length (flushed1 e a))).
Proof.
  intros Hw Hs. assert (H0 : flushedCount a = uint64_wrap (flushedCount a + Z.of_nat 0)).
  { rewrite Z.add_0_r. symmetry. apply uint64_wrap_small, Hw. }
  unfold flushed1. destruct e as [log| | | |]; cbn [step] in *.
  - injection Hs as <-. unfold SubmitLog. by destruct (running a); case_decide.
  - destruct (running a); [done|]. by injection Hs as <-.
  - destruct (running a); [|done]. destruct (logCh a); [done|]. injection Hs as <-. cbn [flushThreshold batch].
    case_decide; [|done]. rewrite flush_count; [done|apply Hw].
  - destruct (running a); [|done]. injection Hs as <-. case_decide as E; [apply flush_count, Hw|].
    by destruct (batch a); cbn in *; [|lia].
  - destruct (running a); [|done]. injection Hs as <-. cbn. apply flush_count, Hw.
Qed.

Lemma uint64_wrap_add_l x y : uint64_wrap (uint64_wrap x + y) = uint64_wrap (x + y).
Proof. unfold uint64_wrap. by rewrite Zplus_mod_idemp_l. Qed.

(** Counters over a run: each is what it was plus the number of logs it counts. *)
Lemma run_counts es a a' : wf a → (0 ≤ droppedCount a < 2 ^ 64)%Z → run es a = Some a' →
  wf a' ∧
  droppedCount a' = uint64_wrap (droppedCount a + Z.of_nat (List.length (refused es a))) ∧
  flushedCount a' = uint64_wrap (flushedCount a + Z.of_nat (List.length (flushed es a))).
Proof.
  revert a. induction es as [|e es IH]; intros a Hw Hd; cbn.
  - intros [= <-]. rewrite !Z.add_0_r. split_and!; [done|..]; symmetry; apply uint64_wrap_small; [done|apply Hw].
  - destruct (step e a) as [a1|] eqn:Hs; cbn; [|done]. intros Hr.
    assert (Hd1 : droppedCount a1 = uint64_wrap (droppedCount a + Z.of_nat (List.length (refused1 e a)))).
    { destruct (step_counts e a a1 Hw Hs) as [?|[-> ->]]; [done|]. rewrite Z.add_0_r.
      symmetry. by apply uint64_wrap_small. }
    destruct (IH a1) as (Hw' & Hd' & Hf'); [by eapply step_wf|rewrite Hd1; apply uint64_wrap_range|done|].
    split; [done|]. rewrite !length_app, !Nat2Z.inj_add, !Z.add_assoc. split.
    + by rewrite Hd', Hd1, uint64_wrap_add_l.
    + by rewrite Hf', (step_flushed e a a1 Hw Hs), uint64_wrap_add_l.
Qed.

(** Every log submitted is either accepted or refused. *)
Lemma run_split es a a' : run es a = Some a' → submitted es ≡ₚ accepted es a ++ refused es a.
Proof.
  revert a. induction es as [|e es IH]; intros a; [done|]. cbn.
  destruct (step e a) as [a1|] eqn:Hs; cbn; [|done]. intros Hr. specialize (IH a1 Hr).
  unfold submitted in *. destruct e as [log| | | |]; cbn; try done.
  rewrite IH. case_decide; cbn; [done|]. apply Permutation_middle.
Qed.

Lemma bufferSize_step e a a' : step e a = Some a' → bufferSize a' = bufferSize a ∧ flushThreshold a' = flushThreshold a.
Proof.
  intros Hs. destruct e as [log| | | |]; cbn [step] in Hs.
  - injection Hs as <-. unfold SubmitLog. by case_decide.
  - destruct (running a); [done|]. by injection Hs as <-.
  - destruct (running a); [|done]. destruct (logCh a); [done|]. injection Hs as <-. case_decide; [|done].
    match goal with |- context [flush ?x] => by destruct (flush_fields x) as (_ & -> & _ & -> & _) end.
  - destruct (running a); [|done]. injection Hs as <-. case_decide; [|done].
    by destruct (flush_fields a) as (_ & -> & _ & -> & _).
  - destruct (running a); [|done]. injection Hs as <-. cbn.
    by destruct (flush_fields a) as (_ & -> & _ & -> & _).
Qed.

Lemma bufferSize_run es a a' : run es a = Some a' → bufferSize a' = bufferSize a ∧ flushThreshold a' = flushThreshold a.
Proof.
  revert a. induction es as [|e es IH]; intros a; cbn; [by intros [= <-]|].
  destruct (step e a) as [a1|] eqn:Hs; cbn; [|done]. intros Hr.
  destruct (IH a1 Hr), (bufferSize_step e a a1 Hs). split; congruence.
Qed.

(** The aggregator of the resolver before its worker runs: without a connection, or with the
    one [InitClickHouse] has opened. *)
Definition opened (n m : nat) (conn : option K) : LogAggregator :=
  match conn with Some k => set_chConn k (NewLogAggregator n m) | None => NewLogAggregator n m end.

(** The batches that are written one after the other. *)
Definition write_batches (batches : list (list DNSLog)) (conn : option K) (metric : Z) : option K * Z :=
  foldl (λ cm logs, flushBatch logs cm.1 cm.2) (conn, metric) batches.

Lemma flush_writes a : batch a ≠ [] → (chConn (flush a), metric (flush a)) = flushBatch (batch a) (chConn a) (metric a).
Proof.
  intros Hb. unfold flush. case_decide as E; [by destruct (batch a)|]. by destruct (flushBatch _ _ _).
Qed.

Lemma flush_written a : ∃ batches, mjoin batches = batch a ∧ Forall (.≠ []) batches ∧
  (chConn (flush a), metric (flush a)) = write_batches batches (chConn a) (metric a).
Proof.
  destruct (decide (batch a = [])) as [Hb|Hb].
  - exists []. rewrite Hb. split_and!; [done..|]. unfold flush. by rewrite Hb.
  - exists [batch a]. cbn [mjoin list_join]. rewrite app_nil_r. split_and!; [done|by constructor|]. by apply flush_writes.
Qed.

Lemma step_written e a a' : step e a = Some a' → ∃ batches, mjoin batches = flushed1 e a ∧ Forall (.≠ []) batches ∧
  (chConn a', metric a') = write_batches batches (chConn a) (metric a).
Proof.
  assert (Hnil : ∃ batches, mjoin batches = ([] : list DNSLog) ∧ Forall (.≠ []) batches ∧
    (chConn a, metric a) = write_batches batches (chConn a) (metric a)) by by exists [].
  unfold flushed1. intros Hs. destruct e as [log| | | |]; cbn [step] in Hs.
  - injection Hs as <-. unfold SubmitLog. by destruct (running a); case_decide.
  - destruct (running a); [done|]. by injection Hs as <-.
  - destruct (running a) eqn:Hr; [|done]. destruct (logCh a) as [|log rest]; [done|]. injection Hs as <-.
    cbn [flushThreshold batch]. case_decide; [|done].
    match goal with |- context [flush ?x] => exact (flush_written x) end.
  - destruct (running a); [|done]. injection Hs as <-. case_decide as E; [apply flush_written|].
    by destruct (batch a); cbn in E; [|lia].
  - destruct (running a); [|done]. injection Hs as <-. apply (flush_written a).
Qed.

(** What a run flushes is written by [flushBatch], batch by batch. *)
Lemma run_written es a a' : run es a = Some a' → ∃ batches, mjoin batches = flushed es a ∧ Forall (.≠ []) batches ∧
  (chConn a', metric a') = write_batches batches (chConn a) (metric a).
Proof.
  revert a. induction es as [|e es IH]; intros a; cbn; [intros [= <-]; by exists []|].
  destruct (step e a) as [a1|] eqn:Hs; cbn; [|done]. intros Hr.
  destruct (step_written e a a1 Hs) as (b1 & J1 & N1 & W1), (IH a1 Hr) as (b2 & J2 & N2 & W2).
  exists (b1 ++ b2). split; [|split; [by apply Forall_app|]].
  - by rewrite join_app, J1, J2.
  - unfold write_batches in *. rewrite foldl_app, <- W1. exact W2.
Qed.

(** ** Draining *)

Lemma Receive_running a log rest :
  running a = true → logCh a = log :: rest →
  ∃ a', step Receive a = Some a' ∧ running a' = true ∧ logCh a' = rest.
Proof.
  intros Hrun E. cbn. rewrite Hrun, E. eexists. split; [done|]. case_decide; [|done].
  match goal with |- context [flush ?x] => by destruct (flush_fields x) as (-> & _ & _ & _ & _ & ->) end.
Qed.

Lemma drain_channel a : running a = true →
  ∃ a', run (replicate (List.length (logCh a)) Receive) a = Some a' ∧ running a' = true ∧ logCh a' = [].
Proof.
  remember (logCh a) as l eqn:E. revert a E. induction l as [|log l IH]; intros a E Hrun; [eauto|].
  destruct (Receive_running a log l Hrun ltac:(done)) as (a1 & Hs & Hr1 & Hl).
  destruct (IH a1 ltac:(done) Hr1) as (a' & Hr & ?). exists a'. split; [|done].
  cbn [List.length replicate run]. by rewrite Hs.
Qed.

Lemma run_app es es' a : run (es ++ es') a = run es a ≫= run es'.
Proof.
  revert a. induction es as [|e es IH]; intros a; [done|]. cbn. destruct (step e a); cbn; [apply IH|done].
Qed.

Lemma trace_app f es es' a a' : run es a = Some a' → trace f (es ++ es') a = trace f es a ++ trace f es' a'.
Proof.
  revert a. induction es as [|e es IH]; intros a; cbn; [by intros [= <-]|].
  destruct (step e a) as [a1|]; cbn; [|done]. intros Hr. by rewrite IH, app_assoc.
Qed.

(** Nothing stays in the pipeline while the worker runs: as soon as it has received what
    the channel holds and its ticker has fired, every log it held or that waited has been
    handed to the database, in order. *)
Theorem worker_drains (a : LogAggregator) :
  running a = true →
  let es := replicate (List.length (logCh a)) Receive ++ [Tick] in
  ∃ a', run es a = Some a' ∧ running a' = true ∧ held a' = [] ∧ flushed es a = held a.
Proof.
  intros Hrun es. destruct (drain_channel a Hrun) as (a1 & Hr & Hr1 & Hl).
  assert (Ht : ∃ a', step Tick a1 = Some a' ∧ running a' = true ∧ held a' = []).
  { cbn. rewrite Hr1. eexists. split; [done|]. unfold held. case_decide as E.
    - destruct (flush_fields a1) as (-> & _ & -> & _ & _ & ->). by rewrite Hl.
    - rewrite Hl. by destruct (batch a1); cbn in *; [|lia]. }
  destruct Ht as (a' & Hs & Hr' & Hh).
  assert (Hall : run es a = Some a').
  { unfold es. rewrite run_app, Hr. cbn [mbind option_bind run]. by rewrite Hs. }
  exists a'. split_and!; [done..|]. pose proof (run_queue _ _ _ Hall) as Hq.
  assert (Ha : accepted es a = []).
  { unfold accepted, es. rewrite (trace_app _ _ _ _ _ Hr). cbn [trace]. rewrite Hs. cbn [accepted1 app]. rewrite app_nil_r.
    clear. generalize (List.length (logCh a)). intros k. revert a.
    induction k as [|k IH]; intros a; [done|]. cbn [replicate trace accepted1 app].
    destruct (step Receive a); [apply IH|done]. }
  by rewrite Ha, Hh, !app_nil_r in Hq.
Qed.

Lemma SubmitLog_fields log a :
  running (SubmitLog log a) = running a ∧ flushedCount (SubmitLog log a) = flushedCount a ∧
  logCh a `prefix_of` logCh (SubmitLog log a).
Proof. unfold SubmitLog. case_decide; cbn; split_and!; try done. by apply prefix_app_r. Qed.

(** Logs still in the channel when the worker is cancelled are lost: it flushes its batch
    only, and unless it is started again no later event flushes anything or takes a log out
    of the channel, so these logs are counted neither as flushed nor as dropped. *)
Theorem shutdown_loses_queue (a a1 a' : LogAggregator) (es : list event) :
  step Done a = Some a1 → Start ∉ es → run es a1 = Some a' →
  flushed (Done :: es) a = batch a ∧ logCh a `prefix_of` logCh a' ∧ flushedCount a' = flushedCount a1.
Proof.
  intros Hs Hns Hr. assert (H1 : running a1 = false ∧ logCh a1 = logCh a ∧ running a = true).
  { cbn in Hs. destruct (running a); [|done]. injection Hs as <-. cbn. by destruct (flush_fields a) as (-> & _). }
  destruct H1 as (Hrun & <- & Ha).
  unfold flushed. cbn [trace]. rewrite Hs. unfold flushed1 at 1. rewrite Ha.
  assert (Hend : trace flushed1 es a1 = [] ∧ logCh a1 `prefix_of` logCh a' ∧ flushedCount a' = flushedCount a1).
  { clear Hs. revert a1 Hrun Hr. induction es as [|e es IH]; intros a1 Hrun; cbn.
    - by intros [= <-].
    - destruct (step e a1) as [a2|] eqn:Hs; cbn; [|done]. intros Hr. unfold flushed1 at 1. rewrite Hrun.
      destruct e as [log| | | |]; cbn in Hs; rewrite ?Hrun in Hs; try done.
      + injection Hs as <-. destruct (SubmitLog_fields log a1) as (Hr1 & Hf1 & Hp1).
        destruct (IH ltac:(set_solver) (SubmitLog log a1) ltac:(congruence) Hr) as (-> & Hp & ->).
        split; [done|]. split; [by etrans|done].
      + set_solver. }
  destruct Hend as (-> & Hp & Hf). split; [by rewrite app_nil_r|]. by split.
Qed.

(** ** The database *)

Context `{!ClickHouseLaws row K B}.

(** Connections in [G] stay in [G] and never fail. *)
Record reliable (G : K → Prop) (GB : B → Prop) : Prop := {
  prepare_ok q k : G k → ∃ b k', PrepareBatch q k = (Ok b, k') ∧ GB b ∧ G k';
  append_ok r b : GB b → ∃ b', Append r b = (Ok tt, b') ∧ GB b';
  send_ok b k : GB b → G k → ∃ k', Send b k = (Ok tt, k') ∧ G k'
}.

Lemma append_rows_ok G GB logs b : reliable G GB → GB b →
  GB (append_rows logs b) ∧ pending (append_rows logs b) = pending b ++ (row_of <$> logs).
Proof.
  intros HR. unfold append_rows. revert b. induction logs as [|log logs IH]; intros b Hb; cbn.
  - by rewrite app_nil_r.
  - destruct (append_ok _ _ HR (row_of log) b Hb) as (b' & E & Hb'). rewrite E. cbn.
    destruct (IH b' Hb') as [? ->]. split; [done|]. rewrite (Append_ok _ _ _ E), <- app_assoc. done.
Qed.

Lemma flushBatch_ok G GB logs k metric : reliable G GB → G k →
  ∃ k', flushBatch logs (Some k) metric = (Some k', metric) ∧ G k' ∧ table k' = table k ++ (row_of <$> logs).
Proof.
  intros HR Hk. unfold flushBatch.
  destruct (prepare_ok _ _ HR insert_stmt k Hk) as (b & k1 & E & Hb & Hk1). rewrite E.
  destruct (Prepare_ok _ _ _ _ E) as [Hp Ht].
  destruct (append_rows_ok G GB logs b HR Hb) as [Hb' Hp'].
  destruct (send_ok _ _ HR _ k1 Hb' Hk1) as (k2 & E2 & Hk2). rewrite E2. exists k2.
  split_and!; [done..|]. by rewrite (Send_ok _ _ _ E2), Ht, Hp', Hp.
Qed.

Definition stored (G : K → Prop) (rows : list row) (metric0 : Z) (a : LogAggregator) : Prop :=
  ∃ k, chConn a = Some k ∧ G k ∧ table k = rows ∧ metric a = metric0.

Lemma flush_stored G GB rows m0 a : reliable G GB → stored G rows m0 a →
  stored G (rows ++ (row_of <$> batch a)) m0 (flush a).
Proof.
  intros HR (k & Hc & Hk & Ht & Hm). unfold flush. case_decide as E.
  - destruct (batch a); [|done]. cbn. rewrite app_nil_r. by exists k.
  - rewrite Hc. destruct (flushBatch_ok G GB (batch a) k (metric a) HR Hk) as (k' & -> & Hk' & Ht').
    exists k'. cbn. split_and!; [done..| |done]. congruence.
Qed.

Lemma step_stored G GB rows m0 e a a' : reliable G GB → stored G rows m0 a → step e a = Some a' →
  stored G (rows ++ (row_of <$> flushed1 e a)) m0 a'.
Proof.
  intros HR Hst Hs. assert (Hnil : stored G (rows ++ (row_of <$> [])) m0 a) by (cbn; by rewrite app_nil_r).
  unfold flushed1. destruct e as [log| | | |]; cbn [step] in Hs.
  - injection Hs as <-. unfold SubmitLog. by destruct (running a); case_decide.
  - destruct (running a); [done|]. by injection Hs as <-.
  - destruct (running a) eqn:Hr; [|done]. destruct (logCh a) as [|log rest]; [done|]. injection Hs as <-.
    cbn [flushThreshold batch]. case_decide; [|done].
    match goal with |- context [flush ?x] => apply (flush_stored G GB rows m0 x HR) end. exact Hst.
  - destruct (running a); [|done]. injection Hs as <-. case_decide as E; [by eapply flush_stored|].
    by destruct (batch a); cbn in E; [|lia].
  - destruct (running a); [|done]. injection Hs as <-. by apply (flush_stored G GB rows m0 a HR).
Qed.

(** With a database that does not fail, the table holds at every moment one row for each log
    flushed so far, in order, and no drop is reported. *)
Lemma run_keeps_rows (G : K → Prop) (GB : B → Prop) (a a' : LogAggregator) (es : list event) (k : K) :
  reliable G GB → chConn a = Some k → G k → run es a = Some a' →
  ∃ k', chConn a' = Some k' ∧ table k' = table k ++ (row_of <$> flushed es a) ∧ metric a' = metric a.
Proof.
  intros HR Hc Hk Hr. assert (Hst : stored G (table k) (metric a) a) by by exists k.
  revert Hst Hr. generalize (table k) (metric a). clear Hc Hk k. intros rows m0. revert rows a.
  induction es as [|e es IH]; intros rows a Hst; cbn.
  - intros [= <-]. destruct Hst as (k & Hc & _ & Ht & Hm). exists k. by rewrite app_nil_r.
  - destruct (step e a) as [a1|] eqn:Hs; cbn; [|done]. intros Hr.
    destruct (IH _ a1 (step_stored _ _ _ _ _ _ _ HR Hst Hs) Hr) as (k' & ? & Ht & ?).
    exists k'. split_and!; [done| |done]. by rewrite Ht, fmap_app, app_assoc.
Qed.

(** C6: Every log is accounted for, whatever the interleaving of submissions, worker and
    shutdown: each submitted log is accepted or refused; the accepted ones are handed to the
    database ([flushBatch]) exactly once and in order, in batches that are not empty, but for
    those still in the current batch and in the channel; the two counters are the numbers of
    refused and of flushed logs, modulo 2^64; neither the channel nor the batch outgrows its
    bound; and on a connection that does not fail the table has one more row for each log that
    was handed over, in order, and no drop is reported. *)
Theorem run_accounts (n m : nat) (conn : option K) (es : list event) (a : LogAggregator) :
  let a0 := opened n m conn in
  run es a0 = Some a →
  submitted es ≡ₚ accepted es a0 ++ refused es a0 ∧
  (∃ batches, accepted es a0 = mjoin batches ++ batch a ++ logCh a ∧ Forall (.≠ []) batches ∧
    (chConn a, metric a) = write_batches batches conn 0 ∧
    Stats a = (uint64_wrap (Z.of_nat (List.length (mjoin batches))), uint64_wrap (Z.of_nat (List.length (refused es a0)))) ∧
    ∀ G GB k, reliable G GB → conn = Some k → G k →
      ∃ k', chConn a = Some k' ∧ table k' = table k ++ (row_of <$> mjoin batches) ∧ metric a = 0%Z) ∧
  List.length (logCh a) ≤ n ∧ (batch a ≠ [] → List.length (batch a) < m).
Proof.
  intros a0 Hr. assert (Hw : wf a0 ∧ chConn a0 = conn ∧ metric a0 = 0%Z ∧ held a0 = [] ∧ bufferSize a0 = n ∧
    flushThreshold a0 = m ∧ droppedCount a0 = 0%Z ∧ flushedCount a0 = 0%Z).
  { unfold a0, opened. destruct conn; (split; [split; cbn; (done || lia)|done]). }
  destruct Hw as (Hw & Hconn & Hm & Hheld & Hn & Hth & Hd0 & Hf0). clearbody a0.
  destruct (run_counts _ _ _ Hw ltac:(rewrite Hd0; lia) Hr) as ([Hc Hb _] & Hd & Hf).
  destruct (bufferSize_run _ _ _ Hr) as [Hbs Hft]. rewrite Hbs, Hn in Hc. rewrite Hft, Hth in Hb.
  pose proof (run_queue _ _ _ Hr) as Hq. rewrite Hheld in Hq. split; [by eapply run_split|]. split; [|by split].
  destruct (run_written _ _ _ Hr) as (batches & Hj & Hne & Hwr). exists batches. rewrite Hj. rewrite Hconn, Hm in Hwr.
  do 3 (split; [done|]). split; [unfold Stats; by rewrite Hd, Hf, Hd0, Hf0|].
  intros G GB k HR -> Hk. rewrite <- Hm. by apply (run_keeps_rows G GB a0 a es k).
Qed.

End analytics.

(** ** Witnesses *)

Definition sample_log (i : Z) : DNSLog :=
  mkLog i "alice" "192.0.2.9" "example.org." "A" StatusAllowed 1500.

Abbreviation sample_aggregator := (LogAggregator (K := ListTable.t row)).

Definition sample_table : ListTable.t row := ListTable.mk false (λ _, false) false [].

(** A channel of two, a threshold of two: the third log finds the channel full. *)
Definition sample_events : list event :=
  [Submit (sample_log 1); Submit (sample_log 2); Submit (sample_log 3); Start; Receive; Receive; Submit (sample_log 4)].

Definition after_sample : sample_aggregator :=
  match run sample_events (set_chConn sample_table (NewLogAggregator 2 2)) with
  | Some a => a | None => NewLogAggregator 0 0 end.

(** A table that refuses nothing stays one. *)
Definition plain (k : ListTable.t row) : Prop := ListTable.refuses k = false ∧ ListTable.loses k = false ∧ ListTable.rejects k = λ _, false.

Lemma plain_reliable : reliable (K := ListTable.t row) (B := ListTable.batch row) plain (λ b, ListTable.bad b = λ _, false).
Proof.
  split.
  - intros q k (Hr & Hl & Hj). cbn. rewrite Hr. do 2 eexists. split; [done|]. by split.
  - intros r b Hb. cbn. rewrite Hb. eexists. split; [done|]. by cbn.
  - intros b k Hb (Hr & Hl & Hj). cbn. rewrite Hl. eexists. split; [done|]. by split_and!.
Qed.

Lemma run_accounts_witness :
  ∃ (a : sample_aggregator) batches k',
    run sample_events (opened 2 2 (Some sample_table)) = Some a ∧
    accepted sample_events (opened 2 2 (Some sample_table)) = mjoin batches ++ batch a ++ logCh a ∧
    Stats a = (2, 1)%Z ∧ chConn a = Some k' ∧ table k' = row_of <$> mjoin batches.
Proof.
  assert (Hr : run sample_events (opened 2 2 (Some sample_table)) = Some after_sample) by (vm_compute; reflexivity).
  destruct (run_accounts 2 2 (Some sample_table) sample_events after_sample Hr) as (_ & (batches & Hacc & _ & _ & _ & Hdb) & _).
  destruct (Hdb plain _ sample_table plain_reliable eq_refl ltac:(by split_and!)) as (k' & Hk' & Ht & _).
  exists after_sample, batches, k'. split; [exact Hr|]. split; [exact Hacc|]. split; [vm_compute; reflexivity|]. split; [exact Hk'|exact Ht].
Defined.

Lemma worker_drains_witness :
  ∃ a', run [Receive; Tick] after_sample = Some a' ∧ running a' = true ∧ held a' = [] ∧
    flushed [Receive; Tick] after_sample = [sample_log 4].
Proof. exact (worker_drains after_sample ltac:(vm_compute; reflexivity)). Defined.

Lemma shutdown_loses_queue_witness :
  ∃ a1 a' : sample_aggregator, step Done after_sample = Some a1 ∧ run [Submit (sample_log 5)] a1 = Some a' ∧
    flushed [Done; Submit (sample_log 5)] after_sample = [] ∧ logCh after_sample = [sample_log 4] ∧
    logCh after_sample `prefix_of` logCh a'.
Proof.
  eexists. eexists. split; [vm_compute; reflexivity|]. split; [vm_compute; reflexivity|].
  match goal with |- context [prefix _ (logCh ?a')] =>
    match goal with |- context [flushed ?es ?a] =>
      pose proof (shutdown_loses_queue a (match step Done a with Some x => x | None => a end) a'
        [Submit (sample_log 5)] ltac:(vm_compute; reflexivity) ltac:(set_solver) ltac:(vm_compute; reflexivity))
        as (H1 & H2 & _)
    end
  end.
  split; [exact H1|]. split; [vm_compute; reflexivity|exact H2].
Defined.


End Analytics.
