(* ===== verification/Handler.v ===== *)
(** * The query handler: src/internal/handler/handler.go

    [Module Handler] has [ProcessQuery] as a function of the process ([process]: the rule
    checker, the rate limiter, the Redis server both talk to, the log aggregator, the
    network to the resolver and the metrics) and of the connection the response is written
    to.  The instants at which a query reads the clock are its [times].  A panic in the
    rule checker is a panic of the handler.  Log lines are left out; the Prometheus
    counter and histogram are the lists of the samples recorded. *)

From S2P Require Import Prelude.
From S2P Require Import GoStrings.
From S2P Require Import GoNet.
From S2P Require Import External.
From S2P Require Import Models.
From S2P Require Import Checker.
From S2P Require Import Redirect.
From S2P Require Import Rule.
From S2P Require Import RateLimit.
From S2P Require Import Upstream.
From S2P Require Import Analytics.
From Stdlib Require Import Strings.Ascii Strings.String.

Local Open Scope go_scope.

Module Handler.

(** ** Users *)

(** The index of the first dot, -1 when there is none. *)
Fixpoint dot_index_from (s : string) (i : Z) : Z :=
  match s with
  | EmptyString => -1
  | String c s => if Ascii.eqb c "." then i else dot_index_from s (i + 1)
  end.
Definition dotIndex (s : string) : Z := dot_index_from s 0.

Definition ExtractUserFromSNI (serverName : string) : result string string :=
  if String.eqb serverName EmptyString then Err "empty SNI"
  else
    let idx := dotIndex serverName in
    if Z.ltb idx 0 then Err ("no subdomain in SNI: " +:+ serverName)
    else
      let userID := str_take (Z.to_nat idx) serverName in
      if String.eqb userID EmptyString then Err ("empty user_id in SNI: " +:+ serverName)
      else Ok userID.

Definition ExtractUserFromDoHPath (path : string) : result string string :=
  match path with
  | String "/" path =>
      let userID :=
        match IndexByte path "/" with
        | Some slashIdx => str_take slashIdx path
        | None => path
        end in
      if String.eqb userID EmptyString then Err ("empty user_id in path: " +:+ path) else Ok userID
  | _ => Err ("invalid path: " +:+ path)
  end.

(** ** Responses *)

Section responses.
Context `{DnsLib}.

Definition with_answer (rcode : Z) (answer : list RR) (m : Msg) : Msg :=
  {| m_Id := m_Id m; m_Response := m_Response m; m_RecursionDesired := m_RecursionDesired m;
     m_Rcode := rcode; m_Question := m_Question m; m_Answer := answer; m_Ns := m_Ns m |}.

Definition rr_header (name : string) (ty : Z) : RR_Header :=
  {| h_Name := name; h_Rrtype := ty; h_Class := ClassINET; h_Ttl := 60 |}.

(** [net.ParseIP(s)] stored in a record: a nil address is the empty slice. *)
Definition ip_bytes (s : string) : list Z := match ParseIP s with Some ip => ip | None => [] end.

Definition rate_limit_response (msg : Msg) : Msg :=
  let resp := SetReply msg in with_answer RcodeRefused (m_Answer resp) resp.

Definition block_response (msg : Msg) (q : Question) : Msg :=
  let resp := SetReply msg in
  let resp := with_answer RcodeNameError (m_Answer resp) resp in
  let rr := RR_A (rr_header (q_Name q) TypeA) (ip_bytes "0.0.0.0") in
  let resp := with_answer (m_Rcode resp) (m_Answer resp ++ [rr]) resp in
  if Z.eqb (q_Qtype q) TypeAAAA then
    with_answer (m_Rcode resp) ([] ++ [RR_AAAA (rr_header (q_Name q) TypeAAAA) (ip_bytes "::")]) resp
  else resp.

(** The redirect response, none when the address is not an IPv4 address. *)
Definition redirect_response (msg : Msg) (q : Question) (redirectIP : string) : option Msg :=
  let resp := SetReply msg in
  let resp := with_answer RcodeSuccess (m_Answer resp) resp in
  match ParseIP redirectIP with
  | None => None
  | Some ip =>
      match To4 ip with
      | None => None
      | Some _ =>
          let rr := RR_A (rr_header (q_Name q) TypeA) ip in
          let resp := with_answer (m_Rcode resp) (m_Answer resp ++ [rr]) resp in
          Some (if Z.eqb (q_Qtype q) TypeAAAA then with_answer (m_Rcode resp) [] resp else resp)
      end
  end.

Definition servfail_response (msg : Msg) : Msg :=
  let resp := SetReply msg in with_answer RcodeServerFailure (m_Answer resp) resp.

Context {N W : Type} `{DnsNet N, ResponseWriter W}.
Variable UpstreamAddr : string.

(** Writing a response: its error is only logged. *)
Definition write (resp : Msg) (w : W) : W := snd (WriteMsg resp w).

Definition writeRateLimitResponse (w : W) (msg : Msg) : W := write (rate_limit_response msg) w.

Definition writeBlockResponse (w : W) (msg : Msg) (q : Question) : W := write (block_response msg q) w.

Definition forwardResponse (w : W) (msg : Msg) (n : N) : W * N :=
  match Upstream.Resolve UpstreamAddr msg n with
  | (Err _, msg, n) => (write (servfail_response msg) w, n)
  | (Ok resp, _, n) => (write resp w, n)
  end.

Definition writeRedirectResponse (w : W) (msg : Msg) (q : Question) (redirectIP : string) (n : N) : W * N :=
  match redirect_response msg q redirectIP with
  | None => forwardResponse w msg n
  | Some resp => (write resp w, n)
  end.

Definition extractClientIP (w : W) : string :=
  let addr := rw_RemoteAddr w in
  match SplitHostPort addr with
  | Err _ => addr
  | Ok (host, _) => host
  end.

Definition getProtocol (w : W) : string :=
  let addr := rw_Network w in
  if String.eqb addr "udp" then "UDP"
  else if String.eqb addr "tcp" then
    let host := match SplitHostPort (rw_RemoteAddr w) with Ok (host, _) => host | Err _ => EmptyString end in
    if negb (String.eqb host EmptyString) then "DoT" else "TCP"
  else addr.
End responses.

(** ** The process *)

Section handler.
Context `{UnicodeTables, DnsLib} {C R N W K B : Type}.
Context `{GoCache Checker.cval C, RedisClient R, DnsNet N, ResponseWriter W, ClickHouse Analytics.row K B}.
Variable UpstreamAddr : string.

(** The package variables of the handler and of what it calls.  [limiter] is the limiter's
    member counter, none when no limiter is set.  The clients of the limiter and of the
    checker are connections to the one server [redis]. *)
Record process := mkProcess {
  redis : R;
  limiter : option Z;
  limit_queries : Z;
  limit_window : Z;
  rules : Rule.state C R;
  aggregator : option (Analytics.LogAggregator (K := K));
  network : N;
  queries_total : list (string * string * string);
  query_seconds : list (string * string * Z)
}.

(** Defaults of the package: 100 queries per second. *)
Definition defaultRateLimitQueries : Z := 100.
Definition defaultRateLimitWindow : Z := 1000000000.

(** The package variables before [main] runs. *)
Definition initial (r : R) (n : N) : process :=
  mkProcess r None defaultRateLimitQueries defaultRateLimitWindow Rule.uninitialized None n [] [].

Definition SetAggregator (a : Analytics.LogAggregator (K := K)) (p : process) : process :=
  mkProcess (redis p) (limiter p) (limit_queries p) (limit_window p) (rules p) (Some a) (network p)
    (queries_total p) (query_seconds p).

Definition SetRateLimiter (rl : RateLimit.t R) (p : process) : process :=
  mkProcess (RateLimit.client rl) (Some (RateLimit.memberCounter rl)) (limit_queries p) (limit_window p)
    (rules p) (aggregator p) (network p) (queries_total p) (query_seconds p).

Definition SetRateLimit (queries window : Z) (p : process) : process :=
  mkProcess (redis p) (limiter p) queries window (rules p) (aggregator p) (network p)
    (queries_total p) (query_seconds p).

Record times := mkTimes {
  t_start : Z;            (* nanoseconds *)
  t_limit_ms : Z;         (* milliseconds *)
  t_check : Z; t_check_set : Z;
  t_redirect : Z; t_redirect_set : Z;
  t_end : Z;
  t_log : Z
}.

(** The checker's client sees the server as it is now. *)
Definition connect (r : R) (st : Rule.state C R) : Rule.state C R :=
  Rule.mkState
    (match Rule.global st with
     | Some c => Some (Checker.mk (Checker.cache c) r (Checker.fallback c) (Checker.enabled c))
     | None => None
     end) (Rule.totalChecks st).

(** The server as the checker's last command left it. *)
Definition server_after (r : R) (st : Rule.state C R) : R :=
  match Rule.global st with Some c => Checker.rdb c | None => r end.

Definition set_rules (st : Rule.state C R) (p : process) : process :=
  mkProcess (server_after (redis p) st) (limiter p) (limit_queries p) (limit_window p) st
    (aggregator p) (network p) (queries_total p) (query_seconds p).

Definition set_network (n : N) (p : process) : process :=
  mkProcess (redis p) (limiter p) (limit_queries p) (limit_window p) (rules p) (aggregator p) n
    (queries_total p) (query_seconds p).

Definition record_metrics (protocol status qtype : string) (elapsed : Z) (p : process) : process :=
  mkProcess (redis p) (limiter p) (limit_queries p) (limit_window p) (rules p) (aggregator p) (network p)
    (queries_total p ++ [(protocol, status, qtype)]) (query_seconds p ++ [(protocol, status, elapsed)]).

Definition submitLog (t : times) (userID : string) (w : W) (domain qtype : string)
    (status : Analytics.LogStatus) (p : process) : process :=
  match aggregator p with
  | None => p
  | Some a =>
      let elapsed := (t_log t - t_start t)%Z in
      let clientIP := extractClientIP w in
      let log := Analytics.mkLog (t_start t) userID clientIP domain qtype status elapsed in
      mkProcess (redis p) (limiter p) (limit_queries p) (limit_window p) (rules p)
        (Some (Analytics.SubmitLog log a)) (network p) (queries_total p) (query_seconds p)
  end.

(** The limiter's verdict: an error lets the query pass. *)
Definition admission (t : times) (userID : string) (p : process) : bool * process :=
  match limiter p with
  | None => (true, p)
  | Some counter =>
      let '(res, rl) := RateLimit.AllowQuery (t_limit_ms t) (RateLimit.mk (redis p) counter) userID
                          (limit_queries p) (limit_window p) in
      let p := mkProcess (RateLimit.client rl) (Some (RateLimit.memberCounter rl)) (limit_queries p)
                 (limit_window p) (rules p) (aggregator p) (network p) (queries_total p) (query_seconds p) in
      match res with
      | Err _ => (true, p)
      | Ok allowed => (allowed, p)
      end
  end.

(** The [switch] on the result of [CheckRule]: the status and the response. *)
Definition answer (t : times) (userID : string) (w : W) (msg : Msg) (q : Question) (blocked : Z) (p : process) :
    Analytics.LogStatus * W * process :=
  if Z.eqb blocked 1 then (Analytics.StatusBlocked, writeBlockResponse w msg q, p)
  else
    let '((redirectIP, ok), st) :=
      Rule.GetRedirectDomain (t_redirect t) (t_redirect_set t) (connect (redis p) (rules p)) userID (q_Name q) in
    let p := set_rules st p in
    if ok : bool then
      let '(w, n) := writeRedirectResponse UpstreamAddr w msg q redirectIP (network p) in
      (Analytics.StatusRedirect, w, set_network n p)
    else
      let '(w, n) := forwardResponse UpstreamAddr w msg (network p) in
      (Analytics.StatusAllowed, w, set_network n p).

Definition ProcessQuery (t : times) (userID : string) (p : process) (w : W) (msg : Msg) : outcome (process * W) :=
  let '(admitted, p) := admission t userID p in
  if negb admitted then Ret (p, writeRateLimitResponse w msg)
  else
    match m_Question msg with
    | [] => Ret (p, w)
    | q :: _ =>
        let qtype := TypeToString (q_Qtype q) in
        vst <-@ Rule.CheckRule (t_check t) (t_check_set t) (connect (redis p) (rules p)) userID (q_Name q) ;;
        let p := set_rules vst.2 p in
        let '(status, w, p) := answer t userID w msg q vst.1 p in
        let protocol := getProtocol w in
        let p := record_metrics protocol (Analytics.status_string status) qtype (t_end t - t_start t) p in
        Ret (submitLog t userID w (q_Name q) qtype status p, w)
    end.

Definition HandleDNSQuery := ProcessQuery.
End handler.

(** ** Users *)

Lemma dot_index_from_spec s i :
  dot_index_from s i = match IndexByte s "." with Some n => (i + Z.of_nat n)%Z | None => (-1)%Z end.
Proof.
  revert i. induction s as [|c s IH]; intros i; [done|]. cbn [dot_index_from IndexByte].
  destruct (Ascii.eqb_spec c "."); [rewrite decide_True by done; lia|].
  rewrite decide_False, IH by done. destruct (IndexByte s "."); cbn [option_map fmap option_fmap]; lia.
Qed.

Lemma dotIndex_spec s : dotIndex s = match IndexByte s "." with Some n => Z.of_nat n | None => (-1)%Z end.
Proof. unfold dotIndex. rewrite dot_index_from_spec. by destruct (IndexByte s "."). Qed.

(** The first occurrence of a byte cuts a string in two. *)
Lemma IndexByte_some s c n : IndexByte s c = Some n →
  has_byte c (str_take n s) = false ∧ ∃ rest, s = str_take n s +:+ String c rest.
Proof.
  revert n. induction s as [|a s IH]; intros n; cbn [IndexByte]; [done|].
  case_decide as Hne; [subst a|].
  - intros [= <-]. split; [done|]. by exists s.
  - destruct (IndexByte s c) as [m|] eqn:E; [|done]. intros [= <-].
    destruct (IH m ltac:(done)) as (Hh & rest & Hs).
    change (str_take (S m) (String a s)) with (String a (str_take m s)). split.
    + apply has_byte_false in Hh. apply has_byte_false. change (c ∉ (a :: chars (str_take m s))%list).
      set_solver.
    + exists rest. by rewrite Hs at 1.
Qed.

Lemma IndexByte_cut u c rest : has_byte c u = false → IndexByte (u +:+ String c rest) c = Some (String.length u).
Proof.
  intros Hu%has_byte_false. induction u as [|a u IH]; cbn.
  - by rewrite decide_True.
  - change (c ∉ (a :: chars u)%list) in Hu. apply not_elem_of_cons in Hu as [Hne Hu].
    rewrite decide_False by congruence. by rewrite IH.
Qed.

Lemma IndexByte_none s c : IndexByte s c = None ↔ has_byte c s = false.
Proof.
  rewrite has_byte_false. induction s as [|a s IH]; cbn.
  - split; [intros _ ?%elem_of_nil; done|done].
  - change (chars (String a s)) with (a :: chars s)%list. rewrite not_elem_of_cons.
    case_decide; [split; [done|naive_solver]|].
    destruct (IndexByte s c); [split; [done|]|]; naive_solver.
Qed.

(** A query is attributed to exactly the user its client names: over TLS the first label
    of a server name that has at least two, over HTTPS the first segment of the path;
    anything else is an error. *)
Theorem ExtractUser_exact (name u : string) :
  (ExtractUserFromSNI name = Ok u ↔
     u ≠ EmptyString ∧ has_byte "." u = false ∧ ∃ rest, name = u +:+ String "." rest) ∧
  (ExtractUserFromDoHPath name = Ok u ↔
     u ≠ EmptyString ∧ has_byte "/" u = false ∧
     (name = String "/" u ∨ ∃ rest, name = String "/" (u +:+ String "/" rest))).
Proof.
  split.
  - unfold ExtractUserFromSNI. rewrite dotIndex_spec. destruct (String.eqb_spec name EmptyString) as [->|Hne].
    + split; [done|]. intros (_ & _ & rest & E). by destruct u.
    + destruct (IndexByte name ".") as [n|] eqn:E.
      * destruct (Z.ltb_spec (Z.of_nat n) 0); [lia|]. rewrite Nat2Z.id.
        destruct (IndexByte_some _ _ _ E) as (Hd & rest & Hs). split.
        -- destruct (String.eqb_spec (str_take n name) EmptyString); [done|]. intros [= <-]. eauto.
        -- intros (Hu & Hdu & rest' & ->). rewrite IndexByte_cut in E by done. injection E as <-.
           rewrite str_take_append. by destruct (String.eqb_spec u EmptyString).
      * split; [done|]. intros (_ & Hdu & rest' & ->). by rewrite IndexByte_cut in E.
  - unfold ExtractUserFromDoHPath. destruct name as [|a path].
    { split; [done|]. intros (_ & _ & [?|[? ?]]); done. }
    destruct (decide (a = "/"%char)) as [->|Hne].
    2:{ split; [|intros (_ & _ & [[= ? _]|[? [= ? _]]]); done]. destruct a as [[] [] [] [] [] [] [] []]; done. }
    destruct (IndexByte path "/") as [n|] eqn:E.
    + destruct (IndexByte_some _ _ _ E) as (Hd & rest & Hs). split.
      * destruct (String.eqb_spec (str_take n path) EmptyString); [done|]. intros [= <-].
        split; [done|]. split; [done|]. right. exists rest. by f_equal.
      * intros (Hu & Hdu & [[= ->]|[rest' [= ->]]]).
        -- apply IndexByte_none in Hdu. congruence.
        -- rewrite IndexByte_cut in E by done. injection E as <-.
           rewrite str_take_append. by destruct (String.eqb_spec u EmptyString).
    + split.
      * destruct (String.eqb_spec path EmptyString); [done|]. intros [= <-].
        split; [done|]. split; [by apply IndexByte_none|]. by left.
      * intros (Hu & Hdu & [[= ->]|[rest' [= ->]]]).
        -- by destruct (String.eqb_spec u EmptyString).
        -- by rewrite IndexByte_cut in E.
Qed.

(** ** Responses *)

Section response_proofs.
Context `{DnsLib} `{!DnsLibLaws}.

(** What a redirect answers. It exists exactly for targets that are IPv4 addresses in
    text; it is a success with the identifier of the query, carrying the address as the only
    record, but for an AAAA query, which gets no record at all. *)
Theorem redirect_response_spec (msg : Msg) (q : Question) (target : string) :
  match redirect_response msg q target with
  | Some resp =>
      is_ipv4 target = true ∧ m_Id resp = m_Id msg ∧ m_Response resp = true ∧ m_Rcode resp = RcodeSuccess ∧
      m_Answer resp =
        if Z.eqb (q_Qtype q) TypeAAAA then [] else [RR_A (rr_header (q_Name q) TypeA) (ip_bytes target)]
  | None => is_ipv4 target = false
  end.
Proof.
  unfold redirect_response, is_ipv4, ip_bytes.
  destruct (ParseIP target) as [ip|]; [|done]. destruct (To4 ip); [|done].
  destruct (Z.eqb (q_Qtype q) TypeAAAA); cbn; rewrite ?SetReply_Id, ?SetReply_Response, ?SetReply_Answer; done.
Qed.

Lemma block_response_spec msg q :
  m_Id (block_response msg q) = m_Id msg ∧ m_Response (block_response msg q) = true ∧
  m_Question (block_response msg q) = take 1 (m_Question msg) ∧
  m_Rcode (block_response msg q) = RcodeNameError ∧
  m_Answer (block_response msg q) =
    if Z.eqb (q_Qtype q) TypeAAAA then [RR_AAAA (rr_header (q_Name q) TypeAAAA) (replicate 16 0%Z)]
    else [RR_A (rr_header (q_Name q) TypeA) (v4_in_v6 (replicate 4 0%Z))].
Proof.
  unfold block_response. destruct (Z.eqb (q_Qtype q) TypeAAAA); cbn [with_answer m_Id m_Response m_Question m_Rcode m_Answer];
    rewrite ?SetReply_Id, ?SetReply_Response, ?SetReply_Answer, ?SetReply_Question; done.
Qed.
End response_proofs.

(** ** Queries *)

Section query_proofs.
Context `{UnicodeTables} `{DnsLib} `{!DnsLibLaws} {C R N W K B : Type}.
Context `{GoCache Checker.cval C} `{!GoCacheLaws Checker.cval C}.
Context `{RedisClient R, RedisView R} `{!RedisLaws R}.
Context `{DnsNet N, ResponseWriter W, ClickHouse Analytics.row K B}.
Variable UpstreamAddr : string.
Implicit Types p : process (C := C) (R := R) (N := N) (K := K).
Implicit Types w : W.
Implicit Types t : times.

(** Admission does not touch the rules, the network, the log or the metrics. *)
Lemma admission_frame t u p :
  let p1 := (admission t u p).2 in
  rules p1 = rules p ∧ network p1 = network p ∧ aggregator p1 = aggregator p ∧
  queries_total p1 = queries_total p ∧ query_seconds p1 = query_seconds p.
Proof.
  unfold admission. destruct (limiter p) as [counter|]; [|done].
  destruct (RateLimit.AllowQuery _ _ _ _ _) as [[ok|e] rl]; done.
Qed.

(** The two caches of the checker hold values of their own type. *)
Definition typed p : Prop := ∀ c, Rule.global (rules p) = Some c → Checker.typed (Checker.cache c).

(** The response a query may get: refused, blocked, redirected, the resolver's, or a
    failure. *)
Definition answers (n : N) (msg resp : Msg) : Prop :=
  resp = rate_limit_response msg ∨
  (∃ q rest, m_Question msg = q :: rest ∧
     (resp = block_response msg q ∨ ∃ ip, redirect_response msg q ip = Some resp)) ∨
  (Exchange (Upstream.set_RecursionDesired msg) UpstreamAddr n).1 = Ok (Some resp) ∨
  (resp = servfail_response (Upstream.set_RecursionDesired msg) ∧
   ∀ r, (Exchange (Upstream.set_RecursionDesired msg) UpstreamAddr n).1 ≠ Ok (Some r)).

Lemma forward_answers w msg n : ∃ resp, (forwardResponse UpstreamAddr w msg n).1 = write resp w ∧ answers n msg resp.
Proof.
  unfold forwardResponse, Upstream.Resolve, answers.
  destruct (Exchange _ _ n) as [[[r|]|e] n']; cbn; eauto 10.
Qed.

Lemma redirect_answers w msg q rest ip n : m_Question msg = q :: rest →
  ∃ resp, (writeRedirectResponse UpstreamAddr w msg q ip n).1 = write resp w ∧ answers n msg resp.
Proof.
  intros Hq. unfold writeRedirectResponse. destruct (redirect_response msg q ip) as [r|] eqn:E.
  - exists r. split; [done|]. right. left. eauto 10.
  - apply forward_answers.
Qed.

Lemma answer_answers t u w msg q rest v p : m_Question msg = q :: rest →
  ∃ resp, (answer UpstreamAddr t u w msg q v p).1.2 = write resp w ∧ answers (network p) msg resp.
Proof.
  intros Hq. unfold answer. case_match.
  - exists (block_response msg q). split; [done|]. right. left. eauto 10.
  - destruct (Rule.GetRedirectDomain _ _ _ _ _) as [[ip []] st].
    + destruct (redirect_answers w msg q rest ip (network p) Hq) as (resp & Hw & Ha).
      cbn [network set_rules]. destruct (writeRedirectResponse _ _ _ _ _ _). eauto.
    + destruct (forward_answers w msg (network p)) as (resp & Hw & Ha).
      cbn [network set_rules]. destruct (forwardResponse _ _ _ _). eauto.
Qed.

(** The process after the answer, and the rest of a query. *)
Lemma ProcessQuery_admitted t u p p1 w msg q rest v st :
  admission t u p = (true, p1) → m_Question msg = q :: rest →
  Rule.CheckRule (t_check t) (t_check_set t) (connect (redis p1) (rules p1)) u (q_Name q) = Ret (v, st) →
  ∃ p', ProcessQuery UpstreamAddr t u p w msg =
    Ret (p', (answer UpstreamAddr t u w msg q v (set_rules st p1)).1.2) ∧
    let '(status, w', p2) := answer UpstreamAddr t u w msg q v (set_rules st p1) in
    rules p' = rules p2 ∧ redis p' = redis p2 ∧ network p' = network p2 ∧ limiter p' = limiter p2 ∧
    queries_total p' = queries_total p2 ++
      [(getProtocol w', Analytics.status_string status, TypeToString (q_Qtype q))] ∧
    aggregator p' =
      (Analytics.SubmitLog (Analytics.mkLog (t_start t) u (extractClientIP w') (q_Name q)
         (TypeToString (q_Qtype q)) status (t_log t - t_start t)) <$> aggregator p2).
Proof.
  intros Hadm Hq Hck. unfold ProcessQuery. rewrite Hadm. cbn [negb]. rewrite Hq, Hck. cbn [outcome_bind fst snd].
  destruct (answer _ _ _ _ _ _ _ _) as [[status w'] p2]. cbn [fst snd]. eexists. split; [done|].
  unfold submitLog, record_metrics. cbn [aggregator]. by destruct (aggregator p2).
Qed.

Definition rules_typed (st : Rule.state C R) : Prop :=
  ∀ c, Rule.global st = Some c → Checker.typed (Checker.cache c).

Lemma connect_typed r st : rules_typed st → rules_typed (connect r st).
Proof.
  unfold rules_typed, connect. destruct (Rule.global st) as [c|]; cbn; [|done].
  intros Hty ? [= <-]. exact (Hty c eq_refl).
Qed.

Lemma CheckRule_typed (t0 t1 : Z) (st : Rule.state C R) (u d : string) : Checker.good_user u = true → rules_typed st →
  ∃ v st', Rule.CheckRule t0 t1 st u d = Ret (v, st') ∧ rules_typed st'.
Proof.
  intros Hu Hty. unfold Rule.CheckRule. destruct (Rule.global st) as [c|] eqn:E.
  - destruct (Checker.Check_typed t0 t1 c u (Checker.normalize d) (Hty c E) Hu) as (v & c' & Hck & Hty').
    rewrite Hck. do 2 eexists. split; [done|]. by intros ? [= <-].
  - do 2 eexists. split; [done|]. by intros ? [=].
Qed.

Lemma GetRedirectDomain_typed (t0 t1 : Z) (st : Rule.state C R) (u d : string) : rules_typed st → rules_typed (Rule.GetRedirectDomain t0 t1 st u d).2.
Proof.
  intros Hty. unfold Rule.GetRedirectDomain. destruct (Rule.global st) as [c|] eqn:E.
  - pose proof (Checker.GetRedirect_typed t0 t1 c u d (Hty c E)) as Hc.
    destruct (Checker.GetRedirect t0 t1 c u d) as [res c']. by intros ? [= <-].
  - cbn. congruence.
Qed.

Lemma answer_typed t u w msg q v p : rules_typed (rules p) →
  rules_typed (rules (answer UpstreamAddr t u w msg q v p).2).
Proof.
  intros Hty. unfold answer. case_match; [done|].
  pose proof (GetRedirectDomain_typed (t_redirect t) (t_redirect_set t) _ u (q_Name q)
    (connect_typed (redis p) _ Hty)) as Hst.
  destruct (Rule.GetRedirectDomain _ _ _ _ _) as [[ip []] st]; [destruct (writeRedirectResponse _ _ _ _ _ _)
    | destruct (forwardResponse _ _ _ _)]; exact Hst.
Qed.

Lemma ProcessQuery_responds t u p w (msg : Msg) :
  Checker.good_user u = true → typed p →
  ∃ p' w', ProcessQuery UpstreamAddr t u p w msg = Ret (p', w') ∧ typed p' ∧
    ((w' = w ∧ m_Question msg = []) ∨ ∃ resp, w' = write resp w ∧ answers (network p) msg resp).
Proof.
  intros Hu Hty. destruct (admission t u p) as [b p1] eqn:Hadm.
  destruct (admission_frame t u p) as (Hr & Hn & _). rewrite Hadm in Hr, Hn. cbn [snd] in Hr, Hn.
  assert (Hty1 : rules_typed (rules p1)) by (by rewrite Hr).
  destruct b.
  - destruct (m_Question msg) as [|q rest] eqn:Hq.
    + exists p1, w. unfold ProcessQuery. rewrite Hadm, Hq. split; [done|]. split; [exact Hty1|]. by left.
    + destruct (CheckRule_typed (t_check t) (t_check_set t) (connect (redis p1) (rules p1)) u (q_Name q) Hu
        (connect_typed _ _ Hty1)) as (v & st & Hck & Hst).
      destruct (ProcessQuery_admitted t u p p1 w msg q rest v st Hadm Hq Hck) as (p' & HPQ & Hp').
      destruct (answer_answers t u w msg q rest v (set_rules st p1) Hq) as (resp & Hw & Ha).
      pose proof (answer_typed t u w msg q v (set_rules st p1) Hst) as Hty2.
      rewrite Hw in HPQ. exists p', (write resp w). split; [exact HPQ|].
      destruct (answer _ _ _ _ _ _ _ _) as [[status w'] p2]. destruct Hp' as (Hrules & _).
      split; [by unfold typed; rewrite Hrules|]. right. exists resp. split; [done|].
      cbn [network set_rules] in Ha. by rewrite <- Hn.
  - exists p1, (writeRateLimitResponse w msg). unfold ProcessQuery. rewrite Hadm. split; [done|].
    split; [exact Hty1|]. right. exists (rate_limit_response msg). split; [done|]. by left.
Qed.

(** Every query of a well-formed user is handled without a panic and gets exactly one
    response, from the list of [answers]; only a message without a question gets none.  The
    caches stay well typed, so the next query is handled too. *)
Theorem ProcessQuery_one_response t u p w (msg : Msg) :
  Checker.good_user u = true → typed p →
  ∃ p' w', ProcessQuery UpstreamAddr t u p w msg = Ret (p', w') ∧ typed p' ∧
    ((w' = w ∧ m_Question msg = []) ∨ ∃ resp, w' = write resp w ∧ answers (network p) msg resp).
Proof. apply ProcessQuery_responds. Qed.


(** C30: A refused query costs nothing but its answer: the process it leaves is the one it
    found with the limiter's clients as the call of the limiter leaves them, no lookup, no
    sample, no log and no exchange.  A limiter that admits the query, or fails, lets it pass:
    the outcome is then, in every part of the process, the one of a process without a
    limiter. *)
Theorem ProcessQuery_limiter t u p w (msg : Msg) (counter : Z) :
  limiter p = Some counter →
  let '(res, rl) := RateLimit.AllowQuery (t_limit_ms t) (RateLimit.mk (redis p) counter) u
                      (limit_queries p) (limit_window p) in
  match res with
  | Ok false =>
      ProcessQuery UpstreamAddr t u p w msg = Ret (SetRateLimiter rl p, write (rate_limit_response msg) w) ∧
      m_Rcode (rate_limit_response msg) = RcodeRefused
  | Ok true | Err _ =>
      let unlimited := mkProcess (RateLimit.client rl) None (limit_queries p) (limit_window p) (rules p)
                         (aggregator p) (network p) (queries_total p) (query_seconds p) in
      ProcessQuery UpstreamAddr t u p w msg =
        (pw <-@ ProcessQuery UpstreamAddr t u unlimited w msg ;;
         Ret (SetRateLimiter (RateLimit.mk (redis pw.1) (RateLimit.memberCounter rl)) pw.1, pw.2))
  end.
Proof.
  intros Hl. destruct (RateLimit.AllowQuery _ _ _ _ _) as [res rl] eqn:E.
  set (p1 := SetRateLimiter rl p).
  assert (Hadm : admission t u p = (match res with Ok b => b | Err _ => true end, p1)).
  { unfold admission. rewrite Hl, E. by destruct res. }
  assert (Hpass : admission t u p = (true, p1) →
    let unlimited := mkProcess (RateLimit.client rl) None (limit_queries p) (limit_window p) (rules p)
                         (aggregator p) (network p) (queries_total p) (query_seconds p) in
    ProcessQuery UpstreamAddr t u p w msg =
      (pw <-@ ProcessQuery UpstreamAddr t u unlimited w msg ;;
       Ret (SetRateLimiter (RateLimit.mk (redis pw.1) (RateLimit.memberCounter rl)) pw.1, pw.2))).
  { clear Hadm. intros Hadm unlimited. unfold ProcessQuery. rewrite Hadm. cbn [admission unlimited limiter negb].
    destruct (m_Question msg) as [|q rest]; [done|]. cbn [redis rules p1 SetRateLimiter].
    destruct (Rule.CheckRule _ _ _ _ _) as [[v st]|]; [|done]. cbn [outcome_bind fst snd].
    unfold answer, submitLog, record_metrics. destruct (Z.eqb v 1); [cbn; by destruct (aggregator p)|].
    cbn [redis rules set_rules]. destruct (Rule.GetRedirectDomain _ _ _ _ _) as [[ip []] st'].
    - cbn [network set_rules]. destruct (writeRedirectResponse _ _ _ _ _ _). cbn. by destruct (aggregator p).
    - cbn [network set_rules]. destruct (forwardResponse _ _ _ _). cbn. by destruct (aggregator p). }
  destruct res as [[]|e]; [by apply Hpass| |by apply Hpass].
  unfold ProcessQuery. by rewrite Hadm.
Qed.

(** The checker of a process whose Redis answers: the block rules [s] and the redirects [h]
    of user [u]. *)
Record ready (p : process (C := C) (R := R) (N := N) (K := K)) (u : string) (c : Checker.t C R)
    (s : gset string) (h : gmap string string) : Prop := {
  rd_global : Rule.global (rules p) = Some c;
  rd_enabled : Checker.enabled c = true;
  rd_up : redis_up (redis p) = true;
  rd_blocked : as_set (redis_get (redis p) (Checker.blocked_key u)) = Some s;
  rd_redirects : as_hash (redis_get (redis p) (Checker.redirects_key u)) = Some h
}.

(** A name that normalisation does not change twice: any but one with two trailing dots or
    bytes outside ASCII. *)
Definition settled (d : string) : Prop := Checker.normalize (Checker.normalize d) = Checker.normalize d.

(** The checker's answer to a name that is not cached, the server unchanged. *)
Lemma CheckRule_ready t p u c s h d :
  ready p u c s h → settled d →
  cache_Get (Checker.cache c) (t_check t) (Checker.check_key u (Checker.normalize d)) = None →
  ∃ b n, Rule.CheckRule (t_check t) (t_check_set t) (connect (redis p) (rules p)) u d =
    Ret (if b : bool then 1%Z else 0%Z,
         Rule.mkState (Some (Checker.mk
           (cache_Set (Checker.cache c) (t_check_set t) (Checker.check_key u (Checker.normalize d))
              (Checker.VBool b) DefaultExpiration) (redis p) (Checker.fallback c) (Checker.enabled c))) n) ∧
    (b = true ↔ Checker.blocked_by s (Checker.fallback c) (Checker.normalize d)).
Proof.
  intros [Hg Hen Hup Hs _] Hd Hmiss. unfold Rule.CheckRule, connect. rewrite Hg. cbn [Rule.global].
  set (c1 := Checker.mk (Checker.cache c) (redis p) (Checker.fallback c) (Checker.enabled c)).
  destruct (Checker.redis_decision_up c1 u (Checker.normalize d) s) as (b & Hb & Hspec); [done..|].
  rewrite Checker.Check_miss by (by rewrite Hd). rewrite Hd, Hb. cbn [fst snd outcome_bind].
  do 2 eexists. split; [reflexivity|]. exact Hspec.
Qed.

(** C16: A blocked name is answered on the spot. When a block rule of the user or the fallback
    list covers the name, the one response is a name error with a null address of the type
    asked for, whatever redirects exist; the resolver is not contacted, and the query is
    counted and logged as blocked. *)
Theorem ProcessQuery_blocked t u p p1 w (msg : Msg) q rest c s h :
  admission t u p = (true, p1) → ready p1 u c s h → m_Question msg = q :: rest → settled (q_Name q) →
  cache_Get (Checker.cache c) (t_check t) (Checker.check_key u (Checker.normalize (q_Name q))) = None →
  Checker.blocked_by s (Checker.fallback c) (Checker.normalize (q_Name q)) →
  ∃ p', ProcessQuery UpstreamAddr t u p w msg = Ret (p', write (block_response msg q) w) ∧
    m_Id (block_response msg q) = m_Id msg ∧ m_Rcode (block_response msg q) = RcodeNameError ∧
    m_Answer (block_response msg q) =
      (if Z.eqb (q_Qtype q) TypeAAAA then [RR_AAAA (rr_header (q_Name q) TypeAAAA) (replicate 16 0%Z)]
       else [RR_A (rr_header (q_Name q) TypeA) (v4_in_v6 (replicate 4 0%Z))]) ∧
    network p' = network p ∧ redis p' = redis p1 ∧
    ∃ protocol, queries_total p' = queries_total p ++ [(protocol, "BLOCKED", TypeToString (q_Qtype q))].
Proof.
  intros Hadm Hr Hq Hd Hmiss Hblk.
  destruct (CheckRule_ready t p1 u c s h (q_Name q) Hr Hd Hmiss) as (b & n & Hck & Hb).
  destruct (admission_frame t u p) as (_ & Hn & _ & Hqt & _). rewrite Hadm in Hn, Hqt. cbn [snd] in Hn, Hqt.
  assert (b = true) as -> by (by apply Hb).
  destruct (ProcessQuery_admitted t u p p1 w msg q rest _ _ Hadm Hq Hck) as (p' & HPQ & Hp').
  unfold answer in HPQ, Hp'. cbn [Z.eqb Pos.eqb fst snd] in HPQ, Hp'. destruct Hp' as (_ & Hred & Hnet & _ & Hq' & _).
  exists p'. split; [exact HPQ|].
  destruct (block_response_spec msg q) as (? & _ & _ & ? & ?).
  split_and!; [done..| |done|].
  - rewrite Hnet. cbn. congruence.
  - eexists. rewrite Hq'. cbn. by rewrite Hqt.
Qed.

(** What an admitted query for an unblocked, uncached name does: it is redirected or
    forwarded, and both decisions are cached. *)
Lemma ProcessQuery_unblocked_eq t u p p1 w msg q rest c s h :
  admission t u p = (true, p1) → ready p1 u c s h → Checker.good_user u = true →
  m_Question msg = q :: rest → settled (q_Name q) →
  let d := Checker.normalize (q_Name q) in
  cache_Get (Checker.cache c) (t_check t) (Checker.check_key u d) = None →
  cache_Get (Checker.cache c) (t_redirect t) (Checker.redirect_key u d) = None →
  ¬ Checker.blocked_by s (Checker.fallback c) d →
  let best := Redirect.best_redirect h (Checker.generatePatterns d) in
  let ip := from_option snd EmptyString best in
  let '(w', n') := if bool_decide (is_Some best) then writeRedirectResponse UpstreamAddr w msg q ip (network p1)
                   else forwardResponse UpstreamAddr w msg (network p1) in
  let ca := cache_Set (Checker.cache c) (t_check_set t) (Checker.check_key u d) (Checker.VBool false) DefaultExpiration in
  let ca := cache_Set ca (t_redirect_set t) (Checker.redirect_key u d) (Checker.VStr ip) DefaultExpiration in
  ∃ p', ProcessQuery UpstreamAddr t u p w msg = Ret (p', w') ∧
    Rule.global (rules p') = Some (Checker.mk ca (redis p1) (Checker.fallback c) (Checker.enabled c)) ∧
    redis p' = redis p1 ∧ network p' = n' ∧ limiter p' = limiter p1 ∧
    queries_total p' = queries_total p1 ++
      [(getProtocol w', if bool_decide (is_Some best) then "REDIRECTED" else "ALLOWED", TypeToString (q_Qtype q))].
Proof.
  intros Hadm Hr Hu Hq Hd d Hmiss Hmiss' Hblk best ip.
  destruct (CheckRule_ready t p1 u c s h (q_Name q) Hr Hd Hmiss) as (b & n & Hck & Hb).
  assert (b = false) as -> by (destruct b; [exfalso; by apply Hblk, Hb|done]).
  destruct (ProcessQuery_admitted t u p p1 w msg q rest _ _ Hadm Hq Hck) as (p' & HPQ & Hp').
  destruct Hr as [Hg Hen Hup Hs Hh].
  unfold answer in HPQ, Hp'. cbn [Z.eqb set_rules rules redis server_after Rule.global Checker.rdb connect] in HPQ, Hp'.
  unfold Rule.GetRedirectDomain, connect in HPQ, Hp'. cbn [Rule.global Checker.cache Checker.fallback Checker.enabled] in HPQ, Hp'.
  set (c1 := Checker.mk _ _ _ _) in HPQ, Hp'.
  assert (Hmiss1 : cache_Get (Checker.cache c1) (t_redirect t) (Checker.redirect_key u (Checker.normalize (q_Name q))) = None).
  { unfold c1. cbn [Checker.cache]. rewrite Get_Set_ne; [exact Hmiss'|by apply Checker.keys_disjoint]. }
  rewrite (Redirect.GetRedirect_miss _ _ c1 u (q_Name q) h) in HPQ, Hp' by done. unfold c1 in HPQ, Hp'. clear c1 Hmiss1.
  fold d in HPQ, Hp'. fold best in HPQ, Hp'. fold ip in HPQ, Hp'.
  cbn [Checker.cache Checker.rdb Checker.fallback Checker.enabled] in HPQ, Hp'.
  destruct (bool_decide (is_Some best)).
  - cbn [network set_rules] in HPQ, Hp'. destruct (writeRedirectResponse _ _ _ _ _ _) as [w' n'].
    exists p'. destruct Hp' as (Hru & Hre & Hne & Hli & Hqt & _). split; [exact HPQ|].
    rewrite Hru, Hre, Hne, Hli, Hqt. done.
  - cbn [network set_rules] in HPQ, Hp'. destruct (forwardResponse _ _ _ _) as [w' n'].
    exists p'. destruct Hp' as (Hru & Hre & Hne & Hli & Hqt & _). split; [exact HPQ|].
    rewrite Hru, Hre, Hne, Hli, Hqt. done.
Qed.

(** C17: A name that is not blocked is redirected to the target of its most specific redirect
    rule when there is one, and resolved upstream otherwise: with an IPv4 target the answer
    is made on the spot and the resolver is not contacted, with any other target the query
    is forwarded although it is counted as redirected. *)
Theorem ProcessQuery_unblocked t u p p1 w (msg : Msg) q rest c s h :
  admission t u p = (true, p1) → ready p1 u c s h → Checker.good_user u = true →
  m_Question msg = q :: rest → settled (q_Name q) →
  let d := Checker.normalize (q_Name q) in
  cache_Get (Checker.cache c) (t_check t) (Checker.check_key u d) = None →
  cache_Get (Checker.cache c) (t_redirect t) (Checker.redirect_key u d) = None →
  ¬ Checker.blocked_by s (Checker.fallback c) d →
  ∃ p' w' status, ProcessQuery UpstreamAddr t u p w msg = Ret (p', w') ∧
    queries_total p' = queries_total p ++ [(getProtocol w', status, TypeToString (q_Qtype q))] ∧
    ((∃ ip, Redirect.redirects_to h d ip ∧ status = "REDIRECTED" ∧
        match redirect_response msg q ip with
        | Some resp => w' = write resp w ∧ network p' = network p
        | None => (w', network p') = forwardResponse UpstreamAddr w msg (network p)
        end) ∨
     Redirect.not_redirected h d ∧ status = "ALLOWED" ∧
       (w', network p') = forwardResponse UpstreamAddr w msg (network p)).
Proof.
  intros Hadm Hr Hu Hq Hd d Hmiss Hmiss' Hblk.
  pose proof (ProcessQuery_unblocked_eq t u p p1 w msg q rest c s h Hadm Hr Hu Hq Hd Hmiss Hmiss' Hblk) as Heq.
  destruct (admission_frame t u p) as (_ & Hn & _ & Hqt & _). rewrite Hadm in Hn, Hqt. cbn [snd] in Hn, Hqt.
  cbn zeta in Heq. fold d in Heq. rewrite Hn in Heq.
  pose proof (Redirect.best_redirect_spec h d) as Hspec.
  destruct (Redirect.best_redirect h (Checker.generatePatterns d)) as [[pat ip]|].
  - rewrite (bool_decide_eq_true_2 (is_Some _)) in Heq by done. cbn [from_option snd] in Heq.
    unfold writeRedirectResponse in Heq. destruct (redirect_response msg q ip) as [resp|] eqn:E.
    + destruct Heq as (p' & HPQ & _ & _ & Hnet & _ & Hq'). exists p', (write resp w), "REDIRECTED".
      split; [done|]. split; [by rewrite Hq', Hqt|]. left. exists ip. rewrite E. done.
    + destruct (forwardResponse _ _ _ _) as [w' n']. destruct Heq as (p' & HPQ & _ & _ & Hnet & _ & Hq').
      exists p', w', "REDIRECTED". split; [done|]. split; [by rewrite Hq', Hqt|]. left. exists ip.
      rewrite E. by rewrite Hnet.
  - rewrite (bool_decide_eq_false_2 (is_Some _)) in Heq by (by intros [? ?]).
    destruct (forwardResponse _ _ _ _) as [w' n']. destruct Heq as (p' & HPQ & _ & _ & Hnet & _ & Hq').
    exists p', w', "ALLOWED". split; [done|]. split; [by rewrite Hq', Hqt|]. right. by rewrite Hnet.
Qed.

(** The first query for a name without block rule or redirect, and what it caches. *)
Lemma ProcessQuery_allowed t u p p1 w msg q rest c s h :
  admission t u p = (true, p1) → ready p1 u c s h → Checker.good_user u = true →
  m_Question msg = q :: rest → settled (q_Name q) →
  let d := Checker.normalize (q_Name q) in
  cache_Get (Checker.cache c) (t_check t) (Checker.check_key u d) = None →
  cache_Get (Checker.cache c) (t_redirect t) (Checker.redirect_key u d) = None →
  ¬ Checker.blocked_by s (Checker.fallback c) d → Redirect.not_redirected h d →
  ∃ p' w' c', ProcessQuery UpstreamAddr t u p w msg = Ret (p', w') ∧
    (w', network p') = forwardResponse UpstreamAddr w msg (network p) ∧
    queries_total p' = queries_total p ++ [(getProtocol w', "ALLOWED", TypeToString (q_Qtype q))] ∧
    Rule.global (rules p') = Some c' ∧
    (∀ i : Z, t_check_set t ≤ i < t_check_set t + cache_expiration (Checker.cache c) →
       cache_Get (Checker.cache c') i (Checker.check_key u d) = Some (Checker.VBool false))%Z ∧
    (∀ i : Z, t_redirect_set t ≤ i < t_redirect_set t + cache_expiration (Checker.cache c) →
       cache_Get (Checker.cache c') i (Checker.redirect_key u d) = Some (Checker.VStr EmptyString))%Z.
Proof.
  intros Hadm Hr Hu Hq Hd d Hmiss Hmiss' Hblk Hno.
  pose proof (ProcessQuery_unblocked_eq t u p p1 w msg q rest c s h Hadm Hr Hu Hq Hd Hmiss Hmiss' Hblk) as Heq.
  destruct (admission_frame t u p) as (_ & Hn & _ & Hqt & _). rewrite Hadm in Hn, Hqt. cbn [snd] in Hn, Hqt.
  cbn zeta in Heq. fold d in Heq. rewrite Hn in Heq.
  assert (Hbest : Redirect.best_redirect h (Checker.generatePatterns d) = None).
  { apply Redirect.best_redirect_none. intros pat ip Hp%Checker.elem_of_generatePatterns. by apply Hno. }
  rewrite Hbest in Heq. rewrite (bool_decide_eq_false_2 (is_Some _)) in Heq by (by intros [? ?]).
  destruct (forwardResponse _ _ _ _) as [w' n']. destruct Heq as (p' & HPQ & Hg & _ & Hnet & _ & Hq').
  do 3 eexists. split; [exact HPQ|]. split; [by rewrite Hnet|]. split; [by rewrite Hq', Hqt|].
  split; [exact Hg|]. cbn [Checker.cache from_option]. split.
  - intros i Ht. rewrite Get_Set_ne by (intros E; symmetry in E; by apply Checker.keys_disjoint in E).
    by apply Checker.get_after_set.
  - intros i Ht. apply Checker.get_after_set. by rewrite expiration_Set.
Qed.

(** C36: Traffic is misreported. A name without block rule or redirect is forwarded and
    counted as allowed once; while the negative redirect lookup is cached, the same query is
    forwarded again but counted and logged as redirected. *)
Theorem ProcessQuery_misreported t t' u p p1 w (msg : Msg) q rest c s h :
  admission t u p = (true, p1) → ready p1 u c s h → Checker.good_user u = true →
  m_Question msg = q :: rest → settled (q_Name q) →
  let d := Checker.normalize (q_Name q) in
  cache_Get (Checker.cache c) (t_check t) (Checker.check_key u d) = None →
  cache_Get (Checker.cache c) (t_redirect t) (Checker.redirect_key u d) = None →
  ¬ Checker.blocked_by s (Checker.fallback c) d → Redirect.not_redirected h d →
  (t_check_set t ≤ t_check t' < t_check_set t + cache_expiration (Checker.cache c))%Z →
  (t_redirect_set t ≤ t_redirect t' < t_redirect_set t + cache_expiration (Checker.cache c))%Z →
  ∃ p2 w2, ProcessQuery UpstreamAddr t u p w msg = Ret (p2, w2) ∧
    (w2, network p2) = forwardResponse UpstreamAddr w msg (network p) ∧
    ((admission t' u p2).1 = true →
     ∃ p3 w3, ProcessQuery UpstreamAddr t' u p2 w2 msg = Ret (p3, w3) ∧
       (w3, network p3) = forwardResponse UpstreamAddr w2 msg (network p2) ∧
       queries_total p3 = queries_total p ++
         [(getProtocol w2, "ALLOWED", TypeToString (q_Qtype q)); (getProtocol w3, "REDIRECTED", TypeToString (q_Qtype q))]).
Proof.
  intros Hadm Hr Hu Hq Hd d Hmiss Hmiss' Hblk Hno Ht Ht'.
  destruct (ProcessQuery_allowed t u p p1 w msg q rest c s h Hadm Hr Hu Hq Hd Hmiss Hmiss' Hblk Hno)
    as (p2 & w2 & c' & HPQ & Hfw & Hqt & Hg & Hck & Hrd).
  exists p2, w2. split; [exact HPQ|]. split; [exact Hfw|]. intros Hadm2.
  destruct (admission t' u p2) as [b p2'] eqn:E2. cbn [fst] in Hadm2. subst b.
  destruct (admission_frame t' u p2) as (Hru2 & Hn2 & _ & Hqt2 & _). rewrite E2 in Hru2, Hn2, Hqt2.
  cbn [snd] in Hru2, Hn2, Hqt2.
  set (c2 := Checker.mk (Checker.cache c') (redis p2') (Checker.fallback c') (Checker.enabled c')).
  assert (Hrule : Rule.CheckRule (t_check t') (t_check_set t') (connect (redis p2') (rules p2')) u (q_Name q)
    = Ret (0%Z, Rule.mkState (Some c2) (uint64_add (Rule.totalChecks (rules p2)) 1))).
  { unfold Rule.CheckRule, connect. rewrite Hru2, Hg. cbn [Rule.global]. unfold Checker.Check. rewrite Hd.
    cbn [Checker.cache]. fold d. rewrite Hck by done. done. }
  destruct (ProcessQuery_admitted t' u p2 p2' w2 msg q rest _ _ E2 Hq Hrule) as (p3 & HPQ3 & Hp3).
  unfold answer in HPQ3, Hp3. cbn [Z.eqb set_rules rules redis server_after Rule.global] in HPQ3, Hp3.
  unfold Rule.GetRedirectDomain, connect in HPQ3, Hp3. cbn [Rule.global] in HPQ3, Hp3.
  unfold Checker.GetRedirect in HPQ3, Hp3. cbn [Checker.cache c2] in HPQ3, Hp3. fold d in HPQ3, Hp3.
  rewrite Hrd in HPQ3, Hp3 by done. cbn [network set_rules] in HPQ3, Hp3.
  change (writeRedirectResponse UpstreamAddr w2 msg q EmptyString (network p2')) with
    (forwardResponse UpstreamAddr w2 msg (network p2')) in HPQ3, Hp3.
  rewrite Hn2 in HPQ3, Hp3. destruct (forwardResponse UpstreamAddr w2 msg (network p2)) as [w3 n3].
  exists p3, w3. destruct Hp3 as (_ & _ & Hnet & _ & Hq3 & _). split; [exact HPQ3|].
  split; [by rewrite Hnet|]. rewrite Hq3. cbn. by rewrite Hqt2, Hqt, <- app_assoc.
Qed.

(** C35: A client can stop the process. After any user's unblocked query for [d] without a
    redirect, a query for the name "u:d" by a client that calls itself "redirect" panics in
    the type assertion of the checker, as long as the limiter admits it and the cached
    lookup lives; over TLS nothing recovers the panic. *)
Theorem ProcessQuery_crash t t' u p p1 w w' (msg msg' : Msg) q q' rest rest' c s h :
  admission t u p = (true, p1) → ready p1 u c s h → Checker.good_user u = true →
  m_Question msg = q :: rest → settled (q_Name q) →
  let d := Checker.normalize (q_Name q) in
  cache_Get (Checker.cache c) (t_check t) (Checker.check_key u d) = None →
  cache_Get (Checker.cache c) (t_redirect t) (Checker.redirect_key u d) = None →
  ¬ Checker.blocked_by s (Checker.fallback c) d → Redirect.not_redirected h d →
  m_Question msg' = q' :: rest' → settled (q_Name q') → Checker.normalize (q_Name q') = u +:+ ":" +:+ d →
  (t_redirect_set t ≤ t_check t' < t_redirect_set t + cache_expiration (Checker.cache c))%Z →
  ∃ p2 w2, ProcessQuery UpstreamAddr t u p w msg = Ret (p2, w2) ∧
    ((admission t' "redirect" p2).1 = true → ∃ why, ProcessQuery UpstreamAddr t' "redirect" p2 w' msg' = Panic why).
Proof.
  intros Hadm Hr Hu Hq Hd d Hmiss Hmiss' Hblk Hno Hq' Hd' Hname Ht.
  destruct (ProcessQuery_allowed t u p p1 w msg q rest c s h Hadm Hr Hu Hq Hd Hmiss Hmiss' Hblk Hno)
    as (p2 & w2 & c' & HPQ & _ & _ & Hg & _ & Hrd).
  exists p2, w2. split; [exact HPQ|]. intros Hadm2.
  destruct (admission t' "redirect" p2) as [b p2'] eqn:E2. cbn [fst] in Hadm2. subst b.
  destruct (admission_frame t' "redirect" p2) as (Hru2 & _). rewrite E2 in Hru2. cbn [snd] in Hru2.
  unfold ProcessQuery. rewrite E2. cbn [negb]. rewrite Hq'. unfold Rule.CheckRule, connect. rewrite Hru2, Hg.
  cbn [Rule.global]. unfold Checker.Check. rewrite Hd', Hname. cbn [Checker.cache].
  change (Checker.check_key "redirect" (u +:+ ":" +:+ d)) with (Checker.redirect_key u d).
  rewrite Hrd by done. cbn. eauto.
Qed.
End query_proofs.

(** ** Witnesses *)

#[local] Existing Instance ascii_tables.

Abbreviation sample_process := (process (C := MapCache.t Checker.cval) (R := MapRedis.t) (N := ScriptNet.t)
  (K := ListTable.t Analytics.row)).

Definition sample_redis : MapRedis.t :=
  MapRedis.mk true
    (<["user:settings:alice:blocked" := (RSet {["*.ads.example"]}, None)]>
     (<["user:settings:alice:redirects" := (RHash {["printer.home" := "192.168.1.9"]}, None)]> ∅)) [].

Definition sample_checker : Checker.t (MapCache.t Checker.cval) MapRedis.t := Checker.NewChecker sample_redis.

Definition sample_answer (msg : Msg) (_ : string) : result string (option Msg) := Ok (Some (SetReply msg)).

Definition sample_process_on (r : MapRedis.t) (queries : Z) : sample_process :=
  mkProcess r (Some 0%Z) queries 1000000000 (Rule.InitChecker r Rule.uninitialized)
    (Some (Analytics.NewLogAggregator 10000 1000)) (ScriptNet.mk sample_answer []) [] [].

Definition sample_p : sample_process := sample_process_on sample_redis 100.

Definition sample_w : SimpleWriter.t := SimpleWriter.mk "udp" "192.0.2.9:53211" false [].

Definition sample_msg (name : string) (ty : Z) : Msg :=
  {| m_Id := 77; m_Response := false; m_RecursionDesired := false; m_Rcode := RcodeSuccess;
     m_Question := [{| q_Name := name; q_Qtype := ty |}]; m_Answer := []; m_Ns := [] |}.

(** A query that starts at second [s] and takes a few milliseconds. *)
Definition at_second (s : Z) : times :=
  let ns := (s * 1000000000)%Z in
  mkTimes ns (s * 1000) ns (ns + 1000000) (ns + 1000000) (ns + 2000000) (ns + 3000000) (ns + 3000000).

Definition admitted (t : times) (u : string) (p : sample_process) : sample_process := (admission t u p).2.

Definition upstream : string := "1.1.1.1:53".

Lemma sample_admitted : admission (at_second 1) "alice" sample_p = (true, admitted (at_second 1) "alice" sample_p).
Proof. by_eval. Qed.

Lemma sample_ready :
  ready (admitted (at_second 1) "alice" sample_p) "alice" sample_checker {["*.ads.example"]} {["printer.home" := "192.168.1.9"]}.
Proof. split; vm_compute; reflexivity. Qed.

(** A name no rule of the sample covers. *)
Lemma sample_unblocked d :
  (Checker.redis_decision sample_checker "alice" d).1 || Checker.fallback_loop (Checker.fallback sample_checker) d = false →
  ¬ Checker.blocked_by {["*.ads.example"]} (Checker.fallback sample_checker) d.
Proof.
  destruct (Checker.redis_decision_up sample_checker "alice" d {["*.ads.example"]} ltac:(by_eval) ltac:(by_eval) ltac:(by_eval))
    as (b & Hb & Hspec). rewrite Hb. cbn [fst]. intros E H. apply Hspec in H. congruence.
Qed.

(** Whether the query after another one is admitted. *)
Definition next_admitted (t' : times) (u' : string) (o : outcome (sample_process * SimpleWriter.t)) : bool :=
  match o with Ret (p2, _) => (admission t' u' p2).1 | Panic _ => false end.

Lemma redirect_response_spec_witness :
  match redirect_response (sample_msg "printer.home." 1) {| q_Name := "printer.home."; q_Qtype := 1 |} "192.168.1.9" with
  | Some resp => m_Id resp = 77%Z ∧
      m_Answer resp = [RR_A (rr_header "printer.home." TypeA) (ip_bytes "192.168.1.9")]
  | None => False
  end.
Proof.
  pose proof (redirect_response_spec (sample_msg "printer.home." 1) {| q_Name := "printer.home."; q_Qtype := 1 |}
    "192.168.1.9") as E.
  destruct (redirect_response _ _ _) as [resp|].
  - destruct E as (_ & Hid & _ & _ & Ha). split; [exact Hid|exact Ha].
  - vm_compute in E. discriminate E.
Defined.

Lemma ProcessQuery_one_response_witness :
  ∃ p' w', ProcessQuery upstream (at_second 1) "alice" sample_p sample_w (sample_msg "example.org." 1) = Ret (p', w').
Proof.
  assert (Hty : typed sample_p).
  { intros c E. injection E as <-. apply Checker.typed_New. }
  destruct (ProcessQuery_one_response upstream (at_second 1) "alice" sample_p sample_w (sample_msg "example.org." 1)
    ltac:(by_eval) Hty) as (p' & w' & E & _).
  exists p', w'. exact E.
Defined.

(** A limit of no query: the refusal. *)
Lemma ProcessQuery_limiter_witness :
  ∃ p', ProcessQuery upstream (at_second 1) "alice" (sample_process_on sample_redis 0) sample_w (sample_msg "example.org." 1) =
    Ret (p', write (rate_limit_response (sample_msg "example.org." 1)) sample_w).
Proof.
  pose proof (ProcessQuery_limiter upstream (at_second 1) "alice" (sample_process_on sample_redis 0) sample_w
    (sample_msg "example.org." 1) 0 ltac:(by_eval)) as E.
  destruct (RateLimit.AllowQuery _ _ _ _ _) as [res rl] eqn:Hres.
  assert (Hf : (RateLimit.AllowQuery (t_limit_ms (at_second 1)) (RateLimit.mk sample_redis 0) "alice" 0 1000000000).1 = Ok false)
    by by_eval.
  change (RateLimit.AllowQuery _ _ _ _ _) with
    (RateLimit.AllowQuery (t_limit_ms (at_second 1)) (RateLimit.mk sample_redis 0) "alice" 0 1000000000) in Hres.
  rewrite Hres in Hf. cbn in Hf. subst res. destruct E as [E _]. eexists. exact E.
Defined.

Lemma ProcessQuery_blocked_witness :
  ∃ p', ProcessQuery upstream (at_second 1) "alice" sample_p sample_w (sample_msg "Banner.Ads.Example." 28) =
    Ret (p', write (block_response (sample_msg "Banner.Ads.Example." 28) {| q_Name := "Banner.Ads.Example."; q_Qtype := 28 |}) sample_w).
Proof.
  destruct (ProcessQuery_blocked upstream (at_second 1) "alice" sample_p (admitted (at_second 1) "alice" sample_p) sample_w
    (sample_msg "Banner.Ads.Example." 28) {| q_Name := "Banner.Ads.Example."; q_Qtype := 28 |} []
    sample_checker {["*.ads.example"]} {["printer.home" := "192.168.1.9"]}) as (p' & E & _).
  1: exact sample_admitted.
  1: exact sample_ready.
  1-3: by_eval.
  - left. exists "*.ads.example". split; [by apply elem_of_singleton|]. right. exists "banner", "ads.example".
    split; [by_eval|]. split; [by_eval|]. vm_compute. repeat constructor.
  - exists p'. exact E.
Defined.

Lemma ProcessQuery_unblocked_witness :
  ∃ p' w' status, ProcessQuery upstream (at_second 1) "alice" sample_p sample_w (sample_msg "printer.home." 1) = Ret (p', w') ∧
    queries_total p' = [(getProtocol w', status, "A")].
Proof.
  destruct (ProcessQuery_unblocked upstream (at_second 1) "alice" sample_p (admitted (at_second 1) "alice" sample_p) sample_w
    (sample_msg "printer.home." 1) {| q_Name := "printer.home."; q_Qtype := 1 |} []
    sample_checker {["*.ads.example"]} {["printer.home" := "192.168.1.9"]}) as (p' & w' & status & E & Hq & _).
  1: exact sample_admitted.
  1: exact sample_ready.
  1-5: by_eval.
  - apply sample_unblocked. by_eval.
  - exists p', w', status. split; [exact E|exact Hq].
Defined.

Lemma not_redirected_sample : Redirect.not_redirected {["printer.home" := "192.168.1.9"]} "example.org".
Proof.
  intros rule ip Hc Hl. apply lookup_singleton_Some in Hl as [<- <-].
  apply Checker.elem_of_generatePatterns in Hc. exfalso. revert Hc.
  apply (bool_decide_unpack (_ ∉ _)). vm_compute. exact I.
Qed.

Lemma ProcessQuery_misreported_witness :
  ∃ p2 w2 p3 w3, ProcessQuery upstream (at_second 1) "alice" sample_p sample_w (sample_msg "example.org." 1) = Ret (p2, w2) ∧
    ProcessQuery upstream (at_second 5) "alice" p2 w2 (sample_msg "example.org." 1) = Ret (p3, w3) ∧
    queries_total p3 = [(getProtocol w2, "ALLOWED", "A"); (getProtocol w3, "REDIRECTED", "A")].
Proof.
  destruct (ProcessQuery_misreported upstream (at_second 1) (at_second 5) "alice" sample_p
    (admitted (at_second 1) "alice" sample_p) sample_w (sample_msg "example.org." 1)
    {| q_Name := "example.org."; q_Qtype := 1 |} []
    sample_checker {["*.ads.example"]} {["printer.home" := "192.168.1.9"]}) as (p2 & w2 & E & _ & Hnext).
  1: exact sample_admitted.
  1: exact sample_ready.
  1-5: by_eval.
  - apply sample_unblocked. by_eval.
  - exact not_redirected_sample.
  - vm_compute. split; [discriminate|reflexivity].
  - vm_compute. split; [discriminate|reflexivity].
  - assert (Hadm : next_admitted (at_second 5) "alice"
      (ProcessQuery upstream (at_second 1) "alice" sample_p sample_w (sample_msg "example.org." 1)) = true) by by_eval.
    rewrite E in Hadm.
    destruct (Hnext Hadm) as (p3 & w3 & E3 & _ & Hq). exists p2, w2, p3, w3.
    split; [exact E|]. split; [exact E3|exact Hq].
Defined.

Lemma ProcessQuery_crash_witness :
  ∃ p2 w2 why, ProcessQuery upstream (at_second 1) "alice" sample_p sample_w (sample_msg "example.org." 1) = Ret (p2, w2) ∧
    ProcessQuery upstream (at_second 5) "redirect" p2 (SimpleWriter.mk "dot" "192.0.2.66:4711" false [])
      (sample_msg "alice:example.org." 1) = Panic why.
Proof.
  destruct (ProcessQuery_crash upstream (at_second 1) (at_second 5) "alice" sample_p
    (admitted (at_second 1) "alice" sample_p) sample_w (SimpleWriter.mk "dot" "192.0.2.66:4711" false [])
    (sample_msg "example.org." 1) (sample_msg "alice:example.org." 1)
    {| q_Name := "example.org."; q_Qtype := 1 |} {| q_Name := "alice:example.org."; q_Qtype := 1 |} [] []
    sample_checker {["*.ads.example"]} {["printer.home" := "192.168.1.9"]}) as (p2 & w2 & E & Hnext).
  1: exact sample_admitted.
  1: exact sample_ready.
  1-5: by_eval.
  - apply sample_unblocked. by_eval.
  - exact not_redirected_sample.
  - by_eval.
  - by_eval.
  - by_eval.
  - vm_compute. split; [discriminate|reflexivity].
  - assert (Hadm : next_admitted (at_second 5) "redirect"
      (ProcessQuery upstream (at_second 1) "alice" sample_p sample_w (sample_msg "example.org." 1)) = true) by by_eval.
    rewrite E in Hadm. destruct (Hnext Hadm) as [why Hp]. exists p2, w2, why. split; [exact E|exact Hp].
Defined.

End Handler.
