(* ===== verification/Server.v ===== *)
(** * The servers: src/internal/server

    The per-connection and per-request code in front of the handler: the DNS-over-TLS
    framing and its loop (dot.go), the DNS-over-HTTPS request handler (doh.go) and the
    plain DNS handler (std.go).  Listeners, certificates, the TLS handshake and the HTTP
    server itself are not modelled.

    A TLS connection delivers its bytes in chunks, the records of the peer: one [Read]
    returns bytes of one chunk only.  The instants of successive queries are given by a
    clock. *)

From S2P Require Import Prelude.
From S2P Require Import GoStrings.
From S2P Require Import GoBase64.
From S2P Require Import External.
From S2P Require Import Models.
From S2P Require Import Checker.
From S2P Require Import Rule.
From S2P Require Import Upstream.
From S2P Require Import Analytics.
From S2P Require Import Handler.
From Stdlib Require Import Strings.Ascii Strings.String.
From S2P Require Import GoBytes.

Local Open Scope go_scope.

Module Server.

(** ** DNS over TLS: connections *)

(** [conn.Read(buf)] with a buffer of [n] bytes. *)
Definition conn_Read (n : nat) (conn : list bytes) : result string (bytes * list bytes) :=
  match conn with
  | [] => Err "EOF"
  | c :: conn =>
      if decide (List.length c ≤ n) then Ok (c, conn) else Ok (take n c, drop n c :: conn)
  end.

(** [io.ReadFull(conn, data)] for [n] bytes, [got] telling whether some were read. *)
Fixpoint read_full (got : bool) (n : nat) (conn : list bytes) : result string (bytes * list bytes) :=
  match n, conn with
  | O, _ => Ok ([], conn)
  | _, [] => Err (if got then "unexpected EOF" else "EOF")
  | _, c :: conn' =>
      if decide (List.length c ≤ n) then
        match read_full (got || negb (bool_decide (c = []))) (n - List.length c) conn' with
        | Err e => Err e
        | Ok (b, rest) => Ok (c ++ b, rest)
        end
      else Ok (take n c, drop n c :: conn')
  end.
Definition readFull (n : nat) (conn : list bytes) : result string (bytes * list bytes) := read_full false n conn.

Section dot_io.
Context `{DnsLib}.

Definition readMsgFromConn (conn : list bytes) : GoM (Msg * list bytes) :=
  '(got, conn) <- Ret (conn_Read 2 conn) ;;
  let buf := got ++ replicate (2 - List.length got) x00 in
  b0 <-@ index buf 0 ;;
  b1 <-@ index buf 1 ;;
  let length := N.to_nat (N.lor (N.shiftl (Byte.to_N b0) 8) (Byte.to_N b1)) in
  fail_if: bool_decide (65535 < Z.of_nat length)%Z with "dns: buffer size too small" ;;
  '(data, conn) <- Ret (readFull length conn) ;;
  '(msg) <- Ret (Unpack data) ;;
  gret (msg, conn).

(** The writer of a connection: what has been written, and which writes fail. *)
Record dotResponseWriter := mkDot {
  dw_remoteAddr : string;
  dw_written : bytes;
  dw_writes : nat;
  dw_fails : nat → bool
}.

Definition conn_Write (p : bytes) (w : dotResponseWriter) : result string unit * dotResponseWriter :=
  if dw_fails w (dw_writes w) then
    (Err "write: broken pipe", mkDot (dw_remoteAddr w) (dw_written w) (S (dw_writes w)) (dw_fails w))
  else (Ok tt, mkDot (dw_remoteAddr w) (dw_written w ++ p) (S (dw_writes w)) (dw_fails w)).

(** [[]byte{byte(length >> 8), byte(length & 0xff)}] *)
Definition frame_header (length : nat) : bytes :=
  [byte_of_nat (Nat.shiftr length 8); byte_of_nat (Nat.land length 255)].

Definition writeMsgToConn (msg : Msg) (w : dotResponseWriter) : result string unit * dotResponseWriter :=
  match Pack msg with
  | Err e => (Err e, w)
  | Ok packed =>
      match conn_Write (frame_header (List.length packed)) w with
      | (Err e, w) => (Err e, w)
      | (Ok _, w) => conn_Write packed w
      end
  end.

#[export] Instance dot_writer : ResponseWriter dotResponseWriter := {
  rw_Network _ := "dot";
  rw_RemoteAddr := dw_remoteAddr;
  WriteMsg := writeMsgToConn;
}.

(** ** DNS over HTTPS: requests and responses *)

(** What [handleDoH] reads of a request: [rq_dns] is [r.URL.Query().Get("dns")], [rq_Body]
    the body up to its end or the error [rq_BodyErr]. *)
Record Request := mkRequest {
  rq_Method : string;
  rq_Path : string;
  rq_dns : string;
  rq_ContentType : string;
  rq_Body : bytes;
  rq_BodyErr : option string;
  rq_RemoteAddr : string
}.

(** A response under construction; the status is none until a header is written. *)
Record Response := mkResponse {
  rs_status : option Z;
  rs_ContentType : string;
  rs_body : bytes;
  rs_remoteAddr : string
}.

Definition new_response (remote : string) : Response := mkResponse None EmptyString [] remote.

(** [http.Error(w, msg, code)] on a response nothing was written to. *)
Definition http_Error (msg : string) (code : Z) (rs : Response) : Response :=
  mkResponse (Some code) "text/plain; charset=utf-8" (bytes_of_string msg ++ [x0a]) (rs_remoteAddr rs).

(** What the server sends: 200 when the handler wrote nothing. *)
Definition sent_status (rs : Response) : Z := match rs_status rs with Some s => s | None => 200 end.

Definition dnsMimeType : string := "application/dns-message".

Definition doh_WriteMsg (msg : Msg) (rs : Response) : result string unit * Response :=
  match Pack msg with
  | Err e => (Err e, rs)
  | Ok packed =>
      (Ok tt, mkResponse (Some (match rs_status rs with Some s => s | None => 200%Z end)) dnsMimeType
                (rs_body rs ++ packed) (rs_remoteAddr rs))
  end.

#[export] Instance doh_writer : ResponseWriter Response := {
  rw_Network _ := "doh";
  rw_RemoteAddr := rs_remoteAddr;
  WriteMsg := doh_WriteMsg;
}.

(** [io.ReadAll(io.LimitReader(r.Body, 65535))] *)
Definition read_body (rq : Request) : result string bytes :=
  if decide (65535 ≤ Z.of_nat (List.length (rq_Body rq)))%Z then Ok (take (Z.to_nat 65535) (rq_Body rq))
  else match rq_BodyErr rq with Some e => Err e | None => Ok (rq_Body rq) end.
End dot_io.

(** ** Connections and requests *)

Section server.
Context `{UnicodeTables, DnsLib} {C R N K B : Type}.
Context `{GoCache Checker.cval C, RedisClient R, DnsNet N, ClickHouse Analytics.row K B}.
Variable UpstreamAddr : string.
Variable clock : nat → Handler.times.
Implicit Types p : Handler.process (C := C) (R := R) (N := N) (K := K).

(** The loop of [handleDoTConnection]; [i] counts its queries. *)
Fixpoint dot_loop (fuel : nat) (userID : string) (i : nat) p (conn : list bytes) (w : dotResponseWriter) :
    outcome (Handler.process (C := C) (R := R) (N := N) (K := K) * dotResponseWriter) :=
  match fuel with
  | O => Panic "out of fuel"
  | S fuel =>
      r <-@ readMsgFromConn conn ;;
      match r with
      | Err _ => Ret (p, w)
      | Ok (msg, conn) =>
          pw <-@ Handler.HandleDNSQuery UpstreamAddr (clock i) userID p w msg ;;
          dot_loop fuel userID (S i) pw.1 conn pw.2
      end
  end.

(** The user of a connection: "unknown" when the server name does not name one. *)
Definition dot_user (serverName : string) : string :=
  match Handler.ExtractUserFromSNI serverName with Ok u => u | Err _ => "unknown" end.

Definition handleDoTConnection (serverName : string) p (conn : list bytes) (w : dotResponseWriter) :=
  dot_loop (S (List.length (List.concat conn) + List.length conn)) (dot_user serverName) 0 p conn w.

Definition handleDoH p (rq : Request) :
    outcome (Handler.process (C := C) (R := R) (N := N) (K := K) * Response) :=
  let w := new_response (rq_RemoteAddr rq) in
  match Handler.ExtractUserFromDoHPath (rq_Path rq) with
  | Err _ => Ret (p, http_Error "invalid path" 400 w)
  | Ok userID =>
      let msgBytes :=
        if String.eqb (rq_Method rq) "GET" then
          if String.eqb (rq_dns rq) EmptyString then Err (http_Error "missing dns parameter" 400 w)
          else match Base64.DecodeString (rq_dns rq) with
               | Some b => Ok b
               | None => Err (http_Error "invalid base64" 400 w)
               end
        else if String.eqb (rq_Method rq) "POST" then
          if negb (HasPrefix (rq_ContentType rq) dnsMimeType) then
            Err (http_Error "expected application/dns-message" 415 w)
          else match read_body rq with
               | Ok b => Ok b
               | Err _ => Err (http_Error "read error" 400 w)
               end
        else Err (http_Error "method not allowed" 405 w) in
      match msgBytes with
      | Err resp => Ret (p, resp)
      | Ok b =>
          match Unpack b with
          | Err _ => Ret (p, http_Error "invalid DNS message" 400 w)
          | Ok msg => Handler.HandleDNSQuery UpstreamAddr (clock 0) userID p w msg
          end
      end
  end.

(** [tls.VersionTLS12] and [tls.VersionTLS13], for the log line of a connection. *)
Definition tlsVersionString (v : Z) : string :=
  if Z.eqb v 771 then "TLS1.2" else if Z.eqb v 772 then "TLS1.3" else "unknown".

(** ** Plain DNS *)

Definition DefaultUserID : string := "default".

Definition envStdUserID (STD_USER_ID : string) : string :=
  if negb (String.eqb STD_USER_ID EmptyString) then STD_USER_ID else DefaultUserID.

Definition ServeDNS {W : Type} `{ResponseWriter W} (userID : string) (i : nat) p (w : W) (msg : Msg) :=
  Handler.HandleDNSQuery UpstreamAddr (clock i) userID p w msg.
End server.

(** ** The framing *)

Definition frame (b : bytes) : bytes := frame_header (List.length b) ++ b.

Lemma frame_header_put16 n : frame_header n = put16 n.
Proof.
  unfold frame_header, put16. rewrite Nat.shiftr_div_pow2. change (2 ^ 8) with 256.
  change 255 with (Nat.ones 8). rewrite Nat.land_ones. change (2 ^ 8) with 256. by rewrite byte_of_nat_mod.
Qed.

(** The chunks after the first [n] bytes. *)
Fixpoint skip (n : nat) (cs : list bytes) : list bytes :=
  match n, cs with
  | O, _ => cs
  | _, [] => []
  | _, c :: cs' => if decide (List.length c ≤ n) then skip (n - List.length c) cs' else drop n c :: cs'
  end.

Lemma skip_concat n cs : List.concat (skip n cs) = drop n (List.concat cs).
Proof.
  revert n. induction cs as [|c cs IH]; intros [|n]; try done. cbn [skip List.concat].
  case_decide as Hc; [rewrite IH, drop_app_ge by lia; done|].
  cbn [List.concat]. by rewrite drop_app_le by lia.
Qed.

Lemma skip_skip a b cs : skip b (skip a cs) = skip (a + b) cs.
Proof.
  revert a. induction cs as [|c cs IH]; intros [|a]; try done; [by destruct b|].
  cbn [skip Nat.add]. case_decide as Hc.
  - rewrite decide_True by lia. rewrite IH. f_equal. lia.
  - destruct b as [|b].
    + by rewrite Nat.add_0_r, decide_False.
    + cbn [skip]. rewrite length_drop. destruct (decide (List.length c - S a ≤ S b)) as [Hd|Hd].
      * rewrite decide_True by lia. f_equal. lia.
      * rewrite decide_False by lia. by rewrite drop_drop.
Qed.

Lemma read_full_ok got n cs : n ≤ List.length (List.concat cs) →
  read_full got n cs = Ok (take n (List.concat cs), skip n cs).
Proof.
  revert n got. induction cs as [|c cs IH]; intros [|n] got Hn; cbn [List.concat List.length] in *; try done; [lia|].
  cbn [read_full skip]. rewrite length_app in Hn. case_decide as Hc.
  - rewrite IH by lia. by rewrite take_app_ge by lia.
  - by rewrite take_app_le by lia.
Qed.

Lemma read_full_rest got n cs b cs' : read_full got n cs = Ok (b, cs') → cs' = skip n cs.
Proof.
  revert n got b cs'. induction cs as [|c cs IH]; intros [|n] got b cs'; cbn [read_full skip]; try done.
  1,2: by intros [= _ <-].
  case_decide as Hc; [|by intros [= _ <-]].
  destruct (read_full _ _ cs) as [[b' r]|] eqn:E; [|done]. intros [= _ <-]. by eapply IH.
Qed.

Lemma skip_size n cs : List.length (List.concat (skip n cs)) + List.length (skip n cs) ≤
  List.length (List.concat cs) + List.length cs.
Proof.
  revert n. induction cs as [|c cs IH]; intros [|n]; try done. cbn [skip].
  case_decide; cbn [List.concat List.length]; rewrite ?length_app, ?length_drop; [|lia].
  specialize (IH (S n - List.length c)). lia.
Qed.

(** The first chunk holds the whole length prefix. *)
Definition header_intact (cs : list bytes) : Prop :=
  match cs with c :: _ => 2 ≤ List.length c | [] => False end.

Section dot_proofs.
Context `{DnsLib}.

Lemma big_endian16 b0 b1 :
  N.to_nat (N.lor (N.shiftl (Byte.to_N b0) 8) (Byte.to_N b1)) = byte_nat b0 * 256 + byte_nat b1.
Proof.
  pose proof (Byte.to_N_bounded b1). rewrite N.lor_comm, lor_shiftl_8 by lia. unfold byte_nat. lia.
Qed.

(** The test of the length against 65535 never fires. *)
Lemma length_in_range b0 b1 :
  bool_decide (65535 < Z.of_nat (byte_nat b0 * 256 + byte_nat b1))%Z = false.
Proof.
  apply bool_decide_eq_false_2. pose proof (byte_nat_lt b0). pose proof (byte_nat_lt b1). lia.
Qed.

(** One message off a connection whose length prefix is intact. *)
Lemma readMsg_frame cs b rest :
  header_intact cs → List.concat cs = frame b ++ rest → List.length b < 256 * 256 →
  readMsgFromConn cs =
    match Unpack b with Ok m => Ret (Ok (m, skip (2 + List.length b) cs)) | Err e => Ret (Err e) end.
Proof.
  intros Hi Hc Hb. destruct cs as [|c cs]; [done|]. cbn [header_intact] in Hi.
  unfold frame in Hc. rewrite frame_header_put16 in Hc.
  destruct c as [|b0 [|b1 c]]; cbn [List.length] in Hi; [lia..|].
  assert (Hput : put16 (List.length b) = [b0; b1] ∧ List.concat (c :: cs) = b ++ rest).
  { cbn in Hc. injection Hc as -> -> Hc. done. }
  destruct Hput as [Hput Hc'].
  assert (Hlen : byte_nat b0 * 256 + byte_nat b1 = List.length b).
  { pose proof (Uint16_put16 (List.length b) [] Hb) as Hu. rewrite Hput in Hu. cbn [app] in Hu.
    rewrite Uint16_cons in Hu. by injection Hu. }
  assert (Hread : ∃ conn, conn_Read 2 ((b0 :: b1 :: c) :: cs) = Ok ([b0; b1], conn) ∧
    conn = skip 2 ((b0 :: b1 :: c) :: cs) ∧ List.concat conn = b ++ rest).
  { unfold conn_Read. cbn [skip]. case_decide as Hd.
    - destruct c; cbn [List.length] in Hd; [|lia]. exists cs. split; [done|]. split; [by destruct cs|done].
    - exists (drop 2 (b0 :: b1 :: c) :: cs). done. }
  destruct Hread as (conn & Hr & Hskip & Hconn). unfold readMsgFromConn. rewrite Hr. cbn [gbind].
  cbn [List.length Nat.sub replicate app]. unfold index. cbn [lookup list_lookup outcome_bind].
  rewrite big_endian16, Hlen, <- Hlen, length_in_range, Hlen. unfold readFull.
  rewrite read_full_ok by (rewrite Hconn, length_app; lia).
  cbn [gbind]. rewrite Hconn, take_app_length, Hskip, skip_skip. by destruct (Unpack b).
Qed.

(** A reader that makes progress: every message read shortens the connection. *)
Lemma readMsg_shorter cs m cs' : readMsgFromConn cs = Ret (Ok (m, cs')) →
  List.length (List.concat cs') + List.length cs' < List.length (List.concat cs) + List.length cs.
Proof.
  unfold readMsgFromConn. destruct (conn_Read 2 cs) as [[got conn]|] eqn:E; [|done]. cbn [gbind].
  assert (Hlt : List.length (List.concat conn) + List.length conn < List.length (List.concat cs) + List.length cs).
  { unfold conn_Read in E. destruct cs as [|c cs]; [done|]. case_decide as Hc; injection E as <- <-;
      cbn [List.concat List.length]; rewrite ?length_app, ?length_drop; lia. }
  intros Hrun.
  destruct (index _ 0); [|done]. cbn [outcome_bind] in Hrun. destruct (index _ 1); [|done].
  cbn [outcome_bind] in Hrun. case_bool_decide; [done|].
  destruct (readFull _ conn) as [[data conn']|] eqn:Er; [|done]. cbn [gbind] in Hrun.
  destruct (Unpack data); [|done]. injection Hrun as _ <-. unfold readFull in Er.
  apply read_full_rest in Er as ->. pose proof (skip_size (N.to_nat (N.lor (N.shiftl (Byte.to_N a) 8) (Byte.to_N a0))) conn). lia.
Qed.

Lemma readMsg_returns cs : ∃ r, readMsgFromConn cs = Ret r.
Proof.
  unfold readMsgFromConn. destruct (conn_Read 2 cs) as [[got conn]|] eqn:E; [|eauto]. cbn [gbind].
  assert (Hl : List.length (got ++ replicate (2 - List.length got) x00) = 2).
  { unfold conn_Read in E. destruct cs as [|c cs]; [done|]. rewrite length_app, length_replicate.
    case_decide; injection E as <- <-; rewrite ?length_take; lia. }
  destruct (index_ok (got ++ replicate (2 - List.length got) x00) 0) as (b0 & _ & ->); [lia|].
  destruct (index_ok (got ++ replicate (2 - List.length got) x00) 1) as (b1 & _ & ->); [lia|]. cbn [outcome_bind].
  case_bool_decide; [eauto|]. destruct (readFull _ conn) as [[data conn']|]; [|eauto]. cbn [gbind].
  destruct (Unpack data); cbn; eauto.
Qed.

(** What one side writes the other side reads: on a connection that accepts the writes,
    [writeMsgToConn] appends the packed message after its length, and [readMsgFromConn]
    takes exactly this message off a stream that starts with it, leaving the rest, as long
    as the first chunk delivered holds both bytes of the length. *)
Theorem dot_roundtrip (m : Msg) (b : bytes) (w : dotResponseWriter) (cs : list bytes) (rest : bytes) :
  Pack m = Ok b → List.length b < 256 * 256 → (∀ i, dw_fails w i = false) →
  header_intact cs → List.concat cs = frame b ++ rest →
  (∃ w', writeMsgToConn m w = (Ok tt, w') ∧ dw_written w' = dw_written w ++ frame b) ∧
  match Unpack b with
  | Ok m' => ∃ cs', readMsgFromConn cs = Ret (Ok (m', cs')) ∧ List.concat cs' = rest
  | Err e => readMsgFromConn cs = Ret (Err e)
  end.
Proof.
  intros Hp Hb Hw Hi Hc. split.
  - unfold writeMsgToConn. rewrite Hp. unfold conn_Write. rewrite Hw. cbn [dw_fails dw_writes].
    rewrite Hw. eexists. split; [done|]. cbn. unfold frame. by rewrite <- app_assoc.
  - rewrite (readMsg_frame cs b rest) by done. destruct (Unpack b); [|done]. eexists. split; [done|].
    rewrite skip_concat, Hc. rewrite drop_app_ge by (unfold frame; rewrite length_app; cbn; lia).
    unfold frame. rewrite length_app. cbn [frame_header List.length].
    replace (2 + _ - _) with 0 by lia. done.
Qed.
End dot_proofs.

(** ** Connections *)

Section server_proofs.
Context `{UnicodeTables} `{DnsLib} `{!DnsLibLaws} {C R N K B : Type}.
Context `{GoCache Checker.cval C} `{!GoCacheLaws Checker.cval C}.
Context `{RedisClient R, RedisView R} `{!RedisLaws R}.
Context `{DnsNet N, ClickHouse Analytics.row K B}.
Variable UpstreamAddr : string.
Variable clock : nat → Handler.times.
Implicit Types p : Handler.process (C := C) (R := R) (N := N) (K := K).

(** The queries of a connection, one after the other. *)
Fixpoint serve_all (userID : string) (i : nat) p (w : dotResponseWriter) (msgs : list Msg) :
    outcome (Handler.process (C := C) (R := R) (N := N) (K := K) * dotResponseWriter) :=
  match msgs with
  | [] => Ret (p, w)
  | msg :: msgs =>
      pw <-@ Handler.ProcessQuery UpstreamAddr (clock i) userID p w msg ;;
      serve_all userID (S i) pw.1 pw.2 msgs
  end.

(** The chunks [cs] deliver the framed messages [bs], no length prefix being split between
    two chunks. *)
Inductive delivers : list bytes → list bytes → Prop :=
| delivers_nil : delivers [] []
| delivers_cons cs b bs rest :
    header_intact cs → List.concat cs = frame b ++ rest → List.length b < 256 * 256 →
    delivers (skip (2 + List.length b) cs) bs → delivers cs (b :: bs).

Lemma delivers_length cs bs : delivers cs bs → List.length bs ≤ List.length (List.concat cs).
Proof.
  induction 1 as [|cs b bs rest Hi Hc Hb Hd IH]; [done|]. cbn [List.length].
  rewrite skip_concat, length_drop in IH. rewrite Hc in *. unfold frame in *.
  rewrite !length_app in *. cbn [frame_header List.length] in *. lia.
Qed.

Lemma dot_loop_serves fuel userID i p w cs bs msgs :
  delivers cs bs → Forall2 (λ b m, Unpack b = Ok m) bs msgs → List.length bs < fuel →
  dot_loop UpstreamAddr clock fuel userID i p cs w = serve_all userID i p w msgs.
Proof.
  intros Hd Hu. revert fuel i p w Hd. revert cs. induction Hu as [|b m bs msgs Hb Hu IH]; intros cs fuel i p w Hd Hf.
  - inversion Hd; subst. destruct fuel; [cbn in Hf; lia|done].
  - inversion Hd as [|cs' b' bs' rest Hi Hc Hl Hd']; subst. destruct fuel as [|fuel]; [lia|].
    cbn [dot_loop serve_all]. rewrite (readMsg_frame cs b rest), Hb by done. cbn [outcome_bind].
    unfold Handler.HandleDNSQuery. destruct (Handler.ProcessQuery _ _ _ _ _ _) as [[p' w']|]; [|done].
    cbn [outcome_bind fst snd]. apply IH; [done|]. cbn [List.length] in Hf. lia.
Qed.

(** C20: A DNS-over-TLS connection answers its queries in order: on a stream of framed
    messages, however it is cut into chunks that do not split a length prefix, the connection
    does what processing the messages one after the other does, for the user of its server
    name, and ends at the end of the stream. *)
Theorem handleDoTConnection_serves (serverName : string) p (w : dotResponseWriter) (cs bs : list bytes) (msgs : list Msg) :
  delivers cs bs → Forall2 (λ b m, Unpack b = Ok m) bs msgs →
  handleDoTConnection UpstreamAddr clock serverName p cs w = serve_all (dot_user serverName) 0 p w msgs.
Proof.
  intros Hd Hu. unfold handleDoTConnection. apply (dot_loop_serves _ _ _ _ _ _ bs); [done..|].
  pose proof (delivers_length cs bs Hd). lia.
Qed.

Lemma dot_loop_returns fuel userID i p w cs :
  Checker.good_user userID = true → Handler.typed p →
  List.length (List.concat cs) + List.length cs < fuel →
  ∃ p' w', dot_loop UpstreamAddr clock fuel userID i p cs w = Ret (p', w').
Proof.
  intros Hu. revert i p w cs. induction fuel as [|fuel IH]; intros i p w cs Hty Hf; [lia|]. cbn [dot_loop].
  destruct (readMsg_returns cs) as [r Hr]. rewrite Hr. cbn [outcome_bind]. destruct r as [[m cs']|]; [|eauto].
  apply readMsg_shorter in Hr. unfold Handler.HandleDNSQuery.
  destruct (Handler.ProcessQuery_responds UpstreamAddr (clock i) userID p w m Hu Hty) as (p' & w' & -> & Hty' & _).
  cbn [outcome_bind fst snd]. apply IH; [done|lia].
Qed.

(** The loop of a connection ends and nothing the client sends makes it panic, provided
    the user its server name names has no colon and is not called "redirect". *)
Theorem handleDoTConnection_total (serverName : string) p (w : dotResponseWriter) (cs : list bytes) :
  Checker.good_user (dot_user serverName) = true → Handler.typed p →
  ∃ p' w', handleDoTConnection UpstreamAddr clock serverName p cs w = Ret (p', w').
Proof. intros Hu Hty. apply dot_loop_returns; [done..|lia]. Qed.

(** A length prefix split between two TLS records loses the connection: the reader takes
    the missing byte for zero, so a message of less than 256 bytes whose first length byte
    arrives alone is read as an empty message, which does not unpack; the query gets no
    answer and neither does any that follows. *)
Theorem handleDoTConnection_split (serverName : string) p (w : dotResponseWriter) (b : bytes) (later : list bytes) (e : string) :
  List.length b < 256 → Unpack [] = Err e →
  ∃ h0 h1, frame b = h0 :: h1 :: b ∧
    handleDoTConnection UpstreamAddr clock serverName p ([h0] :: (h1 :: b) :: later) w = Ret (p, w).
Proof.
  intros Hb He. exists (byte_of_nat 0), (byte_of_nat (List.length b)). split.
  - unfold frame. rewrite frame_header_put16. unfold put16. by rewrite Nat.div_small.
  - unfold handleDoTConnection. cbn [dot_loop].
    assert (Hr : readMsgFromConn ([byte_of_nat 0] :: (byte_of_nat (List.length b) :: b) :: later) = Ret (Err e)).
    { unfold readMsgFromConn. cbn [conn_Read List.length]. rewrite decide_True by lia. cbn [gbind List.length Nat.sub replicate app].
      unfold index. cbn [lookup list_lookup outcome_bind]. rewrite big_endian16, length_in_range.
      change (byte_nat (byte_of_nat 0) * 256 + byte_nat x00) with 0. unfold readFull. cbn [read_full gbind].
      by rewrite He. }
    by rewrite Hr.
Qed.

(** C31: The two HTTPS methods are the same query: for a message of at most 65535 bytes, a GET
    with its base64url form and a POST with its bytes give the same response and leave the
    same process, whatever the path. *)
Theorem handleDoH_get_post p (path remote ct : string) (b : bytes) :
  b ≠ [] → (Z.of_nat (List.length b) ≤ 65535)%Z → HasPrefix ct dnsMimeType = true →
  handleDoH UpstreamAddr clock p (mkRequest "GET" path (Base64.EncodeToString b) EmptyString [] None remote) =
  handleDoH UpstreamAddr clock p (mkRequest "POST" path EmptyString ct b None remote).
Proof.
  intros Hne Hl Hct. unfold handleDoH. cbn [rq_Path rq_RemoteAddr rq_Method rq_dns rq_ContentType].
  destruct (Handler.ExtractUserFromDoHPath path) as [u|]; [|done]. cbn [String.eqb Ascii.eqb Bool.eqb].
  assert (Hdns : String.eqb (Base64.EncodeToString b) EmptyString = false).
  { apply String.eqb_neq. intros E. pose proof (Base64.DecodeString_Encode b) as Hd. rewrite E in Hd.
    vm_compute in Hd. by injection Hd. }
  rewrite Hdns, Base64.DecodeString_Encode, Hct. cbn [negb].
  assert (Hbody : read_body (mkRequest "POST" path EmptyString ct b None remote) = Ok b).
  { unfold read_body. cbn [rq_Body rq_BodyErr]. case_decide; [|done]. rewrite take_ge; [done|]. lia. }
  by rewrite Hbody.
Qed.

(** *** What an HTTPS request asks *)

(** The message a request carries: by GET in its parameter, by POST in its body, of which at
    most 65535 bytes are read. *)
Inductive carries (rq : Request) : bytes → Prop :=
| carries_get b :
    rq_Method rq = "GET" → rq_dns rq ≠ EmptyString → Base64.DecodeString (rq_dns rq) = Some b → carries rq b
| carries_post suffix :
    rq_Method rq = "POST" → rq_ContentType rq = dnsMimeType +:+ suffix →
    (65535 ≤ Z.of_nat (List.length (rq_Body rq)))%Z ∨ rq_BodyErr rq = None →
    carries rq (take (Z.to_nat 65535) (rq_Body rq)).

(** The reasons to refuse a request, each with its status and its text. *)
Inductive refusal (rq : Request) : Z → string → Prop :=
| refuse_path e :
    Handler.ExtractUserFromDoHPath (rq_Path rq) = Err e → refusal rq 400 "invalid path"
| refuse_parameter u :
    Handler.ExtractUserFromDoHPath (rq_Path rq) = Ok u →
    rq_Method rq = "GET" → rq_dns rq = EmptyString → refusal rq 400 "missing dns parameter"
| refuse_base64 u :
    Handler.ExtractUserFromDoHPath (rq_Path rq) = Ok u →
    rq_Method rq = "GET" → rq_dns rq ≠ EmptyString → Base64.DecodeString (rq_dns rq) = None → refusal rq 400 "invalid base64"
| refuse_type u :
    Handler.ExtractUserFromDoHPath (rq_Path rq) = Ok u →
    rq_Method rq = "POST" → (∀ suffix, rq_ContentType rq ≠ dnsMimeType +:+ suffix) →
    refusal rq 415 "expected application/dns-message"
| refuse_body u suffix e :
    Handler.ExtractUserFromDoHPath (rq_Path rq) = Ok u →
    rq_Method rq = "POST" → rq_ContentType rq = dnsMimeType +:+ suffix →
    (Z.of_nat (List.length (rq_Body rq)) < 65535)%Z → rq_BodyErr rq = Some e → refusal rq 400 "read error"
| refuse_method u :
    Handler.ExtractUserFromDoHPath (rq_Path rq) = Ok u →
    rq_Method rq ≠ "GET" → rq_Method rq ≠ "POST" → refusal rq 405 "method not allowed"
| refuse_message u b e :
    Handler.ExtractUserFromDoHPath (rq_Path rq) = Ok u →
    carries rq b → Unpack b = Err e → refusal rq 400 "invalid DNS message".

(** A request is refused for one of these reasons, or it is the query of its user and its
    message. *)
Lemma handleDoH_cases p (rq : Request) :
  (∃ status text, refusal rq status text ∧
     handleDoH UpstreamAddr clock p rq = Ret (p, http_Error text status (new_response (rq_RemoteAddr rq)))) ∨
  ∃ u b msg, Handler.ExtractUserFromDoHPath (rq_Path rq) = Ok u ∧ carries rq b ∧ Unpack b = Ok msg ∧
    handleDoH UpstreamAddr clock p rq = Handler.ProcessQuery UpstreamAddr (clock 0) u p (new_response (rq_RemoteAddr rq)) msg.
Proof.
  unfold handleDoH.
  destruct (Handler.ExtractUserFromDoHPath (rq_Path rq)) as [u|e] eqn:Hu; [|left; do 2 eexists; split; [by eapply refuse_path|done]].
  assert (Hmsg : ∀ b, carries rq b →
    let o := match Unpack b with
      | Err _ => Ret (p, http_Error "invalid DNS message" 400 (new_response (rq_RemoteAddr rq)))
      | Ok msg => Handler.HandleDNSQuery UpstreamAddr (clock 0) u p (new_response (rq_RemoteAddr rq)) msg
      end in
    (∃ status text, refusal rq status text ∧ o = Ret (p, http_Error text status (new_response (rq_RemoteAddr rq)))) ∨
    ∃ u0 b0 msg, Ok (E := string) u = Ok u0 ∧ carries rq b0 ∧ Unpack b0 = Ok msg ∧
      o = Handler.ProcessQuery UpstreamAddr (clock 0) u0 p (new_response (rq_RemoteAddr rq)) msg).
  { intros b Hb o. subst o. destruct (Unpack b) as [msg|e] eqn:Eb.
    - right. by exists u, b, msg.
    - left. do 2 eexists. split; [by eapply refuse_message|done]. }
  destruct (String.eqb_spec (rq_Method rq) "GET") as [Hm|Hm].
  - destruct (String.eqb_spec (rq_dns rq) EmptyString); [left; do 2 eexists; split; [by eapply refuse_parameter|done]|].
    destruct (Base64.DecodeString (rq_dns rq)) as [b|] eqn:Hd; [by apply Hmsg, carries_get|].
    left. do 2 eexists. split; [by eapply refuse_base64|done].
  - destruct (String.eqb_spec (rq_Method rq) "POST") as [Hp|Hp]; [|left; do 2 eexists; split; [by eapply refuse_method|done]].
    destruct (HasPrefix (rq_ContentType rq) dnsMimeType) eqn:Hct; cbn [negb].
    2: { left. do 2 eexists. split; [eapply refuse_type; [done..|]|done]. intros suffix E.
         assert (Hpre : HasPrefix (rq_ContentType rq) dnsMimeType = true) by (apply HasPrefix_spec; by exists suffix). congruence. }
    apply HasPrefix_spec in Hct as [suffix Hct]. unfold read_body. case_decide as Hlen.
    + apply Hmsg. eapply carries_post; [done..|by left].
    + destruct (rq_BodyErr rq) as [e|] eqn:He; [left; do 2 eexists; split; [eapply refuse_body; [done..| |done]; lia|done]|].
      rewrite <- (take_ge (rq_Body rq) (Z.to_nat 65535)) by lia. apply Hmsg. eapply carries_post; [done..|by right].
Qed.

(** C40: An HTTPS request for a well-formed user is always answered, and never with a panic.
    Either there is a reason to refuse it: then the response is exactly the client error of
    that reason and the process is left alone.  Or the path names a user, the request carries
    the wire form of a message, and the response and the process are those of the handler on
    that message: with status 200, the response that the handler gives is in the body; the
    body is empty only if the message has no question or the response cannot be packed. *)
Theorem handleDoH_status p (rq : Request) :
  (∀ u, Handler.ExtractUserFromDoHPath (rq_Path rq) = Ok u → Checker.good_user u = true) → Handler.typed p →
  (∃ status text, refusal rq status text ∧
     handleDoH UpstreamAddr clock p rq = Ret (p, http_Error text status (new_response (rq_RemoteAddr rq)))) ∨
  ∃ u b msg p' rs,
    Handler.ExtractUserFromDoHPath (rq_Path rq) = Ok u ∧ carries rq b ∧ Unpack b = Ok msg ∧
    handleDoH UpstreamAddr clock p rq = Ret (p', rs) ∧
    Handler.ProcessQuery UpstreamAddr (clock 0) u p (new_response (rq_RemoteAddr rq)) msg = Ret (p', rs) ∧
    sent_status rs = 200%Z ∧
    (m_Question msg = [] ∧ rs_body rs = [] ∨
     ∃ resp, Handler.answers UpstreamAddr (Handler.network p) msg resp ∧
       match Pack resp with
       | Ok packed => rs_body rs = packed ∧ rs_ContentType rs = dnsMimeType
       | Err _ => rs_body rs = []
       end).
Proof.
  intros Hgood Hty. destruct (handleDoH_cases p rq) as [?|(u & b & msg & Hu & Hb & Hm & E)]; [by left|right].
  destruct (Handler.ProcessQuery_responds UpstreamAddr (clock 0) u p (new_response (rq_RemoteAddr rq)) msg (Hgood u Hu) Hty)
    as (p' & rs & HPQ & _ & Hw). exists u, b, msg, p', rs. rewrite E. do 5 (split; [done|]).
  destruct Hw as [[-> Hq]|(resp & -> & Ha)]; [split; [done|by left]|].
  unfold Handler.write. cbn [WriteMsg doh_writer]. unfold doh_WriteMsg.
  destruct (Pack resp) as [packed|e] eqn:Ep; cbn; (split; [done|]); right; exists resp; by rewrite Ep.
Qed.
End server_proofs.

(** ** Witnesses *)

#[local] Existing Instance ascii_tables.

Definition sample_clock (i : nat) : Handler.times := Handler.at_second (Z.of_nat i).

Definition sample_dot : dotResponseWriter := mkDot "192.0.2.9:53211" [] 0 (λ _, false).

Definition sample_message (id : Z) : Msg :=
  {| m_Id := id; m_Response := false; m_RecursionDesired := false; m_Rcode := RcodeSuccess;
     m_Question := []; m_Answer := []; m_Ns := [] |}.

Lemma dot_roundtrip_witness :
  (∃ w', writeMsgToConn (sample_message 4660) sample_dot = (Ok tt, w') ∧
     dw_written w' = dw_written sample_dot ++ frame [x12; x34]) ∧
  ∃ cs', readMsgFromConn [[x00; x02]; [x12]; [x34; x00]] = Ret (Ok (sample_message 4660, cs')) ∧
    List.concat cs' = [x00].
Proof.
  destruct (dot_roundtrip (sample_message 4660) [x12; x34] sample_dot [[x00; x02]; [x12]; [x34; x00]] [x00])
    as [H1 H2].
  - by_eval.
  - apply Nat.ltb_lt. by_eval.
  - intros i. reflexivity.
  - apply Nat.leb_le. by_eval.
  - by_eval.
  - split; [exact H1|exact H2].
Defined.

Lemma handleDoTConnection_serves_witness :
  handleDoTConnection Handler.upstream sample_clock "alice.dns.example" Handler.sample_p
    [[x00; x02; x12; x34; x00; x02; x56]; [x78]] sample_dot =
  serve_all Handler.upstream sample_clock "alice" 0 Handler.sample_p sample_dot [sample_message 4660; sample_message 22136].
Proof.
  apply (handleDoTConnection_serves Handler.upstream sample_clock "alice.dns.example" Handler.sample_p sample_dot
    [[x00; x02; x12; x34; x00; x02; x56]; [x78]] [[x12; x34]; [x56; x78]]).
  - apply (delivers_cons _ _ _ [x00; x02; x56; x78]).
    + apply Nat.leb_le. by_eval.
    + by_eval.
    + apply Nat.ltb_lt. by_eval.
    + apply (delivers_cons _ _ _ []).
      * apply Nat.leb_le. by_eval.
      * by_eval.
      * apply Nat.ltb_lt. by_eval.
      * apply delivers_nil.
  - repeat constructor.
Defined.

Lemma sample_typed : Handler.typed Handler.sample_p.
Proof. intros c E. injection E as <-. apply Checker.typed_New. Qed.

Lemma handleDoTConnection_total_witness :
  ∃ p' w', handleDoTConnection Handler.upstream sample_clock "alice.dns.example" Handler.sample_p
    [[x00]; [xff; x12]] sample_dot = Ret (p', w').
Proof.
  apply (handleDoTConnection_total Handler.upstream sample_clock "alice.dns.example" Handler.sample_p sample_dot
    [[x00]; [xff; x12]]).
  - by_eval.
  - exact sample_typed.
Defined.

Lemma handleDoTConnection_split_witness :
  ∃ h0 h1, frame [x12; x34] = [h0; h1; x12; x34] ∧
    handleDoTConnection Handler.upstream sample_clock "alice.dns.example" Handler.sample_p
      ([h0] :: [h1; x12; x34] :: [[x00; x02; x56; x78]]) sample_dot = Ret (Handler.sample_p, sample_dot).
Proof.
  apply (handleDoTConnection_split Handler.upstream sample_clock "alice.dns.example" Handler.sample_p sample_dot
    [x12; x34] [[x00; x02; x56; x78]] "dns: overflow unpacking uint16").
  - apply Nat.ltb_lt. by_eval.
  - by_eval.
Defined.

Lemma handleDoH_get_post_witness :
  handleDoH Handler.upstream sample_clock Handler.sample_p
    (mkRequest "GET" "/alice" "EjQ" EmptyString [] None "192.0.2.9:4433") =
  handleDoH Handler.upstream sample_clock Handler.sample_p
    (mkRequest "POST" "/alice" EmptyString "application/dns-message" [x12; x34] None "192.0.2.9:4433").
Proof.
  apply (handleDoH_get_post Handler.upstream sample_clock Handler.sample_p "/alice" "192.0.2.9:4433"
    "application/dns-message" [x12; x34]).
  - discriminate.
  - by_eval.
  - by_eval.
Defined.

(** A question on the wire of [SimpleDns]. *)
Definition sample_wire : bytes := [x00; x05; x01] ++ bytes_of_string "doubleclick.net.".

(** A request with a wrong method is refused, a query is answered. *)
Lemma handleDoH_status_witness :
  (∃ status text, refusal (mkRequest "PUT" "/alice/dns" EmptyString EmptyString [] None "192.0.2.9:4433") status text) ∧
  ∃ b msg, carries (mkRequest "POST" "/alice" EmptyString dnsMimeType sample_wire None "192.0.2.9:4433") b ∧ Unpack b = Ok msg.
Proof.
  split.
  - destruct (handleDoH_status Handler.upstream sample_clock Handler.sample_p
      (mkRequest "PUT" "/alice/dns" EmptyString EmptyString [] None "192.0.2.9:4433")) as [(status & text & Hr & _)|(u & b & msg & p' & rs & _ & Hc & _)].
    + intros u E. vm_compute in E. injection E as <-. reflexivity.
    + exact sample_typed.
    + exists status, text. exact Hr.
    + inversion Hc; discriminate.
  - destruct (handleDoH_status Handler.upstream sample_clock Handler.sample_p
      (mkRequest "POST" "/alice" EmptyString dnsMimeType sample_wire None "192.0.2.9:4433")) as [(status & text & Hr & E)|(u & b & msg & p' & rs & _ & Hc & Hm & _)].
    + intros u E. vm_compute in E. injection E as <-. reflexivity.
    + exact sample_typed.
    + apply (f_equal (λ o, match o with Ret pr => rs_ContentType pr.2 | Panic _ => EmptyString end)) in E. vm_compute in E. discriminate E.
    + exists b, msg. split; [exact Hc|exact Hm].
Defined.

End Server.
