(* ===== verification/Sync.v ===== *)
(** * Configuration events: src/internal/sync

    [Module Sync] has the events with their JSON form (message.go) and the worker that
    receives them (worker.go): [handleMessage] for one payload, [run] for its life as a
    sequence of subscriptions, with the waits between them.  Decoding follows
    encoding/json: keys match a field exactly or by case folding, null leaves a field
    alone, any other type of value is an error, unknown keys are ignored, and the last
    of several members wins. *)

From S2P Require Import Prelude.
From S2P Require Import GoStrings.
From Stdlib Require Import Strings.Ascii Strings.String.
From S2P Require Import GoUtf8.
From S2P Require Import GoJson.
Import Utf8 Json.

Local Open Scope go_scope.

Module Sync.

(** ** Events *)

Record ConfigEvent := mkEvent { UserID : string; Action : string }.

Definition ActionClearCache : string := "clear_cache".
Definition ActionUpdateRule : string := "update_rule".
Definition ConfigChannel : string := "dns:config:events".

Inductive event_error := UserIDRequired | UnknownAction (action : string).
Inductive decode_error := DecodeFailed (why : string) | InvalidEvent (e : event_error).

Definition Validate (e : ConfigEvent) : result event_error unit :=
  if String.eqb (UserID e) EmptyString then Err UserIDRequired
  else if String.eqb (Action e) ActionClearCache || String.eqb (Action e) ActionUpdateRule then Ok tt
  else Err (UnknownAction (Action e)).

(** A member of an object: [KEY:VALUE]. *)
Definition member (key : string) (value : text) : text := string_literal (chars key) ++ ":"%char :: value.

(** [json.Marshal(e)]; marshalling two strings cannot fail. *)
Definition Encode (e : ConfigEvent) : string :=
  of_chars ("{"%char :: member "user_id" (string_literal (chars (UserID e))) ++
            ","%char :: member "action" (string_literal (chars (Action e))) ++ ["}"%char]).

(** [foldName]: upper case for ASCII letters; the two other runes that fold to an ASCII
    letter are the long s and the Kelvin sign. *)
Fixpoint fold_name (fuel : nat) (s : text) : text :=
  match fuel, s with
  | S fuel, c :: rest =>
      if (code c <? 128)%N then
        (if in_range 97 122 c then char (code c - 32) else c) :: fold_name fuel rest
      else
        let '(r, size) := DecodeRune s in
        (if (r =? 383)%N then ["S"%char] else if (r =? 8490)%N then ["K"%char] else AppendRune r)
          ++ fold_name fuel (drop size s)
  | _, _ => []
  end.

Inductive field := FUserID | FAction.

Definition find_field (key : text) : option field :=
  let folded := fold_name (List.length key) key in
  if bool_decide (key = chars "user_id") then Some FUserID
  else if bool_decide (key = chars "action") then Some FAction
  else if bool_decide (folded = chars "USER_ID") then Some FUserID
  else if bool_decide (folded = chars "ACTION") then Some FAction
  else None.

(** One member stored in the event; [true] marks a value of the wrong type, which is
    reported once the whole object has been decoded. *)
Definition store_member (acc : ConfigEvent * bool) (kv : text * json) : ConfigEvent * bool :=
  let '(e, bad) := acc in
  match find_field (unquote (fst kv)), snd kv with
  | None, _ => (e, bad)
  | Some _, JNull => (e, bad)
  | Some FUserID, JString raw => (mkEvent (of_chars (unquote raw)) (Action e), bad)
  | Some FAction, JString raw => (mkEvent (UserID e) (of_chars (unquote raw)), bad)
  | Some _, _ => (e, true)
  end.

(** [json.Unmarshal] into a zero event. *)
Definition Unmarshal (payload : string) : GoM ConfigEvent :=
  v <- parse (chars payload) ;;
  match v with
  | JNull => gret (mkEvent EmptyString EmptyString)
  | JObject members =>
      let '(e, bad) := fold_left store_member members (mkEvent EmptyString EmptyString, false) in
      if bad : bool then Ret (Err "cannot unmarshal value into Go struct field of type string") else gret e
  | _ => Ret (Err "cannot unmarshal value into Go value of type sync.ConfigEvent")
  end.

Definition DecodeEvent (payload : string) : outcome (result decode_error ConfigEvent) :=
  r <-@ Unmarshal payload ;;
  match r with
  | Err why => Ret (Err (DecodeFailed why))
  | Ok e =>
      match Validate e with
      | Err why => Ret (Err (InvalidEvent why))
      | Ok _ => Ret (Ok e)
      end
  end.

(** ** The worker *)

Section worker.
Context {S : Type}.
Variable evictor : string → S → S.

Definition handleMessage (payload : string) (st : S) : outcome S :=
  r <-@ DecodeEvent payload ;;
  match r with
  | Err _ => Ret st
  | Ok event =>
      if String.eqb (Action event) ActionClearCache then Ret (evictor (UserID event) st) else Ret st
  end.

(** A subscription: it fails, or delivers payloads until its channel closes. *)
Inductive subscription := SubscribeFailed | Subscribed (payloads : list string).

Fixpoint handle_all (payloads : list string) (st : S) : outcome S :=
  match payloads with
  | [] => Ret st
  | p :: payloads => st <-@ handleMessage p st ;; handle_all payloads st
  end.

Definition subscribe (s : subscription) (st : S) : outcome S :=
  match s with
  | SubscribeFailed => Ret st
  | Subscribed payloads => handle_all payloads st
  end.

Definition initialBackoff : Z := 500000000.
Definition maxBackoff : Z := 30000000000.

(** The worker until its context is cancelled: the state, and the waits after each
    subscription. *)
Fixpoint run (backoff : Z) (ss : list subscription) (st : S) : outcome (S * list Z) :=
  match ss with
  | [] => Ret (st, [])
  | s :: ss =>
      st <-@ subscribe s st ;;
      let wait := backoff in
      let backoff := (backoff * 2)%Z in
      let backoff := if (maxBackoff <? backoff)%Z then maxBackoff else backoff in
      r <-@ run backoff ss st ;;
      Ret (r.1, wait :: r.2)
  end.

Definition StartSyncWorker (ss : list subscription) (st : S) : outcome (S * list Z) := run initialBackoff ss st.
End worker.

(** ** Decoding *)

Lemma Unmarshal_returns payload : ∃ r, Unmarshal payload = Ret r.
Proof.
  unfold Unmarshal. destruct (parse_returns (chars payload)) as [[v|e] ->]; cbn [gbind]; [|eauto].
  destruct v; unfold gret; eauto. destruct (fold_left _ _ _) as [ev []]; eauto.
Qed.

Lemma DecodeEvent_returns payload : ∃ r, DecodeEvent payload = Ret r.
Proof.
  unfold DecodeEvent. destruct (Unmarshal_returns payload) as [[e|why] ->]; cbn [outcome_bind]; [|eauto].
  destruct (Validate e); eauto.
Qed.

Lemma parse_string_value n d v rest : valid v →
  parse_value (S n) d (string_literal v ++ rest) = gret (JString (escape v), rest).
Proof.
  intros Hv. unfold string_literal. cbn [app]. rewrite <- app_assoc. cbn [app].
  change (parse_value (S n) d (quote :: escape v ++ quote :: rest)) with
    ('(raw, rest) <- token (scan_string (escape v ++ quote :: rest)) ;; gret (JString raw, rest)).
  by rewrite scan_escape.
Qed.

(** One member, and what its parser does next. *)
Lemma parse_member n d key v tl : valid (chars key) → valid v →
  parse_members (S (S n)) d (member key (string_literal v) ++ tl) =
  match skip_space tl with
  | ","%char :: l =>
      '(ms, rest) <- parse_members (S n) d (skip_space l) ;;
      gret ((escape (chars key), JString (escape v)) :: ms, rest)
  | "}"%char :: rest => gret ([(escape (chars key), JString (escape v))], rest)
  | _ => syntax
  end.
Proof.
  intros Hk Hv. unfold member, string_literal at 1. cbn [app]. rewrite <- !app_assoc. cbn [app].
  set (rest := string_literal v ++ tl).
  change (parse_members (S (S n)) d (quote :: escape (chars key) ++ quote :: ":"%char :: rest)) with
    ('(key, l) <- token (scan_string (escape (chars key) ++ quote :: ":"%char :: rest)) ;;
     match skip_space l with
     | ":"%char :: l =>
         '(v, l) <- parse_value (S n) d (skip_space l) ;;
         match skip_space l with
         | ","%char :: l => '(ms, rest) <- parse_members (S n) d (skip_space l) ;; gret ((key, v) :: ms, rest)
         | "}"%char :: rest => gret ([(key, v)], rest)
         | _ => syntax
         end
     | _ => syntax
     end).
  rewrite scan_escape by done. cbn [token gbind gret].
  change (skip_space (":"%char :: rest)) with (":"%char :: rest). cbv iota.
  change (skip_space rest) with rest. unfold rest. by rewrite parse_string_value.
Qed.

(** Parsing the text of an event. *)
Lemma parse_event u a : valid u → valid a →
  parse ("{"%char :: member "user_id" (string_literal u) ++ ","%char :: member "action" (string_literal a) ++ ["}"%char]) =
  gret (JObject [(chars "user_id", JString (escape u)); (chars "action", JString (escape a))]).
Proof.
  intros Hu Ha. set (tl := ","%char :: member "action" (string_literal a) ++ ["}"%char]).
  set (l := "{"%char :: member "user_id" (string_literal u) ++ tl). unfold parse.
  change (skip_space l) with l.
  assert (Hf : ∃ n, 2 * List.length l = S (S (S (S n)))).
  { exists (2 * List.length l - 4). unfold l, member. cbn [List.length]. rewrite !length_app.
    unfold tl. cbn [List.length]. rewrite length_app. cbn [List.length]. lia. }
  destruct Hf as [n ->].
  assert (Hv : parse_value (S (S (S (S (S n))))) 0 l =
    ('(ms, rest) <- parse_members (S (S (S (S n)))) 1 (member "user_id" (string_literal u) ++ tl) ;; gret (JObject ms, rest)))
    by reflexivity.
  rewrite Hv, parse_member by (done || (apply is_ascii_valid; first [done|by_eval])).
  change (skip_space tl) with tl. unfold tl at 1. cbv iota.
  change (skip_space (member "action" (string_literal a) ++ ["}"%char])) with
    (member "action" (string_literal a) ++ ["}"%char]).
  rewrite parse_member by (done || (apply is_ascii_valid; first [done|by_eval])). reflexivity.
Qed.

Lemma DecodeEvent_Encode_ok e : valid (chars (UserID e)) → is_ok (Validate e) = true →
  DecodeEvent (Encode e) = Ret (Ok e).
Proof.
  intros Hu Hv. assert (Ha : is_ascii (Action e) = true).
  { unfold Validate in Hv. destruct (String.eqb _ EmptyString); [done|].
    destruct (String.eqb_spec (Action e) ActionClearCache) as [->|]; [done|].
    by destruct (String.eqb_spec (Action e) ActionUpdateRule) as [->|]. }
  unfold DecodeEvent, Unmarshal, Encode. rewrite chars_of_chars, parse_event by (done || (apply is_ascii_valid; first [done|by_eval])).
  cbn [gbind gret fold_left].
  assert (H1 : find_field (unquote (chars "user_id")) = Some FUserID) by by_eval.
  assert (H2 : find_field (unquote (chars "action")) = Some FAction) by by_eval.
  unfold store_member. cbn [fst snd]. rewrite H1. cbn [UserID Action]. rewrite H2. cbn [UserID Action outcome_bind].
  rewrite !unquote_escape, !of_chars_chars by (done || (apply is_ascii_valid; first [done|by_eval])).
  destruct e as [u a]. cbn [UserID Action gret outcome_bind] in *. by destruct (Validate (mkEvent u a)).
Qed.

(** C33: An event survives its JSON form: what [Encode] writes for a valid event whose user is
    UTF-8 text, [DecodeEvent] reads back, whatever characters the user contains. *)
Theorem DecodeEvent_Encode (e : ConfigEvent) :
  valid (chars (UserID e)) → is_ok (Validate e) = true → DecodeEvent (Encode e) = Ret (Ok e).
Proof. apply DecodeEvent_Encode_ok. Qed.

(** ** The worker *)

Section worker_proofs.
Context {S : Type}.
Variable evictor : string → S → S.

(** The users a list of payloads evicts, in order: those of its well-formed clear_cache
    events. *)
Definition evictions (payloads : list string) : list string :=
  omap (λ p, match DecodeEvent p with
             | Ret (Ok e) => if String.eqb (Action e) ActionClearCache then Some (UserID e) else None
             | _ => None
             end) payloads.

Definition payloads_of (ss : list subscription) : list string :=
  ss ≫= (λ s, match s with Subscribed ps => ps | SubscribeFailed => [] end).

Definition evict_all (us : list string) (st : S) : S := fold_left (λ st u, evictor u st) us st.

Lemma handle_all_evicts ps st : handle_all evictor ps st = Ret (evict_all (evictions ps) st).
Proof.
  revert st. induction ps as [|p ps IH]; intros st; [done|]. cbn [handle_all evictions omap list_omap].
  unfold handleMessage. destruct (DecodeEvent_returns p) as [r ->]. cbn [outcome_bind].
  destruct r as [e|err]; cbn [outcome_bind]; [|apply IH].
  destruct (String.eqb (Action e) ActionClearCache); cbn [outcome_bind]; apply IH.
Qed.

Lemma evict_all_app us us' st : evict_all (us ++ us') st = evict_all us' (evict_all us st).
Proof. unfold evict_all. apply fold_left_app. Qed.

Lemma evictions_app ps ps' : evictions (ps ++ ps') = evictions ps ++ evictions ps'.
Proof. unfold evictions. apply omap_app. Qed.

(** The wait after the subscription number [i]. *)
Definition wait_after (i : nat) : Z := Z.min (initialBackoff * 2 ^ Z.of_nat i) maxBackoff.

Lemma run_evicts i ss st :
  run evictor (wait_after i) ss st =
  Ret (evict_all (evictions (payloads_of ss)) st, wait_after <$> seq i (List.length ss)).
Proof.
  revert i st. induction ss as [|s ss IH]; intros i st; [done|]. cbn [run].
  assert (Hs : subscribe evictor s st = Ret (evict_all (evictions (payloads_of [s])) st)).
  { destruct s as [|ps]; [done|]. cbn [subscribe]. rewrite handle_all_evicts. unfold payloads_of. cbn. by rewrite app_nil_r. }
  rewrite Hs. cbn [outcome_bind].
  assert (Hnext : (if (maxBackoff <? wait_after i * 2)%Z then maxBackoff else (wait_after i * 2)%Z) = wait_after (Datatypes.S i)).
  { unfold wait_after. rewrite Nat2Z.inj_succ, Z.pow_succ_r by lia.
    assert (0 < 2 ^ Z.of_nat i)%Z by (apply Z.pow_pos_nonneg; lia). unfold initialBackoff, maxBackoff.
    destruct (Z.ltb_spec 30000000000 (Z.min (500000000 * 2 ^ Z.of_nat i) 30000000000 * 2)); lia. }
  rewrite Hnext, IH. cbn [outcome_bind fst snd List.length seq fmap list_fmap].
  change (payloads_of (s :: ss)) with ((match s with Subscribed ps => ps | SubscribeFailed => [] end) ++ payloads_of ss).
  rewrite evictions_app, evict_all_app. do 3 f_equal. destruct s; [done|]. unfold payloads_of. cbn. by rewrite app_nil_r.
Qed.

(** C32: The worker never stops on what it receives: over any sequence of subscriptions it
    evicts exactly the users of the well-formed clear_cache events, in the order in which
    they arrive, and the wait after its n-th subscription is 500 ms doubled n times, at most
    30 s, whether or not the subscription succeeded. *)
Theorem StartSyncWorker_evicts (ss : list subscription) (st : S) :
  StartSyncWorker evictor ss st =
  Ret (evict_all (evictions (payloads_of ss)) st, wait_after <$> seq 0 (List.length ss)).
Proof. apply (run_evicts 0). Qed.

(** An update_rule event evicts nothing, although it is valid and the publisher announces
    an eviction for it. *)
Theorem update_rule_ignored (u : string) (st : S) :
  valid (chars u) → u ≠ EmptyString →
  is_ok (Validate (mkEvent u ActionUpdateRule)) = true ∧
  handleMessage evictor (Encode (mkEvent u ActionUpdateRule)) st = Ret st ∧
  handleMessage evictor (Encode (mkEvent u ActionClearCache)) st = Ret (evictor u st).
Proof.
  intros Hu Hne. apply String.eqb_neq in Hne.
  assert (Hok : ∀ a, a = ActionUpdateRule ∨ a = ActionClearCache → is_ok (Validate (mkEvent u a)) = true).
  { intros a [->| ->]; unfold Validate; cbn [UserID Action]; by rewrite Hne. }
  split; [by apply Hok; left|]. unfold handleMessage.
  rewrite !DecodeEvent_Encode_ok by (done || apply Hok; auto). done.
Qed.
End worker_proofs.

(** ** Witnesses *)

Lemma DecodeEvent_Encode_witness :
  DecodeEvent (Encode (mkEvent "a<b>&c" ActionClearCache)) = Ret (Ok (mkEvent "a<b>&c" ActionClearCache)).
Proof.
  apply (DecodeEvent_Encode (mkEvent "a<b>&c" ActionClearCache)).
  - apply is_ascii_valid. by_eval.
  - by_eval.
Defined.

Lemma update_rule_ignored_witness :
  handleMessage (λ u us, u :: us) (Encode (mkEvent "alice" ActionUpdateRule)) [] = Ret (A := list string) [].
Proof.
  apply (update_rule_ignored (λ u us, u :: us) "alice" []).
  - apply is_ascii_valid. by_eval.
  - discriminate.
Defined.

End Sync.
