(* ===== verification/Admin.v ===== *)
(** * The admin API: src/internal/admin/handlers.go

    [Module Admin] has the state of an [*AdminService] (its connections to Redis and to
    ClickHouse, the API key, and the audit log), the middleware, one definition per
    handler, and [serve], which is what [SetupRouter] makes of them.  Timeouts are errors of
    the calls they interrupt; the log is left out but for the audit lines. *)

From S2P Require Import Prelude.
From S2P Require Import GoStrings.
From Stdlib Require Import Strings.Ascii Strings.String.
From S2P Require Import GoUtf8.
From S2P Require Import GoScan.
From S2P Require Import External.
From S2P Require Import Models.
From S2P Require Import Sync.
Import Utf8 Scan Sync.

Local Open Scope go_scope.

Module Admin.

(** ** Requests and responses *)

Record ruleRequest := { r_UserID : string; r_Domain : string; r_Action : string }.
Record redirectRequest := { d_UserID : string; d_Domain : string; d_TargetIP : string }.

(** The fields tagged [binding:required]. *)
Definition rule_fields (q : ruleRequest) : list string := [r_UserID q; r_Domain q; r_Action q].
Definition redirect_fields (q : redirectRequest) : list string := [d_UserID q; d_Domain q; d_TargetIP q].

Record summaryRow := { s_Status : string; s_Count : Z }.

Record logEntry := {
  e_Timestamp : Z; e_ClientIP : string; e_Domain : string; e_QueryType : string;
  e_Status : string; e_ResponseTime : Z;
}.

Inductive reply :=
| Error (msg : string)
| Message (msg : string)
| Domains (user : string) (domains : list string)
| Redirects (user : string) (redirects : gmap string string)
| Summary (user : string) (rows : list summaryRow)
| Logs (user : string) (entries : list logEntry)
| Html (data : string).

Record Response := { status : Z; body : reply }.

Definition StatusOK : Z := 200.
Definition StatusBadRequest : Z := 400.
Definition StatusUnauthorized : Z := 401.
Definition StatusInternalServerError : Z := 500.
Definition StatusServiceUnavailable : Z := 503.

Definition JSON (code : Z) (b : reply) : Response := {| status := code; body := b |}.

Record audit_line := { a_action : string; a_user : string; a_domain : string; a_caller : string }.

Definition summary_query : string :=
  "SELECT status, count(*) AS cnt FROM default.dns_logs WHERE user_id = ? GROUP BY status ORDER BY cnt DESC".
Definition logs_query : string :=
  "SELECT timestamp, client_ip, domain, query_type, status, response_time_ns FROM default.dns_logs WHERE user_id = ? ORDER BY timestamp DESC LIMIT ?".

(** The loop over [rows.Next()]: a row that cannot be scanned is skipped. *)
Definition scan_rows {Row} (rows : Rows Row) : list Row :=
  omap (λ r, match r with Ok row => Some row | Err _ => None end) (rows_scanned rows).

Section admin.
Context {G R K : Type} `{GinContext G, !GinBinding G ruleRequest, !GinBinding G redirectRequest}.
Context `{RedisClient R, !ClickHouseQuery summaryRow K, !ClickHouseQuery logEntry K}.

Record t := mk { rdb : R; chdb : option K; apiKey : string; audit : list audit_line }.

Definition New (r : R) (k : option K) (key : string) : t := mk r k key [].

Definition set_rdb (s : t) (r : R) : t := mk r (chdb s) (apiKey s) (audit s).
Definition set_chdb (s : t) (k : K) : t := mk (rdb s) (Some k) (apiKey s) (audit s).

(** [None] passes the request on, [Some] aborts it with a response. *)
Definition authMiddleware (c : G) (s : t) : option Response :=
  if String.eqb (apiKey s) EmptyString then None
  else
    let header := GetHeader c "Authorization" in
    if String.eqb header EmptyString
    then Some (JSON StatusUnauthorized (Error "missing Authorization header"))
    else
      match Sscanf_word "Bearer" header with
      | Err _ => Some (JSON StatusUnauthorized (Error "invalid Authorization format, expected: Bearer <token>"))
      | Ok token =>
          if String.eqb token EmptyString
          then Some (JSON StatusUnauthorized (Error "invalid Authorization format, expected: Bearer <token>"))
          else if negb (String.eqb token (apiKey s))
          then Some (JSON StatusUnauthorized (Error "invalid API key"))
          else None
      end.

Definition callerIP (c : G) : string :=
  let fwd := GetHeader c "X-Forwarded-For" in
  if negb (String.eqb fwd EmptyString) then fwd else ClientIP c.

Definition auditLog (action userID domain caller : string) (s : t) : t :=
  mk (rdb s) (chdb s) (apiKey s)
     (audit s ++ [{| a_action := action; a_user := userID; a_domain := domain; a_caller := caller |}]).

(** Marshalling two strings cannot fail. *)
Definition publishClearCache (userID : string) : RedisM R Z :=
  Publish ConfigChannel (Encode (mkEvent userID ActionClearCache)).

(** ** Rules *)

Definition addRule (c : G) (s : t) : Response * t :=
  match ShouldBindJSON c with
  | Err err => (JSON StatusBadRequest (Error err), s)
  | Ok req =>
      let key := "user:settings:" +:+ r_UserID req +:+ ":blocked" in
      match SAdd key [r_Domain req] (rdb s) with
      | (Err _, r) => (JSON StatusInternalServerError (Error "failed to save rule"), set_rdb s r)
      | (Ok _, r) =>
          let '(_, r) := publishClearCache (r_UserID req) r in
          (JSON StatusOK (Message "rule added"),
           auditLog "add_rule" (r_UserID req) (r_Domain req) (callerIP c) (set_rdb s r))
      end
  end.

Definition removeRule (c : G) (s : t) : Response * t :=
  match ShouldBindJSON c with
  | Err err => (JSON StatusBadRequest (Error err), s)
  | Ok req =>
      let key := "user:settings:" +:+ r_UserID req +:+ ":blocked" in
      match SRem key [r_Domain req] (rdb s) with
      | (Err _, r) => (JSON StatusInternalServerError (Error "failed to remove rule"), set_rdb s r)
      | (Ok _, r) =>
          let '(_, r) := publishClearCache (r_UserID req) r in
          (JSON StatusOK (Message "rule removed"),
           auditLog "remove_rule" (r_UserID req) (r_Domain req) (callerIP c) (set_rdb s r))
      end
  end.

Definition listRules (c : G) (s : t) : Response * t :=
  let userID := c_Query c "user_id" in
  if String.eqb userID EmptyString
  then (JSON StatusBadRequest (Error "user_id query parameter is required"), s)
  else
    let key := "user:settings:" +:+ userID +:+ ":blocked" in
    match SMembers key (rdb s) with
    | (Err _, r) => (JSON StatusInternalServerError (Error "failed to list rules"), set_rdb s r)
    | (Ok domains, r) => (JSON StatusOK (Domains userID domains), set_rdb s r)
    end.

(** ** Redirects *)

Definition addRedirect (c : G) (s : t) : Response * t :=
  match ShouldBindJSON c with
  | Err err => (JSON StatusBadRequest (Error err), s)
  | Ok req =>
      let key := "user:settings:" +:+ d_UserID req +:+ ":redirects" in
      match HSet key (d_Domain req) (d_TargetIP req) (rdb s) with
      | (Err _, r) => (JSON StatusInternalServerError (Error "failed to save redirect"), set_rdb s r)
      | (Ok _, r) =>
          let '(_, r) := publishClearCache (d_UserID req) r in
          (JSON StatusOK (Message "redirect added"),
           auditLog "add_redirect" (d_UserID req) (d_Domain req) (callerIP c) (set_rdb s r))
      end
  end.

Definition removeRedirect (c : G) (s : t) : Response * t :=
  match ShouldBindJSON c with
  | Err err => (JSON StatusBadRequest (Error err), s)
  | Ok req =>
      let key := "user:settings:" +:+ d_UserID req +:+ ":redirects" in
      match HDel key (d_Domain req) (rdb s) with
      | (Err _, r) => (JSON StatusInternalServerError (Error "failed to remove redirect"), set_rdb s r)
      | (Ok _, r) =>
          let '(_, r) := publishClearCache (d_UserID req) r in
          (JSON StatusOK (Message "redirect removed"),
           auditLog "remove_redirect" (d_UserID req) (d_Domain req) (callerIP c) (set_rdb s r))
      end
  end.

Definition listRedirects (c : G) (s : t) : Response * t :=
  let userID := c_Query c "user_id" in
  if String.eqb userID EmptyString
  then (JSON StatusBadRequest (Error "user_id query parameter is required"), s)
  else
    let key := "user:settings:" +:+ userID +:+ ":redirects" in
    match HGetAll key (rdb s) with
    | (Err _, r) => (JSON StatusInternalServerError (Error "failed to list redirects"), set_rdb s r)
    | (Ok redirects, r) => (JSON StatusOK (Redirects userID redirects), set_rdb s r)
    end.

(** ** Analytics *)

Definition analyticsSummary (c : G) (s : t) : Response * t :=
  let userID := c_Query c "user_id" in
  if String.eqb userID EmptyString
  then (JSON StatusBadRequest (Error "user_id query parameter is required"), s)
  else
    match chdb s with
    | None => (JSON StatusServiceUnavailable (Error "clickhouse not configured"), s)
    | Some k =>
        match ch_Query summary_query [ArgString userID] k with
        | (Err _, k) => (JSON StatusInternalServerError (Error "analytics query failed"), set_chdb s k)
        | (Ok rows, k) => (JSON StatusOK (Summary userID (scan_rows rows)), set_chdb s k)
        end
    end.

(** The value of the query parameter, when it is a number from 1 to 1000. *)
Definition logs_limit (l : string) : Z :=
  let limit := 50%Z in
  if negb (String.eqb l EmptyString) then
    match Atoi l with
    | Some parsed => if ((0 <? parsed) && (parsed <=? 1000))%Z then parsed else limit
    | None => limit
    end
  else limit.

Definition analyticsLogs (c : G) (s : t) : Response * t :=
  let userID := c_Query c "user_id" in
  if String.eqb userID EmptyString
  then (JSON StatusBadRequest (Error "user_id query parameter is required"), s)
  else
    let limit := logs_limit (c_Query c "limit") in
    match chdb s with
    | None => (JSON StatusServiceUnavailable (Error "clickhouse not configured"), s)
    | Some k =>
        match ch_Query logs_query [ArgString userID; ArgInt limit] k with
        | (Err _, k) => (JSON StatusInternalServerError (Error "analytics query failed"), set_chdb s k)
        | (Ok rows, k) => (JSON StatusOK (Logs userID (scan_rows rows)), set_chdb s k)
        end
    end.

(** ** Routes

    [index] is the embedded file web/index.html, or the error of reading it. *)
Variable index : result string string.

Definition dashboardHandler (s : t) : Response * t :=
  match index with
  | Err _ => (JSON StatusInternalServerError (Error "dashboard not found"), s)
  | Ok data => (JSON StatusOK (Html data), s)
  end.

Inductive endpoint :=
| Dashboard | AddRule | RemoveRule | ListRules | AddRedirect | RemoveRedirect | ListRedirects
| AnalyticsSummary | AnalyticsLogs.

(** The routes that [SetupRouter] registers: method, path, and whether the group has the
    middleware. *)
Definition routes : list (string * string * bool * endpoint) :=
  [("GET", "/", false, Dashboard);
   ("POST", "/api/v1/rules", true, AddRule);
   ("DELETE", "/api/v1/rules", true, RemoveRule);
   ("GET", "/api/v1/rules", true, ListRules);
   ("POST", "/api/v1/redirects", true, AddRedirect);
   ("DELETE", "/api/v1/redirects", true, RemoveRedirect);
   ("GET", "/api/v1/redirects", true, ListRedirects);
   ("GET", "/api/v1/analytics/summary", true, AnalyticsSummary);
   ("GET", "/api/v1/analytics/logs", true, AnalyticsLogs)].

Definition handler (e : endpoint) : G → t → Response * t :=
  match e with
  | Dashboard => λ _, dashboardHandler
  | AddRule => addRule
  | RemoveRule => removeRule
  | ListRules => listRules
  | AddRedirect => addRedirect
  | RemoveRedirect => removeRedirect
  | ListRedirects => listRedirects
  | AnalyticsSummary => analyticsSummary
  | AnalyticsLogs => analyticsLogs
  end.

(** A request to a registered route. *)
Definition serve (route : string * string * bool * endpoint) (c : G) (s : t) : Response * t :=
  let '(_, _, auth, e) := route in
  if auth then
    match authMiddleware c s with
    | Some resp => (resp, s)
    | None => handler e c s
    end
  else handler e c s.
End admin.
Arguments t : clear implicits.

(** ** What the handlers promise

    The settings of a user are a set of rules and a map of redirects; a change is one of
    the four updates. *)

Definition rules_key (u : string) : string := "user:settings:" +:+ u +:+ ":blocked".
Definition redirects_key (u : string) : string := "user:settings:" +:+ u +:+ ":redirects".

Definition settings `{RedisView R} (r : R) (u : string) : option (gset string * gmap string string) :=
  rules ← as_set (redis_get r (rules_key u));
  redirects ← as_hash (redis_get r (redirects_key u));
  Some (rules, redirects).

Inductive change := Block (d : string) | Unblock (d : string) | Target (d ip : string) | Untarget (d : string).

Definition apply_change (ch : change) (st : gset string * gmap string string) : gset string * gmap string string :=
  match ch with
  | Block d => (st.1 ∪ {[d]}, st.2)
  | Unblock d => (st.1 ∖ {[d]}, st.2)
  | Target d ip => (st.1, <[d := ip]> st.2)
  | Untarget d => (st.1, delete d st.2)
  end.

Definition changed_key (u : string) (ch : change) : string :=
  match ch with Block _ | Unblock _ => rules_key u | Target _ _ | Untarget _ => redirects_key u end.

(** The change that a request asks for. *)
Definition requested {G} `{!GinBinding G ruleRequest, !GinBinding G redirectRequest}
    (e : endpoint) (c : G) : option (string * change) :=
  let rule (f : ruleRequest → change) :=
    match ShouldBindJSON c with Ok q => Some (r_UserID q, f q) | Err _ => None end in
  let redirect (f : redirectRequest → change) :=
    match ShouldBindJSON c with Ok q => Some (d_UserID q, f q) | Err _ => None end in
  match e with
  | AddRule => rule (λ q, Block (r_Domain q))
  | RemoveRule => rule (λ q, Unblock (r_Domain q))
  | AddRedirect => redirect (λ q, Target (d_Domain q) (d_TargetIP q))
  | RemoveRedirect => redirect (λ q, Untarget (d_Domain q))
  | _ => None
  end.

Definition changes (e : endpoint) : bool :=
  match e with AddRule | RemoveRule | AddRedirect | RemoveRedirect => true | _ => false end.

Lemma rules_key_inj u u' : rules_key u = rules_key u' → u = u'.
Proof. intros E%append_inj_l. by apply append_inj_r in E. Qed.

Lemma redirects_key_inj u u' : redirects_key u = redirects_key u' → u = u'.
Proof. intros E%append_inj_l. by apply append_inj_r in E. Qed.

Lemma keys_ne u u' : rules_key u ≠ redirects_key u'.
Proof.
  intros E. apply (f_equal (λ s, last (chars s))) in E. unfold rules_key, redirects_key in E.
  rewrite !chars_app, !last_app in E. by vm_compute in E.
Qed.

Lemma list_to_set_one (d : string) : list_to_set [d] =@{gset string} {[d]}.
Proof. rewrite list_to_set_cons, list_to_set_nil. apply right_id_L, _. Qed.

Section spec.
Context {G R K : Type} `{GinContext G, !GinBinding G ruleRequest, !GinBinding G redirectRequest}.
Context `{RedisClient R, RedisView R, !RedisLaws R}.
Context `{!ClickHouseQuery summaryRow K, !ClickHouseQuery logEntry K}.
Variable index : result string string.
Implicit Types (s : t R K) (c : G) (r : R).

(** What the command of a change does to the server. *)
Definition changed (u : string) (ch : change) (r r' : R) : Prop :=
  redis_frame (changed_key u ch) r r' ∧
  ∀ st, settings r u = Some st → settings r' u = Some (apply_change ch st).

Lemma settings_some r u B M : settings r u = Some (B, M) ↔
  as_set (redis_get r (rules_key u)) = Some B ∧ as_hash (redis_get r (redirects_key u)) = Some M.
Proof.
  unfold settings. destruct (as_set _); cbn; [|naive_solver]. destruct (as_hash _); cbn; naive_solver.
Qed.

Lemma settings_same r r' u : (∀ k, redis_get r' k = redis_get r k) → settings r' u = settings r u.
Proof. intros Hk. unfold settings. by rewrite !Hk. Qed.

(** The other users keep their settings. *)
Lemma changed_other u ch r r' u' : changed u ch r r' → u' ≠ u → settings r' u' = settings r u'.
Proof.
  intros ((_ & _ & Hf) & _) Hne. unfold settings.
  assert (Hk : rules_key u' ≠ changed_key u ch ∧ redirects_key u' ≠ changed_key u ch).
  { destruct ch; cbn [changed_key]; split; intros E; try (by apply rules_key_inj in E);
      try (by apply redirects_key_inj in E); try (by apply keys_ne in E); by symmetry in E; apply keys_ne in E. }
  destruct Hk as [Hk1 Hk2]. by rewrite (proj1 (Hf _ Hk1)), (proj1 (Hf _ Hk2)).
Qed.

Lemma rules_changed u r r' ch B M B' :
  settings r u = Some (B, M) → redis_frame (rules_key u) r r' →
  as_set (redis_get r' (rules_key u)) = Some B' → changed_key u ch = rules_key u →
  apply_change ch (B, M) = (B', M) → changed u ch r r'.
Proof.
  intros Hst Hf HB Hk Ha. split; [by rewrite Hk|]. intros st Hst'. rewrite Hst in Hst'. injection Hst' as <-.
  apply settings_some in Hst as [_ HM]. rewrite Ha. apply settings_some. split; [done|].
  destruct Hf as (_ & _ & Hf). by rewrite (proj1 (Hf _ (not_eq_sym (keys_ne u u)))).
Qed.

Lemma redirects_changed u r r' ch B M M' :
  settings r u = Some (B, M) → redis_frame (redirects_key u) r r' →
  as_hash (redis_get r' (redirects_key u)) = Some M' → changed_key u ch = redirects_key u →
  apply_change ch (B, M) = (B, M') → changed u ch r r'.
Proof.
  intros Hst Hf HM Hk Ha. split; [by rewrite Hk|]. intros st Hst'. rewrite Hst in Hst'. injection Hst' as <-.
  apply settings_some in Hst as [HB _]. rewrite Ha. apply settings_some. split; [|done].
  destruct Hf as (_ & _ & Hf). by rewrite (proj1 (Hf _ (keys_ne u u))).
Qed.

(** Publishing the event leaves the settings alone. *)
Lemma publishClearCache_up u r : redis_up r = true →
  ∃ n r', publishClearCache u r = (Ok n, r') ∧ redis_up r' = true ∧
    redis_published r' = (redis_published r ++ [(ConfigChannel, Encode (mkEvent u ActionClearCache))])%list ∧
    ∀ k, redis_get r' k = redis_get r k.
Proof.
  intros Hup. destruct (Publish_up r ConfigChannel (Encode (mkEvent u ActionClearCache)) Hup)
    as (n & r' & Hp & Hup' & Hpub & Hk).
  exists n, r'. split_and!; try done. intros k. apply Hk.
Qed.

(** A change that is done: the settings of the user follow, those of the others stay, the
    event is published and the line written. *)
Definition done_change (u : string) (ch : change) (c : G) s (resp : Response) s' : Prop :=
  status resp = StatusOK ∧ redis_up (rdb s') = true ∧
  (∀ st, settings (rdb s) u = Some st → settings (rdb s') u = Some (apply_change ch st)) ∧
  (∀ u', u' ≠ u → settings (rdb s') u' = settings (rdb s) u') ∧
  redis_published (rdb s') =
    (redis_published (rdb s) ++ [(ConfigChannel, Encode (mkEvent u ActionClearCache))])%list ∧
  chdb s' = chdb s ∧ apiKey s' = apiKey s ∧
  ∃ line, audit s' = (audit s ++ [line])%list ∧ a_user line = u ∧ a_caller line = callerIP c.

Lemma publish_done u ch c s r1 msg action domain : changed u ch (rdb s) r1 →
  done_change u ch c s (JSON StatusOK msg)
    (auditLog action u domain (callerIP c) (set_rdb s (publishClearCache u r1).2)).
Proof.
  intros Hch. pose proof Hch as [(Hup & Hp & _) Hst].
  destruct (publishClearCache_up u r1 Hup) as (n & r2 & -> & Hup2 & Hp2 & Hk).
  unfold done_change, auditLog, set_rdb. cbn [status JSON snd rdb chdb apiKey audit].
  generalize dependent (ConfigChannel, Encode (mkEvent u ActionClearCache)). intros ev Hp2.
  split_and!; try reflexivity; [done|..].
  - intros st Hs. rewrite (settings_same r1 r2) by done. by apply Hst.
  - intros u' Hne. rewrite (settings_same r1 r2) by done. by apply (changed_other u ch).
  - rewrite Hp2, Hp. reflexivity.
  - eexists. split_and!; reflexivity.
Qed.

(** An update is its command, the event and the audit line. *)
Lemma handler_command e c s u ch : requested e c = Some (u, ch) →
  redis_up (rdb s) = true → is_Some (settings (rdb s) u) →
  ∃ r1 msg action domain, changed u ch (rdb s) r1 ∧
    (redis_ttl (rdb s) (changed_key u ch) = None → redis_ttl r1 (changed_key u ch) = None) ∧
    handler index e c s =
      (JSON StatusOK msg, auditLog action u domain (callerIP c) (set_rdb s (publishClearCache u r1).2)).
Proof.
  intros Hreq Hup [[B M] Hst]. pose proof Hst as [HB HM]%settings_some.
  destruct e; try discriminate; cbn [handler requested] in *.
  - unfold addRule. destruct (ShouldBindJSON c) as [q|]; [|discriminate]. injection Hreq as <- <-.
    destruct (SAdd_up (rdb s) (rules_key (r_UserID q)) [r_Domain q] B Hup HB) as (n & r & Hc & Hf & Hr); [done|].
    fold (rules_key (r_UserID q)). rewrite Hc, (surjective_pairing (publishClearCache _ _)). do 4 eexists. split; [|split; [|reflexivity]].
    2: { cbn [changed_key]. intros Ht. pose proof (persistent_commands _ _ Ht) as (Ht1 & Ht2 & Ht3 & Ht4). specialize (Ht1 [r_Domain q]). by rewrite Hc in Ht1. }
    apply (rules_changed _ _ _ (Block (r_Domain q)) B M _ Hst Hf Hr eq_refl). by rewrite list_to_set_one.
  - unfold removeRule. destruct (ShouldBindJSON c) as [q|]; [|discriminate]. injection Hreq as <- <-.
    destruct (SRem_up (rdb s) (rules_key (r_UserID q)) [r_Domain q] B Hup HB) as (n & r & Hc & Hf & Hr); [done|].
    fold (rules_key (r_UserID q)). rewrite Hc, (surjective_pairing (publishClearCache _ _)). do 4 eexists. split; [|split; [|reflexivity]].
    2: { cbn [changed_key]. intros Ht. pose proof (persistent_commands _ _ Ht) as (Ht1 & Ht2 & Ht3 & Ht4). specialize (Ht2 [r_Domain q]). by rewrite Hc in Ht2. }
    apply (rules_changed _ _ _ (Unblock (r_Domain q)) B M _ Hst Hf Hr eq_refl). by rewrite list_to_set_one.
  - unfold addRedirect. destruct (ShouldBindJSON c) as [q|]; [|discriminate]. injection Hreq as <- <-.
    destruct (HSet_up (rdb s) (redirects_key (d_UserID q)) (d_Domain q) (d_TargetIP q) M Hup HM) as (n & r & Hc & Hf & Hr).
    fold (redirects_key (d_UserID q)). rewrite Hc, (surjective_pairing (publishClearCache _ _)). do 4 eexists. split; [|split; [|reflexivity]].
    2: { cbn [changed_key]. intros Ht. pose proof (persistent_commands _ _ Ht) as (Ht1 & Ht2 & Ht3 & Ht4). specialize (Ht3 (d_Domain q) (d_TargetIP q)). by rewrite Hc in Ht3. }
    by apply (redirects_changed _ _ _ (Target (d_Domain q) (d_TargetIP q)) B M _ Hst Hf Hr eq_refl).
  - unfold removeRedirect. destruct (ShouldBindJSON c) as [q|]; [|discriminate]. injection Hreq as <- <-.
    destruct (HDel_up (rdb s) (redirects_key (d_UserID q)) (d_Domain q) M Hup HM) as (n & r & Hc & Hf & Hr).
    fold (redirects_key (d_UserID q)). rewrite Hc, (surjective_pairing (publishClearCache _ _)). do 4 eexists. split; [|split; [|reflexivity]].
    2: { cbn [changed_key]. intros Ht. pose proof (persistent_commands _ _ Ht) as (Ht1 & Ht2 & Ht3 & Ht4). specialize (Ht4 (d_Domain q)). by rewrite Hc in Ht4. }
    by apply (redirects_changed _ _ _ (Untarget (d_Domain q)) B M _ Hst Hf Hr eq_refl).
Qed.

Lemma handler_change e c s u ch : requested e c = Some (u, ch) →
  redis_up (rdb s) = true → is_Some (settings (rdb s) u) →
  done_change u ch c s (handler index e c s).1 (handler index e c s).2.
Proof.
  intros Hreq Hup Hst. destruct (handler_command e c s u ch Hreq Hup Hst) as (r1 & msg & action & domain & Hch & _ & ->).
  by apply publish_done.
Qed.

(** An update touches the key of its change only. *)
Lemma handler_frame e c s u ch k : requested e c = Some (u, ch) →
  redis_up (rdb s) = true → is_Some (settings (rdb s) u) → k ≠ changed_key u ch →
  redis_get (rdb (handler index e c s).2) k = redis_get (rdb s) k.
Proof.
  intros Hreq Hup Hst Hk. destruct (handler_command e c s u ch Hreq Hup Hst) as (r1 & msg & action & domain & [(Hup1 & _ & Hf) _] & _ & ->).
  destruct (publishClearCache_up u r1 Hup1) as (n & r2 & -> & _ & _ & Hg). cbn. rewrite Hg. by apply Hf.
Qed.

(** An update sets no deadline. *)
Lemma handler_persistent e c s u ch k : requested e c = Some (u, ch) →
  redis_up (rdb s) = true → is_Some (settings (rdb s) u) → redis_ttl (rdb s) k = None →
  redis_ttl (rdb (handler index e c s).2) k = None.
Proof.
  intros Hreq Hup Hst Hk.
  destruct (handler_command e c s u ch Hreq Hup Hst) as (r1 & msg & action & domain & [(Hup1 & _ & Hf) _] & Ht & ->).
  assert (Hk1 : redis_ttl r1 k = None).
  { destruct (decide (k = changed_key u ch)) as [->|Hne]; [by apply Ht|by rewrite (proj2 (Hf k Hne))]. }
  cbn. unfold publishClearCache. destruct (Publish_up r1 ConfigChannel (Encode (mkEvent u ActionClearCache)) Hup1) as (n & r2 & -> & _ & _ & Hg).
  cbn. by rewrite (proj2 (Hg k)).
Qed.

(** The four updates implement the abstract change: with Redis answering and the user's
    keys of the right type, the response is a success, the settings of the user are changed
    as asked, those of every other user and the configuration of the service stay, one
    clear_cache event for the user is published after the events before it, and one audit
    line is added. *)
Theorem changes_refine e c s u ch st :
  requested e c = Some (u, ch) → redis_up (rdb s) = true → settings (rdb s) u = Some st →
  let '(resp, s') := handler index e c s in
  status resp = StatusOK ∧ settings (rdb s') u = Some (apply_change ch st) ∧
  (∀ u', u' ≠ u → settings (rdb s') u' = settings (rdb s) u') ∧
  redis_published (rdb s') =
    (redis_published (rdb s) ++ [(ConfigChannel, Encode (mkEvent u ActionClearCache))])%list ∧
  chdb s' = chdb s ∧ apiKey s' = apiKey s ∧
  ∃ line, audit s' = (audit s ++ [line])%list ∧ a_user line = u ∧ a_caller line = callerIP c.
Proof.
  intros Hreq Hup Hst. pose proof (handler_change e c s u ch Hreq Hup (ex_intro _ _ Hst)) as Hd.
  destruct (handler index e c s) as [resp s']. destruct Hd as (H1' & _ & H2' & Hrest).
  split; [done|]. split; [by apply H2'|]. done.
Qed.

(** Whether the command of the change succeeds. *)
Definition command_ok (u : string) (ch : change) (r : R) : bool :=
  match ch with
  | Block d => is_ok (SAdd (rules_key u) [d] r).1
  | Unblock d => is_ok (SRem (rules_key u) [d] r).1
  | Target d ip => is_ok (HSet (redirects_key u) d ip r).1
  | Untarget d => is_ok (HDel (redirects_key u) d r).1
  end.

(** Whatever Redis does, an update is answered: 400 without any effect for a body that
    does not bind, 500 without an audit line when its command fails, and 200 with one
    audit line when the command succeeds, even if the event cannot be published. *)
Theorem changes_answered e c s : changes e = true →
  let '(resp, s') := handler index e c s in
  match requested e c with
  | None => status resp = StatusBadRequest ∧ s' = s
  | Some (u, ch) =>
      if command_ok u ch (rdb s)
      then status resp = StatusOK ∧ ∃ line, audit s' = (audit s ++ [line])%list ∧ a_user line = u
      else status resp = StatusInternalServerError ∧ audit s' = audit s
  end.
Proof.
  intros He. destruct e; try discriminate; cbn [handler requested];
    unfold addRule, removeRule, addRedirect, removeRedirect;
    destruct (ShouldBindJSON c) as [q|err]; try (by split);
    unfold command_ok, rules_key, redirects_key;
    match goal with |- context [is_ok (?cmd (rdb s)).1] => destruct (cmd (rdb s)) as [[n|err] r1] end;
    cbn [fst is_ok]; try (by split);
    rewrite (surjective_pairing (publishClearCache _ _)); (split; [reflexivity|]);
    eexists; split; reflexivity.
Qed.

(** What the two list handlers answer is what the settings hold. *)
Lemma lists_read c s B M : redis_up (rdb s) = true →
  c_Query c "user_id" ≠ EmptyString → settings (rdb s) (c_Query c "user_id") = Some (B, M) →
  (∃ ds, listRules c s = (JSON StatusOK (Domains (c_Query c "user_id") ds), s) ∧ ds ≡ₚ elements B) ∧
  listRedirects c s = (JSON StatusOK (Redirects (c_Query c "user_id") M), s).
Proof.
  intros Hup Hu%String.eqb_neq [HB HM]%settings_some. unfold listRules, listRedirects. rewrite Hu.
  destruct (SMembers_up _ _ B Hup HB) as (ds & Hds & Hperm). unfold rules_key in Hds.
  pose proof (HGetAll_up _ _ M Hup HM) as Hr. unfold redirects_key in Hr. rewrite Hds, Hr.
  destruct s. split; [by exists ds|done].
Qed.

(** ** Authentication *)

(** The token check: the key itself after "Bearer" and blanks, and then nothing or a space. *)
Definition presents (header key : string) : Prop :=
  ∃ word, word_after "Bearer" header word ∧ text_of word = key.

Lemma text_of_empty word : text_of word = EmptyString → word = [].
Proof.
  intros E. destruct word as [|r word]; [done|]. exfalso. apply (AppendRune_nonempty r).
  apply (f_equal chars) in E. unfold text_of in E. rewrite chars_of_chars in E. cbn in E.
  by apply app_eq_nil in E as [? _].
Qed.

Lemma authMiddleware_none c s :
  authMiddleware c s = None ↔ apiKey s = EmptyString ∨ presents (GetHeader c "Authorization") (apiKey s).
Proof.
  unfold authMiddleware, presents.
  destruct (String.eqb_spec (apiKey s) EmptyString) as [|Hk]; [naive_solver|].
  destruct (String.eqb_spec (GetHeader c "Authorization") EmptyString) as [->|Hh].
  { split; [discriminate|]. intros [?|(word & (sp & rest & E & _) & _)]; [done|]. by vm_compute in E. }
  setoid_rewrite <- (λ w, and_comm (text_of w = apiKey s)).
  destruct (Sscanf_word "Bearer" _) as [tok|err] eqn:E.
  - pose proof E as (word & Hw & ->)%Sscanf_word_spec.
    destruct (String.eqb_spec (text_of word) EmptyString) as [Ht|Ht].
    { apply text_of_empty in Ht as ->. destruct Hw as (sp & rest & _ & _ & _ & ? & _). done. }
    destruct (String.eqb_spec (text_of word) (apiKey s)) as [Heq|Hne]; cbn [negb]; [naive_solver|].
    split; [discriminate|]. intros [?|(word' & Hw' & Heq)]; [done|]. exfalso. apply Hne.
    assert (Sscanf_word "Bearer" (GetHeader c "Authorization") = Ok (text_of word')) as E'
      by (apply Sscanf_word_spec; eauto). congruence.
  - split; [discriminate|]. intros [?|(word & Hw & Heq)]; [done|].
    assert (Sscanf_word "Bearer" (GetHeader c "Authorization") = Ok (text_of word)) as E'
      by (apply Sscanf_word_spec; eauto). congruence.
Qed.

Lemma authMiddleware_401 c s resp : authMiddleware c s = Some resp → status resp = StatusUnauthorized.
Proof. unfold authMiddleware. repeat (case_match; try done); by intros [= <-]. Qed.

(** Without a key every request is handled. *)
Lemma serve_open route c s :
  apiKey s = EmptyString → serve index route c s = handler index route.2 c s.
Proof.
  intros Hk. destruct route as [[[meth path] []] e]; [|done]. unfold serve.
  by rewrite (proj2 (authMiddleware_none c s) (or_introl Hk)).
Qed.

(** Only who presents the key gets in: with a key set, a request to any registered
    route that does not present it is answered 401 and changes nothing, the dashboard
    apart, which changes nothing either; a request that presents it is handled. *)
Theorem serve_protected route c s :
  route ∈ routes → apiKey s ≠ EmptyString →
  let '(_, _, _, e) := route in
  (presents (GetHeader c "Authorization") (apiKey s) → serve index route c s = handler index e c s) ∧
  (¬ presents (GetHeader c "Authorization") (apiKey s) →
     (serve index route c s).2 = s ∧
     (status (serve index route c s).1 = StatusUnauthorized ∨ e = Dashboard)).
Proof.
  intros Hin Hk. destruct route as [[[meth path] auth] e]. unfold serve.
  assert (Ha : auth = true ∨ auth = false ∧ e = Dashboard).
  { unfold routes in Hin. repeat (apply elem_of_cons in Hin as [[= -> -> -> ->]|Hin]; [by auto|]). by apply elem_of_nil in Hin. }
  pose proof (authMiddleware_none c s) as Hauth. destruct Ha as [->|[-> ->]].
  - destruct (authMiddleware c s) as [resp|] eqn:E.
    + split; [|intros _; split; [done|left; by apply (authMiddleware_401 c s)]].
      intros Hp. assert (Some resp = None) by (apply Hauth; auto). done.
    + split; [done|]. intros Hn. destruct (proj1 Hauth eq_refl); done.
  - split; [done|]. intros _. unfold handler, dashboardHandler. destruct index; auto.
Qed.

(** A key is usable exactly when it has no space: a valid UTF-8 key without spaces is
    accepted after "Bearer ", and a key with a space in it locks every client out. *)
Theorem api_key_usable c s :
  valid (chars (apiKey s)) → apiKey s ≠ EmptyString →
  if existsb isSpace (runes (apiKey s))
  then ∃ resp, authMiddleware c s = Some resp ∧ status resp = StatusUnauthorized
  else GetHeader c "Authorization" = "Bearer " +:+ apiKey s → authMiddleware c s = None.
Proof.
  intros (rs & Hrs & Hkey)%valid_text Hk. destruct (existsb isSpace (runes (apiKey s))) eqn:E.
  - destruct (authMiddleware c s) as [resp|] eqn:Ha; [|exfalso].
    { exists resp. split; [done|]. by apply (authMiddleware_401 c s). }
    apply authMiddleware_none in Ha as [?|(word & (sp & rest & Hin & _ & _ & _ & Hns & _) & Ht)]; [done|].
    assert (Hw : Forall (λ x, scalar x = true) word).
    { pose proof (runes_scalar (GetHeader c "Authorization")) as Hall. rewrite Hin in Hall.
      by apply Forall_app in Hall as [_ [_ [Hall _]%Forall_app]%Forall_app]. }
    rewrite <- Ht, (runes_text_of word Hw) in E. apply existsb_exists in E as (x & Hx & Hs).
    rewrite forallb_forall in Hns. specialize (Hns x Hx). unfold not_space in Hns. by rewrite Hs in Hns.
  - intros Hh. apply authMiddleware_none. right. exists rs. rewrite Hh, Hkey. split; [|done].
    rewrite Hkey, (runes_text_of rs Hrs) in E.
    exists [32%N], []. split_and!; try done.
    + change "Bearer " with (text_of (runes "Bearer" ++ [32%N])). rewrite <- text_of_app, runes_text_of.
      * by rewrite <- app_assoc, app_nil_r.
      * apply Forall_app. split; [by repeat constructor|done].
    + intros ->. by rewrite Hkey in Hk.
    + apply forallb_forall. intros x Hx. unfold not_space. apply negb_true_iff.
      apply not_true_iff_false. intros Hs. apply not_true_iff_false in E. apply E, existsb_exists. eauto.
Qed.

(** ** Analytics *)

(** The number of log lines asked for is from 1 to 1000, and the one in the query when that
    is such a number. *)
Lemma logs_limit_spec l :
  (1 ≤ logs_limit l ≤ 1000)%Z ∧
  (∀ n, Atoi l = Some n → (1 ≤ n ≤ 1000)%Z → logs_limit l = n) ∧
  ((∀ n, Atoi l = Some n → ¬ (1 ≤ n ≤ 1000)%Z) → logs_limit l = 50%Z).
Proof.
  unfold logs_limit. destruct (String.eqb_spec l EmptyString) as [->|_]; cbn [negb].
  { split; [lia|]. split; [|done]. intros n Hn. by vm_compute in Hn. }
  destruct (Atoi l) as [n|]; [|split; [lia|done]].
  destruct (Z.ltb_spec 0 n), (Z.leb_spec n 1000); cbn [andb]; (split; [lia|]);
    (split; [intros m [= ->]; lia|]); intros Hno; try done; exfalso; apply (Hno n); [done|lia].
Qed.

(** A select whose stream breaks off is reported as complete: the handler does not look at
    [rows.Err()], so the rows received before the error are a success. *)
Lemma analyticsSummary_truncated c s k k' rows :
  c_Query c "user_id" ≠ EmptyString → chdb s = Some k →
  ch_Query summary_query [ArgString (c_Query c "user_id")] k = (Ok rows, k') →
  (analyticsSummary c s).1 = JSON StatusOK (Summary (c_Query c "user_id") (scan_rows rows)).
Proof.
  intros Hu%String.eqb_neq Hk Hq. unfold analyticsSummary. by rewrite Hu, Hk, Hq.
Qed.
End spec.

(** ** Concrete instances of the hypotheses *)

Definition bind_rule (l : list string) : option ruleRequest :=
  match l with [u; d; a] => Some {| r_UserID := u; r_Domain := d; r_Action := a |} | _ => None end.
Definition bind_redirect (l : list string) : option redirectRequest :=
  match l with [u; d; ip] => Some {| d_UserID := u; d_Domain := d; d_TargetIP := ip |} | _ => None end.

#[export] Instance rule_binding : GinBinding ListRequest.t ruleRequest :=
  { ShouldBindJSON := ListRequest.bind bind_rule rule_fields }.
#[export] Instance redirect_binding : GinBinding ListRequest.t redirectRequest :=
  { ShouldBindJSON := ListRequest.bind bind_redirect redirect_fields }.
#[export] Instance rule_binding_laws : GinBindingLaws ListRequest.t ruleRequest rule_fields.
Proof. constructor. intros g q. apply ListRequest.bind_fields. Qed.

Record select_db := { summaries : Rows summaryRow; logs : Rows logEntry }.
#[export] Instance select_summaries : ClickHouseQuery summaryRow select_db :=
  { ch_Query _ _ k := (Ok (summaries k), k) }.
#[export] Instance select_logs : ClickHouseQuery logEntry select_db :=
  { ch_Query _ _ k := (Ok (logs k), k) }.

Definition example_service (key : string) : t MapRedis.t select_db :=
  New ((SAdd (rules_key "alice") ["bad.org"] MapRedis.empty).2) None key.

Definition request (header : string) (body : list string) : ListRequest.t :=
  {| ListRequest.headers := [("Authorization", header); ("X-Forwarded-For", "10.1.1.1")];
     ListRequest.query := [("user_id", "alice")]; ListRequest.from := "192.0.2.7"; ListRequest.body := body |}.

Lemma changes_refine_witness :
  let '(resp, s') :=
    handler (G := ListRequest.t) (Ok EmptyString) RemoveRule (request EmptyString ["alice"; "bad.org"; "block"])
      (example_service EmptyString) in
  status resp = StatusOK ∧ settings (rdb s') "alice" = Some (apply_change (Unblock "bad.org") ({["bad.org"]}, ∅)).
Proof.
  unshelve epose proof (changes_refine (Ok EmptyString) RemoveRule (request EmptyString ["alice"; "bad.org"; "block"])
    (example_service EmptyString) "alice" (Unblock "bad.org") ({["bad.org"]}, ∅) _ _ _) as Hr; [by_eval..|].
  destruct (handler _ _ _ _) as [resp s']. destruct Hr as (H1 & H2 & _). by split.
Defined.

Lemma changes_answered_witness :
  let '(resp, s') :=
    handler (G := ListRequest.t) (Ok EmptyString) AddRedirect (request EmptyString ["alice"; EmptyString; "10.0.0.1"])
      (example_service EmptyString) in
  status resp = StatusBadRequest ∧ s' = example_service EmptyString.
Proof.
  exact (changes_answered (Ok EmptyString) AddRedirect (request EmptyString ["alice"; EmptyString; "10.0.0.1"])
    (example_service EmptyString) eq_refl).
Defined.

Lemma serve_protected_witness :
  let route := ("POST", "/api/v1/rules", true, AddRule) in
  serve (G := ListRequest.t) (Ok EmptyString) route (request "Bearer  secret extra" ["bob"; "x.org"; "block"]) (example_service "secret") =
  addRule (request "Bearer  secret extra" ["bob"; "x.org"; "block"]) (example_service "secret").
Proof.
  intros route.
  unshelve epose proof (serve_protected (Ok EmptyString) route (request "Bearer  secret extra" ["bob"; "x.org"; "block"])
    (example_service "secret") _ _) as [Hp _]; [by do 1 right; left | discriminate |].
  apply Hp. exists (runes "secret"). split; [|by_eval].
  exists [32; 32]%N, (runes " extra"). split_and!; by_eval.
Defined.

Lemma api_key_usable_witness :
  authMiddleware (request "Bearer secret" []) (example_service "secret") = None ∧
  ∃ resp, authMiddleware (request "Bearer two words" []) (example_service "two words") = Some resp ∧
    status resp = StatusUnauthorized.
Proof.
  split.
  - apply (api_key_usable (request "Bearer secret" []) (example_service "secret"));
      [apply is_ascii_valid; by_eval | discriminate | reflexivity].
  - apply (api_key_usable (request "Bearer two words" []) (example_service "two words"));
      [apply is_ascii_valid; by_eval | discriminate].
Defined.

End Admin.
