(* ===== verification/AdminProgram.v ===== *)
(** * The admin API as a program: src/cmd/adminapi/main.go

    [Module AdminAPI] has [main]: the service it starts from its environment, or its exit
    code, and the requests it serves until it ends.  The program implements an abstract
    service whose state is the settings of every user. *)

From S2P Require Import Prelude.
From S2P Require Import GoStrings.
From Stdlib Require Import Strings.Ascii Strings.String.
From S2P Require Import GoUtf8.
From S2P Require Import GoScan.
From S2P Require Import External.
From S2P Require Import Models.
From S2P Require Import Config.
From S2P Require Import Sync.
From S2P Require Import Admin.
Import Utf8 Scan.

Local Open Scope go_scope.

Module AdminAPI.

(** A program that exits with a code, or goes on. *)
Inductive started (A : Type) := Exit (code : Z) | Running (a : A).
Arguments Exit {A} code.
Arguments Running {A} a.

Section adminapi.
Context {G R K : Type} `{GinContext G, !GinBinding G Admin.ruleRequest, !GinBinding G Admin.redirectRequest}.
Context `{RedisClient R, !ClickHouseQuery Admin.summaryRow K, !ClickHouseQuery Admin.logEntry K}.

Variable driver : ch_driver K.

(** The options of the connection. *)
Definition ch_options (s : Config.admin_settings) : ch_Options := {|
  opt_Addr := [Config.a_chAddr s];
  opt_Database := Config.a_chDB s; opt_Username := Config.a_chUser s; opt_Password := Config.a_chPass s;
  opt_Settings := [("max_execution_time", 60%Z)];
  opt_Compression := "LZ4";
  opt_MaxOpenConns := 5; opt_MaxIdleConns := 2; opt_ConnMaxLifetime := 3600 * 1000000000
|}.

Definition connect_clickhouse (s : Config.admin_settings) : option K :=
  match ch_Open driver (ch_options s) with
  | Err _ => None
  | Ok chConn =>
      match ch_Ping driver chConn with
      | (Err _, _) => None
      | (Ok _, chConn) => Some chConn
      end
  end.

(** [main] up to the start of the server. *)
Definition main (E : Config.environment) (rdb : R) : started (Admin.t R K) :=
  let s := Config.read_admin_settings E in
  match Ping rdb with
  | (Err _, _) => Exit 1
  | (Ok _, rdb) =>
      let chConn := connect_clickhouse s in
      Running (Admin.New rdb chConn (Config.a_apiKey s))
  end.

Variable index : result string string.

(** The end of the program: the address cannot be listened on, or a signal arrives after
    some requests.  Closing the ClickHouse connection has no effect on what it holds. *)
Inductive ending := ListenFailed | Signalled (served : list (string * string * bool * Admin.endpoint * G)).

Fixpoint serve_all (reqs : list (string * string * bool * Admin.endpoint * G)) (s : Admin.t R K) :
    list Admin.Response * Admin.t R K :=
  match reqs with
  | [] => ([], s)
  | (route, c) :: reqs =>
      let '(resp, s) := Admin.serve index route c s in
      let '(resps, s) := serve_all reqs s in
      (resp :: resps, s)
  end.

(** The whole program: its exit code, the responses, and the service at its end. *)
Definition life (E : Config.environment) (rdb : R) (fin : ending) : Z * list Admin.Response * option (Admin.t R K) :=
  match main E rdb with
  | Exit code => (code, [], None)
  | Running s =>
      match fin with
      | ListenFailed => (1%Z, [], Some s)
      | Signalled reqs => let '(resps, s) := serve_all reqs s in (0%Z, resps, Some s)
      end
  end.

(** The start of the admin API: it exits with code 1 exactly when Redis does not answer,
    whether or not ClickHouse does; otherwise it serves every route to everyone when
    ADMIN_API_KEY is unset or empty, and with a key set only to the requests that present
    it, the dashboard apart. *)
Theorem adminapi_access (E : Config.environment) (rdb : R) :
  match main E rdb with
  | Exit code => code = 1%Z ∧ is_ok (Ping rdb).1 = false
  | Running s =>
      is_ok (Ping rdb).1 = true ∧ Admin.chdb s = connect_clickhouse (Config.read_admin_settings E) ∧
      ∀ route c, route ∈ Admin.routes → let e := route.2 in
        match E "ADMIN_API_KEY" with
        | None | Some EmptyString => Admin.serve index route c s = Admin.handler index e c s
        | Some key =>
            (Admin.presents (GetHeader c "Authorization") key → Admin.serve index route c s = Admin.handler index e c s) ∧
            (¬ Admin.presents (GetHeader c "Authorization") key → (Admin.serve index route c s).2 = s ∧
               (Admin.status (Admin.serve index route c s).1 = Admin.StatusUnauthorized ∨ e = Admin.Dashboard))
        end
  end.
Proof.
  unfold main. destruct (Ping rdb) as [[[]|err] rdb']; [|done]. split; [done|]. split; [done|]. intros route c Hin.
  cbn [Config.read_admin_settings Config.a_apiKey]. unfold Config.env.
  destruct (E "ADMIN_API_KEY") as [[|ch key]|]; try (by apply Admin.serve_open).
  pose proof (Admin.serve_protected index route c
    (Admin.New rdb' (connect_clickhouse (Config.read_admin_settings E)) (String ch key)) Hin) as Hs.
  destruct route as [[[meth path] auth] e]. by apply Hs.
Qed.
End adminapi.

(** *** The program as an abstract service

    The state of the abstract service is the settings of every user; a request changes it by
    [apply_change] or not at all. *)

Section session.
Context {G R K : Type} `{GinContext G, !GinBinding G Admin.ruleRequest, !GinBinding G Admin.redirectRequest}.
Context `{RedisClient R, RedisView R, !RedisLaws R}.
Context `{!ClickHouseQuery Admin.summaryRow K, !ClickHouseQuery Admin.logEntry K}.
Variable index : result string string.
Implicit Types (s : Admin.t R K) (c : G).

Abbreviation abstract := (string → gset string * gmap string string).
Implicit Types σ : abstract.

(** Whether a request passes the middleware; the answer depends on the key of [s0] only. *)
Definition passes s0 (auth : bool) c : bool :=
  negb auth || match Admin.authMiddleware c s0 with None => true | Some _ => false end.

(** The change a request makes, and its effect. *)
Definition change_of s0 (req : string * string * bool * Admin.endpoint * G) : option (string * Admin.change) :=
  let '((_, _, auth, e), c) := req in if passes s0 auth c then Admin.requested e c else None.

Definition effect (uc : string * Admin.change) σ : abstract :=
  λ u, if decide (u = uc.1) then Admin.apply_change uc.2 (σ u) else σ u.

Definition advance s0 (req : string * string * bool * Admin.endpoint * G) σ : abstract :=
  match change_of s0 req with Some uc => effect uc σ | None => σ end.

(** What the response to a request says, when the settings are [σ]. *)
Definition explained s0 σ (req : string * string * bool * Admin.endpoint * G) (resp : Admin.Response) : Prop :=
  let '((_, _, auth, e), c) := req in
  let u := c_Query c "user_id" in
  if passes s0 auth c then
    match e with
    | Admin.AddRule | Admin.RemoveRule | Admin.AddRedirect | Admin.RemoveRedirect =>
        Admin.status resp = match Admin.requested e c with Some _ => Admin.StatusOK | None => Admin.StatusBadRequest end
    | Admin.ListRules =>
        if String.eqb u EmptyString then Admin.status resp = Admin.StatusBadRequest
        else ∃ ds, resp = Admin.JSON Admin.StatusOK (Admin.Domains u ds) ∧ ds ≡ₚ elements (σ u).1
    | Admin.ListRedirects =>
        if String.eqb u EmptyString then Admin.status resp = Admin.StatusBadRequest
        else resp = Admin.JSON Admin.StatusOK (Admin.Redirects u (σ u).2)
    | Admin.Dashboard | Admin.AnalyticsSummary | Admin.AnalyticsLogs => True
    end
  else Admin.status resp = Admin.StatusUnauthorized.

Fixpoint all_explained s0 σ (reqs : list (string * string * bool * Admin.endpoint * G)) (resps : list Admin.Response) : Prop :=
  match reqs, resps with
  | [], [] => True
  | req :: reqs, resp :: resps => explained s0 σ req resp ∧ all_explained s0 (advance s0 req σ) reqs resps
  | _, _ => False
  end.

(** The events that announce the changes. *)
Definition announced (ucs : list (string * Admin.change)) : list (string * string) :=
  (λ uc, (Sync.ConfigChannel, Sync.Encode (Sync.mkEvent uc.1 Sync.ActionClearCache))) <$> ucs.

(** The service [s] holds the settings [σ]. *)
Definition holds s0 σ s : Prop :=
  Admin.apiKey s = Admin.apiKey s0 ∧ redis_up (Admin.rdb s) = true ∧ ∀ u, Admin.settings (Admin.rdb s) u = Some (σ u).

Lemma authMiddleware_key c s s' : Admin.apiKey s = Admin.apiKey s' → Admin.authMiddleware c s = Admin.authMiddleware c s'.
Proof. intros E. unfold Admin.authMiddleware. by rewrite E. Qed.

(** A handler that is not an update leaves Redis and the key alone, and a list handler
    answers with the settings. *)
Lemma handler_reads s0 σ s e c : holds s0 σ s → Admin.requested e c = None →
  let '(resp, s') := Admin.handler index e c s in
  Admin.rdb s' = Admin.rdb s ∧ Admin.apiKey s' = Admin.apiKey s ∧ explained s0 σ ((EmptyString, EmptyString, false, e), c) resp.
Proof.
  intros (_ & Hup & Hst) Hreq.
  destruct e; cbn [Admin.handler Admin.requested explained passes negb orb] in *;
    try (unfold Admin.addRule, Admin.removeRule, Admin.addRedirect, Admin.removeRedirect;
         destruct (ShouldBindJSON c); [discriminate|done]).
  - unfold Admin.dashboardHandler. by destruct index.
  - destruct (String.eqb_spec (c_Query c "user_id") EmptyString) as [E|E]; [unfold Admin.listRules; by rewrite E|].
    specialize (Hst (c_Query c "user_id")). destruct (σ (c_Query c "user_id")) as [B M].
    destruct (Admin.lists_read c s B M Hup E Hst) as [(ds & -> & Hds) _]. split; [done|]. split; [done|]. by exists ds.
  - destruct (String.eqb_spec (c_Query c "user_id") EmptyString) as [E|E]; [unfold Admin.listRedirects; by rewrite E|].
    specialize (Hst (c_Query c "user_id")). destruct (σ (c_Query c "user_id")) as [B M].
    destruct (Admin.lists_read c s B M Hup E Hst) as [_ ->]. done.
  - unfold Admin.analyticsSummary. destruct (String.eqb _ _); [done|]. destruct (Admin.chdb s); [|done].
    by destruct (ch_Query _ _ _) as [[]].
  - unfold Admin.analyticsLogs. destruct (String.eqb _ _); [done|]. destruct (Admin.chdb s); [|done].
    by destruct (ch_Query _ _ _) as [[]].
Qed.

Definition changes_of s0 (reqs : list (string * string * bool * Admin.endpoint * G)) : list (string * Admin.change) :=
  omap (change_of s0) reqs.

(** One request of the service is one step of the abstract service. *)
Lemma serve_simulates s0 σ s (route : string * string * bool * Admin.endpoint) c : holds s0 σ s →
  let '(resp, s') := Admin.serve index route c s in
  holds s0 (advance s0 (route, c) σ) s' ∧ explained s0 σ (route, c) resp ∧
  redis_published (Admin.rdb s') = redis_published (Admin.rdb s) ++ announced (changes_of s0 [(route, c)]).
Proof.
  intros Hs. pose proof Hs as (Hkey & Hup & Hst). destruct route as [[[meth path] auth] e].
  unfold Admin.serve, advance, changes_of. cbn [omap list_omap change_of explained]. unfold passes.
  rewrite <- (authMiddleware_key c s s0 Hkey).
  assert (Hh : let '(resp, s') := Admin.handler index e c s in
    holds s0 (match Admin.requested e c with Some uc => effect uc σ | None => σ end) s' ∧
    explained s0 σ ((meth, path, false, e), c) resp ∧
    redis_published (Admin.rdb s') = redis_published (Admin.rdb s) ++
      announced (match Admin.requested e c with Some uc => [uc] | None => [] end)).
  { destruct (Admin.requested e c) as [[u ch]|] eqn:Hreq.
    - pose proof (Admin.handler_change index e c s u ch Hreq Hup (ex_intro _ _ (Hst u))) as Hd.
      destruct (Admin.handler index e c s) as [resp s']. cbn [fst snd] in Hd. destruct Hd as (Hok & Hup' & Hu & Hother & Hpub & _ & Hk & _).
      split; [|split; [|exact Hpub]].
      + split; [congruence|]. split; [done|]. intros v. unfold effect. cbn [fst snd].
        destruct (decide (v = u)) as [->|Hne]; [by apply Hu|by rewrite Hother].
      + unfold explained, passes. cbn [negb orb].
        destruct e; try discriminate; by rewrite Hreq.
    - pose proof (handler_reads s0 σ s e c Hs Hreq) as Hr. destruct (Admin.handler index e c s) as [resp s'].
      destruct Hr as (Hr & Hk & He). rewrite app_nil_r. split; [|split; [exact He|by rewrite Hr]].
      split; [congruence|]. by rewrite Hr. }
  destruct auth; cbn [negb orb].
  - destruct (Admin.authMiddleware c s) as [resp|] eqn:Ha.
    + cbn. rewrite app_nil_r. split; [done|]. split; [by eapply Admin.authMiddleware_401|done].
    + destruct (Admin.handler index e c s) as [resp s']. exact Hh.
  - destruct (Admin.handler index e c s) as [resp s']. exact Hh.
Qed.

Lemma serve_all_simulates s0 reqs σ s : holds s0 σ s →
  let '(resps, s') := serve_all index reqs s in
  holds s0 (foldl (λ σ req, advance s0 req σ) σ reqs) s' ∧ all_explained s0 σ reqs resps ∧
  redis_published (Admin.rdb s') = redis_published (Admin.rdb s) ++ announced (changes_of s0 reqs).
Proof.
  revert σ s. induction reqs as [|[route c] reqs IH]; intros σ s Hs; [cbn; by rewrite app_nil_r|].
  cbn [serve_all]. pose proof (serve_simulates s0 σ s route c Hs) as H1s.
  destruct (Admin.serve index route c s) as [resp s1]. destruct H1s as (Hs1 & He1 & Hp1).
  specialize (IH _ s1 Hs1). destruct (serve_all index reqs s1) as [resps s2]. destruct IH as (Hs2 & He2 & Hp2).
  split; [exact Hs2|]. split; [by split|]. rewrite Hp2, Hp1, <- app_assoc. f_equal.
  unfold announced. rewrite <- fmap_app. f_equal. unfold changes_of. by rewrite <- omap_app.
Qed.

(** C8: The admin API implements the abstract service: started with Redis answering and the
    keys of every user of the right type, it serves any requests to its routes until a
    signal ends it with code 0; each is answered as the settings of that moment say, a list
    by what they hold and an update by its success, those that do not present the key by
    401; at the end the settings of every user are the first ones with the admitted changes
    made in order, and each of these has been announced by one event, in order. *)
Theorem adminapi_refines driver (E : Config.environment) (rdb : R) σ reqs :
  redis_up rdb = true → (∀ u, Admin.settings rdb u = Some (σ u)) →
  ∃ s0 resps s, main driver E rdb = Running s0 ∧
    life driver index E rdb (Signalled reqs) = (0%Z, resps, Some s) ∧
    all_explained s0 σ reqs resps ∧
    (∀ u, Admin.settings (Admin.rdb s) u = Some (foldl (λ σ uc, effect uc σ) σ (changes_of s0 reqs) u)) ∧
    redis_published (Admin.rdb s) = redis_published rdb ++ announced (changes_of s0 reqs).
Proof.
  intros Hup Hst. unfold life, main. rewrite Ping_up by done.
  set (s0 := Admin.New rdb _ _). assert (Hs0 : holds s0 σ s0) by done.
  pose proof (serve_all_simulates s0 reqs σ s0 Hs0) as Hr. destruct (serve_all index reqs s0) as [resps s].
  destruct Hr as ((_ & _ & Hfin) & He & Hp). exists s0, resps, s. split; [done|]. split; [done|]. split; [done|].
  split; [|exact Hp]. intros u. rewrite Hfin. do 2 f_equal. clear. revert σ.
  induction reqs as [|req reqs IH]; intros σ; [done|]. cbn [foldl]. rewrite IH. unfold changes_of, advance.
  cbn [omap list_omap]. by destruct (change_of s0 req).
Qed.
End session.
(** ** Concrete instances of the hypotheses *)

#[local] Existing Instance Admin.rule_binding.
#[local] Existing Instance Admin.redirect_binding.
#[local] Existing Instance Admin.select_summaries.
#[local] Existing Instance Admin.select_logs.

Definition admin_env : Config.environment := λ k, if String.eqb k "ADMIN_API_KEY" then Some "secret" else None.

Definition no_clickhouse : ch_driver Admin.select_db := {| ch_Open _ := Err "refused"; ch_Ping k := (Ok tt, k) |}.

Lemma adminapi_access_witness :
  ∃ s, main no_clickhouse admin_env MapRedis.empty =
      Running s ∧
    Admin.serve (G := ListRequest.t) (Ok EmptyString) ("POST", "/api/v1/rules", true, Admin.AddRule)
      (Admin.request "Bearer secret" ["bob"; "x.org"; "block"]) s =
    Admin.addRule (Admin.request "Bearer secret" ["bob"; "x.org"; "block"]) s.
Proof.
  pose proof (adminapi_access (G := ListRequest.t) no_clickhouse (Ok EmptyString) admin_env MapRedis.empty) as Ha.
  destruct (main _ _ _) as [code|s]; [destruct Ha as [_ Ha]; discriminate|].
  exists s. split; [reflexivity|]. destruct Ha as (_ & _ & Ha).
  destruct (Ha ("POST", "/api/v1/rules", true, Admin.AddRule) (Admin.request "Bearer secret" ["bob"; "x.org"; "block"]))
    as [Hp _]; [by do 1 right; left|]. apply Hp. exists (runes "secret"). split; [|by_eval].
  exists [32]%N, []. split_and!; by_eval.
Defined.

(** A rule is added, listed and refused to a caller without the key. *)
Definition example_requests : list (string * string * bool * Admin.endpoint * ListRequest.t) :=
  [(("POST", "/api/v1/rules", true, Admin.AddRule), Admin.request "Bearer secret" ["alice"; "x.org"; "block"]);
   (("DELETE", "/api/v1/rules", true, Admin.RemoveRule), Admin.request "Bearer guess" ["alice"; "x.org"; "block"]);
   (("GET", "/api/v1/rules", true, Admin.ListRules), Admin.request "Bearer secret" [])].

Lemma adminapi_refines_witness :
  ∃ resps s, life (G := ListRequest.t) no_clickhouse (Ok EmptyString)
      admin_env MapRedis.empty (Signalled example_requests) = (0%Z, resps, Some s) ∧
    Admin.settings (Admin.rdb s) "alice" = Some ({["x.org"]}, ∅).
Proof.
  assert (Hup : redis_up MapRedis.empty = true) by reflexivity.
  assert (Hempty : ∀ u, Admin.settings MapRedis.empty u = Some (∅, ∅)) by (intros u; reflexivity).
  destruct (adminapi_refines (G := ListRequest.t) (Ok EmptyString) no_clickhouse admin_env MapRedis.empty (λ _, (∅, ∅)) example_requests Hup
    Hempty) as (s0 & resps & s & Hm & Hl & _ & Hst & _).
  exists resps, s. split; [exact Hl|]. rewrite (Hst "alice"). injection Hm as <-. by_eval.
Defined.
End AdminAPI.
