(* ===== verification/EndToEnd.v ===== *)
(** * From a rule change to the decisions it governs

    The admin service and the edge process share one Redis server (cmd/adminapi and
    cmd/edgedns): a change written by a handler of [Admin] is followed by an event on the
    configuration channel, which the worker of [Sync] turns into [Rule.ClearUserCache].
    [System] joins the three: the lookup that follows a delivered change, and the two ways in
    which a change does not govern a decision: a rule that is stored as it was typed, and a
    decision that was being taken while the change arrived.  [Cluster] runs the two programs
    and their clients with all their interleavings. *)

From S2P Require Import Prelude.
From S2P Require Import GoStrings.
From Stdlib Require Import Strings.Ascii Strings.String.
From S2P Require Import GoUtf8.
From S2P Require Import External.
From S2P Require Import Models.
From S2P Require Import Checker.
From S2P Require Import Redirect.
From S2P Require Import Interleaving.
From S2P Require Import Rule.
From S2P Require Import Handler.
From S2P Require Import Sync.
From S2P Require Import Admin.
Import Utf8 Checker Interleaving.

Local Open Scope go_scope.

Module System.

Section system.
Context {G C R K : Type} `{UnicodeTables, GoCache cval C}.
Context `{GinContext G, !GinBinding G Admin.ruleRequest, !GinBinding G Admin.redirectRequest}.
Context `{RedisClient R, RedisView R}.
Context `{!ClickHouseQuery Admin.summaryRow K, !ClickHouseQuery Admin.logEntry K}.
Variable index : result string string.

Record system := mkSystem {
  service : Admin.t R K;
  edge : Rule.state C R;
}.

Definition request (e : Admin.endpoint) (g : G) (sys : system) : Admin.Response * system :=
  let '(resp, s) := Admin.handler index e g (service sys) in
  (resp, mkSystem s (Handler.connect (Admin.rdb s) (edge sys))).

(** The payloads published on the configuration channel since the server was [old]. *)
Definition events (old new : R) : list string :=
  omap (λ m : string * string, if String.eqb m.1 Sync.ConfigChannel then Some m.2 else None)
    (drop (List.length (redis_published old)) (redis_published new)).

(** cmd/edgedns: the worker of the edge, with [rule.ClearUserCache] as its evictor,
    receives the payloads at the instant [now]. *)
Definition deliver (now : Z) (payloads : list string) (sys : system) : outcome system :=
  r <-! Sync.StartSyncWorker (λ u st, Rule.ClearUserCache now st u) [Sync.Subscribed payloads] (edge sys) ;;
  Ret (mkSystem (service sys) r.1).

(** A request to the service, and the delivery of what it publishes. *)
Definition request_and_deliver (now : Z) (e : Admin.endpoint) (g : G) (sys : system) :
    outcome (Admin.Response * system) :=
  let '(resp, sys1) := request e g sys in
  sys2 <-! deliver now (events (Admin.rdb (service sys)) (Admin.rdb (service sys1))) sys1 ;;
  Ret (resp, sys2).

End system.
Arguments system : clear implicits.

(** ** A change takes effect *)

Section effect.
Context {G C R K : Type} `{UnicodeTables, GoCache cval C, !GoCacheLaws cval C}.
Context `{GinContext G, !GinBinding G Admin.ruleRequest, !GinBinding G Admin.redirectRequest}.
Context `{!GinBindingLaws G Admin.ruleRequest Admin.rule_fields}.
Context `{!GinBindingLaws G Admin.redirectRequest Admin.redirect_fields}.
Context `{RedisClient R, RedisView R, !RedisLaws R}.
Context `{!ClickHouseQuery Admin.summaryRow K, !ClickHouseQuery Admin.logEntry K}.
Variable index : result string string.
Implicit Types (sys : system C R K) (g : G).

(** The user of a change is a non-empty valid string. *)
Lemma requested_user e g u ch : Admin.requested e g = Some (u, ch) → u ≠ EmptyString ∧ valid (chars u).
Proof.
  destruct e; try discriminate; cbn [Admin.requested];
    destruct (ShouldBindJSON g) as [q|] eqn:E; try discriminate; intros [= <- _];
    apply bound_fields in E; by apply Forall_cons in E as [E _].
Qed.

Lemma clear_event u : u ≠ EmptyString → valid (chars u) →
  Sync.DecodeEvent (Sync.Encode (Sync.mkEvent u Sync.ActionClearCache)) =
  Ret (Ok (Sync.mkEvent u Sync.ActionClearCache)).
Proof.
  intros Hne%String.eqb_neq Hv. apply Sync.DecodeEvent_Encode_ok; [done|].
  unfold Sync.Validate. cbn [Sync.UserID Sync.Action]. by rewrite Hne.
Qed.

(** The state after a change and its delivery. *)
Definition changed_state (now : Z) (c : Checker.t C R) (r : R) (u : string) : Checker.t C R :=
  Checker.ClearUserCache now (Checker.mk (cache c) r (fallback c) (enabled c)) u.

Lemma request_and_deliver_change now e g sys u ch c B M :
  Admin.requested e g = Some (u, ch) → redis_up (Admin.rdb (service sys)) = true →
  Admin.settings (Admin.rdb (service sys)) u = Some (B, M) → Rule.global (edge sys) = Some c →
  ∃ resp s, request_and_deliver index now e g sys =
    Ret (resp, mkSystem s (Rule.mkState (Some (changed_state now c (Admin.rdb s) u)) (Rule.totalChecks (edge sys)))) ∧
    Admin.status resp = Admin.StatusOK ∧ redis_up (Admin.rdb s) = true ∧
    Admin.settings (Admin.rdb s) u = Some (Admin.apply_change ch (B, M)).
Proof.
  intros Hreq Hup Hst Hc. pose proof (requested_user e g u ch Hreq) as [Hu Hv].
  pose proof (Admin.handler_change index e g (service sys) u ch Hreq Hup (ex_intro _ _ Hst)) as Hd.
  unfold request_and_deliver, request. destruct (Admin.handler index e g (service sys)) as [resp s].
  cbn [fst snd] in Hd. destruct Hd as (Hok & Hup' & Hst' & _ & Hpub & _). exists resp, s. split; [|auto].
  unfold events. cbn [service]. rewrite Hpub, drop_app_length. cbn [omap list_omap fst snd].
  rewrite String.eqb_refl. unfold deliver, Sync.StartSyncWorker. cbn [Sync.run Sync.subscribe Sync.handle_all].
  unfold Sync.handleMessage. rewrite clear_event by done. cbn [outcome_bind Sync.Action Sync.UserID].
  rewrite String.eqb_refl. cbn [outcome_bind fst snd edge service].
  unfold Handler.connect. rewrite Hc. reflexivity.
Qed.

(** The decisions of a checker that has nothing cached for the user. *)
Lemma decisions_fresh t t1 now c r u d B M total :
  enabled c = true → redis_up r = true → Admin.settings r u = Some (B, M) → (now ≤ t)%Z →
  let st := Rule.mkState (Some (changed_state now c r u)) total in
  (∃ v st', Rule.CheckRule t t1 st u d = Ret (v, st') ∧
     (v = 1%Z ↔ blocked_by B (fallback c) (normalize (normalize d)))) ∧
  match (Rule.GetRedirectDomain t t1 st u d).1 with
  | (ip, true) => Redirect.redirects_to M (normalize d) ip
  | (ip, false) => ip = EmptyString ∧ Redirect.not_redirected M (normalize d)
  end.
Proof.
  intros Hen Hup [HB HM]%Admin.settings_some Ht st.
  assert (Hmiss : ∀ k, clears u k = true → cache_Get (cache (changed_state now c r u)) t k = None).
  { intros k Hk. unfold changed_state. rewrite ClearUserCache_get by done. by rewrite Hk. }
  split.
  - unfold Rule.CheckRule, st. cbn [Rule.global]. rewrite Check_miss by apply Hmiss, clears_own.
    destruct (redis_decision_up (changed_state now c r u) u (normalize (normalize d)) B Hen Hup HB) as (b & Hb & Hspec).
    cbn [outcome_bind fst snd]. do 2 eexists. split; [done|]. rewrite Hb. cbn [fst].
    change (fallback c) with (fallback (changed_state now c r u)). rewrite <- Hspec.
    by destruct (b || _).
  - unfold Rule.GetRedirectDomain, st. cbn [Rule.global].
    pose proof (Redirect.GetRedirect_spec t t1 (changed_state now c r u) u d M Hen Hup HM (Hmiss _ (proj2 (clears_own u _)))) as Hs.
    unfold Redirect.redirect_answer in Hs. by destruct (GetRedirect t t1 (changed_state now c r u) u d) as [[ip ok] c'].
Qed.

(** Once an update has been answered and its event delivered, at [now], with nothing in
    between, the next lookup of any name for that user, at any later instant, decides as the
    changed rules and redirects say, whatever had been cached before.  [Cluster] has the
    lookups after the next, the other users, and what comes in between. *)
Lemma next_lookup_fresh now e g sys u ch c B M :
  Admin.requested e g = Some (u, ch) → redis_up (Admin.rdb (service sys)) = true →
  Admin.settings (Admin.rdb (service sys)) u = Some (B, M) →
  Rule.global (edge sys) = Some c → enabled c = true →
  let '(B', M') := Admin.apply_change ch (B, M) in
  ∃ resp sys', request_and_deliver index now e g sys = Ret (resp, sys') ∧
    Admin.status resp = Admin.StatusOK ∧
    ∀ t t1 d, (now ≤ t)%Z →
      (∃ v st', Rule.CheckRule t t1 (edge sys') u d = Ret (v, st') ∧
         (v = 1%Z ↔ blocked_by B' (fallback c) (normalize (normalize d)))) ∧
      match (Rule.GetRedirectDomain t t1 (edge sys') u d).1 with
      | (ip, true) => Redirect.redirects_to M' (normalize d) ip
      | (ip, false) => ip = EmptyString ∧ Redirect.not_redirected M' (normalize d)
      end.
Proof.
  intros Hreq Hup Hst Hc Hen.
  destruct (request_and_deliver_change now e g sys u ch c B M Hreq Hup Hst Hc) as (resp & s & Hrun & Hok & Hup' & Hst').
  destruct (Admin.apply_change ch (B, M)) as [B' M']. do 2 eexists. split; [exact Hrun|]. split; [done|].
  intros t t1 d Ht. by apply decisions_fresh.
Qed.

(** ** Rules are stored as typed *)

Definition has_upper (s : string) : bool := existsb is_upper_byte (chars s).

Lemma has_upper_app s s' : has_upper (s +:+ s') = has_upper s || has_upper s'.
Proof. unfold has_upper. by rewrite chars_app, existsb_app. Qed.

Lemma covers_upper rule d : covers rule d → has_upper d = false → has_upper rule = false.
Proof.
  intros [->|(pre & parent & -> & -> & _)]; [done|]. rewrite !has_upper_app. intros Hd.
  apply orb_false_iff in Hd as [_ Hd]. by apply orb_false_iff in Hd as [_ ->].
Qed.

Lemma normalize_upper d : is_ascii d = true → has_upper (normalize d) = false ∧ is_ascii (normalize d) = true.
Proof.
  intros Ha. apply (is_ascii_TrimSuffix d ".") in Ha. unfold normalize. rewrite ToLower_ascii by done.
  apply lower_ascii_lower in Ha. unfold is_lower in Ha. unfold has_upper, is_ascii.
  generalize dependent (chars (lower_ascii (TrimSuffix d "."))). intros l Hl. rewrite forallb_forall in Hl.
  split.
  - apply not_true_iff_false. intros (a & Hin & Hup)%existsb_exists. apply Hl in Hin.
    rewrite Hup in Hin. by destruct (is_ascii_byte a).
  - apply forallb_forall. intros a Hin. apply Hl in Hin. by destruct (is_ascii_byte a).
Qed.

(** A rule with an upper-case letter covers no name that is looked up. *)
Lemma upper_rule_inert rule B fb d : has_upper rule = true → is_ascii d = true →
  blocked_by (B ∪ {[rule]}) fb (normalize (normalize d)) ↔ blocked_by B fb (normalize (normalize d)).
Proof.
  intros Hr Hd. destruct (normalize_upper d Hd) as [_ Hd1]. destruct (normalize_upper _ Hd1) as [Hd2 _].
  unfold blocked_by. f_equiv. split; [|set_solver].
  intros (r & Hin & Hc). exists r. split; [|done]. apply elem_of_union in Hin as [?| ->%elem_of_singleton]; [done|].
  apply covers_upper in Hc; [|done]. congruence.
Qed.

(** C38: The service stores a rule as it was typed, the checker asks for lower-case names: a
    rule with an upper-case letter is answered with success, stored and published, and no
    decision on an ASCII name changes. *)
Theorem typed_rule_inert now g sys u dom c B M :
  Admin.requested Admin.AddRule g = Some (u, Admin.Block dom) → has_upper dom = true →
  redis_up (Admin.rdb (service sys)) = true →
  Admin.settings (Admin.rdb (service sys)) u = Some (B, M) →
  Rule.global (edge sys) = Some c → enabled c = true →
  ∃ resp sys', request_and_deliver index now Admin.AddRule g sys = Ret (resp, sys') ∧
    Admin.status resp = Admin.StatusOK ∧
    Admin.settings (Admin.rdb (service sys')) u = Some (B ∪ {[dom]}, M) ∧
    ∀ t t1 d, (now ≤ t)%Z → is_ascii d = true →
      ∃ v st', Rule.CheckRule t t1 (edge sys') u d = Ret (v, st') ∧
        (v = 1%Z ↔ blocked_by B (fallback c) (normalize (normalize d))).
Proof.
  intros Hreq Hdom Hup Hst Hc Hen.
  destruct (request_and_deliver_change now Admin.AddRule g sys u _ c B M Hreq Hup Hst Hc)
    as (resp & s & Hrun & Hok & Hup' & Hst').
  do 2 eexists. split; [exact Hrun|]. split; [done|]. split; [exact Hst'|]. intros t t1 d Ht Hd.
  destruct (decisions_fresh t t1 now c (Admin.rdb s) u d _ M (Rule.totalChecks (edge sys)) Hen Hup' Hst' Ht)
    as [(v & st' & Hrun' & Hv) _].
  exists v, st'. split; [done|]. rewrite Hv. by apply upper_rule_inert.
Qed.

(** ** A decision in progress *)

(** The eviction does not reach a decision in progress: when one goroutine has read the
    rules before a change and stores its decision after the event has been handled, the
    decision of the old rules is served for the whole lifetime of the entry. *)
Theorem decision_in_progress_stale now e g sys u ch c B M d t1 :
  Admin.requested e g = Some (u, ch) → redis_up (Admin.rdb (service sys)) = true →
  Admin.settings (Admin.rdb (service sys)) u = Some (B, M) →
  Rule.global (edge sys) = Some c → enabled c = true → rdb c = Admin.rdb (service sys) →
  let '(v, _) := Check_read c u d in
  (v = true ↔ blocked_by B (fallback c) (normalize d)) ∧
  ∃ resp sys' c', request_and_deliver index now e g sys = Ret (resp, sys') ∧
    Admin.settings (Admin.rdb (service sys')) u = Some (Admin.apply_change ch (B, M)) ∧
    Rule.global (edge sys') = Some c' ∧
    ∀ t t', (t1 ≤ t < t1 + cache_expiration (cache c))%Z →
      let c'' := Check_store t1 c' u d v in
      Check t t' c'' u d = Ret (if v then 1%Z else 0%Z, c'').
Proof.
  intros Hreq Hup Hst Hc Hen Hr. pose proof Hst as [HB HM]%Admin.settings_some.
  rewrite <- Hr in Hup, HB. destruct (redis_decision_up c u (normalize d) B Hen Hup HB) as (b & Hb & Hspec).
  rewrite Hr in Hup.
  unfold Check_read, fallbackCheck. rewrite Hb. split.
  { rewrite <- Hspec. by destruct b, (fallback_loop (fallback c) (normalize d)). }
  destruct (request_and_deliver_change now e g sys u ch c B M Hreq Hup Hst Hc) as (resp & s & Hrun & _ & _ & Hst').
  do 3 eexists. split; [exact Hrun|]. split; [exact Hst'|]. split; [done|].
  intros t t' Ht.
  unfold Check, Check_store. cbn [cache]. rewrite get_after_set; [done|].
  unfold changed_state. by rewrite clear_expiration.
Qed.
End effect.

(** ** Concrete instances of the hypotheses *)
#[local] Existing Instance ascii_tables.
#[local] Existing Instance Admin.rule_binding.
#[local] Existing Instance Admin.redirect_binding.
#[local] Existing Instance Admin.rule_binding_laws.
#[local] Existing Instance Admin.select_summaries.
#[local] Existing Instance Admin.select_logs.

#[local] Instance redirect_binding_laws : GinBindingLaws ListRequest.t Admin.redirectRequest Admin.redirect_fields.
Proof. constructor. intros g q. apply ListRequest.bind_fields. Qed.

Definition example_system : system (MapCache.t cval) MapRedis.t Admin.select_db :=
  mkSystem (Admin.example_service EmptyString)
    (Rule.InitChecker (Admin.rdb (Admin.example_service EmptyString)) Rule.uninitialized).

Definition example_request (d : string) : ListRequest.t := Admin.request EmptyString ["alice"; d; "block"].

Lemma next_lookup_fresh_witness :
  ∃ resp sys', request_and_deliver (Ok EmptyString) 5 Admin.AddRule (example_request "*.games.net") example_system = Ret (resp, sys') ∧
    ∃ v st', Rule.CheckRule 6 7 (edge sys') "alice" "Www.Games.NET." = Ret (v, st') ∧
      (v = 1%Z ↔ blocked_by ({["bad.org"]} ∪ {["*.games.net"]}) default_fallback "www.games.net").
Proof.
  unshelve epose proof (next_lookup_fresh (Ok EmptyString) 5 Admin.AddRule (example_request "*.games.net") example_system
    "alice" (Admin.Block "*.games.net")
    (NewChecker (Admin.rdb (Admin.example_service EmptyString))) {["bad.org"]} ∅ _ _ _ _ _) as (resp & sys' & Hrun & _ & Hd);
    [by_eval..|].
  exists resp, sys'. split; [exact Hrun|]. destruct (Hd 6%Z 7%Z "Www.Games.NET." ltac:(lia)) as [Hc _]. exact Hc.
Defined.

Lemma typed_rule_inert_witness :
  ∃ resp sys', request_and_deliver (Ok EmptyString) 5 Admin.AddRule (example_request "Games.net") example_system = Ret (resp, sys') ∧
    ∃ v st', Rule.CheckRule 6 7 (edge sys') "alice" "Games.net" = Ret (v, st') ∧
      (v = 1%Z ↔ blocked_by {["bad.org"]} default_fallback "games.net").
Proof.
  unshelve epose proof (typed_rule_inert (Ok EmptyString) 5 (example_request "Games.net") example_system
    "alice" "Games.net" (NewChecker (Admin.rdb (Admin.example_service EmptyString))) {["bad.org"]} ∅ _ _ _ _ _ _)
    as (resp & sys' & Hrun & _ & _ & Hd); [by_eval..|].
  exists resp, sys'. split; [exact Hrun|]. exact (Hd 6%Z 7%Z "Games.net" ltac:(lia) eq_refl).
Defined.

Lemma decision_in_progress_stale_witness :
  (Check_read (NewChecker (Admin.rdb (Admin.example_service EmptyString)) : Checker.t (MapCache.t cval) MapRedis.t) "alice" "games.net").1 = false ∧
  ∃ resp sys' c', request_and_deliver (Ok EmptyString) 5 Admin.AddRule (example_request "games.net") example_system = Ret (resp, sys') ∧
    Admin.settings (Admin.rdb (service sys')) "alice" = Some ({["bad.org"]} ∪ {["games.net"]}, ∅) ∧
    Rule.global (edge sys') = Some c' ∧
    Check 7 8 (Check_store 6 c' "alice" "games.net" false) "alice" "games.net" =
      Ret (0%Z, Check_store 6 c' "alice" "games.net" false).
Proof.
  unshelve epose proof (decision_in_progress_stale (Ok EmptyString) 5 Admin.AddRule (example_request "games.net") example_system
    "alice" (Admin.Block "games.net") (NewChecker (Admin.rdb (Admin.example_service EmptyString))) {["bad.org"]} ∅
    "games.net" 6 _ _ _ _ _ _) as Hs; [by_eval..|].
  destruct (Check_read _ _ _) as [v r] eqn:E in Hs.
  assert (Hv : v = false) by (change v with (v, r).1; rewrite <- E; by_eval). subst v.
  destruct Hs as (_ & resp & sys' & c' & Hrun & Hst & Hc & Hck). split; [by_eval|].
  exists resp, sys', c'. split; [exact Hrun|]. split; [exact Hst|]. split; [exact Hc|].
  apply (Hck 7%Z 8%Z). split; [lia|]. by_eval.
Defined.
End System.
