(* ===== verification/Lifecycle.v ===== *)
(** * The life of the processes: cmd/edgedns, internal/server and cmd/sniproxy

    [Module Edge] runs the goroutines of cmd/edgedns as a transition system: the three DNS
    servers ([RunStd], [RunDoH], [RunDoT]) and the metrics server with their wait group and
    error channel, the log worker, and [main] with its [select] and its waits.  [Module
    Sni] does the same for cmd/sniproxy.  A step is labelled [Client] when it is the end of
    a client's connection, [Signal] when a signal arrives and [Process] otherwise, so that a
    theorem can say what happens while no client goes away or nobody sends a signal.

    A server that is told to shut down returns: [dns.Server.ShutdownContext] and
    [http.Server.Shutdown] are called with a context that is already cancelled. *)

From S2P Require Import Prelude.
From stdpp Require Import relations.

Module Lifecycle.

Inductive label := Client | Signal | Process.

(** ** Eventually: every maximal sequence of steps reaches [P] *)

Section eventually.
Context {A : Type} (step : A → A → Prop).

Inductive eventually (P : A → Prop) (s : A) : Prop :=
| ev_now : P s → eventually P s
| ev_step : (∃ s', step s s') → (∀ s', step s s' → eventually P s') → eventually P s.

(** An invariant under which some step is possible and every step decreases a measure. *)
Lemma eventually_measure (I P : A → Prop) (m : A → nat) :
  (∀ s, I s → P s ∨ ((∃ s', step s s') ∧ ∀ s', step s s' → I s' ∧ m s' < m s)) →
  ∀ s, I s → eventually P s.
Proof.
  intros Hstep s. assert (Hn : ∀ n s, m s < n → I s → eventually P s); [|apply (Hn (S (m s))); lia].
  clear s. intros n. induction n as [|n IH]; intros s Hm Hs; [lia|].
  destruct (Hstep s Hs) as [HP|[Hex Hall]]; [by apply ev_now|]. apply ev_step; [done|].
  intros s' Hs'. destruct (Hall s' Hs') as [HI Hlt]. apply IH; [lia|done].
Qed.
End eventually.

(** ** cmd/edgedns *)

Module Edge.

(** What [ctx.Err()] is once the context is cancelled. *)
Definition canceled : string := "context canceled".

(** *** RunStd

    [alive] counts the goroutines in [ListenAndServe]; each sends at most one error to the
    local channel, which has room for two. *)
Inductive std_st :=
| StdServing (alive : nat) (errs : list string)
| StdReturned (err : option string).

Inductive std_step (cancelled : bool) : std_st → std_st → Prop :=
| std_fail alive errs e : std_step cancelled (StdServing (S alive) errs) (StdServing alive (errs ++ [e]))
| std_done alive errs : cancelled = true → std_step cancelled (StdServing alive errs) (StdReturned (Some canceled))
| std_err alive errs e : std_step cancelled (StdServing alive (e :: errs)) (StdReturned (Some e)).

Definition std_result (s : std_st) : option (option string) :=
  match s with StdReturned err => Some err | _ => None end.

(** *** RunDoH, and the metrics server, which has no certificate to load *)
Inductive http_st :=
| HttpLoading
| HttpServing (closed : bool)
| HttpReturned (err : option string).

Inductive http_step (cancelled : bool) : http_st → http_st → Prop :=
| http_cert e : http_step cancelled HttpLoading (HttpReturned (Some e))
| http_start : http_step cancelled HttpLoading (HttpServing false)
| http_fail e : http_step cancelled (HttpServing false) (HttpReturned (Some e))
| http_shutdown : cancelled = true → http_step cancelled (HttpServing false) (HttpServing true)
| http_closed : http_step cancelled (HttpServing true) (HttpReturned None).

Definition http_result (s : http_st) : option (option string) :=
  match s with HttpReturned err => Some err | _ => None end.

(** *** RunDoT

    [conns] counts the connections in the wait group: the goroutines in
    [handleDoTConnection].  An [Accept] that fails before the context is cancelled is
    logged and tried again. *)
Inductive dot_st :=
| DotLoading
| DotServing (listening : bool) (conns : nat)
| DotDraining (conns : nat)
| DotReturned (err : option string).

Inductive dot_step (cancelled : bool) : label → dot_st → dot_st → Prop :=
| dot_fail e : dot_step cancelled Process DotLoading (DotReturned (Some e))
| dot_listen : dot_step cancelled Process DotLoading (DotServing true 0)
| dot_accept n : dot_step cancelled Process (DotServing true n) (DotServing true (S n))
| dot_retry l n : cancelled = false → dot_step cancelled Process (DotServing l n) (DotServing l n)
| dot_close n : cancelled = true → dot_step cancelled Process (DotServing true n) (DotServing false n)
| dot_stop l n : cancelled = true → dot_step cancelled Process (DotServing l n) (DotDraining n)
| dot_conn_end l n : dot_step cancelled Client (DotServing l (S n)) (DotServing l n)
| dot_drain n : dot_step cancelled Client (DotDraining (S n)) (DotDraining n)
| dot_drained : dot_step cancelled Process (DotDraining 0) (DotReturned (Some canceled)).

Definition dot_result (s : dot_st) : option (option string) :=
  match s with DotReturned err => Some err | _ => None end.

(** *** The goroutines of [main]

    [go func() { defer wg.Done(); if err := Run...; err != nil { errCh <- err } }()]: the
    function runs, its error is sent when the channel has room, and the goroutine is done. *)
Inductive go (A : Type) := GoRunning (a : A) | GoSend (err : string) | GoDone.
Arguments GoRunning {A} a.
Arguments GoSend {A} err.
Arguments GoDone {A}.

Definition errCh_cap : nat := 4.

Section go.
Context {A : Type} (loc : label → A → A → Prop) (res : A → option (option string)).

Inductive go_step : label → go A * list string → go A * list string → Prop :=
| go_local l a a' q : loc l a a' → go_step l (GoRunning a, q) (GoRunning a', q)
| go_failed a e q : res a = Some (Some e) → go_step Process (GoRunning a, q) (GoSend e, q)
| go_finished a q : res a = Some None → go_step Process (GoRunning a, q) (GoDone, q)
| go_send e q : List.length q < errCh_cap → go_step Process (GoSend e, q) (GoDone, q ++ [e]).
End go.

Definition is_done {A} (g : go A) : bool := match g with GoDone => true | _ => false end.

(** The local steps of a function whose steps do not depend on clients. *)
Definition own {A} (step : A → A → Prop) : label → A → A → Prop := λ l a a', l = Process ∧ step a a'.

Inductive main_st := Selecting | WaitingServers | WaitingWorker | Stopped.
#[export] Instance main_st_eq_dec : EqDecision main_st.
Proof. solve_decision. Defined.

(** [signal] is a signal in [sigCh]; [worker] is the log worker in its loop. *)
Record state := mk {
  cancelled : bool;
  signal : bool;
  errCh : list string;
  g_std : go std_st;
  g_doh : go http_st;
  g_dot : go dot_st;
  g_met : go http_st;
  worker : bool;
  main : main_st
}.

(** [main] up to its [select]: the goroutines have been started. *)
Definition start : state :=
  mk false false [] (GoRunning (StdServing 2 [])) (GoRunning HttpLoading) (GoRunning DotLoading)
    (GoRunning (HttpServing false)) true Selecting.

Definition all_done (s : state) : bool :=
  is_done (g_std s) && is_done (g_doh s) && is_done (g_dot s) && is_done (g_met s).

Inductive step : label → state → state → Prop :=
| step_signal c q std doh dot met w m :
    step Signal (mk c false q std doh dot met w m) (mk c true q std doh dot met w m)
| step_std l c sg q q' std std' doh dot met w m :
    go_step (own (std_step c)) std_result l (std, q) (std', q') →
    step l (mk c sg q std doh dot met w m) (mk c sg q' std' doh dot met w m)
| step_doh l c sg q q' std doh doh' dot met w m :
    go_step (own (http_step c)) http_result l (doh, q) (doh', q') →
    step l (mk c sg q std doh dot met w m) (mk c sg q' std doh' dot met w m)
| step_dot l c sg q q' std doh dot dot' met w m :
    go_step (dot_step c) dot_result l (dot, q) (dot', q') →
    step l (mk c sg q std doh dot met w m) (mk c sg q' std doh dot' met w m)
| step_met l c sg q q' std doh dot met met' w m :
    go_step (own (http_step c)) http_result l (met, q) (met', q') →
    step l (mk c sg q std doh dot met w m) (mk c sg q' std doh dot met' w m)
| step_worker sg q std doh dot met m :
    step Process (mk true sg q std doh dot met true m) (mk true sg q std doh dot met false m)
| step_on_signal c q std doh dot met w :
    step Process (mk c true q std doh dot met w Selecting) (mk true false q std doh dot met w WaitingServers)
| step_on_error c sg e q std doh dot met w :
    step Process (mk c sg (e :: q) std doh dot met w Selecting) (mk true sg q std doh dot met w WaitingServers)
| step_servers c sg q w :
    step Process (mk c sg q GoDone GoDone GoDone GoDone w WaitingServers)
                 (mk c sg q GoDone GoDone GoDone GoDone w WaitingWorker)
| step_stopped c sg q std doh dot met :
    step Process (mk c sg q std doh dot met false WaitingWorker) (mk c sg q std doh dot met false Stopped).

Definition any (s s' : state) : Prop := ∃ l, step l s s'.
Definition reachable (s : state) : Prop := rtc any start s.
(** The steps that are not the end of a connection. *)
Definition quiet (s s' : state) : Prop := ∃ l, l ≠ Client ∧ step l s s'.

(** *** Invariants *)

Definition live {A} (g : go A) : nat := if is_done g then 0 else 1.
Definition running (s : state) : nat := live (g_std s) + live (g_doh s) + live (g_dot s) + live (g_met s).

(** The phases of [main]: it leaves its [select] by cancelling, the wait group when the four
    servers are done, and the last wait when the worker is. *)
Definition phase_ok (s : state) : Prop :=
  match main s with
  | Selecting => cancelled s = false
  | WaitingServers => cancelled s = true
  | WaitingWorker => cancelled s = true ∧ all_done s = true
  | Stopped => cancelled s = true ∧ all_done s = true ∧ worker s = false
  end.

Definition inv (s : state) : Prop := List.length (errCh s) + running s ≤ errCh_cap ∧ phase_ok s.

Lemma go_step_room {A} loc res l (g g' : go A) q q' : go_step loc res l (g, q) (g', q') →
  List.length q' + live g' ≤ List.length q + live g ∧ is_done g = false.
Proof. inversion 1; subst; cbn; rewrite ?length_app; cbn; split; (lia || done). Qed.

Lemma phase_running c sg q q' std std' doh doh' dot dot' met met' w m :
  phase_ok (mk c sg q std doh dot met w m) →
  is_done std && is_done doh && is_done dot && is_done met = false →
  phase_ok (mk c sg q' std' doh' dot' met' w m).
Proof.
  unfold phase_ok, all_done. cbn. intros Hp Hd. destruct m; [done..| |]; rewrite Hd in Hp; by destruct_and?.
Qed.

Lemma edge_step_inv l s s' : inv s → step l s s' → inv s'.
Proof.
  intros [Hroom Hph] Hst.
  destruct Hst as [c q std doh dot met w m|l c sg q q' std std' doh dot met w m Hg|l c sg q q' std doh doh' dot met w m Hg
    |l c sg q q' std doh dot dot' met w m Hg|l c sg q q' std doh dot met met' w m Hg|sg q std doh dot met m
    |c q std doh dot met w|c sg e q std doh dot met w|c sg q w|c sg q std doh dot met];
    try (apply go_step_room in Hg as [Hg Hd]); split; unfold running in *; cbn [errCh g_std g_doh g_dot g_met length] in *;
    try lia; try done; try (eapply phase_running; [exact Hph|]; rewrite Hd, ?andb_false_r; done).
  - unfold phase_ok in *. cbn in *. by destruct m; destruct_and?.
  - unfold phase_ok in *. cbn in *. by destruct_and!.
Qed.

Lemma reachable_inv s : reachable s → inv s.
Proof.
  intros Hr. assert (H0 : inv start) by (split; [by vm_compute; lia|done]).
  induction Hr as [|s1 s2 s3 [l Hst] _ IH] in H0 |- *; [done|]. apply IH. by eapply edge_step_inv.
Qed.

(** The error channel of main.go:103 is never full when a server reports: whatever
    happened since the start, a goroutine that is about to send its error finds room, so the
    report does not block and the goroutine is done after it. *)
Theorem reports_never_block s :
  reachable s →
  (∃ e, g_std s = GoSend e ∨ g_doh s = GoSend e ∨ g_dot s = GoSend e ∨ g_met s = GoSend e) →
  List.length (errCh s) < errCh_cap.
Proof.
  intros [Hroom _]%reachable_inv [e He]. unfold running in Hroom.
  destruct He as [He|[He|[He|He]]]; rewrite He in Hroom; unfold live, is_done in Hroom; lia.
Qed.

(** When [main] of cmd/edgedns returns, its context is cancelled, the goroutines of the
    three DNS servers and of the metrics server are done and the log worker has made its
    last flush: no goroutine the process waits for is cut off. *)
Theorem stop_is_clean s :
  reachable s → main s = Stopped →
  cancelled s = true ∧ all_done s = true ∧ worker s = false.
Proof. intros [_ Hph]%reachable_inv Hm. unfold phase_ok in Hph. by rewrite Hm in Hph. Qed.

(** *** Shutdown *)

Definition open_conns (s : state) : nat :=
  match g_dot s with GoRunning (DotServing _ n) => n | GoRunning (DotDraining n) => n | _ => 0 end.

(** The DoT server can still take a connection. *)
Definition accepting (d : go dot_st) : bool :=
  match d with GoRunning DotLoading => true | GoRunning (DotServing l _) => l | _ => false end.

Definition std_measure (a : std_st) : nat :=
  match a with StdServing alive _ => 3 + alive | StdReturned _ => 2 end.
Definition http_measure (a : http_st) : nat :=
  match a with HttpLoading => 5 | HttpServing false => 4 | HttpServing true => 3 | HttpReturned _ => 2 end.
Definition dot_measure (a : dot_st) : nat :=
  match a with DotLoading => 0 | DotServing _ n => 4 + n | DotDraining n => 3 + n | DotReturned _ => 2 end.

Definition go_measure {A} (m : A → nat) (g : go A) : nat :=
  match g with GoRunning a => m a | GoSend _ => 1 | GoDone => 0 end.

Definition measure (s : state) : nat :=
  go_measure std_measure (g_std s) + go_measure http_measure (g_doh s) +
  go_measure dot_measure (g_dot s) + go_measure http_measure (g_met s) +
  (if worker s then 1 else 0) + (if signal s then 0 else 1) +
  match main s with Selecting => 4 | WaitingServers => 2 | WaitingWorker => 1 | Stopped => 0 end.

Lemma go_step_measure {A} loc res (m : A → nat) l g g' q q' :
  (∀ a r, res a = Some r → m a = 2) →
  (∀ a a', g = GoRunning a → loc l a a' → m a' < m a) →
  go_step loc res l (g, q) (g', q') → go_measure m g' < go_measure m g.
Proof.
  intros Hres Hloc Hst. inversion Hst; subst; cbn; [by apply Hloc|..|lia];
    match goal with Hr : res _ = Some _ |- _ => rewrite (Hres _ _ Hr); lia end.
Qed.

Lemma std_step_measure l (a a' : std_st) : own (std_step true) l a a' → std_measure a' < std_measure a.
Proof. intros [_ Hst]. inversion Hst; subst; cbn; lia. Qed.
Lemma http_step_measure l (a a' : http_st) : own (http_step true) l a a' → http_measure a' < http_measure a.
Proof. intros [_ Hst]. inversion Hst; subst; cbn; lia. Qed.
Lemma dot_step_measure l (a a' : dot_st) :
  accepting (GoRunning a) = false → dot_step true l a a' → dot_measure a' < dot_measure a.
Proof. intros Ha Hst. inversion Hst; subst; cbn in *; (done || lia). Qed.

Lemma accepting_step l g g' q q' : accepting g = false →
  go_step (dot_step true) dot_result l (g, q) (g', q') → accepting g' = false.
Proof. intros Ha Hst. inversion Hst; subst; try done.
  match goal with H : dot_step _ _ _ _ |- _ => inversion H; subst; by cbn in * end. Qed.

Lemma std_result_measure a e : std_result a = Some e → std_measure a = 2.
Proof. by destruct a. Qed.
Lemma http_result_measure a e : http_result a = Some e → http_measure a = 2.
Proof. by destruct a as [|[]|]. Qed.
Lemma dot_result_measure a e : dot_result a = Some e → dot_measure a = 2.
Proof. by destruct a. Qed.

(** A shutdown in progress. *)
Definition closing (s : state) : Prop := inv s ∧ cancelled s = true ∧ accepting (g_dot s) = false.

Lemma closing_step l s s' : closing s → step l s s' → closing s' ∧ measure s' < measure s.
Proof.
  intros (Hi & Hc & Ha) Hst. assert (Hi' := edge_step_inv _ _ _ Hi Hst). destruct Hi as [_ Hph].
  inversion Hst; subst; cbn in Hc, Ha; subst;
    try (match goal with Hg : go_step (own (std_step _)) _ _ _ _ |- _ =>
           apply (go_step_measure _ _ std_measure) in Hg;
             [|apply std_result_measure|intros; by eapply std_step_measure] end);
    try (match goal with Hg : go_step (own (http_step _)) _ _ _ _ |- _ =>
           apply (go_step_measure _ _ http_measure) in Hg;
             [|apply http_result_measure|intros; by eapply http_step_measure] end);
    try (split; [by split_and!|unfold measure; cbn; lia]).
  - match goal with H : go_step (dot_step _) _ _ _ _ |- _ => rename H into Hg end.
    split; [split_and!; [done..|by eapply accepting_step]|].
    apply (go_step_measure _ _ dot_measure) in Hg;
      [unfold measure; cbn; lia|apply dot_result_measure|intros ? ? ->; by apply dot_step_measure].
Qed.

(** Some goroutine of a shutdown can always move. *)
Lemma go_progress {A} (loc : label → A → A → Prop) res (g : go A) q :
  List.length q + live g ≤ errCh_cap → is_done g = false →
  (∀ a, (∃ l a', loc l a a') ∨ ∃ r, res a = Some r) →
  ∃ l g' q', go_step loc res l (g, q) (g', q').
Proof.
  intros Hroom Hd Hl. destruct g as [a|e|]; [|by do 3 eexists; apply go_send; cbn in Hroom; lia|done].
  destruct (Hl a) as [(l & a' & Hs)|[[e|] Hr]]; [by do 3 eexists; apply go_local|by do 3 eexists; apply go_failed|
    by do 3 eexists; apply go_finished].
Qed.

Lemma std_progress a : (∃ l a', own (std_step true) l a a') ∨ ∃ r, std_result a = Some r.
Proof. destruct a; [left; do 2 eexists; split; [done|by apply std_done]|right; by eexists]. Qed.
Lemma http_progress a : (∃ l a', own (http_step true) l a a') ∨ ∃ r, http_result a = Some r.
Proof.
  destruct a as [|[]|]; [left; do 2 eexists; split; [done|]..|right; by eexists];
    [apply http_start|apply http_closed|by apply http_shutdown].
Qed.
Lemma dot_progress a : (∃ l a', dot_step true l a a') ∨ ∃ r, dot_result a = Some r.
Proof.
  destruct a as [|l n|[|n]|]; [left; do 2 eexists..|right; by eexists];
    [apply dot_listen|by apply dot_stop|apply dot_drained|apply dot_drain].
Qed.

Lemma closing_progress s : closing s → main s ≠ Stopped → ∃ s', any s s'.
Proof.
  intros ([Hroom Hph] & Hc & _) Hm. destruct s as [c sg q std doh dot met w m]. cbn in Hc, Hm. subst c.
  unfold phase_ok, running in *. cbn [errCh g_std g_doh g_dot g_met main cancelled worker] in *.
  destruct m; [done| |..|done].
  - destruct (is_done std) eqn:H1; [|edestruct (go_progress (own (std_step true)) std_result std q) as (?&?&?&?);
      [lia|done|apply std_progress|eexists _, _; by apply step_std]].
    destruct (is_done doh) eqn:H2; [|edestruct (go_progress (own (http_step true)) http_result doh q) as (?&?&?&?);
      [lia|done|apply http_progress|eexists _, _; by apply step_doh]].
    destruct (is_done dot) eqn:H3; [|edestruct (go_progress (dot_step true) dot_result dot q) as (?&?&?&?);
      [lia|done|apply dot_progress|eexists _, _; by apply step_dot]].
    destruct (is_done met) eqn:H4; [|edestruct (go_progress (own (http_step true)) http_result met q) as (?&?&?&?);
      [lia|done|apply http_progress|eexists _, _; by apply step_met]].
    destruct std, doh, dot, met; try done. eexists _, _. apply step_servers.
  - destruct w; eexists _, _; [apply step_worker|apply step_stopped].
Qed.

(** C22: Once the context is cancelled and the DoT listener is closed, every run of the
    process comes to the end of [main]: no wait of the shutdown path is a deadlock, and the
    only thing it waits for outside the process is the end of the open DoT connections. *)
Theorem shutdown_completes s :
  reachable s → cancelled s = true → accepting (g_dot s) = false →
  eventually any (λ s', main s' = Stopped) s.
Proof.
  intros Hr Hc Ha. apply (eventually_measure any closing _ measure); [|split; [by apply reachable_inv|done]].
  intros s1 Hs1. destruct (decide (main s1 = Stopped)) as [|Hm]; [by left|right].
  split; [by apply closing_progress|]. intros s2 [l Hst]. by eapply closing_step.
Qed.

Lemma quiet_conns s s' : quiet s s' → 0 < open_conns s → 0 < open_conns s'.
Proof.
  intros (l & Hl & Hst) Hn. inversion Hst; subst; try done.
  match goal with H : go_step (dot_step _) _ _ _ _ |- _ => rename H into Hg end.
  unfold open_conns in *; cbn in *.
  inversion Hg; subst; match goal with
    | H : dot_step _ _ _ _ |- _ => inversion H; subst; cbn in *; (done || lia)
    | H : dot_result ?a = _ |- _ => destruct a; cbn in *; (done || lia)
    | _ => cbn in *; lia
    end.
Qed.

(** C23: The shutdown of cmd/edgedns waits for every DoT client (dot.go:59): from a reachable
    state with an open DoT connection, whatever the process does, and whatever further
    signals it is sent, it does not stop while no client ends its connection. *)
Theorem client_blocks_shutdown s s' :
  reachable s → 0 < open_conns s → rtc quiet s s' → main s' ≠ Stopped.
Proof.
  intros Hr Hn Hq. assert (H' : reachable s' ∧ 0 < open_conns s').
  { induction Hq as [|s1 s2 s3 Hst _ IH]; [done|]. apply IH; [|by eapply quiet_conns].
    eapply rtc_r; [done|]. destruct Hst as (l & _ & Hst). by exists l. }
  destruct H' as [Hr' Hn']. intros Hm. destruct (stop_is_clean s' Hr' Hm) as (_ & Hd & _).
  unfold all_done in Hd. apply andb_prop in Hd as [[[_ _]%andb_prop Hd]%andb_prop _].
  unfold open_conns in Hn'. destruct (g_dot s'); (done || lia).
Qed.

(** *** Runs that meet the hypotheses *)

Ltac run_step c := eapply rtc_l; [eexists; c|].
Ltac own_step c := apply go_local; first [split; [done|c] | c].

(** RunDoT could not listen. *)
Definition dot_failed : state :=
  mk false false [] (GoRunning (StdServing 2 [])) (GoRunning HttpLoading) (GoSend "bind: address already in use")
    (GoRunning (HttpServing false)) true Selecting.

Lemma dot_failed_reachable : reachable dot_failed.
Proof.
  run_step ltac:(apply step_dot; own_step ltac:(apply (dot_fail _ "bind: address already in use"))).
  run_step ltac:(apply step_dot; by apply go_failed). apply rtc_refl.
Qed.

(** A signal was handled; a DoT client is still connected and the listener is closed. *)
Definition one_client : state :=
  mk true false [] (GoRunning (StdServing 2 [])) (GoRunning HttpLoading) (GoRunning (DotServing false 1))
    (GoRunning (HttpServing false)) true WaitingServers.

Lemma one_client_reachable : reachable one_client.
Proof.
  run_step ltac:(apply step_dot; own_step ltac:(apply dot_listen)).
  run_step ltac:(apply step_dot; own_step ltac:(apply dot_accept)).
  run_step ltac:(apply step_signal). run_step ltac:(apply step_on_signal).
  run_step ltac:(apply step_dot; own_step ltac:(by apply dot_close)). apply rtc_refl.
Qed.

(** [main] returned after a signal. *)
Definition stopped : state := mk true false [canceled; canceled] GoDone GoDone GoDone GoDone false Stopped.

Lemma stopped_reachable : rtc any start stopped.
Proof.
  trans one_client; [apply one_client_reachable|].
  run_step ltac:(apply step_std; own_step ltac:(by apply std_done)).
  run_step ltac:(apply step_std; by apply go_failed).
  run_step ltac:(apply step_std; apply go_send; cbn; unfold errCh_cap; lia).
  run_step ltac:(apply step_doh; own_step ltac:(apply http_start)).
  run_step ltac:(apply step_doh; own_step ltac:(by apply http_shutdown)).
  run_step ltac:(apply step_doh; own_step ltac:(by apply http_closed)).
  run_step ltac:(apply step_doh; by apply go_finished).
  run_step ltac:(apply step_met; own_step ltac:(by apply http_shutdown)).
  run_step ltac:(apply step_met; own_step ltac:(by apply http_closed)).
  run_step ltac:(apply step_met; by apply go_finished).
  run_step ltac:(apply step_dot; own_step ltac:(by apply dot_stop)).
  run_step ltac:(apply step_dot; own_step ltac:(by apply dot_drain)).
  run_step ltac:(apply step_dot; own_step ltac:(by apply dot_drained)).
  run_step ltac:(apply step_dot; by apply go_failed).
  run_step ltac:(apply step_dot; apply go_send; cbn; unfold errCh_cap; lia).
  run_step ltac:(apply step_worker). run_step ltac:(apply step_servers).
  run_step ltac:(apply step_stopped). apply rtc_refl.
Qed.

Lemma reports_never_block_witness : List.length (errCh dot_failed) < errCh_cap.
Proof.
  apply (reports_never_block dot_failed); [apply dot_failed_reachable|].
  exists "bind: address already in use". by right; right; left.
Defined.

Lemma stop_is_clean_witness : cancelled stopped = true ∧ all_done stopped = true ∧ worker stopped = false.
Proof. by apply (stop_is_clean stopped); [apply stopped_reachable|]. Defined.

Lemma shutdown_completes_witness : eventually any (λ s', main s' = Stopped) one_client.
Proof. by apply (shutdown_completes one_client); [apply one_client_reachable|..]. Defined.

Lemma client_blocks_shutdown_witness : main one_client ≠ Stopped.
Proof. by apply (client_blocks_shutdown one_client one_client); [apply one_client_reachable|cbn; lia|apply rtc_refl]. Defined.
End Edge.

(** ** cmd/sniproxy *)

Module Sni.

(** [ListenAndServe]: its loop returns [nil] when the listener is closed and tries again on
    every other error of [Accept]; [conns] counts the goroutines in [handleConn], which
    nothing waits for. *)
Inductive server_st :=
| Starting
| Accepting (listening : bool)
| Returned (err : option string).

Inductive main_st := WaitingSignal | WaitingServer | Stopped.

Record state := mk {
  addr : string;
  cancelled : bool;
  signal : bool;
  server : server_st;
  conns : nat;
  main : main_st
}.

Definition start (addr : string) : state := mk addr false false Starting 0 WaitingSignal.

Inductive step : label → state → state → Prop :=
| step_signal a c sv n m : step Signal (mk a c false sv n m) (mk a c true sv n m)
| step_listen_fail a c sg n m e :
    step Process (mk a c sg Starting n m) (mk a c sg (Returned (Some ("listen " +:+ a +:+ ": " +:+ e))) n m)
| step_listen a c sg n m : step Process (mk a c sg Starting n m) (mk a c sg (Accepting true) n m)
| step_accept a c sg n m : step Process (mk a c sg (Accepting true) n m) (mk a c sg (Accepting true) (S n) m)
| step_retry a c sg n m : step Process (mk a c sg (Accepting true) n m) (mk a c sg (Accepting true) n m)
| step_close a sg n m : step Process (mk a true sg (Accepting true) n m) (mk a true sg (Accepting false) n m)
| step_closed a c sg n m : step Process (mk a c sg (Accepting false) n m) (mk a c sg (Returned None) n m)
| step_conn_end a c sg sv n m : m ≠ Stopped → step Client (mk a c sg sv (S n) m) (mk a c sg sv n m)
| step_on_signal a c sv n : step Process (mk a c true sv n WaitingSignal) (mk a true false sv n WaitingServer)
| step_stopped a c sg r n : step Process (mk a c sg (Returned r) n WaitingServer) (mk a c sg (Returned r) n Stopped).

Definition any (s s' : state) : Prop := ∃ l, step l s s'.
Definition reachable (a : string) (s : state) : Prop := rtc any (start a) s.
Definition quiet (s s' : state) : Prop := ∃ l, l ≠ Client ∧ step l s s'.

(** The steps taken when nobody sends the process a signal. *)
Definition unattended (s s' : state) : Prop := ∃ l, l ≠ Signal ∧ step l s s'.

Definition phase_ok (s : state) : Prop :=
  (cancelled s = false ↔ main s = WaitingSignal) ∧
  (server s = Starting → conns s = 0) ∧
  (main s = Stopped → ∃ r, server s = Returned r) ∧
  ((∃ e, server s = Returned (Some e)) → conns s = 0).

Lemma step_phase l s s' : phase_ok s → step l s s' → phase_ok s'.
Proof.
  intros (H1 & H2 & H3 & H4) Hst. unfold phase_ok. destruct Hst; cbn in *; split_and!; try naive_solver.
Qed.

Lemma reachable_phase a s : reachable a s → phase_ok s.
Proof.
  intros Hr. assert (H0 : phase_ok (start a)) by (unfold phase_ok; cbn; split_and!; naive_solver).
  unfold reachable in Hr. revert H0. generalize (start a) Hr. clear Hr. intros s0 Hr H0.
  induction Hr as [|s1 s2 s3 [l Hst] _ IH]; [done|]. apply IH. by eapply step_phase.
Qed.

(** C37: When cmd/sniproxy cannot listen, its goroutine logs the error and ends, but [main]
    keeps waiting for a signal (main.go:77): the process serves no connection and, unless a
    signal comes, takes no further step, so that nothing outside sees that it failed. *)
Theorem listen_failure_hangs a e s :
  reachable a s → server s = Returned (Some e) → main s = WaitingSignal → signal s = false →
  conns s = 0 ∧ nf unattended s.
Proof.
  intros (_ & _ & _ & Hn)%reachable_phase Hsv Hm Hsg. split; [apply Hn; by exists e|].
  intros (s' & l & Hl & Hst). inversion Hst; subst; cbn in *; try done.
  specialize (Hn (ex_intro _ _ Hsv)). done.
Qed.

Definition server_measure (sv : server_st) : nat := match sv with Accepting _ => 1 | _ => 0 end.

Definition measure (s : state) : nat :=
  server_measure (server s) + (if signal s then 0 else 1) +
  match main s with WaitingSignal => 3 | WaitingServer => 1 | Stopped => 0 end.

(** The listener is closed, or was never opened. *)
Definition listener_closed (s : state) : Prop :=
  match server s with Starting | Accepting true => False | _ => True end.

Definition closing (n : nat) (s : state) : Prop :=
  phase_ok s ∧ cancelled s = true ∧ listener_closed s ∧ conns s = n.

Lemma cut_step n s s' : closing n s → quiet s s' → closing n s' ∧ measure s' < measure s.
Proof.
  intros (Hp & Hc & Ho & Hn) (l & Hl & Hst). assert (Hp' := step_phase _ _ _ Hp Hst). unfold closing.
  destruct Hp as [Hp _]. unfold listener_closed in *.
  inversion Hst; subst; cbn in *; try done; split_and!; unfold measure; cbn; try done; try lia.
  all: destruct Hp as [_ Hp]; by specialize (Hp eq_refl).
Qed.

Lemma cut_progress n s : closing n s → main s ≠ Stopped → ∃ s', quiet s s'.
Proof.
  intros (Hp & Hc & Ho & _) Hm. destruct s as [a c sg sv k m]. unfold listener_closed in Ho. cbn in *. subst c.
  destruct Hp as [Hp _]. cbn in Hp. destruct m; [by destruct Hp as [_ Hp]; specialize (Hp eq_refl)| |done].
  destruct sv as [|[]|r]; [done..| |]; eexists _, Process; (split; [done|]); [apply step_closed|apply step_stopped].
Qed.

(** The shutdown of cmd/sniproxy waits for no client: once the context is cancelled and
    the listener closed, [main] returns although no connection ends, and the connections
    that are open then are cut. *)
Theorem shutdown_cuts_connections a s :
  reachable a s → cancelled s = true → listener_closed s →
  eventually quiet (λ s', main s' = Stopped ∧ conns s' = conns s) s.
Proof.
  intros Hr%reachable_phase Hc Ho. apply (eventually_measure quiet (closing (conns s)) _ measure); [|done].
  intros s1 Hs1. destruct (main s1) eqn:Hm; [right..|left; by split; [|apply Hs1]];
    (split; [eapply cut_progress; [done|by rewrite Hm]|intros s2; by apply cut_step]).
Qed.

(** Port 443 is taken. *)
Definition no_listener : state :=
  mk ":443" false false (Returned (Some "listen :443: bind: permission denied")) 0 WaitingSignal.

Lemma listen_failure_hangs_witness : conns no_listener = 0 ∧ nf unattended no_listener.
Proof.
  apply (listen_failure_hangs ":443" "listen :443: bind: permission denied"); [|done..].
  eapply rtc_l; [eexists; apply (step_listen_fail _ _ _ _ _ "bind: permission denied")|apply rtc_refl].
Defined.

Definition two_clients : state := mk ":443" true false (Accepting false) 2 WaitingServer.

Lemma shutdown_cuts_connections_witness : eventually quiet (λ s', main s' = Stopped ∧ conns s' = 2) two_clients.
Proof.
  apply (shutdown_cuts_connections ":443" two_clients); [|done..].
  eapply rtc_l; [eexists; apply step_listen|]. do 2 (eapply rtc_l; [eexists; apply step_accept|]).
  eapply rtc_l; [eexists; apply step_signal|]. eapply rtc_l; [eexists; apply step_on_signal|].
  eapply rtc_l; [eexists; apply step_close|apply rtc_refl].
Defined.
End Sni.
End Lifecycle.
