(* ===== verification/Programs.v ===== *)
(** * The resolver and the publisher: src/cmd/edgedns and src/cmd/publisher

    [Module EdgeDNS] starts the resolver from its environment ([main]) and runs it: a run is
    a list of [event]s, the queries it receives interleaved with the messages of the
    configuration channel, the steps of the log worker and the commands of the other clients
    of its Redis server.  [Module Publisher] is the [main] function of the publisher, with
    its exit code and its messages.  The goroutines of the processes, their start and their
    shutdown are in [Lifecycle]. *)

From S2P Require Import Prelude.
From S2P Require Import GoStrings.
From Stdlib Require Import Strings.Ascii Strings.String.
From S2P Require Import GoUtf8.
From S2P Require Import GoJson.
From S2P Require Import External.
From S2P Require Import Models.
From S2P Require Import Config.
From S2P Require Import Checker.
From S2P Require Import Rule.
From S2P Require Import RateLimit.
From S2P Require Import Analytics.
From S2P Require Import Handler.
From S2P Require Import Sync.
Import Utf8 Handler.

Local Open Scope go_scope.

Module Programs.

(** ** cmd/edgedns *)

Module EdgeDNS.

Section edgedns.
Context `{UnicodeTables, DnsLib} {C R N W K B : Type}.
Context `{GoCache Checker.cval C, RedisClient R, DnsNet N, ResponseWriter W, ClickHouse Analytics.row K B}.

Abbreviation process := (process (C := C) (R := R) (N := N) (K := K)).

(** A call of a method of the aggregator the handler and [main] share. *)
Definition on_aggregator (f : Analytics.LogAggregator (K := K) → Analytics.LogAggregator (K := K)) (p : process) : process :=
  match aggregator p with Some a => SetAggregator (f a) p | None => p end.

(** A step of the log worker; a case of its [select] that is not ready is not taken. *)
Definition log_step (e : Analytics.event) (p : process) : process :=
  on_aggregator (λ a, match Analytics.step e a with Some a' => a' | None => a end) p.

(** [main] up to the start of the servers; a ClickHouse that cannot be reached is only logged. *)
Definition main (E : Config.environment) (driver : ch_driver K) (p : process) : process :=
  let s := Config.read_edge_settings E in
  let p := match Config.rateLimit E with
           | Some (n, window) => SetRateLimit n window p
           | None => p
           end in
  let p := set_rules (Rule.InitChecker (redis p) (rules p)) p in
  let agg := Analytics.NewLogAggregator 10000 1000 in
  let p := SetAggregator agg p in
  let p := on_aggregator (λ a, (Analytics.InitClickHouse driver (Config.chAddr s) (Config.chDB s) (Config.chUser s)
                                  (Config.chPass s) a).2) p in
  let p := log_step Analytics.Start p in
  let rl := RateLimit.NewRateLimiter (redis p) 0 in
  SetRateLimiter rl p.

(** The evictor given to [StartSyncWorker]. *)
Definition evict (now : Z) (userID : string) (st : Rule.state C R) : Rule.state C R :=
  Rule.ClearUserCache now st userID.

(** What happens to a running process.  [Others r]: another client of the Redis server has
    left it as [r]. *)
Inductive event :=
| Query (t : times) (userID : string) (w : W) (msg : Msg)
| Message (now : Z) (payload : string)
| LogReceive
| LogTick
| Cancelled
| Others (r : R).

(** A query: the message, and its connection before and after. *)
Record exchange := { asked : Msg; before : W; after : W }.

Definition step (UpstreamAddr : string) (e : event) (p : process) : outcome (process * list exchange) :=
  match e with
  | Query t u w msg =>
      pw <-@ HandleDNSQuery UpstreamAddr t u p w msg ;;
      Ret (pw.1, [{| asked := msg; before := w; after := pw.2 |}])
  | Message now payload =>
      st <-@ Sync.handleMessage (evict now) payload (connect (redis p) (rules p)) ;;
      Ret (set_rules st p, [])
  | LogReceive => Ret (log_step Analytics.Receive p, [])
  | LogTick => Ret (log_step Analytics.Tick p, [])
  | Cancelled => Ret (log_step Analytics.Done p, [])
  | Others r => Ret (mkProcess r (limiter p) (limit_queries p) (limit_window p) (rules p) (aggregator p)
                      (network p) (queries_total p) (query_seconds p), [])
  end.

Fixpoint run (UpstreamAddr : string) (es : list event) (p : process) : outcome (process * list exchange) :=
  match es with
  | [] => Ret (p, [])
  | e :: es =>
      r <-@ step UpstreamAddr e p ;;
      r' <-@ run UpstreamAddr es r.1 ;;
      Ret (r'.1, r.2 ++ r'.2)
  end.

(** The process from its start: the package variables, [init] of internal/upstream, [main],
    and what happens then. *)
Definition life (E : Config.environment) (driver : ch_driver K)
    (r : R) (n : N) (es : list event) : outcome (process * list exchange) :=
  client <-@ Config.upstream_init E ;;
  run (Config.UpstreamAddr client) es (main E driver (initial r n)).

(** *** Health and readiness: the handlers of the metrics server *)

Definition error_text (e : Rule.rule_error) : string :=
  match e with
  | Rule.NotInitialized => "checker not initialized"
  | Rule.RedisNotAvailable => "redis not available"
  | Rule.RedisFailed RedisNil => "redis: nil"
  | Rule.RedisFailed (RedisErr msg) => msg
  end.

(** [json.NewEncoder(w).Encode] of a map of strings; the members come in the order of their
    keys, and a newline ends the text. *)
Fixpoint members (l : list (string * string)) : list ascii :=
  match l with
  | [] => []
  | [(k, v)] => Sync.member k (Json.string_literal (chars v))
  | (k, v) :: l => Sync.member k (Json.string_literal (chars v)) ++ ","%char :: members l
  end.
Definition encode_map (l : list (string * string)) : string :=
  of_chars ("{"%char :: members l ++ ["}"; "010"]%char).

Definition probe (good bad : string) (st : Rule.state C R) : (Z * string) * Rule.state C R :=
  match Rule.PingRedis st with
  | (Err e, st) => ((503%Z, encode_map [("error", error_text e); ("status", bad)]), st)
  | (Ok _, st) => ((200%Z, encode_map [("status", good)]), st)
  end.

Definition healthz := probe "ok" "unhealthy".
Definition readyz := probe "ready" "not_ready".
End edgedns.
(** *** What every event preserves *)

Section edgedns_proofs.
Context `{UnicodeTables} `{DnsLib} `{!DnsLibLaws} {C R N W K B : Type}.
Context `{GoCache Checker.cval C} `{!GoCacheLaws Checker.cval C}.
Context `{RedisClient R, RedisView R} `{!RedisLaws R}.
Context `{DnsNet N, ResponseWriter W, ClickHouse Analytics.row K B}.

Abbreviation process := (process (C := C) (R := R) (N := N) (K := K)).
Implicit Types p : process.

(** The checker's flag, none when there is no checker. *)
Definition flag (st : Rule.state C R) : option bool := Checker.enabled <$> Rule.global st.

Lemma connect_flag r st : flag (connect r st) = flag st.
Proof. unfold flag, connect. by destruct (Rule.global st). Qed.

Lemma CheckRule_flag t0 t1 st u d v st' : Rule.CheckRule t0 t1 st u d = Ret (v, st') → flag st' = flag st.
Proof.
  unfold Rule.CheckRule, flag. destruct (Rule.global st) as [c|].
  - intros ([v0 c'] & Hck & [= _ <-])%outcome_bind_ret. cbn. f_equal.
    apply (Checker.run_op_enabled _ (Checker.OpCheck t0 t1 u (Checker.normalize d))). cbn. by rewrite Hck.
  - by intros [= _ <-].
Qed.

Lemma GetRedirectDomain_flag t0 t1 st u d : flag (Rule.GetRedirectDomain t0 t1 st u d).2 = flag st.
Proof.
  unfold Rule.GetRedirectDomain, flag. destruct (Rule.global st) as [c|] eqn:Hc; [|cbn; by rewrite Hc].
  destruct (Checker.GetRedirect t0 t1 c u d) as [res c'] eqn:Hg. cbn. f_equal.
  apply (Checker.run_op_enabled _ (Checker.OpGetRedirect t0 t1 u d)). cbn. by rewrite Hg.
Qed.

(** A query leaves the settings alone, and is counted and logged once or not at all. *)
Definition counted p p' : Prop :=
  limit_queries p' = limit_queries p ∧ limit_window p' = limit_window p ∧ flag (rules p') = flag (rules p) ∧
  ((queries_total p' = queries_total p ∧ aggregator p' = aggregator p) ∨
   ∃ sample log, queries_total p' = queries_total p ++ [sample] ∧
     aggregator p' = Analytics.SubmitLog log <$> aggregator p).

Lemma answer_frame UpstreamAddr t u (w : W) msg q v p :
  let p2 := (answer UpstreamAddr t u w msg q v p).2 in
  limit_queries p2 = limit_queries p ∧ limit_window p2 = limit_window p ∧ flag (rules p2) = flag (rules p) ∧
  queries_total p2 = queries_total p ∧ aggregator p2 = aggregator p.
Proof.
  unfold answer. destruct (Z.eqb v 1); [done|].
  pose proof (GetRedirectDomain_flag (t_redirect t) (t_redirect_set t) (connect (redis p) (rules p)) u (q_Name q)) as Hf.
  rewrite connect_flag in Hf.
  destruct (Rule.GetRedirectDomain _ _ _ _ _) as [[ip []] st];
    [destruct (writeRedirectResponse _ _ _ _ _ _)|destruct (forwardResponse _ _ _ _)]; by cbn in *.
Qed.

Lemma admission_limits t u p :
  limit_queries (admission t u p).2 = limit_queries p ∧ limit_window (admission t u p).2 = limit_window p.
Proof.
  unfold admission. destruct (limiter p); [|done].
  by destruct (RateLimit.AllowQuery _ _ _ _ _) as [[[]|] ?].
Qed.

Lemma ProcessQuery_counted UpstreamAddr t u p (w : W) msg p' w' :
  ProcessQuery UpstreamAddr t u p w msg = Ret (p', w') → counted p p'.
Proof.
  unfold counted. destruct (admission_frame t u p) as (Hr & _ & Ha & Hq & _).
  destruct (admission_limits t u p) as [Hl1 Hl2]. unfold ProcessQuery.
  destruct (admission t u p) as [[] p1]; cbn [fst snd negb] in *;
    [|intros [= <- _]; rewrite Hr; split_and!; auto].
  destruct (m_Question msg) as [|q rest]; [intros [= <- _]; rewrite Hr; split_and!; auto|].
  intros ([v st] & Hck & Hrest)%outcome_bind_ret. apply CheckRule_flag in Hck. rewrite connect_flag in Hck.
  cbn [fst snd] in Hrest. destruct (answer_frame UpstreamAddr t u w msg q v (set_rules st p1)) as (L1 & L2 & L3 & L4 & L5).
  destruct (answer _ _ _ _ _ _ _ _) as [[status w1] p2]. cbn [fst snd set_rules limit_queries limit_window rules
    queries_total aggregator] in *. injection Hrest as <- _.
  unfold submitLog, record_metrics. cbn [aggregator].
  destruct (aggregator p2) as [a|] eqn:Ea; cbn; (split_and!; [congruence..|]); right;
    eexists _, (Analytics.mkLog (t_start t) u (extractClientIP w1) (q_Name q) (TypeToString (q_Qtype q)) status
      (t_log t - t_start t)); (split; [by rewrite L4, Hq|by rewrite <- Ha, <- L5]).
Qed.

(** The number of logs of an aggregator, modulo 2^64: flushed, dropped, in the batch or in the
    channel. *)
Definition recorded (a : Analytics.LogAggregator (K := K)) : Z :=
  uint64_wrap (Analytics.flushedCount a + Analytics.droppedCount a + Z.of_nat (List.length (Analytics.held a))).

Lemma step_recorded e (a a' : Analytics.LogAggregator (K := K)) :
  Analytics.wf a → Analytics.step e a = Some a' →
  recorded a' = uint64_wrap (recorded a + Z.of_nat (List.length (Analytics.submitted [e]))).
Proof.
  intros Hw Hs. unfold recorded. rewrite Analytics.uint64_wrap_add_l.
  pose proof (f_equal List.length (Analytics.step_queue _ _ _ Hs)) as Hq. rewrite !length_app in Hq.
  assert (Hsub : List.length (Analytics.submitted [e]) =
      List.length (Analytics.accepted1 e a) + List.length (Analytics.refused1 e a)).
  { destruct e; cbn; try done. by case_decide. }
  rewrite (Analytics.step_flushed _ _ _ Hw Hs), <- Z.add_assoc, Analytics.uint64_wrap_add_l.
  assert (Hd : ∀ x, uint64_wrap (Analytics.droppedCount a' + x) =
      uint64_wrap (Analytics.droppedCount a + Z.of_nat (List.length (Analytics.refused1 e a)) + x)).
  { intros x. destruct (Analytics.step_counts _ _ _ Hw Hs) as [->|[-> ->]].
    - apply Analytics.uint64_wrap_add_l.
    - by rewrite Z.add_0_r. }
  rewrite Z.add_comm, <- Z.add_assoc, Hd. f_equal. lia.
Qed.

(** *** The invariant of a running process *)

Definition sound p : Prop :=
  typed p ∧ ∃ a, aggregator p = Some a ∧ Analytics.wf a ∧
    recorded a = uint64_wrap (Z.of_nat (List.length (queries_total p))).

(** Only the queries of users with a colon or of the user "redirect" are left out. *)
Definition event_ok (e : event (R := R) (W := W)) : bool :=
  match e with Query _ u _ _ => Checker.good_user u | _ => true end.

(** One response, or none for a message without a question. *)
Definition one_response (UpstreamAddr : string) (x : exchange (W := W)) : Prop :=
  (after x = before x ∧ m_Question (asked x) = []) ∨
  ∃ resp n, after x = write resp (before x) ∧ answers UpstreamAddr n (asked x) resp.

Definition queries (es : list (event (R := R) (W := W))) : list (Msg * W) :=
  omap (λ e, match e with Query _ _ w msg => Some (msg, w) | _ => None end) es.

Lemma typed_rules p p' : rules p' = rules p → typed p → typed p'.
Proof. unfold typed. by intros ->. Qed.

Lemma counted_sound p p' : counted p p' → typed p' → sound p → sound p'.
Proof.
  intros (_ & _ & _ & Hc) Hty (_ & a & Ha & Hw & Hn). split; [done|].
  destruct Hc as [[-> ->]|(smp & log & -> & ->)]; [by exists a|]. rewrite Ha.
  exists (Analytics.SubmitLog log a). assert (Hs : Analytics.step (Analytics.Submit log) a = Some (Analytics.SubmitLog log a)) by done.
  split; [done|]. split; [by eapply Analytics.step_wf|].
  rewrite (step_recorded _ _ _ Hw Hs), Hn, Analytics.uint64_wrap_add_l, length_app. f_equal. cbn. lia.
Qed.

Lemma log_step_sound e p : Analytics.submitted [e] = [] → sound p → sound (log_step e p).
Proof.
  intros He (Hty & a & Ha & Hw & Hn). unfold log_step, on_aggregator. rewrite Ha. split; [done|]. cbn.
  destruct (Analytics.step e a) as [a'|] eqn:Hs; [|by exists a]. exists a'. split; [done|].
  split; [by eapply Analytics.step_wf|]. rewrite (step_recorded _ _ _ Hw Hs), He, Z.add_0_r, Hn.
  apply uint64_wrap_small, uint64_wrap_range.
Qed.

Lemma evict_typed now u (st : Rule.state C R) : rules_typed st → rules_typed (evict now u st) ∧ flag (evict now u st) = flag st.
Proof.
  unfold rules_typed, evict, Rule.ClearUserCache, flag. destruct (Rule.global st) as [c|] eqn:Hg; [|by rewrite Hg].
  intros Hty. destruct (Checker.run_op_typed c (Checker.OpClear now u) (Hty c eq_refl) eq_refl) as (c' & [= <-] & Hc').
  split; [by intros ? [= <-]|done].
Qed.

Lemma message_typed now payload (st : Rule.state C R) : rules_typed st →
  ∃ st', Sync.handleMessage (evict now) payload st = Ret st' ∧ rules_typed st' ∧ flag st' = flag st.
Proof.
  intros Hty. unfold Sync.handleMessage. destruct (Sync.DecodeEvent_returns payload) as [[e|err] ->]; cbn [outcome_bind].
  - destruct (String.eqb _ _); [|by exists st]. exists (evict now (Sync.UserID e) st). split; [done|by apply evict_typed].
  - by exists st.
Qed.

Lemma step_sound UpstreamAddr e p : sound p → event_ok e = true →
  ∃ p' out, step UpstreamAddr e p = Ret (p', out) ∧ sound p' ∧ Forall (one_response UpstreamAddr) out ∧
    (λ x, (asked x, before x)) <$> out = queries [e].
Proof.
  intros Hs He. destruct e as [t u w msg|now payload| | | |r].
  - destruct (ProcessQuery_responds UpstreamAddr t u p w msg He (proj1 Hs)) as (p' & w' & Hrun & Hty & Hresp).
    do 2 eexists. unfold step, HandleDNSQuery. rewrite Hrun. cbn [outcome_bind fst snd]. split; [done|].
    split; [|split; [|done]].
    + eapply counted_sound; [by eapply ProcessQuery_counted|done|done].
    + constructor; [|done]. unfold one_response. cbn. destruct Hresp as [?|(resp & ? & ?)]; [by left|by right; exists resp, (network p)].
  - destruct (message_typed now payload (connect (redis p) (rules p)) (connect_typed _ _ (proj1 Hs))) as (st & Hrun & Hty & _).
    do 2 eexists. unfold step. rewrite Hrun. cbn [outcome_bind]. split; [done|]. split; [|done].
    destruct Hs as (_ & a & Ha). split; [exact Hty|]. by exists a.
  - do 2 eexists. split; [done|]. split; [by apply log_step_sound|done].
  - do 2 eexists. split; [done|]. split; [by apply log_step_sound|done].
  - do 2 eexists. split; [done|]. split; [by apply log_step_sound|done].
  - do 2 eexists. split; [done|]. split; [exact Hs|done].
Qed.

Lemma run_sound UpstreamAddr es p : sound p → Forall (λ e, event_ok e = true) es →
  ∃ p' out, run UpstreamAddr es p = Ret (p', out) ∧ sound p' ∧ Forall (one_response UpstreamAddr) out ∧
    (λ x, (asked x, before x)) <$> out = queries es.
Proof.
  intros Hs Hes. revert p Hs. induction Hes as [|e es He _ IH]; intros p Hs; [by exists p, []|].
  destruct (step_sound UpstreamAddr e p Hs He) as (p1 & out1 & H1s & Hs1 & Ho1 & Hq1).
  destruct (IH p1 Hs1) as (p2 & out2 & H2s & Hs2 & Ho2 & Hq2).
  exists p2, (out1 ++ out2). cbn [run]. rewrite H1s. cbn [outcome_bind fst snd]. rewrite H2s. cbn [outcome_bind fst snd].
  split; [done|]. split; [done|]. split; [by apply Forall_app|].
  rewrite fmap_app, Hq1, Hq2. unfold queries. by rewrite <- omap_app.
Qed.

(** *** Settings and the checker's flag *)

Definition same_settings p p' : Prop :=
  limit_queries p' = limit_queries p ∧ limit_window p' = limit_window p ∧ flag (rules p') = flag (rules p).

Lemma handleMessage_flag now payload (st st' : Rule.state C R) :
  Sync.handleMessage (evict now) payload st = Ret st' → flag st' = flag st.
Proof.
  unfold Sync.handleMessage. destruct (Sync.DecodeEvent_returns payload) as [[e|err] ->]; cbn [outcome_bind];
    [|by intros [= <-]].
  destruct (String.eqb _ _); intros [= <-]; [|done].
  unfold evict, Rule.ClearUserCache, flag. destruct (Rule.global st) eqn:Hg; by rewrite ?Hg.
Qed.

Lemma log_step_settings e p : same_settings p (log_step e p).
Proof. unfold log_step, on_aggregator. by destruct (aggregator p). Qed.

Lemma step_settings UpstreamAddr e p p' out : step (W := W) UpstreamAddr e p = Ret (p', out) → same_settings p p'.
Proof.
  destruct e as [t u w msg|now payload| | | |r]; cbn [step]; try (by intros [= <- _]; apply log_step_settings).
  - intros ([p1 w1] & Hrun & [= <- _])%outcome_bind_ret. apply ProcessQuery_counted in Hrun as (? & ? & ? & _). done.
  - intros (st & Hrun & [= <- _])%outcome_bind_ret. apply handleMessage_flag in Hrun. rewrite connect_flag in Hrun. done.
  - by intros [= <- _].
Qed.

Lemma run_settings UpstreamAddr es p p' out : run (W := W) UpstreamAddr es p = Ret (p', out) → same_settings p p'.
Proof.
  revert p out. induction es as [|e es IH]; intros p out; cbn [run]; [by intros [= <- _]|].
  intros ([p1 out1] & Hst%step_settings & ([p2 out2] & Hrun & [= <- _])%outcome_bind_ret)%outcome_bind_ret.
  cbn [fst snd] in *. apply IH in Hrun. unfold same_settings in *. destruct_and!. split_and!; congruence.
Qed.

(** *** The life of a process *)

Lemma started_aggregator n m driver addr db user pass :
  let a := (Analytics.InitClickHouse driver addr db user pass (Analytics.NewLogAggregator n m)).2 in
  let a' := match Analytics.step Analytics.Start a with Some a' => a' | None => a end in
  Analytics.wf (K := K) a' ∧ recorded a' = 0%Z.
Proof.
  unfold Analytics.InitClickHouse. destruct (ch_Open _ _) as [k|]; [destruct (ch_Ping _ k) as [[[]|] k']|];
    (split; [split; cbn; (done || lia)|done]).
Qed.

Lemma main_settings E driver r n :
  let p := main E driver (initial r n) in
  sound p ∧ limit_window p = 1000000000%Z ∧ (0 < limit_queries p < 2 ^ 63)%Z ∧
  flag (rules p) = Some (is_ok (Ping r).1).
Proof.
  cbv zeta. unfold main. set (p0 := match Config.rateLimit E with Some (q, w) => SetRateLimit q w (initial r n) | None => initial r n end).
  assert (Hp0 : limit_window p0 = 1000000000%Z ∧ (0 < limit_queries p0 < 2 ^ 63)%Z ∧ redis p0 = r ∧
      rules p0 = Rule.uninitialized ∧ queries_total p0 = []).
  { unfold p0. destruct (Config.rateLimit E) as [[q w]|] eqn:Hl; [|done]. apply Config.rateLimit_range in Hl as [? ->]. done. }
  destruct Hp0 as (Hw & Hq & Hr & Hru & Hqt). clearbody p0. rewrite Hr, Hru. unfold on_aggregator, log_step, on_aggregator.
  cbn [SetAggregator aggregator set_rules SetRateLimiter limit_window limit_queries rules].
  split; [|split; [exact Hw|split; [exact Hq|]]];
    [|unfold flag; cbn; unfold Checker.NewChecker; by destruct (Ping r) as [[[]|?] ?]].
  split.
  - intros c [= <-]. unfold Checker.NewChecker. destruct (Ping r) as [[[]|?] ?]; apply Checker.typed_New.
  - eexists. split; [done|]. unfold set_rules. cbn [SetRateLimiter SetAggregator queries_total]. rewrite Hqt.
    apply started_aggregator.
Qed.

(** A life goes through, and keeps what its start has set. *)
Lemma life_sound (E : Config.environment) driver r n es : Forall (λ e, event_ok e = true) es →
  ∃ client p out, Config.upstream_init E = Ret client ∧ life E driver r n es = Ret (p, out) ∧ sound p ∧
    (λ x, (asked x, before x)) <$> out = queries es ∧ Forall (one_response (Config.UpstreamAddr client)) out ∧
    same_settings (main E driver (initial r n)) p.
Proof.
  intros Hes. destruct (Config.upstream_init_range E) as (client & Hc & _).
  destruct (main_settings E driver r n) as (Hs & _).
  destruct (run_sound (Config.UpstreamAddr client) es _ Hs Hes) as (p & out & Hrun & Hs' & Ho & Hqs).
  exists client, p, out. split; [done|]. unfold life. rewrite Hc. cbn [outcome_bind].
  split; [done|]. split; [done|]. split; [done|]. split; [done|]. by eapply run_settings.
Qed.

(** C2: The life of the resolver: started in any environment, against any Redis server and
    ClickHouse, and whatever queries of well-formed users, messages, worker steps and commands
    of other clients follow in whatever order, the process does not panic, every query gets
    its one response, the limiter keeps a positive limit per second, and the log records of
    the queries counted in the metrics are all accounted for: flushed, counted as dropped, in
    the batch or in the channel. *)
Theorem resolver_life (E : Config.environment) driver r n es :
  Forall (λ e, event_ok e = true) es →
  ∃ client p out a, Config.upstream_init E = Ret client ∧ life E driver r n es = Ret (p, out) ∧
    (λ x, (asked x, before x)) <$> out = queries es ∧
    Forall (one_response (Config.UpstreamAddr client)) out ∧
    limit_window p = 1000000000%Z ∧ (0 < limit_queries p < 2 ^ 63)%Z ∧
    aggregator p = Some a ∧ Analytics.wf a ∧
    recorded a = uint64_wrap (Z.of_nat (List.length (queries_total p))).
Proof.
  intros Hes. destruct (main_settings E driver r n) as (_ & Hw & Hq & _).
  destruct (life_sound E driver r n es Hes) as (client & p & out & Hc & Hlife & (_ & a & Ha) & Hqs & Ho & Hl & Hw' & _).
  exists client, p, out, a. do 4 (split; [done|]). rewrite Hw', Hl. split; [done|]. split; [exact Hq|exact Ha].
Qed.

Lemma probe_status good bad (st : Rule.state C R) b : flag st = Some b →
  (probe good bad st).1.1 =
    if b && match Rule.global st with Some c => is_ok (Ping (Checker.rdb c)).1 | None => false end then 200%Z else 503%Z.
Proof.
  unfold flag, probe, Rule.PingRedis. destruct (Rule.global st) as [c|]; [|done]. intros [= ->].
  destruct b; [|done]. by destruct (Ping (Checker.rdb c)) as [[[]|e] r'].
Qed.

Lemma probe_process good bad p b : flag (rules p) = Some b →
  (probe good bad (connect (redis p) (rules p))).1.1 = if b && is_ok (Ping (redis p)).1 then 200%Z else 503%Z.
Proof.
  intros Hf. rewrite (probe_status _ _ _ b) by (by rewrite connect_flag). unfold connect, flag in *.
  by destruct (Rule.global (rules p)).
Qed.

(** C26: What the probes report: at any moment of the life of the process, /healthz and /readyz
    answer 200 if Redis answers a ping now and answered the one at the start, and 503
    otherwise.  A process that starts before its Redis server is never ready, although it
    goes on answering queries. *)
Theorem probes_report (E : Config.environment) driver r n es p (out : list (exchange (W := W))) :
  life E driver r n es = Ret (p, out) →
  let expected := if is_ok (Ping r).1 && is_ok (Ping (redis p)).1 then 200%Z else 503%Z in
  (healthz (connect (redis p) (rules p))).1.1 = expected ∧ (readyz (connect (redis p) (rules p))).1.1 = expected.
Proof.
  unfold life. intros (client & Hc & Hrun)%outcome_bind_ret.
  destruct (main_settings E driver r n) as (_ & _ & _ & Hf).
  destruct (run_settings _ _ _ _ _ Hrun) as (_ & _ & Hf'). rewrite Hf in Hf'.
  split; by apply probe_process.
Qed.
End edgedns_proofs.
End EdgeDNS.

(** ** cmd/publisher *)

Module Publisher.

(** The flags: -redis, -user and -action. *)
Record flags := { redisAddr : string; userID : string; action : string }.

Definition default_flags : flags :=
  {| redisAddr := "localhost:6379"; userID := EmptyString; action := "clear_cache" |}.

(** What the program prints: one constructor per message. *)
Inductive line :=
| Usage
| InvalidEvent (e : Sync.event_error)
| Publishing (data : string)
| CannotConnect (addr : string) (e : redis_error)
| PublishFailed (e : redis_error)
| Published (channel userID action : string) (receivers : Z).

Section publisher.
Context {R : Type} `{RedisClient R}.

(** The exit code, what is printed, and the server. *)
Definition main (f : flags) (rdb : R) : Z * list line * R :=
  if String.eqb (userID f) EmptyString then (1%Z, [Usage], rdb)
  else
    let event := Sync.mkEvent (userID f) (action f) in
    match Sync.Validate event with
    | Err e => (1%Z, [InvalidEvent e], rdb)
    | Ok _ =>
        let data := Sync.Encode event in
        match Ping rdb with
        | (Err e, rdb) => (1%Z, [Publishing data; CannotConnect (redisAddr f) e], rdb)
        | (Ok _, rdb) =>
            match Publish Sync.ConfigChannel data rdb with
            | (Err e, rdb) => (1%Z, [Publishing data; PublishFailed e], rdb)
            | (Ok count, rdb) =>
                (0%Z, [Publishing data; Published Sync.ConfigChannel (userID f) (action f) count], rdb)
            end
        end
    end.
End publisher.

Section publisher_proofs.
Context `{UnicodeTables} `{DnsLib} {C R N W K B : Type}.
Context `{GoCache Checker.cval C} `{!GoCacheLaws Checker.cval C}.
Context `{RedisClient R, RedisView R} `{!RedisLaws R}.
Context `{DnsNet N, ResponseWriter W, ClickHouse Analytics.row K B}.

(** The keys of the user are gone from the checker's cache. *)
Definition evicted (now : Z) (u : string) (st : Rule.state C R) : Prop :=
  ∀ c t k, Rule.global st = Some c → (now ≤ t)%Z → Checker.clears u k = true → cache_Get (Checker.cache c) t k = None.

Lemma evict_evicted now u (st : Rule.state C R) : evicted now u (EdgeDNS.evict now u st).
Proof.
  intros c t k. unfold EdgeDNS.evict, Rule.ClearUserCache. destruct (Rule.global st) as [c0|] eqn:Hg; [|congruence].
  intros [= <-] Ht Hk. by rewrite Checker.ClearUserCache_get, Hk.
Qed.

(** C28: What the publisher does to the resolvers: with Redis answering and a user that is
    UTF-8 text, it exits with 0 exactly for the two known actions, and then its message is on
    the channel; a resolver that receives it drops everything it has cached for the user
    when the action is clear_cache, and does nothing at all when it is update_rule, for
    which the usage text announces the same. *)
Theorem publisher_effect UpstreamAddr (f : flags) (rdb : R) (p : process (C := C) (R := R) (N := N) (K := K)) (now : Z) :
  redis_up rdb = true → userID f ≠ EmptyString → valid (chars (userID f)) →
  let '(code, out, rdb') := main f rdb in
  let known := String.eqb (action f) "clear_cache" || String.eqb (action f) "update_rule" in
  if known then
    code = 0%Z ∧ ∃ data, redis_published rdb' = redis_published rdb ++ [("dns:config:events", data)] ∧
      ∃ st, EdgeDNS.step (W := W) UpstreamAddr (EdgeDNS.Message now data) p = Ret (set_rules st p, []) ∧
        if String.eqb (action f) "clear_cache" then evicted now (userID f) st else st = connect (redis p) (rules p)
  else code = 1%Z ∧ rdb' = rdb ∧ out = [InvalidEvent (Sync.UnknownAction (action f))].
Proof.
  intros Hup Hu%String.eqb_neq Hv. unfold main. rewrite Hu.
  assert (Hval : Sync.Validate (Sync.mkEvent (userID f) (action f)) =
    if String.eqb (action f) "clear_cache" || String.eqb (action f) "update_rule" then Ok tt
    else Err (Sync.UnknownAction (action f))).
  { unfold Sync.Validate. cbn [Sync.UserID Sync.Action]. by rewrite Hu. }
  rewrite Hval. destruct (_ || _) eqn:Hk; [|done].
  rewrite Ping_up by done.
  destruct (Publish_up rdb Sync.ConfigChannel (Sync.Encode (Sync.mkEvent (userID f) (action f))) Hup)
    as (count & rdb' & -> & _ & Hpub & _). split; [done|]. eexists. split; [exact Hpub|].
  cbn [EdgeDNS.step]. unfold Sync.handleMessage.
  rewrite Sync.DecodeEvent_Encode_ok by (done || by rewrite Hval).
  cbn [outcome_bind Sync.Action Sync.UserID]. unfold Sync.ActionClearCache.
  destruct (String.eqb (action f) "clear_cache"); cbn [outcome_bind]; eexists; (split; [done|]); [apply evict_evicted|done].
Qed.
End publisher_proofs.
End Publisher.

(** ** Concrete instances of the hypotheses *)

#[local] Existing Instance ascii_tables.

(** A query, its log record, the eviction of its user while another client writes a rule, and
    a second query. *)
Definition example_events : list (EdgeDNS.event (R := MapRedis.t) (W := SimpleWriter.t)) :=
  [EdgeDNS.Query (at_second 1) "alice" sample_w (sample_msg "ads.example." 1);
   EdgeDNS.LogReceive;
   EdgeDNS.Others ((SAdd (Checker.blocked_key "alice") ["example.org"] sample_redis).2);
   EdgeDNS.Message 2000000000 (Sync.Encode (Sync.mkEvent "alice" Sync.ActionClearCache));
   EdgeDNS.Query (at_second 3) "alice" sample_w (sample_msg "example.org." 1);
   EdgeDNS.Cancelled].

Definition no_clickhouse : ch_driver (ListTable.t Analytics.row) := {| ch_Open _ := Err "refused"; ch_Ping k := (Ok tt, k) |}.

Definition example_net : ScriptNet.t := ScriptNet.mk sample_answer [].

Definition example_life := EdgeDNS.life (C := MapCache.t Checker.cval) Config.example_env no_clickhouse sample_redis example_net.

Lemma resolver_life_witness :
  ∃ p out, example_life example_events = Ret (p, out) ∧ List.length out = 2 ∧ limit_window p = 1000000000%Z.
Proof.
  destruct (EdgeDNS.resolver_life (C := MapCache.t Checker.cval) Config.example_env no_clickhouse sample_redis example_net
    example_events) as (client & p & out & a & _ & Hrun & Hq & _ & Hw & _).
  { repeat (constructor; [reflexivity|]). constructor. }
  exists p, out. split; [exact Hrun|]. split; [|exact Hw]. apply (f_equal List.length) in Hq.
  rewrite length_fmap in Hq. exact Hq.
Defined.

(** Redis answers again after a start without it. *)
Lemma probes_report_witness :
  ∃ p out, EdgeDNS.life (C := MapCache.t Checker.cval) (W := SimpleWriter.t) Config.example_env no_clickhouse
      (MapRedis.mk false ∅ []) example_net [EdgeDNS.Others sample_redis] = Ret (p, out) ∧
    redis p = sample_redis ∧ (EdgeDNS.readyz (connect (redis p) (rules p))).1.1 = 503%Z.
Proof.
  destruct (EdgeDNS.life (C := MapCache.t Checker.cval) (W := SimpleWriter.t) Config.example_env no_clickhouse
      (MapRedis.mk false ∅ []) example_net [EdgeDNS.Others sample_redis]) as [[p out]|why] eqn:Hrun; [|discriminate].
  exists p, out. split; [reflexivity|]. split; [by injection Hrun as <- _|].
  destruct (EdgeDNS.probes_report _ _ _ _ _ _ _ Hrun) as [_ ->]. reflexivity.
Defined.

Definition example_flags : Publisher.flags :=
  {| Publisher.redisAddr := "localhost:6379"; Publisher.userID := "alice"; Publisher.action := "update_rule" |}.

Lemma publisher_effect_witness :
  ∃ data, (Publisher.main example_flags MapRedis.empty).1.1 = 0%Z ∧
    redis_published (Publisher.main example_flags MapRedis.empty).2 = [("dns:config:events", data)] ∧
    EdgeDNS.step (W := SimpleWriter.t) upstream (EdgeDNS.Message 5 data) sample_p =
      Ret (set_rules (connect (redis sample_p) (rules sample_p)) sample_p, []).
Proof.
  pose proof (Publisher.publisher_effect (W := SimpleWriter.t) upstream example_flags MapRedis.empty sample_p 5
    eq_refl ltac:(discriminate) ltac:(apply is_ascii_valid; by_eval)) as Hp.
  destruct (Publisher.main example_flags MapRedis.empty) as [[code out] r'].
  destruct Hp as (Hc & data & Hpub & st & Hst & Hsame). exists data. split; [exact Hc|]. split; [exact Hpub|].
  cbn in Hsame. subst st. exact Hst.
Defined.
End Programs.
