(* ===== verification/SmokeTest.v ===== *)
(** * The smoke test: src/cmd/test/main.go

    [Module SmokeTest] has the program that sends five queries to a server on its own host
    and checks the answers, over any network ([main]), and the resolver of [Programs] as such
    a network ([exchange]).  Printing the results is left out. *)

From S2P Require Import Prelude.
From S2P Require Import GoStrings.
From S2P Require Import GoNet.
From Stdlib Require Import Strings.Ascii Strings.String.
From S2P Require Import External.
From S2P Require Import Models.
From S2P Require Import Config.
From S2P Require Import Checker.
From S2P Require Import Rule.
From S2P Require Import Analytics.
From S2P Require Import Upstream.
From S2P Require Import Handler.
From S2P Require Import Server.
From S2P Require Import Programs.
Import Handler.

Local Open Scope go_scope.

Module SmokeTest.

Section test.
Context {N : Type} `{DnsNet N}.

(** [msg.SetQuestion] on a new message, and [dns.Fqdn]. *)
Variable SetQuestion : string → Z → Msg.
Variable Fqdn : string → string.

Definition addr : string := "127.0.0.1:8053".

(** The three checks. *)
Definition allowed (resp : Msg) : bool := Z.eqb (m_Rcode resp) RcodeSuccess.

Definition blocked_A (resp : Msg) : bool :=
  match m_Answer resp with
  | RR_A _ ip :: _ => String.eqb (IP_String ip) "0.0.0.0"
  | _ => false
  end.

Definition blocked_AAAA (resp : Msg) : bool :=
  match m_Answer resp with
  | RR_AAAA _ ip :: _ => String.eqb (IP_String ip) "::"
  | _ => false
  end.

Definition test (domain : string) (qtype : Z) (check : Msg → bool) (n : N) : outcome (bool * N) :=
  let msg := SetQuestion (Fqdn domain) qtype in
  let msg := Upstream.set_RecursionDesired msg in
  match Exchange msg addr n with
  | (Err _, n) => Ret (false, n)
  | (Ok None, n) => Panic "invalid memory address or nil pointer dereference"
  | (Ok (Some resp), n) => Ret (check resp, n)
  end.

(** The exit code; [args] is [os.Args]. *)
Definition main (args : list string) (n : N) : outcome (Z * N) :=
  let strict := match args with _ :: a :: _ => String.eqb a "--strict" | _ => false end in
  let exitCode := 0%Z in
  r <-@ test "google.com" TypeA allowed n ;;
  let exitCode := if negb r.1 then (if strict then 1%Z else exitCode) else exitCode in
  r <-@ test "example-blocked.com" TypeA blocked_A r.2 ;;
  let exitCode := if negb r.1 then 1%Z else exitCode in
  r <-@ test "ads.tracker.com" TypeAAAA blocked_AAAA r.2 ;;
  let exitCode := if negb r.1 then 1%Z else exitCode in
  r <-@ test "malware.test" TypeA blocked_A r.2 ;;
  let exitCode := if negb r.1 then 1%Z else exitCode in
  r <-@ test "github.com" TypeA allowed r.2 ;;
  let exitCode := if negb r.1 then (if strict then 1%Z else exitCode) else exitCode in
  Ret (exitCode, r.2).
End test.

(** ** The resolver as the network *)

(** The client's end of a UDP exchange. *)
Record conversation := mkConv { peer : string; replies : list Msg }.

#[export] Instance conversation_writer : ResponseWriter conversation := {
  rw_Network _ := "udp";
  rw_RemoteAddr := peer;
  WriteMsg m w := (Ok tt, mkConv (peer w) (replies w ++ [m]));
}.

Section resolver.
Context `{UnicodeTables, DnsLib} {C R N K B : Type}.
Context `{GoCache Checker.cval C, RedisClient R, DnsNet N, ClickHouse Analytics.row K B}.
Variable UpstreamAddr : string.
Variable clock : nat → times.
Variable userID : string.

(** A resolver, the number of queries it has been sent, and whether its limiter has refused
    one of them. *)
Record resolver := mkResolver { proc : process (C := C) (R := R) (N := N) (K := K); sent : nat; refused : bool }.

(** The first reply, or the client's timeout. *)
Definition exchange (msg : Msg) (_ : string) (sv : resolver) : result string (option Msg) * resolver :=
  let t := clock (sent sv) in
  match Server.ServeDNS UpstreamAddr clock userID (sent sv) (proc sv) (mkConv "127.0.0.1:53000" []) msg with
  | Panic _ => (Err "i/o timeout", sv)
  | Ret (p, w) =>
      (match replies w with resp :: _ => Ok (Some resp) | [] => Err "i/o timeout" end,
       mkResolver p (S (sent sv)) (refused sv || negb (admission t userID (proc sv)).1))
  end.

#[local] Instance resolver_net : DnsNet resolver := { Exchange := exchange }.

Definition run_against (SetQuestion : string → Z → Msg) (Fqdn : string → string) (args : list string) (p : process) :
    outcome (Z * resolver) :=
  main SetQuestion Fqdn args (mkResolver p 0 false).
End resolver.

(** ** The test passes *)

Section passes.
Context `{UnicodeTables} `{DnsLib} `{!DnsLibLaws} {C R N K B : Type}.
Context `{GoCache Checker.cval C} `{!GoCacheLaws Checker.cval C}.
Context `{RedisClient R} `{DnsNet N, ClickHouse Analytics.row K B}.

Abbreviation process := (process (C := C) (R := R) (N := N) (K := K)).
Implicit Types (p : process) (c : Checker.t C R).

(** [c'] differs from [c] in the entry [k] only, and in what its server holds. *)
Definition keeps (k : string) c c' : Prop :=
  Checker.fallback c' = Checker.fallback c ∧
  ∀ t k', k' ≠ k → cache_Get (Checker.cache c') t k' = cache_Get (Checker.cache c) t k'.

Lemma GetRedirect_keeps t0 t1 c u d :
  keeps (Checker.redirect_key u (Checker.normalize d)) c (Checker.GetRedirect t0 t1 c u d).2.
Proof.
  unfold Checker.GetRedirect, keeps. destruct (cache_Get _ t0 _) as [[]|]; [done..|].
  destruct (Checker.enabled c); [|done].
  destruct (Checker.redisGetRedirect _ _ _) as [[ip|] r']; [|done].
  destruct (negb _); cbn; (split; [done|]); intros t k' Hk; by apply Get_Set_ne.
Qed.

(** The key of the decision on a name. *)
Definition decision_key (u name : string) : string := Checker.check_key u (Checker.normalize (Checker.normalize name)).

Lemma CheckRule_keeps t0 t1 (st : Rule.state C R) u name c :
  Rule.global st = Some c → cache_Get (Checker.cache c) t0 (decision_key u name) = None →
  ∃ v c' total, Rule.CheckRule t0 t1 st u name = Ret (v, Rule.mkState (Some c') total) ∧ keeps (decision_key u name) c c' ∧
    (Checker.fallback_loop (Checker.fallback c) (Checker.normalize (Checker.normalize name)) = true → v = 1%Z).
Proof.
  intros Hg Hmiss. unfold Rule.CheckRule. rewrite Hg, Checker.Check_miss by done. cbn [outcome_bind fst snd].
  do 3 eexists. split; [done|]. split; [split; [done|]; intros t k' Hk; by apply Get_Set_ne|].
  intros ->. by rewrite orb_true_r.
Qed.

Lemma answer_keeps UpstreamAddr t u (w : conversation) msg q v p c :
  Rule.global (rules p) = Some c →
  ∃ c', Rule.global (rules (answer UpstreamAddr t u w msg q v p).2) = Some c' ∧
    keeps (Checker.redirect_key u (Checker.normalize (q_Name q))) c c'.
Proof.
  intros Hg. unfold answer. destruct (Z.eqb v 1); [by exists c|].
  unfold Rule.GetRedirectDomain, connect. rewrite Hg. cbn [Rule.global].
  pose proof (GetRedirect_keeps (t_redirect t) (t_redirect_set t)
    (Checker.mk (Checker.cache c) (redis p) (Checker.fallback c) (Checker.enabled c)) u (q_Name q)) as Hk.
  destruct (Checker.GetRedirect _ _ _ _ _) as [[ip []] c'];
    [destruct (writeRedirectResponse _ _ _ _ _ _)|destruct (forwardResponse _ _ _ _)];
    exists c'; (split; [done|exact Hk]).
Qed.

(** A resolver that has decided none of the names [names] for the user, with the built-in
    list. *)
Definition undecided (u : string) (names : list string) p : Prop :=
  ∃ c, Rule.global (rules p) = Some c ∧ Checker.fallback c = Checker.default_fallback ∧
    ∀ name t, name ∈ names → cache_Get (Checker.cache c) t (decision_key u name) = None.

(** One query for a name that is not decided: the rest of the names stay undecided, and a
    name of the built-in list is blocked, whatever Redis and the resolver say. *)
Lemma query_undecided UpstreamAddr t u p (w : conversation) msg q names :
  Checker.good_user u = true → m_Question msg = [q] → undecided u (q_Name q :: names) p →
  Forall (λ name, decision_key u name ≠ decision_key u (q_Name q)) names →
  ∃ p' w', HandleDNSQuery UpstreamAddr t u p w msg = Ret (p', w') ∧ undecided u names p' ∧
    ((admission t u p).1 = true →
     Checker.fallback_loop Checker.default_fallback (Checker.normalize (Checker.normalize (q_Name q))) = true →
     w' = write (block_response msg q) w).
Proof.
  intros Hu Hq (c & Hg & Hfb & Hun) Hne. rewrite Forall_forall in Hne.
  destruct (admission t u p) as [b p1] eqn:Hadm. destruct (admission_frame t u p) as (Hr & _).
  rewrite Hadm in Hr. cbn [fst snd] in *. destruct b.
  - assert (Hg1 : Rule.global (connect (redis p1) (rules p1)) =
      Some (Checker.mk (Checker.cache c) (redis p1) (Checker.fallback c) (Checker.enabled c))) by (unfold connect; by rewrite Hr, Hg).
    destruct (CheckRule_keeps (t_check t) (t_check_set t) _ u (q_Name q) _ Hg1 (Hun (q_Name q) _ ltac:(by left)))
      as (v & c1 & total & Hck & (Hf1 & Hk1) & Hv). cbn [Checker.fallback Checker.cache] in Hf1, Hk1, Hv.
    destruct (ProcessQuery_admitted UpstreamAddr t u p p1 w msg q [] v _ Hadm Hq Hck) as (p' & Hrun & Hp').
    set (p2 := set_rules (Rule.mkState (Some c1) total) p1) in *.
    destruct (answer_keeps UpstreamAddr t u w msg q v p2 c1 eq_refl) as (c2 & Hg2 & Hf2 & Hk2).
    do 2 eexists. split; [exact Hrun|]. split.
    + destruct (answer _ _ _ _ _ _ _ _) as [[status w'] p3]. destruct Hp' as (Hr' & _). cbn [snd] in Hg2.
      exists c2. rewrite Hr'. split; [done|]. split; [congruence|]. intros name t' Hin.
      rewrite Hk2 by (by apply Checker.keys_disjoint). rewrite Hk1 by (by apply Hne). apply Hun. by right.
    + intros _ Hblock. rewrite Hfb in Hv. by rewrite (Hv Hblock).
  - exists p1, (writeRateLimitResponse w msg). unfold HandleDNSQuery, ProcessQuery. rewrite Hadm. split; [done|].
    split; [|done]. exists c. rewrite Hr. split_and!; [done..|]. intros name t' Hin. apply Hun. by right.
Qed.

Variable SetQuestion : string → Z → Msg.
Variable Fqdn : string → string.

(** The documented behaviour of the two functions. *)
Hypothesis SetQuestion_Question : ∀ name ty, m_Question (SetQuestion name ty) = [{| q_Name := name; q_Qtype := ty |}].
Hypothesis Fqdn_dot : ∀ name, HasSuffix name "." = false → Fqdn name = name +:+ ".".

Variable UpstreamAddr : string.
Variable clock : nat → times.
Variable u : string.
Hypothesis good : Checker.good_user u = true.

Abbreviation resolver := (resolver (C := C) (R := R) (N := N) (K := K)).
#[local] Instance net : DnsNet resolver := resolver_net UpstreamAddr clock u.

Lemma test_undecided domain ty check (sv : resolver) names :
  HasSuffix domain "." = false → undecided u ((domain +:+ ".") :: names) (proc sv) →
  Forall (λ name, decision_key u name ≠ decision_key u (domain +:+ ".")) names →
  ∃ ok sv', test SetQuestion Fqdn domain ty check sv = Ret (ok, sv') ∧ undecided u names (proc sv') ∧
    (refused sv' = false → refused sv = false ∧
     (Checker.fallback_loop Checker.default_fallback (Checker.normalize (Checker.normalize (domain +:+ "."))) = true →
      (∀ msg, check (block_response msg {| q_Name := domain +:+ "."; q_Qtype := ty |}) = true) → ok = true)).
Proof.
  intros Hd Hun Hne. unfold test. rewrite Fqdn_dot by done.
  set (msg := Upstream.set_RecursionDesired (SetQuestion (domain +:+ ".") ty)).
  assert (Hq : m_Question msg = [{| q_Name := domain +:+ "."; q_Qtype := ty |}]) by apply SetQuestion_Question.
  destruct (query_undecided UpstreamAddr (clock (sent sv)) u (proc sv) (mkConv "127.0.0.1:53000" []) msg _ names good Hq Hun Hne)
    as (p' & w' & Hrun & Hun' & Hblock).
  cbn [Exchange net resolver_net]. unfold exchange, Server.ServeDNS. rewrite Hrun.
  assert (Hfin : ∀ b, (refused sv || negb b) = false → refused sv = false ∧ b = true) by (intros []; by destruct (refused sv)).
  destruct (replies w') as [|resp rs] eqn:Hw; do 2 eexists; (split; [done|]); (split; [done|]); cbn [refused];
    intros [Hr Ha]%Hfin; (split; [done|]); intros Hf Hck; rewrite (Hblock Ha Hf) in Hw; [done|].
  cbn in Hw. injection Hw as <- _. apply Hck.
Qed.

Lemma blocked_A_ok name msg : blocked_A (block_response msg {| q_Name := name; q_Qtype := TypeA |}) = true.
Proof. unfold blocked_A, block_response, with_answer. cbn. by rewrite SetReply_Answer. Qed.

Lemma blocked_AAAA_ok name msg : blocked_AAAA (block_response msg {| q_Name := name; q_Qtype := TypeAAAA |}) = true.
Proof. by unfold blocked_AAAA, block_response, with_answer. Qed.

Lemma other_name name name' : 
  bool_decide (Checker.normalize (Checker.normalize name) = Checker.normalize (Checker.normalize name')) = false →
  decision_key u name ≠ decision_key u name'.
Proof. intros Hn%bool_decide_eq_false E. by apply Checker.check_key_inj in E as [_ E]. Qed.

(** One more query of the test. *)
Ltac next Hun ok sv Hp :=
  match goal with |- context [test _ _ ?d ?ty ?ck ?s] =>
    let Hun' := fresh "Hun" in
    edestruct (test_undecided d ty ck s) as (ok & sv & -> & Hun' & Hp);
      [reflexivity|exact Hun|repeat (constructor; [by apply other_name; vm_compute|]); constructor|];
    clear Hun; rename Hun' into Hun; cbn [outcome_bind fst snd]
  end.

Lemma main_undecided args (sv : resolver) :
  args !! 1 ≠ Some "--strict" →
  undecided u ["google.com."; "example-blocked.com."; "ads.tracker.com."; "malware.test."; "github.com."] (proc sv) →
  ∃ code sv', main SetQuestion Fqdn args sv = Ret (code, sv') ∧ (refused sv' = false → code = 0%Z).
Proof.
  intros Hargs Hun. unfold main.
  assert (Hs : match args with _ :: a :: _ => String.eqb a "--strict" | _ => false end = false).
  { destruct args as [|? [|a ?]]; [done..|]. apply String.eqb_neq. intros ->. by apply Hargs. }
  rewrite Hs. clear Hs Hargs.
  next Hun ok1 sv1 Hp1. next Hun ok2 sv2 Hp2. next Hun ok3 sv3 Hp3. next Hun ok4 sv4 Hp4. next Hun ok5 sv5 Hp5.
  do 2 eexists. split; [done|]. intros (Hr4 & _)%Hp5.
  destruct (Hp4 Hr4) as [Hr3 Hok4]. destruct (Hp3 Hr3) as [Hr2 Hok3]. destruct (Hp2 Hr2) as [_ Hok2].
  rewrite Hok2, Hok3, Hok4; [by destruct ok1, ok5|..]; (by vm_compute) || (intros msg; apply blocked_AAAA_ok || apply blocked_A_ok).
Qed.

End passes.

(** ** A concrete instance of the hypotheses *)

#[local] Existing Instance ascii_tables.

Definition example_question (name : string) (ty : Z) : Msg := sample_msg name ty.
Definition example_fqdn (name : string) : string := if HasSuffix name "." then name else name +:+ ".".
Definition example_clock (i : nat) : times := at_second (Z.of_nat i).

Definition example_start :=
  Programs.EdgeDNS.main (C := MapCache.t Checker.cval) Config.example_env Programs.no_clickhouse
    (initial sample_redis Programs.example_net).

End SmokeTest.
