(* ===== verification/Isolation.v ===== *)
(** * Isolation of the users: internal/handler, internal/rule and internal/ratelimit together

    The users of a resolver share one checker cache, one limiter, one member counter and one
    Redis server.  [Module Isolation] compares the run of a process with the run in which the
    queries and events of everybody but one user are left out, and shows that this user
    cannot tell them apart: two processes are [alike] for a user when every part of them the
    user's queries read agrees, what the others do leaves a process alike, and alike
    processes answer the user's queries in the same way and stay alike.  The Redis server is
    one that answers, holds settings of the right types and has no other writers, the users
    are well-formed, a query is one step, and each query finds the upstream in a state that is
    given with it, the same in both runs: what a resolver upstream does is not ours. *)

From S2P Require Import Prelude.
From S2P Require Import GoStrings.
From Stdlib Require Import Strings.Ascii Strings.String.
From S2P Require Import External.
From S2P Require Import Models.
From S2P Require Import Config.
From S2P Require Import Checker.
From S2P Require Import Redirect.
From S2P Require Import Rule.
From S2P Require Import RateLimit.
From S2P Require Import Analytics.
From S2P Require Import Upstream.
From S2P Require Import Handler.
From S2P Require Import Sync.
From S2P Require Import Admin.
From S2P Require Import Programs.
Import Handler.

Local Open Scope go_scope.

Module Isolation.

(** ** Caches *)

Section caches.
Context {C : Type} `{GoCache Checker.cval C} `{!GoCacheLaws Checker.cval C}.
Implicit Types (ca : C) (u v k : string).

(** The entries a user's queries read. *)
Definition own_key u k : Prop := ∃ d, k = Checker.check_key u d ∨ k = Checker.redirect_key u d.

(** Two caches a user cannot tell apart. *)
Record same_cache u ca ca' : Prop := {
  sc_expiration : cache_expiration ca' = cache_expiration ca;
  sc_get t k : own_key u k → cache_Get ca' t k = cache_Get ca t k;
}.

#[global] Instance same_cache_equiv u : Equivalence (same_cache u).
Proof.
  split.
  - by intros ca; split.
  - intros ca ca' [? Hg]. split; [done|]. intros t k Hk. symmetry. by apply Hg.
  - intros ca1 ca2 ca3 [? H1g] [? H2g]. split; [congruence|]. intros t k Hk. by rewrite H2g, H1g.
Qed.

(** What is read back of a key that has just been set depends on the lifetime of the entries
    only. *)
Lemma Get_Set_same ca ca' t k (v : Checker.cval) (d t' : Z) :
  cache_expiration ca' = cache_expiration ca → (0 < cache_duration ca d)%Z →
  cache_Get (cache_Set ca' t k v d) t' k = cache_Get (cache_Set ca t k v d) t' k.
Proof.
  intros He Hd. assert (Hd' : cache_duration ca' d = cache_duration ca d) by (unfold cache_duration; by rewrite He).
  assert (Hin : (t' ≤ t + cache_duration ca d)%Z → ∀ c, cache_duration c d = cache_duration ca d →
    cache_Get (cache_Set c t k v d) t' k = Some v).
  { intros Hle c Hc. apply (Get_mono _ _ (t + cache_duration ca d)); [done|]. rewrite <- Hc. apply Get_Set_last. lia. }
  destruct (Z.le_gt_cases t' (t + cache_duration ca d)).
  - by rewrite !Hin.
  - by rewrite !Get_Set_expired by lia.
Qed.

(** Setting an entry respects [same_cache], and another user's entry does not matter. *)
Lemma same_cache_Set u ca ca' t k (x : Checker.cval) :
  (0 < cache_expiration ca)%Z → same_cache u ca ca' →
  same_cache u (cache_Set ca t k x DefaultExpiration) (cache_Set ca' t k x DefaultExpiration).
Proof.
  intros Hpos [He Hg]. split; [by rewrite !expiration_Set|]. intros t' k' Hk'.
  destruct (decide (k = k')) as [<-|Hne].
  - by apply Get_Set_same.
  - rewrite !Get_Set_ne by done. by apply Hg.
Qed.

Lemma same_cache_other u ca t k (x : Checker.cval) :
  ¬ own_key u k → same_cache u ca (cache_Set ca t k x DefaultExpiration).
Proof.
  intros Hk. split; [apply expiration_Set|]. intros t' k' Hk'. apply Get_Set_ne. by intros ->.
Qed.

Lemma not_own u v d : Checker.good_user u = true → Checker.good_user v = true → v ≠ u →
  ¬ own_key u (Checker.check_key v d) ∧ ¬ own_key u (Checker.redirect_key v d).
Proof.
  intros Hu Hv Hne. split; intros (d' & [E|E]).
  - by apply Checker.check_key_inj in E as [? _].
  - by apply (Checker.keys_disjoint v d u d' Hv).
  - by apply (Checker.keys_disjoint u d' v d Hu).
  - apply (append_inj_l "redirect:") in E. by apply (Checker.check_key_inj v d u d') in E as [? _].
Qed.

(** Clearing a user respects [same_cache], and clearing another one does not matter. *)
Lemma evicted_get now v ca t k :
  cache_Get (fold_left (λ acc kv, if Checker.clears v kv.1 then cache_Delete acc kv.1 else acc) (cache_Items ca now) ca) t k =
    if Checker.clears v k && match cache_Get ca now k with Some _ => true | None => false end then None else cache_Get ca t k.
Proof.
  rewrite Checker.fold_delete_get. destruct (Checker.clears v k); cbn [andb]; [|done]. case_bool_decide as Hin.
  - apply list_elem_of_fmap in Hin as ([k' x] & -> & Hx%Items_Get). cbn [fst]. by rewrite Hx.
  - destruct (cache_Get ca now k) as [x|] eqn:E; [|done]. exfalso. apply Hin, list_elem_of_fmap.
    exists (k, x). split; [done|]. by apply Items_Get.
Qed.
End caches.

(** ** Lookups *)

Section lookups.
Context `{UnicodeTables} {C R : Type}.
Context `{GoCache Checker.cval C} `{!GoCacheLaws Checker.cval C}.
Context `{RedisClient R, RedisView R} `{!RedisLaws R}.
Implicit Types (c : Checker.t C R) (u v : string).

(** The decision the rules [s] of a user and the fallback list make. *)
Definition verdict (en : bool) (s : gset string) (fallback : list string) (d : string) : bool :=
  (en && existsb id ((λ m, bool_decide (m ∈ s)) <$> Checker.generatePatterns d)) || Checker.fallback_loop fallback d.

(** What the two lookups answer and leave in the cache, as functions of the cache and the
    settings of the user. *)
Definition checked (t0 t1 : Z) u d (s : gset string) c : Z * C :=
  let k := Checker.check_key u d in
  let x := verdict (Checker.enabled c) s (Checker.fallback c) d in
  match cache_Get (Checker.cache c) t0 k with
  | Some (Checker.VBool b) => (if b then 1%Z else 0%Z, Checker.cache c)
  | _ => (if x then 1%Z else 0%Z, cache_Set (Checker.cache c) t1 k (Checker.VBool x) DefaultExpiration)
  end.

Definition redirected (t0 t1 : Z) u d (h : gmap string string) c : (string * bool) * C :=
  let k := Checker.redirect_key u d in
  let ip := from_option snd EmptyString (Redirect.best_redirect h (Checker.generatePatterns d)) in
  match cache_Get (Checker.cache c) t0 k with
  | Some (Checker.VStr a) => ((a, true), Checker.cache c)
  | Some (Checker.VBool _) => ((EmptyString, false), Checker.cache c)
  | None =>
      if Checker.enabled c then
        ((ip, negb (String.eqb ip EmptyString)), cache_Set (Checker.cache c) t1 k (Checker.VStr ip) DefaultExpiration)
      else ((EmptyString, false), Checker.cache c)
  end.

Lemma Check_checked t0 t1 c u d s :
  redis_up (Checker.rdb c) = true → as_set (redis_get (Checker.rdb c) (Checker.blocked_key u)) = Some s →
  Checker.typed (Checker.cache c) → Checker.good_user u = true →
  let xc := checked t0 t1 u (Checker.normalize d) s c in
  Checker.Check t0 t1 c u d = Ret (xc.1, Checker.mk xc.2 (Checker.rdb c) (Checker.fallback c) (Checker.enabled c)).
Proof.
  intros Hup Hs Hty Hu xc. subst xc. unfold checked. destruct (cache_Get _ t0 _) as [[b|a]|] eqn:E.
  - unfold Checker.Check. rewrite E. by destruct c.
  - by apply Checker.typed_no_panic in E.
  - rewrite Checker.Check_miss by done. unfold Checker.redis_decision, Checker.checkRedis, rbind, verdict.
    destruct (Checker.enabled c); [|done]. by rewrite (SMIsMember_up _ _ _ s).
Qed.

Lemma GetRedirect_redirected t0 t1 c u d h :
  redis_up (Checker.rdb c) = true → as_hash (redis_get (Checker.rdb c) (Checker.redirects_key u)) = Some h →
  let xc := redirected t0 t1 u (Checker.normalize d) h c in
  Checker.GetRedirect t0 t1 c u d = (xc.1, Checker.mk xc.2 (Checker.rdb c) (Checker.fallback c) (Checker.enabled c)).
Proof.
  intros Hup Hh xc. subst xc. unfold redirected, Checker.GetRedirect.
  destruct (cache_Get _ t0 _) as [[b|a]|]; [by destruct c..|]. destruct c as [ca r fb []]; [|done].
  cbn [Checker.enabled Checker.rdb Checker.cache Checker.fallback] in *.
  unfold Checker.redisGetRedirect. rewrite (Redirect.hget_first_up _ _ _ h) by done.
  by destruct (String.eqb_spec (from_option snd EmptyString
    (Redirect.best_redirect h (Checker.generatePatterns (Checker.normalize d)))) EmptyString) as [->|].
Qed.

(** Two checkers a user cannot tell apart, whatever servers they are connected to. *)
Record same_checker u c c' : Prop := {
  sk_cache : same_cache u (Checker.cache c) (Checker.cache c');
  sk_fallback : Checker.fallback c' = Checker.fallback c;
  sk_enabled : Checker.enabled c' = Checker.enabled c;
}.

#[global] Instance same_checker_equiv u : Equivalence (same_checker u).
Proof.
  split.
  - by intros c; split.
  - intros c c' [? ? ?]. by split.
  - intros c1 c2 c3 [? ? ?] [? ? ?]. split; [by etrans|congruence..].
Qed.

Lemma own_check u d : own_key u (Checker.check_key u d).
Proof. exists d. by left. Qed.
Lemma own_redirect u d : own_key u (Checker.redirect_key u d).
Proof. exists d. by right. Qed.

Lemma checked_own t0 t1 u d s c c' : (0 < cache_expiration (Checker.cache c))%Z → same_checker u c c' →
  (checked t0 t1 u d s c').1 = (checked t0 t1 u d s c).1 ∧
  same_cache u (checked t0 t1 u d s c).2 (checked t0 t1 u d s c').2.
Proof.
  intros Hpos [Hc Hf He]. unfold checked. rewrite Hf, He, (sc_get _ _ _ Hc t0 _ (own_check u d)).
  destruct (cache_Get _ t0 _) as [[]|]; (split; [done|]); [done|by apply same_cache_Set..].
Qed.

Lemma redirected_own t0 t1 u d h c c' : (0 < cache_expiration (Checker.cache c))%Z → same_checker u c c' →
  (redirected t0 t1 u d h c').1 = (redirected t0 t1 u d h c).1 ∧
  same_cache u (redirected t0 t1 u d h c).2 (redirected t0 t1 u d h c').2.
Proof.
  intros Hpos [Hc Hf He]. unfold redirected. rewrite He, (sc_get _ _ _ Hc t0 _ (own_redirect u d)).
  destruct (cache_Get _ t0 _) as [[]|]; [done..|].
  destruct (Checker.enabled c); (split; [done|]); [by apply same_cache_Set|done].
Qed.

Lemma checked_other t0 t1 u v d s c : Checker.good_user u = true → Checker.good_user v = true → v ≠ u →
  same_cache u (Checker.cache c) (checked t0 t1 v d s c).2.
Proof.
  intros Hu Hv Hne. destruct (not_own u v d Hu Hv Hne) as [Hk _]. unfold checked.
  destruct (cache_Get _ t0 _) as [[]|]; [done|by apply same_cache_other..].
Qed.

Lemma redirected_other t0 t1 u v d h c : Checker.good_user u = true → Checker.good_user v = true → v ≠ u →
  same_cache u (Checker.cache c) (redirected t0 t1 v d h c).2.
Proof.
  intros Hu Hv Hne. destruct (not_own u v d Hu Hv Hne) as [_ Hk]. unfold redirected.
  destruct (cache_Get _ t0 _) as [[]|]; [done..|]. destruct (Checker.enabled c); [by apply same_cache_other|done].
Qed.

Lemma checked_typed t0 t1 u d s c : Checker.good_user u = true → Checker.typed (Checker.cache c) →
  Checker.typed (checked t0 t1 u d s c).2 ∧
  cache_expiration (checked t0 t1 u d s c).2 = cache_expiration (Checker.cache c).
Proof.
  intros Hu Hty. unfold checked. destruct (cache_Get _ t0 _) as [[]|]; [done| |];
    (split; [apply Checker.typed_Set; cbn; eauto|apply expiration_Set]).
Qed.

Lemma redirected_typed t0 t1 u d h c : Checker.typed (Checker.cache c) →
  Checker.typed (redirected t0 t1 u d h c).2 ∧
  cache_expiration (redirected t0 t1 u d h c).2 = cache_expiration (Checker.cache c).
Proof.
  intros Hty. unfold redirected. destruct (cache_Get _ t0 _) as [[]|]; [done..|]. destruct (Checker.enabled c); [|done].
  split; [apply Checker.typed_Set; cbn; eauto|apply expiration_Set].
Qed.
End lookups.

(** ** The Redis server *)

Section store.
Context {R : Type} `{RedisClient R, RedisView R} `{!RedisLaws R}.
Implicit Types (r : R) (u v : string).

(** The server answers, and the keys of every user hold what the programs put there. *)
Definition well_typed r : Prop :=
  redis_up r = true ∧ ∀ u, ∃ s h z,
    as_set (redis_get r (Checker.blocked_key u)) = Some s ∧
    as_hash (redis_get r (Checker.redirects_key u)) = Some h ∧
    as_zset (redis_get r (RateLimit.rl_key u)) = Some z.

(** Two servers with the same settings of a user. *)
Definition same_settings u r r' : Prop :=
  ∀ k, k = Checker.blocked_key u ∨ k = Checker.redirects_key u →
    redis_get r' k = redis_get r k ∧ redis_ttl r' k = redis_ttl r k.

#[global] Instance same_settings_equiv u : Equivalence (same_settings u).
Proof.
  split.
  - by intros r k Hk.
  - intros r r' Hs k Hk. destruct (Hs k Hk). done.
  - intros r1 r2 r3 H12 H23 k Hk. destruct (H12 k Hk), (H23 k Hk). split; congruence.
Qed.

Lemma rl_key_settings u v : Checker.blocked_key u ≠ RateLimit.rl_key v ∧ Checker.redirects_key u ≠ RateLimit.rl_key v.
Proof. done. Qed.

Lemma rl_key_inj u v : RateLimit.rl_key u = RateLimit.rl_key v → u = v.
Proof. apply append_inj_l. Qed.

(** A call of the limiter changes the window of its user only. *)
Lemma limiter_settings u v r r' : redis_frame (RateLimit.rl_key v) r r' → same_settings u r r'.
Proof. intros (_ & _ & Hf) k [-> | ->]; by apply Hf. Qed.

Lemma limiter_well_typed v r r' z : well_typed r → redis_frame (RateLimit.rl_key v) r r' →
  as_zset (redis_get r' (RateLimit.rl_key v)) = Some z → well_typed r'.
Proof.
  intros [_ Hw] (Hup & _ & Hf) Hz. split; [done|]. intros u. destruct (Hw u) as (s & h & zu & Hs & Hh & Hzu).
  destruct (Hf (Checker.blocked_key u)) as [-> _]; [done|]. destruct (Hf (Checker.redirects_key u)) as [-> _]; [done|].
  exists s, h. destruct (decide (u = v)) as [->|Hne]; [by exists z|].
  destruct (Hf (RateLimit.rl_key u)) as [-> _]; [by intros ?%rl_key_inj|]. by exists zu.
Qed.

Lemma represents_other window now u v r r' k k' adm : v ≠ u → redis_frame (RateLimit.rl_key v) r r' → (k ≤ k')%Z →
  RateLimit.represents window now u (RateLimit.mk r k) adm → RateLimit.represents window now u (RateLimit.mk r' k') adm.
Proof.
  intros Hne (Hup & _ & Hf) Hk [_ Hc (z & ms & Hz & Hadm & [Hnd Hpos Hmem Hlive Hms])].
  destruct (Hf (RateLimit.rl_key u)) as [Hg Ht]; [by intros ->%rl_key_inj|]. cbn [RateLimit.client RateLimit.memberCounter] in *.
  split; cbn [RateLimit.client RateLimit.memberCounter]; [done|lia|]. exists z, ms. rewrite Hg, Ht. do 2 (split; [done|]). split; try done.
  intros m s Hm. destruct (Hmem m s Hm) as (t & i & ? & ?). exists t, i. split; [done|lia].
Qed.

(** Time passes alike for both servers. *)
Lemma elapse_settings d u r r' : (0 ≤ d)%Z → same_settings u r r' → same_settings u (redis_elapse d r) (redis_elapse d r').
Proof. intros Hd Hs k Hk. destruct (Hs k Hk) as [Hg Ht]. by rewrite !elapse_get, !elapse_ttl, Hg, Ht. Qed.

Lemma elapse_well_typed d r : (0 ≤ d)%Z → well_typed r → well_typed (redis_elapse d r).
Proof.
  intros Hd [Hup Hw]. split; [by rewrite elapse_up|]. intros u. destruct (Hw u) as (s & h & z & Hs & Hh & Hz).
  rewrite !elapse_get by done.
  assert (Hgen : ∀ {A : Type} (f : option redis_value → option A) k x, f (redis_get r k) = Some x → is_Some (f None) →
    ∃ y, f (match redis_ttl r k with Some t => if Z.leb t d then None else redis_get r k | None => redis_get r k end) = Some y).
  { intros A f k x Hx [y Hy]. destruct (redis_ttl r k) as [t|]; [destruct (Z.leb t d)|]; eauto. }
  destruct (Hgen _ as_set _ _ Hs) as [s' ->]; [by eexists|]. destruct (Hgen _ as_hash _ _ Hh) as [h' ->]; [by eexists|].
  destruct (Hgen _ as_zset _ _ Hz) as [z' ->]; [by eexists|]. by exists s', h', z'.
Qed.
End store.

(** ** Queries *)

Section queries.
Context `{UnicodeTables} `{DnsLib} {C R N W K B : Type}.
Context `{GoCache Checker.cval C} `{!GoCacheLaws Checker.cval C}.
Context `{RedisClient R, RedisView R} `{!RedisLaws R}.
Context `{DnsNet N, ResponseWriter W, ClickHouse Analytics.row K B}.
Variable UpstreamAddr : string.

Abbreviation process := (process (C := C) (R := R) (N := N) (K := K)).
Implicit Types (p : process) (c : Checker.t C R) (u v : string) (t : times) (w : W) (msg : Msg).

(** The response to an admitted query, and the cache and the network after it. *)
Definition served t u (s : gset string) (h : gmap string string) w msg (q : Question) c (n : N) : W * C * N :=
  let d := Checker.normalize (q_Name q) in
  let xc := checked (t_check t) (t_check_set t) u (Checker.normalize d) s c in
  if Z.eqb xc.1 1 then (writeBlockResponse w msg q, xc.2, n)
  else
    let c1 := Checker.mk xc.2 (Checker.rdb c) (Checker.fallback c) (Checker.enabled c) in
    let rc := redirected (t_redirect t) (t_redirect_set t) u d h c1 in
    let wn := if rc.1.2 : bool then writeRedirectResponse UpstreamAddr w msg q rc.1.1 n
              else forwardResponse UpstreamAddr w msg n in
    (wn.1, rc.2, wn.2).

Lemma served_own t u s h w msg q c c' n :
  Checker.good_user u = true → (0 < cache_expiration (Checker.cache c))%Z → Checker.typed (Checker.cache c) →
  same_checker u c c' →
  (served t u s h w msg q c' n).1.1 = (served t u s h w msg q c n).1.1 ∧
  same_cache u (served t u s h w msg q c n).1.2 (served t u s h w msg q c' n).1.2.
Proof.
  intros Hu Hpos Hty Hc. unfold served. set (d := Checker.normalize (q_Name q)).
  destruct (checked_own (t_check t) (t_check_set t) u (Checker.normalize d) s c c' Hpos Hc) as [Hx Hca].
  destruct (checked_typed (t_check t) (t_check_set t) u (Checker.normalize d) s c Hu Hty) as [_ He].
  destruct (checked _ _ _ _ _ c) as [x ca], (checked _ _ _ _ _ c') as [x' ca']. cbn [fst snd] in *. subst x'.
  destruct (Z.eqb x 1); [done|].
  set (c1 := Checker.mk ca _ _ _). set (c1' := Checker.mk ca' _ _ _).
  assert (Hc1 : same_checker u c1 c1') by (destruct Hc; by split).
  destruct (redirected_own (t_redirect t) (t_redirect_set t) u d h c1 c1') as [Hy Hca1]; [cbn; lia|done|].
  destruct (redirected _ _ _ _ _ c1) as [[ip ok] ca1], (redirected _ _ _ _ _ c1') as [[ip' ok'] ca1']. cbn [fst snd] in *.
  injection Hy as -> ->. by split; [destruct ok|].
Qed.

Lemma served_other t u v s h w msg q c n :
  Checker.good_user u = true → Checker.good_user v = true → v ≠ u →
  same_cache u (Checker.cache c) (served t v s h w msg q c n).1.2.
Proof.
  intros Hu Hv Hne. unfold served. set (d := Checker.normalize (q_Name q)).
  pose proof (checked_other (t_check t) (t_check_set t) u v (Checker.normalize d) s c Hu Hv Hne) as H1c.
  destruct (checked _ _ _ _ _ c) as [x ca]. cbn [fst snd] in *. destruct (Z.eqb x 1); [done|].
  etrans; [exact H1c|]. by apply (redirected_other _ _ u v d h (Checker.mk ca _ _ _)).
Qed.

Lemma served_typed t v s h w msg q c n :
  Checker.good_user v = true → Checker.typed (Checker.cache c) →
  Checker.typed (served t v s h w msg q c n).1.2 ∧
  cache_expiration (served t v s h w msg q c n).1.2 = cache_expiration (Checker.cache c).
Proof.
  intros Hv Hty. unfold served. set (d := Checker.normalize (q_Name q)).
  destruct (checked_typed (t_check t) (t_check_set t) v (Checker.normalize d) s c Hv Hty) as [H1t H1e].
  destruct (checked _ _ _ _ _ c) as [x ca]. cbn [fst snd] in *. destruct (Z.eqb x 1); [done|].
  destruct (redirected_typed (t_redirect t) (t_redirect_set t) v d h
    (Checker.mk ca (Checker.rdb c) (Checker.fallback c) (Checker.enabled c)) H1t) as [H2t H2e].
  destruct (redirected _ _ _ _ _ _) as [[ip ok] ca1]. cbn [fst snd Checker.cache] in *.
  split; [done|congruence].
Qed.

(** *** Processes *)

(** A process with room for [b] more queries in its member counter. *)
Record steady (b : Z) p : Prop := {
  st_store : well_typed (redis p);
  st_checker : ∃ c, Rule.global (rules p) = Some c ∧ Checker.typed (Checker.cache c) ∧
    (0 < cache_expiration (Checker.cache c))%Z;
  st_limiter : ∃ k, limiter p = Some k ∧ (0 ≤ k ∧ k + b < 2 ^ 64)%Z;
  st_window : (0 < limit_window p)%Z;
}.

(** Everything a user's queries read of the process and its server agrees, the window of the
    limiter apart. *)
Record same_view u p p' : Prop := {
  sv_queries : limit_queries p' = limit_queries p;
  sv_window : limit_window p' = limit_window p;
  sv_settings : same_settings u (redis p) (redis p');
  sv_checker : option_Forall2 (same_checker u) (Rule.global (rules p)) (Rule.global (rules p'));
}.

#[global] Instance same_view_equiv u : Equivalence (same_view u).
Proof.
  split.
  - intros p. by split.
  - intros p p' [? ? ? ?]. split; by symmetry.
  - intros p1 p2 p3 [? ? ? ?] [? ? ? ?]. split; by etrans.
Qed.

(** The limiter holds the window [adm] of the user at client time [now]. *)
Definition counts (now : Z) u p (adm : list Z) : Prop :=
  ∃ k, limiter p = Some k ∧ RateLimit.represents (limit_window p) now u (RateLimit.mk (redis p) k) adm.

(** Two processes a user cannot tell apart. *)
Definition alike (now : Z) u p p' : Prop := same_view u p p' ∧ ∃ adm, counts now u p adm ∧ counts now u p' adm.

Lemma alike_step now now' u p p' p1 p1' : alike now u p p' → same_view u p p1 → same_view u p' p1' →
  (∃ adm, counts now' u p1 adm ∧ counts now' u p1' adm) → alike now' u p1 p1'.
Proof. intros [Hv _] H1v H2v Hc. split; [|done]. etrans; [symmetry; exact H1v|]. etrans; [exact Hv|exact H2v]. Qed.

(** Admission. *)
Definition limited (r : R) (k : Z) p : process :=
  mkProcess r (Some k) (limit_queries p) (limit_window p) (rules p) (aggregator p) (network p) (queries_total p) (query_seconds p).

Lemma admission_limited t v b p : steady (b + 1) p → (0 ≤ b)%Z →
  ∃ k r' z, limiter p = Some k ∧ (admission t v p).2 = limited r' (k + 1) p ∧
    redis_frame (RateLimit.rl_key v) (redis p) r' ∧ as_zset (redis_get r' (RateLimit.rl_key v)) = Some z.
Proof.
  intros [[Hup Hw] _ (k & Hk & Hb) Hwin] Hb0. destruct (Hw v) as (_ & _ & z & _ & _ & Hz).
  destruct (RateLimit.AllowQuery_up (t_limit_ms t) (RateLimit.mk (redis p) k) v (limit_queries p) (limit_window p) z Hup Hz Hwin)
    as (r' & Ha & Hf & Hz' & _). cbn [RateLimit.client RateLimit.memberCounter] in *.
  replace (uint64_add k 1) with (k + 1)%Z in Ha by (symmetry; apply uint64_wrap_small; lia).
  do 3 eexists. split; [exact Hk|]. split; [|split; [exact Hf|exact Hz']].
  unfold admission. rewrite Hk, Ha. done.
Qed.

Lemma admission_steady t v b p : steady (b + 1) p → (0 ≤ b)%Z → steady b (admission t v p).2.
Proof.
  intros Hst Hb. destruct (admission_limited t v b p Hst Hb) as (k & r' & z & Hk & -> & Hf & Hz).
  destruct Hst as [Hw Hc (k' & Hk' & Hr) Hwin]. rewrite Hk in Hk'. injection Hk' as <-.
  split; [by eapply limiter_well_typed|exact Hc| |done]. exists (k + 1)%Z. split; [done|lia].
Qed.

Lemma admission_view t u v b p : steady (b + 1) p → (0 ≤ b)%Z → same_view u p (admission t v p).2.
Proof.
  intros Hst Hb. destruct (admission_limited t v b p Hst Hb) as (k & r' & z & Hk & -> & Hf & Hz).
  split; [done..| |done]. by eapply limiter_settings.
Qed.

Lemma admission_other t now u v b p adm : steady (b + 1) p → (0 ≤ b)%Z → v ≠ u →
  counts now u p adm → counts now u (admission t v p).2 adm.
Proof.
  intros Hst Hb Hne (k & Hk & Hrep). destruct (admission_limited t v b p Hst Hb) as (k' & r' & z & Hk' & -> & Hf & Hz).
  rewrite Hk in Hk'. injection Hk' as <-. exists (k + 1)%Z. split; [done|].
  eapply represents_other; [done|exact Hf| |exact Hrep]. lia.
Qed.

Lemma admission_own t u b p adm : steady (b + 1) p → (0 ≤ b)%Z → (0 ≤ t_limit_ms t)%Z → counts (t_limit_ms t) u p adm →
  let a := RateLimit.window_allow (RateLimit.duration_ms (limit_window p)) (limit_queries p) (t_limit_ms t) adm in
  (admission t u p).1 = a.1 ∧ counts (t_limit_ms t) u (admission t u p).2 a.2.
Proof.
  intros [_ _ (k & Hk & Hr) Hwin] Hb Ht (k' & Hk' & Hrep) a. rewrite Hk in Hk'. injection Hk' as <-.
  assert (Hk64 : (RateLimit.memberCounter (RateLimit.mk (redis p) k) < 2 ^ 64 - 1)%Z) by (cbn [RateLimit.memberCounter]; lia).
  destruct (RateLimit.represents_allow _ _ _ _ _ (limit_queries p) Hwin Ht Hk64 Hrep) as (rl' & Ha & Hrep' & Hcnt).
  unfold admission. rewrite Hk, Ha. split; [done|]. exists (RateLimit.memberCounter rl'). split; [done|].
  cbn [limit_window redis]. by destruct rl'.
Qed.

(** An admitted query. *)
Lemma ProcessQuery_served t v b p p1 w msg q rest c s h :
  steady b p1 → admission t v p = (true, p1) → m_Question msg = q :: rest → Checker.good_user v = true →
  Rule.global (rules p1) = Some c →
  as_set (redis_get (redis p1) (Checker.blocked_key v)) = Some s →
  as_hash (redis_get (redis p1) (Checker.redirects_key v)) = Some h →
  let r := served t v s h w msg q c (network p1) in
  ∃ p' total, ProcessQuery UpstreamAddr t v p w msg = Ret (p', r.1.1) ∧
    redis p' = redis p1 ∧ limiter p' = limiter p1 ∧ limit_queries p' = limit_queries p1 ∧
    limit_window p' = limit_window p1 ∧ network p' = r.2 ∧
    rules p' = Rule.mkState (Some (Checker.mk r.1.2 (redis p1) (Checker.fallback c) (Checker.enabled c))) total.
Proof.
  intros [[Hup _] (c' & Hc' & Hty & _) _ _] Hadm Hq Hv Hc Hs Hh r. rewrite Hc in Hc'. injection Hc' as <-. subst r.
  unfold ProcessQuery. rewrite Hadm. cbn [negb]. rewrite Hq. unfold Rule.CheckRule, connect. rewrite Hc. cbn [Rule.global].
  rewrite (Check_checked _ _ _ _ _ s) by done. cbn [outcome_bind fst snd Checker.rdb Checker.fallback Checker.enabled].
  unfold served, answer. set (d := Checker.normalize (q_Name q)).
  change (checked ?t0 ?t1 ?v ?d ?s (Checker.mk (Checker.cache c) (redis p1) (Checker.fallback c) (Checker.enabled c)))
    with (checked t0 t1 v d s c).
  destruct (checked _ _ _ _ _ c) as [x ca]. cbn [fst snd]. destruct (Z.eqb x 1).
  { do 2 eexists. split; [done|]. unfold submitLog, record_metrics. cbn. by destruct (aggregator p1). }
  unfold Rule.GetRedirectDomain, connect, set_rules, server_after. cbn [rules redis Rule.global network Checker.rdb Rule.totalChecks].
  rewrite (GetRedirect_redirected _ _ _ _ _ h) by done. fold d. cbn [Checker.rdb Checker.fallback Checker.enabled Checker.cache].
  change (redirected ?t0 ?t1 ?v ?d ?h (Checker.mk ca (redis p1) (Checker.fallback c) (Checker.enabled c)))
    with (redirected t0 t1 v d h (Checker.mk ca (Checker.rdb c) (Checker.fallback c) (Checker.enabled c))).
  destruct (redirected _ _ _ _ _ _) as [[ip ok] ca1]. cbn [fst snd].
  destruct ok; [destruct (writeRedirectResponse _ _ _ _ _ _)|destruct (forwardResponse _ _ _ _)];
    (do 2 eexists; split; [done|]; unfold submitLog, record_metrics; cbn; by destruct (aggregator p1)).
Qed.

(** The process after an admitted query: the cache is [ca]. *)
Record left_with (ca : C) (n : N) p1 p' : Prop := {
  lw_redis : redis p' = redis p1;
  lw_limiter : limiter p' = limiter p1;
  lw_queries : limit_queries p' = limit_queries p1;
  lw_window : limit_window p' = limit_window p1;
  lw_network : network p' = n;
  lw_checker c : Rule.global (rules p1) = Some c →
    Rule.global (rules p') = Some (Checker.mk ca (redis p1) (Checker.fallback c) (Checker.enabled c));
}.

Lemma left_steady b ca n p1 p' : steady b p1 → left_with ca n p1 p' → Checker.typed ca → (0 < cache_expiration ca)%Z →
  steady b p'.
Proof.
  intros [Hw (c & Hc & _) Hl Hwin] [Er El _ Ew _ Ec] Hty Hpos.
  split; [by rewrite Er|eexists; by rewrite (Ec c Hc)|by rewrite El|by rewrite Ew].
Qed.

Lemma left_view u ca n p1 p' : left_with ca n p1 p' →
  (∃ c, Rule.global (rules p1) = Some c ∧ same_cache u (Checker.cache c) ca) → same_view u p1 p'.
Proof.
  intros [Er _ Eq Ew _ Ec] (c & Hc & Hca). split; [done..|by rewrite Er|].
  rewrite (Ec c Hc), Hc. constructor. by split.
Qed.

Lemma left_counts now u ca n p1 p' adm : left_with ca n p1 p' → counts now u p1 adm → counts now u p' adm.
Proof. intros [Er El _ Ew _ _] (k & Hk & Hrep). exists k. by rewrite El, Er, Ew. Qed.

(** What a query leaves and answers, on every branch. *)
Lemma ProcessQuery_cases t v b p w msg : steady (b + 1) p → (0 ≤ b)%Z → Checker.good_user v = true →
  let p1 := (admission t v p).2 in
  ∃ p' w', ProcessQuery UpstreamAddr t v p w msg = Ret (p', w') ∧
    match (admission t v p).1, m_Question msg with
    | false, _ => p' = p1 ∧ w' = writeRateLimitResponse w msg
    | true, [] => p' = p1 ∧ w' = w
    | true, q :: _ => ∃ c s h, Rule.global (rules p1) = Some c ∧
        Checker.typed (Checker.cache c) ∧ (0 < cache_expiration (Checker.cache c))%Z ∧
        as_set (redis_get (redis p1) (Checker.blocked_key v)) = Some s ∧
        as_hash (redis_get (redis p1) (Checker.redirects_key v)) = Some h ∧
        let r := served t v s h w msg q c (network p1) in w' = r.1.1 ∧ left_with r.1.2 r.2 p1 p'
    end.
Proof.
  intros Hst Hb Hv p1. pose proof (admission_steady t v b p Hst Hb) as H1st. fold p1 in H1st.
  destruct (admission t v p) as [ok p1'] eqn:Hadm. cbn [snd] in p1. subst p1. cbn [fst snd] in *. destruct ok.
  - destruct (m_Question msg) as [|q rest] eqn:Hq.
    { exists p1', w. unfold ProcessQuery. by rewrite Hadm, Hq. }
    pose proof H1st as [[_ Hw] (c & Hc & Hty & Hpos) _ _]. destruct (Hw v) as (s & h & _ & Hs & Hh & _).
    destruct (ProcessQuery_served t v b p p1' w msg q rest c s h H1st Hadm Hq Hv Hc Hs Hh)
      as (p' & total & HPQ & Er & El & Eq & Ew & En & Eru).
    do 2 eexists. split; [exact HPQ|]. exists c, s, h. split_and!; try done.
    split; try done. intros c'. rewrite Hc. intros [= <-]. by rewrite Eru.
  - do 2 eexists. unfold ProcessQuery. by rewrite Hadm.
Qed.

(** A query keeps a process steady. *)
Lemma ProcessQuery_steady t v b p w msg : steady (b + 1) p → (0 ≤ b)%Z → Checker.good_user v = true →
  ∃ p' w', ProcessQuery UpstreamAddr t v p w msg = Ret (p', w') ∧ steady b p'.
Proof.
  intros Hst Hb Hv. pose proof (admission_steady t v b p Hst Hb) as H1st.
  destruct (ProcessQuery_cases t v b p w msg Hst Hb Hv) as (p' & w' & HPQ & Hcases). exists p', w'. split; [done|].
  destruct (admission t v p).1; [destruct (m_Question msg) as [|q rest]|]; [by destruct Hcases as [-> _]| |by destruct Hcases as [-> _]].
  destruct Hcases as (c & s & h & Hc & Hty & Hpos & Hs & Hh & _ & Hlw).
  destruct (served_typed t v s h w msg q c (network (admission t v p).2) Hv Hty) as (H1t & H1e).
  eapply left_steady; [exact H1st|exact Hlw|done|lia].
Qed.

(** The query of another user is not noticed. *)
Lemma ProcessQuery_other t u v b p w msg p' w' : steady (b + 1) p → (0 ≤ b)%Z →
  Checker.good_user u = true → Checker.good_user v = true → v ≠ u →
  ProcessQuery UpstreamAddr t v p w msg = Ret (p', w') →
  same_view u p p' ∧ ∀ now adm, counts now u p adm → counts now u p' adm.
Proof.
  intros Hst Hb Hu Hv Hne HPQ'. pose proof (admission_view t u v b p Hst Hb) as H1v.
  assert (H1c : ∀ now adm, counts now u p adm → counts now u (admission t v p).2 adm)
    by (intros now adm; by apply (admission_other t now u v b)).
  destruct (ProcessQuery_cases t v b p w msg Hst Hb Hv) as (p1 & w1 & HPQ & Hcases).
  rewrite HPQ' in HPQ. injection HPQ as <- <-.
  destruct (admission t v p).1; [destruct (m_Question msg) as [|q rest]|]; [by destruct Hcases as [-> _]| |by destruct Hcases as [-> _]].
  destruct Hcases as (c & s & h & Hc & Hty & Hpos & Hs & Hh & _ & Hlw). split.
  - etrans; [exact H1v|]. eapply left_view; [exact Hlw|].
    exists c. split; [done|]. by apply served_other.
  - intros now adm Hadm. eapply left_counts; [exact Hlw|]. by apply H1c.
Qed.

Lemma same_checker_global u p p' c : same_view u p p' → Rule.global (rules p) = Some c →
  ∃ c', Rule.global (rules p') = Some c' ∧ same_checker u c c'.
Proof. intros [_ _ _ Hk] Hc. rewrite Hc in Hk. inversion Hk; subst. eauto. Qed.

(** A user's own query is answered alike, by the same upstream. *)
Lemma ProcessQuery_own t u b p p' w msg : steady (b + 1) p → steady (b + 1) p' → (0 ≤ b)%Z → (0 ≤ t_limit_ms t)%Z →
  Checker.good_user u = true → network p' = network p → alike (t_limit_ms t) u p p' →
  ∃ p1 p1' w1, ProcessQuery UpstreamAddr t u p w msg = Ret (p1, w1) ∧
    ProcessQuery UpstreamAddr t u p' w msg = Ret (p1', w1) ∧ alike (t_limit_ms t) u p1 p1'.
Proof.
  intros Hst Hst' Hb Ht Hu Hnet [Hview (adm & Hcnt & Hcnt')].
  destruct (admission_own t u b p adm Hst Hb Ht Hcnt) as [Hok Hc1], (admission_own t u b p' adm Hst' Hb Ht Hcnt') as [Hok' Hc1'].
  rewrite (sv_queries _ _ _ Hview), (sv_window _ _ _ Hview), <- Hok in Hok'.
  rewrite (sv_queries _ _ _ Hview), (sv_window _ _ _ Hview) in Hc1'.
  assert (Hv1 : same_view u (admission t u p).2 (admission t u p').2).
  { etrans; [symmetry; by eapply admission_view|]. etrans; [exact Hview|]. by eapply admission_view. }
  destruct (ProcessQuery_cases t u b p w msg Hst Hb Hu) as (p1 & w1 & HPQ & Hcases).
  destruct (ProcessQuery_cases t u b p' w msg Hst' Hb Hu) as (p1' & w1' & HPQ' & Hcases').
  rewrite Hok' in Hcases'. exists p1, p1', w1.
  destruct (admission t u p).1; [destruct (m_Question msg) as [|q rest]|];
    [destruct Hcases as [-> ->], Hcases' as [-> ->]; (split; [done|]; split; [done|]; split; [done|by eexists])| |
     destruct Hcases as [-> ->], Hcases' as [-> ->]; (split; [done|]; split; [done|]; split; [done|by eexists])].
  destruct Hcases as (c & s & h & Hc & Hty & Hpos & Hs & Hh & -> & Hlw).
  destruct Hcases' as (c' & s' & h' & Hc' & Hty' & Hpos' & Hs' & Hh' & -> & Hlw').
  destruct (sv_settings _ _ _ Hv1 _ (or_introl eq_refl)) as [Eb _], (sv_settings _ _ _ Hv1 _ (or_intror eq_refl)) as [Er _].
  rewrite Eb, Hs in Hs'. injection Hs' as <-. rewrite Er, Hh in Hh'. injection Hh' as <-.
  destruct (same_checker_global _ _ _ _ Hv1 Hc) as (c'' & Hc'' & Hsame). rewrite Hc' in Hc''. injection Hc'' as <-.
  assert (Hn : network (admission t u p').2 = network (admission t u p).2).
  { by destruct (admission_frame t u p) as (_ & -> & _), (admission_frame t u p') as (_ & -> & _). }
  rewrite Hn in HPQ', Hlw'. destruct (served_own t u s h w msg q c c' (network (admission t u p).2) Hu Hpos Hty Hsame) as [Hw Hca].
  rewrite Hw in HPQ'. split; [exact HPQ|]. split; [exact HPQ'|]. split; [|eexists; split; by eapply left_counts].
  destruct Hv1 as [V1 V2 V3 _]. destruct Hlw as [Lr _ Lq Lw _ Lc], Hlw' as [Lr' _ Lq' Lw' _ Lc'].
  split; [congruence..|by rewrite Lr, Lr'|].
  rewrite (Lc c Hc), (Lc' c' Hc'). constructor. destruct Hsame. by split.
Qed.

(** *** Runs *)

(** What happens to the process and its server: some milliseconds pass, or an event, which
    finds the upstream in the state [n].  The upstream is the world outside: nothing is said
    about how its states follow one another. *)
Inductive happening :=
| Wait (d : Z)
| Event (n : N) (e : Programs.EdgeDNS.event (R := R) (W := W)).

(** The server's clock goes on. *)
Definition elapse (d : Z) p : process :=
  mkProcess (redis_elapse d (redis p)) (limiter p) (limit_queries p) (limit_window p) (rules p) (aggregator p)
    (network p) (queries_total p) (query_seconds p).

(** The user whose cached answers a message evicts. *)
Definition payload_user (payload : string) : option string :=
  match Sync.DecodeEvent payload with
  | Ret (Ok e) => if String.eqb (Sync.Action e) Sync.ActionClearCache then Some (Sync.UserID e) else None
  | _ => None
  end.

Definition asker (e : Programs.EdgeDNS.event (R := R) (W := W)) : string :=
  match e with Programs.EdgeDNS.Query _ v _ _ => v | _ => EmptyString end.

Abbreviation exchange := (Programs.EdgeDNS.exchange (W := W)).

Definition happen (x : happening) p : outcome (process * list (string * exchange)) :=
  match x with
  | Wait d => Ret (elapse d p, [])
  | Event n e =>
      r <-@ Programs.EdgeDNS.step UpstreamAddr e (set_network n p) ;;
      Ret (r.1, (λ y, (asker e, y)) <$> r.2)
  end.

(** The exchanges of a run, each with the user that asked. *)
Fixpoint run (xs : list happening) p : outcome (process * list (string * exchange)) :=
  match xs with
  | [] => Ret (p, [])
  | x :: xs =>
      r <-@ happen x p ;;
      r' <-@ run xs r.1 ;;
      Ret (r'.1, r.2 ++ r'.2)
  end.

(** The time, and what concerns the user: its queries and the messages that evict it. *)
Definition concerns u (x : happening) : bool :=
  match x with
  | Wait _ => true
  | Event _ (Programs.EdgeDNS.Query _ v _ _) => String.eqb v u
  | Event _ (Programs.EdgeDNS.Message _ payload) => bool_decide (payload_user payload = Some u)
  | Event _ _ => false
  end.

(** Well-formed users, and no other client of the server. *)
Definition proper (x : happening) : bool :=
  match x with
  | Wait d => Z.leb 0 d
  | Event _ (Programs.EdgeDNS.Query _ v _ _) => Checker.good_user v
  | Event _ (Programs.EdgeDNS.Message _ payload) =>
      match payload_user payload with Some v => Checker.good_user v | None => true end
  | Event _ (Programs.EdgeDNS.Others _) => false
  | Event _ _ => true
  end.

(** The limiter reads the time that has passed. *)
Definition clock (now : Z) (x : happening) : Z := match x with Wait d => now + d | Event _ _ => now end.
Fixpoint on_time (now : Z) (xs : list happening) : bool :=
  match xs with
  | [] => true
  | x :: xs =>
      match x with Event _ (Programs.EdgeDNS.Query t _ _ _) => Z.eqb (t_limit_ms t) now | _ => true end &&
      on_time (clock now x) xs
  end.

(** The queries of a run. *)
Definition asked_in (xs : list happening) : list (string * Msg * W) :=
  omap (λ x, match x with Event _ (Programs.EdgeDNS.Query _ v w msg) => Some (v, msg, w) | _ => None end) xs.

Lemma steady_mono b b' p : (b' ≤ b)%Z → steady b p → steady b' p.
Proof. intros Hb [? ? (k & Hk & ?) ?]. split; [done..| |done]. exists k. split; [done|lia]. Qed.

(** **** Messages *)

Lemma handleMessage_user now payload (st : Rule.state C R) :
  Sync.handleMessage (Programs.EdgeDNS.evict now) payload st =
    Ret match payload_user payload with Some v => Programs.EdgeDNS.evict now v st | None => st end.
Proof.
  unfold Sync.handleMessage, payload_user. destruct (Sync.DecodeEvent_returns payload) as [[e|err] ->]; [|done]. cbn [outcome_bind].
  by destruct (String.eqb _ _).
Qed.

(** The process after a message. *)
Definition told (now : Z) (payload : string) p : process :=
  set_rules match payload_user payload with
            | Some v => Programs.EdgeDNS.evict now v (connect (redis p) (rules p))
            | None => connect (redis p) (rules p)
            end p.

(** The cache after a message. *)
Definition told_cache (now : Z) (payload : string) (ca : C) : C :=
  match payload_user payload with
  | Some v => fold_left (λ acc kv, if Checker.clears v kv.1 then cache_Delete acc kv.1 else acc) (cache_Items ca now) ca
  | None => ca
  end.

Lemma told_left now payload p c : Rule.global (rules p) = Some c →
  left_with (told_cache now payload (Checker.cache c)) (network p) p (told now payload p).
Proof.
  intros Hc. unfold told, told_cache, Programs.EdgeDNS.evict, Rule.ClearUserCache, connect, set_rules, server_after. rewrite Hc.
  destruct (payload_user payload); (split; [done..|]); intros c'; rewrite Hc; by intros [= <-].
Qed.

Lemma fold_expiration v (l : list (string * Checker.cval)) (ca : C) :
  cache_expiration (fold_left (λ acc kv, if Checker.clears v kv.1 then cache_Delete acc kv.1 else acc) l ca) = cache_expiration ca.
Proof. revert ca. induction l as [|[k x] l IH]; intros ca; cbn; [done|]. rewrite IH. case_match; [apply expiration_Delete|done]. Qed.

Lemma told_cache_typed now payload ca : Checker.typed ca →
  Checker.typed (told_cache now payload ca) ∧ cache_expiration (told_cache now payload ca) = cache_expiration ca.
Proof.
  intros Hty. unfold told_cache. destruct (payload_user payload) as [v|]; [|done].
  split; [by apply Checker.fold_typed|apply fold_expiration].
Qed.

Lemma told_cache_own now payload u ca ca' : same_cache u ca ca' →
  same_cache u (told_cache now payload ca) (told_cache now payload ca').
Proof.
  intros [He Hg]. unfold told_cache. destruct (payload_user payload) as [v|]; [|done].
  split; [by rewrite !fold_expiration|]. intros t k Hk. by rewrite !evicted_get, !Hg.
Qed.

Lemma told_cache_other now payload u v ca : Checker.good_user u = true → Checker.good_user v = true → v ≠ u →
  payload_user payload = Some v → same_cache u ca (told_cache now payload ca).
Proof.
  intros Hu Hv Hne Hp. unfold told_cache. rewrite Hp. split; [apply fold_expiration|]. intros t k Hk. rewrite evicted_get.
  destruct Hk as (d & [-> | ->]); destruct (Checker.clears_other v u d Hv Hu Hne) as [E1 E2]; by rewrite ?E1, ?E2.
Qed.

Lemma told_steady now payload b p : steady b p → steady b (told now payload p).
Proof.
  intros Hst. pose proof Hst as [_ (c & Hc & Hty & Hpos) _ _].
  destruct (told_cache_typed now payload _ Hty) as [H1t H1e].
  eapply left_steady; [exact Hst|by apply told_left|done|lia].
Qed.

(** **** Each happening *)

(** The state of the upstream is not noticed before it is asked. *)
Lemma network_steady n b p : steady b p → steady b (set_network n p).
Proof. intros [? ? ? ?]. by split. Qed.

Lemma network_view u n p : same_view u p (set_network n p).
Proof. by split. Qed.

Lemma network_alike now u n p p' : alike now u p p' → alike now u (set_network n p) (set_network n p').
Proof. intros [[? ? ? ?] ?]. split; [by split|done]. Qed.

Lemma log_step_view u e p : same_view u p (Programs.EdgeDNS.log_step e p).
Proof. unfold Programs.EdgeDNS.log_step, Programs.EdgeDNS.on_aggregator. destruct (aggregator p); by split. Qed.

Lemma log_step_counts now u e p adm : counts now u p adm → counts now u (Programs.EdgeDNS.log_step e p) adm.
Proof. unfold Programs.EdgeDNS.log_step, Programs.EdgeDNS.on_aggregator. by destruct (aggregator p). Qed.

Lemma log_step_steady b e p : steady b p → steady b (Programs.EdgeDNS.log_step e p).
Proof. intros [? ? ? ?]. unfold Programs.EdgeDNS.log_step, Programs.EdgeDNS.on_aggregator. destruct (aggregator p); by split. Qed.

Lemma elapse_steady d b p : (0 ≤ d)%Z → steady b p → steady b (elapse d p).
Proof. intros Hd [? ? ? ?]. split; [by apply elapse_well_typed|done..]. Qed.

Lemma happen_steady x b p : steady (b + 1) p → (0 ≤ b)%Z → proper x = true →
  ∃ p' out, happen x p = Ret (p', out) ∧ steady b p' ∧
    (λ y, (y.1, Programs.EdgeDNS.asked y.2, Programs.EdgeDNS.before y.2)) <$> out = asked_in [x].
Proof.
  intros Hst Hb Hx. assert (Hmono : steady b p) by (apply (steady_mono (b + 1)); [lia|done]).
  destruct x as [d|n [t v w msg|now payload| | | |r]]; cbn [happen proper Programs.EdgeDNS.step] in *; [| | | | | |done];
    [|apply (network_steady n) in Hst, Hmono..].
  - do 2 eexists. split; [done|]. split; [|done]. apply elapse_steady; [lia|done].
  - destruct (ProcessQuery_steady t v b (set_network n p) w msg Hst Hb Hx) as (p' & w' & HPQ & Hst').
    do 2 eexists. unfold HandleDNSQuery. rewrite HPQ. cbn [outcome_bind fst snd]. split; [done|]. by split.
  - rewrite handleMessage_user. cbn [outcome_bind fst snd]. do 2 eexists. split; [done|]. split; [by apply told_steady|done].
  - do 2 eexists. split; [done|]. split; [by apply log_step_steady|done].
  - do 2 eexists. split; [done|]. split; [by apply log_step_steady|done].
  - do 2 eexists. split; [done|]. split; [by apply log_step_steady|done].
Qed.

(** What does not concern a user is not noticed. *)
Lemma happen_other x u b p p' out : steady (b + 1) p → (0 ≤ b)%Z → proper x = true →
  Checker.good_user u = true → concerns u x = false → happen x p = Ret (p', out) →
  filter (λ y, y.1 = u) out = [] ∧ same_view u p p' ∧ ∀ now adm, counts now u p adm → counts now u p' adm.
Proof.
  intros Hst Hb Hx Hu Hc. destruct x as [d|n e]; [done|].
  cut (happen (Event n e) p = Ret (p', out) → filter (λ y, y.1 = u) out = [] ∧ same_view u (set_network n p) p' ∧
    ∀ now adm, counts now u (set_network n p) adm → counts now u p' adm).
  { intros Hcut Hh. destruct (Hcut Hh) as (? & ? & ?). split; [done|]. split; [|done]. etrans; [by apply (network_view u n)|done]. }
  apply (network_steady n) in Hst. cbn [happen]. generalize dependent (set_network n p). clear p. intros p Hst.
  destruct e as [t v w msg|now payload| | | |r]; cbn [proper concerns Programs.EdgeDNS.step asker] in *; try done.
  - apply String.eqb_neq in Hc. unfold HandleDNSQuery.
    intros ([p1 out1] & ([p2 w2] & HPQ & [= <- <-])%outcome_bind_ret & [= <- <-])%outcome_bind_ret.
    split; [|eapply ProcessQuery_other; [exact Hst|exact Hb|exact Hu|exact Hx|exact Hc|exact HPQ]]. cbn. by rewrite decide_False.
  - rewrite handleMessage_user. cbn [outcome_bind fst snd fmap]. intros [= <- <-]. split; [done|].
    pose proof Hst as [_ (c & Hg & _) _ _]. pose proof (told_left now payload p c Hg) as Hlw. fold (told now payload p).
    split; [|intros ? ?; by eapply left_counts]. eapply left_view; [exact Hlw|]. exists c. split; [done|].
    apply bool_decide_eq_false in Hc. destruct (payload_user payload) as [v|] eqn:Hp.
    + apply (told_cache_other now payload u v); [done..| |done]. congruence.
    + unfold told_cache. by rewrite Hp.
  - cbn. intros [= <- <-]. split; [done|]. split; [apply log_step_view|intros; by apply log_step_counts].
  - cbn. intros [= <- <-]. split; [done|]. split; [apply log_step_view|intros; by apply log_step_counts].
  - cbn. intros [= <- <-]. split; [done|]. split; [apply log_step_view|intros; by apply log_step_counts].
Qed.

(** What concerns the user goes alike. *)
Lemma happen_own x u b now p p' : steady (b + 1) p → steady (b + 1) p' → (0 ≤ b)%Z → (0 ≤ now)%Z → proper x = true →
  on_time now [x] = true → Checker.good_user u = true → concerns u x = true → alike now u p p' →
  ∃ p1 p1' out, happen x p = Ret (p1, out) ∧ happen x p' = Ret (p1', out) ∧ filter (λ y, y.1 = u) out = out ∧
    alike (clock now x) u p1 p1'.
Proof.
  intros Hst Hst' Hb Hnow Hx Hon Hu Hc Hal.
  destruct x as [d|n [t v w msg|at_ payload| | | |r]]; cbn [happen proper concerns Programs.EdgeDNS.step asker on_time clock] in *; try done.
  - apply Z.leb_le in Hx. do 3 eexists. do 3 (split; [done|]). destruct Hal as [[V1 V2 V3 V4] (adm & C1 & C2)].
    split; [split; try done; by apply elapse_settings|].
    exists adm. split; [destruct C1 as (k & Hk & Hrep)|destruct C2 as (k & Hk & Hrep)];
      (exists k; split; [done|]); by apply (RateLimit.represents_wait _ _ _ _ _ d) in Hrep.
  - apply String.eqb_eq in Hc as ->. rewrite andb_true_r in Hon. apply Z.eqb_eq in Hon as <-.
    apply (network_steady n) in Hst, Hst'. apply (network_alike _ _ n) in Hal.
    destruct (ProcessQuery_own t u b (set_network n p) (set_network n p') w msg Hst Hst' Hb Hnow Hu eq_refl Hal) as (p1 & p1' & w1 & E1 & E1' & Hal1).
    unfold HandleDNSQuery. rewrite E1, E1'. cbn [outcome_bind fst snd fmap]. do 3 eexists. do 2 (split; [done|]).
    split; [|done]. cbn. by rewrite decide_True.
  - apply (network_steady n) in Hst. apply (network_alike _ _ n) in Hal.
    rewrite !handleMessage_user. cbn [outcome_bind fst snd fmap]. do 3 eexists. do 3 (split; [done|]).
    fold (told at_ payload (set_network n p)) (told at_ payload (set_network n p')).
    generalize dependent (set_network n p). generalize dependent (set_network n p'). clear p p' Hst'. intros p' p Hst Hal.
    destruct Hal as [Hview (adm & C1 & C2)].
    pose proof Hst as [_ (c & Hg & _) _ _]. destruct (same_checker_global _ _ _ _ Hview Hg) as (c' & Hg' & [Hca Hf He]).
    pose proof (told_left at_ payload p c Hg) as Hlw. pose proof (told_left at_ payload p' c' Hg') as Hlw'.
    split; [|exists adm; split; by eapply left_counts].
    destruct Hview as [V1 V2 V3 _], Hlw as [Lr _ Lq Lw _ Lc], Hlw' as [Lr' _ Lq' Lw' _ Lc'].
    split; [congruence..|by rewrite Lr, Lr'|]. rewrite (Lc c Hg), (Lc' c' Hg'). constructor.
    split; [|done..]. by apply told_cache_own.
Qed.

Lemma run_isolated u xs now p p' : Forall (λ x, proper x = true) xs → on_time now xs = true → (0 ≤ now)%Z →
  Checker.good_user u = true → steady (Z.of_nat (List.length xs)) p → steady (Z.of_nat (List.length xs)) p' → alike now u p p' →
  ∃ p1 p1' out, run xs p = Ret (p1, out) ∧ run (filter (λ x, concerns u x = true) xs) p' = Ret (p1', filter (λ y, y.1 = u) out) ∧
    (λ y, (y.1, Programs.EdgeDNS.asked y.2, Programs.EdgeDNS.before y.2)) <$> out = asked_in xs.
Proof.
  intros Hxs. revert now p p'. induction Hxs as [|x xs Hx Hxs IH]; intros now p p' Hon Hnow Hu Hst Hst' Hal.
  { by exists p, p', []. }
  cbn [on_time] in Hon. apply andb_true_iff in Hon as [Hon Hons].
  replace (Z.of_nat (List.length (x :: xs))) with (Z.of_nat (List.length xs) + 1)%Z in Hst, Hst' by (cbn [List.length]; lia).
  assert (Hnow' : (0 ≤ clock now x)%Z).
  { destruct x as [d|n e]; cbn in *; [|done]. apply Z.leb_le in Hx. lia. }
  destruct (happen_steady x _ p Hst (Zle_0_nat _) Hx) as (p1 & out1 & E1 & Hst1 & Hq1).
  unfold asked_in in *. change (x :: xs) with ([x] ++ xs). rewrite omap_app, <- Hq1.
  cbn [app]. rewrite filter_cons. destruct (decide (concerns u x = true)) as [Hc|Hc].
  - destruct (happen_own x u _ now p p' Hst Hst' (Zle_0_nat _) Hnow Hx) as (p2 & p2' & out2 & F1 & F2 & Hown & Hal2);
      [cbn [on_time]; by rewrite Hon|done..|].
    rewrite E1 in F1. injection F1 as <- <-.
    destruct (happen_steady x _ p' Hst' (Zle_0_nat _) Hx) as (p2'' & out2'' & F3 & Hst2 & _).
    rewrite F2 in F3. injection F3 as <- <-.
    destruct (IH (clock now x) p1 p2' Hons Hnow' Hu Hst1 Hst2 Hal2) as (p3 & p3' & out3 & G1 & G2 & Hq).
    exists p3, p3', (out1 ++ out3). cbn [run]. rewrite E1, F2. cbn [outcome_bind fst snd]. rewrite G1, G2. cbn [outcome_bind fst snd].
    split; [done|]. rewrite filter_app, Hown, fmap_app, Hq. done.
  - apply not_true_iff_false in Hc.
    destruct (happen_other x u _ p p1 out1 Hst (Zle_0_nat _) Hx Hu Hc E1) as (Hnone & Hview & Hcnt).
    assert (Hclock : clock now x = now) by (by destruct x).
    rewrite Hclock in *.
    destruct (IH now p1 p' Hons Hnow' Hu Hst1) as (p3 & p3' & out3 & G1 & G2 & Hq).
    { eapply steady_mono; [|exact Hst']. lia. }
    { destruct Hal as [Hv (adm & C1 & C2)]. split; [etrans; [symmetry; exact Hview|exact Hv]|]. exists adm. auto. }
    exists p3, p3', (out1 ++ out3). cbn [run]. rewrite E1. cbn [outcome_bind fst snd]. rewrite G1. cbn [outcome_bind fst snd].
    split; [done|]. rewrite filter_app, Hnone, fmap_app, Hq. done.
Qed.

(** *** The process after its start *)

Lemma main_steady (E : Config.environment) driver (r : R) (n : N) b :
  well_typed r → (0 ≤ b < 2 ^ 64)%Z → (∀ v, as_zset (redis_get r (RateLimit.rl_key v)) = Some ∅) →
  let p := Programs.EdgeDNS.main E driver (initial r n) in
  steady b p ∧ ∀ now u, counts now u p [].
Proof.
  intros Hw Hb Hz p. destruct (Programs.EdgeDNS.main_settings (B := B) E driver r n) as (_ & Hwin & _). fold p in Hwin.
  assert (Hr : redis p = r ∧ limiter p = Some 0%Z ∧
    ∃ d, (0 < d)%Z ∧ (Checker.cache <$> Rule.global (rules p)) = Some (cache_New d (2 * d))).
  { unfold p, Programs.EdgeDNS.main. set (p0 := match Config.rateLimit E with Some _ => _ | None => _ end).
    assert (Hp0 : redis p0 = r ∧ rules p0 = Rule.uninitialized) by (unfold p0; by destruct (Config.rateLimit E) as [[]|]).
    destruct Hp0 as [Hr0 Hru0]. clearbody p0. unfold Rule.InitChecker, Checker.NewChecker. rewrite Hr0, Hru0, (Ping_up r) by apply Hw.
    unfold Programs.EdgeDNS.on_aggregator, Programs.EdgeDNS.log_step, Programs.EdgeDNS.on_aggregator. cbn.
    split; [done|]. split; [done|]. exists (60 * 1000000000)%Z. split; [lia|reflexivity]. }
  destruct Hr as (Hr & Hl & d & Hd & Hc). destruct (Rule.global (rules p)) as [c|] eqn:Hg; [|done]. injection Hc as Hc. split.
  - split; [by rewrite Hr| | |lia].
    + exists c. split; [done|]. rewrite Hc. split; [apply Checker.typed_New|by rewrite expiration_New].
    + exists 0%Z. split; [done|lia].
  - intros now u. exists 0%Z. split; [done|]. rewrite Hr. apply RateLimit.represents_fresh; [apply Hw|apply Hz|done].
Qed.

(** C4: Users do not notice each other. Take any life of a resolver on a Redis server that
    answers, holds values of the right types, none of them for the limiter at the start, and has
    no other writer: fewer than 2^64 queries of users whose names have no colon and are not
    "redirect", each handled in one step, delays between them, messages on the configuration
    channel and steps of the log worker, on a clock that does not go back.  Leave out
    everything but the queries of one user and the messages that evict it.  As long as the
    upstream is in the same state for each query of this user that is left, the user's
    queries get the same responses, although all users share one cache, one limiter with one
    member counter and one server. *)
Theorem users_isolated (E : Config.environment) driver (r : R) (n : N) u xs now :
  well_typed r → (∀ v, as_zset (redis_get r (RateLimit.rl_key v)) = Some ∅) →
  Checker.good_user u = true → Forall (λ x, proper x = true) xs → (0 ≤ now)%Z → on_time now xs = true →
  (Z.of_nat (List.length xs) < 2 ^ 64)%Z →
  let p := Programs.EdgeDNS.main E driver (initial r n) in
  ∃ p1 p1' out, run xs p = Ret (p1, out) ∧
    run (filter (λ x, concerns u x = true) xs) p = Ret (p1', filter (λ y, y.1 = u) out) ∧
    (λ y, (y.1, Programs.EdgeDNS.asked y.2, Programs.EdgeDNS.before y.2)) <$> out = asked_in xs.
Proof.
  intros Hw Hz Hu Hxs Hnow Hon Hlen p.
  destruct (main_steady E driver r n (Z.of_nat (List.length xs)) Hw ltac:(lia) Hz) as [Hst Hc].
  apply (run_isolated u xs now p p); try done. split; [done|]. exists []. split; apply Hc.
Qed.
End queries.

(** ** A concrete instance of the hypotheses *)

#[local] Existing Instance ascii_tables.

Abbreviation sample_happening := (happening (R := MapRedis.t) (N := ScriptNet.t) (W := SimpleWriter.t)).

Definition upstream_now : ScriptNet.t := ScriptNet.mk sample_answer [].

(** alice and bob ask for the same names, over the limit of one query a second; a
    message evicts bob, then alice. *)
Definition sample_env : Config.environment := λ k, if String.eqb k "RATE_LIMIT_QUERIES" then Some "1" else None.

Definition ask (ms : Z) (u name : string) : sample_happening :=
  Event upstream_now (Programs.EdgeDNS.Query
    (mkTimes (ms * 1000000) ms (ms * 1000000) (ms * 1000000) (ms * 1000000) (ms * 1000000) (ms * 1000000) (ms * 1000000))
    u sample_w (sample_msg name 1)).

Definition evicts (ms : Z) (u : string) : sample_happening :=
  Event upstream_now (Programs.EdgeDNS.Message (ms * 1000000) (Sync.Encode (Sync.mkEvent u Sync.ActionClearCache))).

Definition sample_life : list sample_happening :=
  [ask 0 "alice" "printer.home."; ask 0 "bob" "printer.home."; ask 0 "alice" "printer.home.";
   Wait 700; evicts 700 "bob"; Event upstream_now Programs.EdgeDNS.LogReceive; ask 700 "bob" "printer.home.";
   Wait 700; evicts 1400 "alice"; ask 1400 "alice" "banner.ads.example."].

Lemma sample_get k : k ≠ Checker.blocked_key "alice" → k ≠ Checker.redirects_key "alice" → MapRedis.get sample_redis k = None.
Proof.
  intros Hb Hr. unfold sample_redis, MapRedis.get. cbn [MapRedis.keys].
  rewrite (lookup_insert_ne _ "user:settings:alice:blocked"), (lookup_insert_ne _ "user:settings:alice:redirects"); [done|..];
    intros <-; [by apply Hr|by apply Hb].
Qed.

Lemma sample_well_typed : well_typed sample_redis.
Proof.
  split; [done|]. intros u. destruct (decide (u = "alice")) as [->|Hu].
  { by exists {["*.ads.example"]}, {["printer.home" := "192.168.1.9"]}, ∅. }
  assert (Hb : redis_get sample_redis (Checker.blocked_key u) = None)
    by (apply sample_get; [by intros ?%Admin.rules_key_inj|apply Admin.keys_ne]).
  assert (Hr : redis_get sample_redis (Checker.redirects_key u) = None)
    by (apply sample_get; [intros E; symmetry in E; by apply Admin.keys_ne in E|by intros ?%Admin.redirects_key_inj]).
  assert (Hl : redis_get sample_redis (RateLimit.rl_key u) = None) by by apply sample_get.
  exists ∅, ∅, ∅. by rewrite Hb, Hr, Hl.
Qed.

(** The result codes of the responses to a user. *)
Definition rcodes (u : string) (xs : list sample_happening) : list Z :=
  match run (C := MapCache.t Checker.cval) (K := ListTable.t Analytics.row) (B := ListTable.batch Analytics.row) upstream xs
          (Programs.EdgeDNS.main sample_env Programs.no_clickhouse (initial sample_redis (ScriptNet.mk sample_answer []))) with
  | Ret (_, out) => flat_map (λ y, if String.eqb y.1 u then m_Rcode <$> SimpleWriter.written (Programs.EdgeDNS.after y.2) else []) out
  | Panic _ => []
  end.

Lemma users_isolated_witness :
  rcodes "alice" sample_life = [0; 5; 3]%Z ∧
  ∃ p1 p1' out,
    run (C := MapCache.t Checker.cval) (K := ListTable.t Analytics.row) (B := ListTable.batch Analytics.row) upstream sample_life
      (Programs.EdgeDNS.main sample_env Programs.no_clickhouse (initial sample_redis (ScriptNet.mk sample_answer []))) = Ret (p1, out) ∧
    run upstream [ask 0 "alice" "printer.home."; ask 0 "alice" "printer.home."; Wait 700; Wait 700; evicts 1400 "alice";
                  ask 1400 "alice" "banner.ads.example."]
      (Programs.EdgeDNS.main sample_env Programs.no_clickhouse (initial sample_redis (ScriptNet.mk sample_answer []))) =
      Ret (p1', filter (λ y, y.1 = "alice") out).
Proof.
  split; [by_eval|].
  assert (Hzs : ∀ v, as_zset (redis_get sample_redis (RateLimit.rl_key v)) = Some ∅).
  { intros v. assert (Hl : redis_get sample_redis (RateLimit.rl_key v) = None) by by apply sample_get. by rewrite Hl. }
  assert (Hon : on_time 0 sample_life = true) by by_eval.
  assert (Hpr : Forall (λ x, proper x = true) sample_life) by (repeat (constructor; [by_eval|]); constructor).
  assert (Hf : filter (λ x, concerns "alice" x = true) sample_life =
    [ask 0 "alice" "printer.home."; ask 0 "alice" "printer.home."; Wait 700; Wait 700; evicts 1400 "alice";
     ask 1400 "alice" "banner.ads.example."]) by by_eval.
  destruct (users_isolated (C := MapCache.t Checker.cval) (K := ListTable.t Analytics.row) (B := ListTable.batch Analytics.row)
    upstream sample_env Programs.no_clickhouse sample_redis (ScriptNet.mk sample_answer []) "alice" sample_life 0
    sample_well_typed Hzs eq_refl Hpr ltac:(lia) Hon ltac:(cbn; lia)) as (p1 & p1' & out & E1 & E2 & _).
  exists p1, p1', out. rewrite <- Hf. split; [exact E1|exact E2].
Defined.
End Isolation.
