(* ===== verification/Threads.v ===== *)
(** * A query as a goroutine: src/internal/handler/handler.go over src/internal/rule/checker.go

    [Handler.ProcessQuery] is the handler of a query as one function.  It runs in a goroutine
    of its own, and between two of its accesses to what it shares with the others (the
    limiter, the cache, Redis, the upstream, the metrics and the log channel) anything may
    happen.  [Module Threads] is the same handler as a machine with a state per access
    ([stage], [advance]); the two lookups are cut as in [Interleaving].  [thread_is_query]
    shows that the machine run without interruption is [ProcessQuery], whatever the caches,
    the server and the upstream hold; [Cluster] interleaves the steps of many. *)

From S2P Require Import Prelude.
From S2P Require Import GoStrings.
From Stdlib Require Import Strings.Ascii Strings.String.
From S2P Require Import External.
From S2P Require Import Models.
From S2P Require Import Checker.
From S2P Require Import Redirect.
From S2P Require Import Interleaving.
From S2P Require Import Rule.
From S2P Require Import RateLimit.
From S2P Require Import Analytics.
From S2P Require Import Upstream.
From S2P Require Import Handler.
From S2P Require Import Isolation.
Import Handler.

Local Open Scope go_scope.

Module Threads.

(** The arms of the [switch] of [ProcessQuery]. *)
Inductive reply := Block | RedirectTo (ip : string) | Forward.

Definition status_of (r : reply) : Analytics.LogStatus :=
  match r with
  | Block => Analytics.StatusBlocked
  | RedirectTo _ => Analytics.StatusRedirect
  | Forward => Analytics.StatusAllowed
  end.

(** What a goroutine does next.  [since] is the instant of the first read of the lookup. *)
Inductive stage :=
| Looking                                     (* [cache.Get] of [Check] *)
| Asking                                      (* [checkRedis] *)
| Storing (blocked : bool) (since : Z)        (* [cache.Set] of [Check] *)
| Redirecting                                 (* [cache.Get] of [GetRedirect] *)
| Probing (patterns : list string) (since : Z)  (* the loop of [redisGetRedirect] *)
| Keeping (ip : string) (since : Z)           (* [cache.Set] of [GetRedirect] *)
| Responding (r : reply)                      (* the response is written *)
| Counting (s : Analytics.LogStatus)          (* the metrics *)
| Logging (s : Analytics.LogStatus)           (* [submitLog] *)
| Done.

Section threads.
Context `{UnicodeTables, DnsLib} {C R N W K B : Type}.
Context `{GoCache Checker.cval C, RedisClient R, DnsNet N, ResponseWriter W, ClickHouse Analytics.row K B}.
Variable UpstreamAddr : string.

Abbreviation process := (process (C := C) (R := R) (N := N) (K := K)).

Record thread := mkThread {
  th_user : string;
  th_start : Z;
  th_writer : W;
  th_msg : Msg;
  th_stage : stage
}.

Definition goto (s : stage) (th : thread) : thread :=
  mkThread (th_user th) (th_start th) (th_writer th) (th_msg th) s.

(** The goroutine up to the limiter's verdict and the test for a question. *)
Definition begin (start ms : Z) (userID : string) (w : W) (msg : Msg) (p : process) : thread * process :=
  let '(admitted, p) := admission (mkTimes start ms 0 0 0 0 0 0) userID p in
  if negb admitted then (mkThread userID start (writeRateLimitResponse w msg) msg Done, p)
  else
    match m_Question msg with
    | [] => (mkThread userID start w msg Done, p)
    | _ :: _ => (mkThread userID start w msg Looking, p)
    end.

(** The checker as it sees the server of now. *)
Definition connected (p : process) : option (Checker.t C R) := Rule.global (connect (redis p) (rules p)).

Definition put (c : Checker.t C R) (p : process) : process :=
  set_rules (Rule.mkState (Some c) (Rule.totalChecks (rules p))) p.

(** [totalChecks.Add(1)] *)
Definition count (p : process) : process :=
  set_rules (Rule.mkState (connected p) (uint64_add (Rule.totalChecks (rules p)) 1)) p.

(** After the decision of [CheckRule]. *)
Definition decided (blocked : bool) : stage := if blocked then Responding Block else Redirecting.

(** The response of an arm of the [switch]. *)
Definition respond (r : reply) (w : W) (msg : Msg) (q : Question) (n : N) : W * N :=
  match r with
  | Block => (writeBlockResponse w msg q, n)
  | RedirectTo ip => writeRedirectResponse UpstreamAddr w msg q ip n
  | Forward => forwardResponse UpstreamAddr w msg n
  end.

(** The next step of a goroutine, at the instant [now]. *)
Definition advance (now : Z) (th : thread) (p : process) : outcome (thread * process) :=
  match m_Question (th_msg th) with
  | [] => Ret (th, p)
  | q :: _ =>
      let u := th_user th in
      let d := Checker.normalize (q_Name q) in
      match th_stage th, connected p with
      | Looking, Some c =>
          match cache_Get (Checker.cache c) now (Checker.check_key u (Checker.normalize d)) with
          | Some (Checker.VBool b) => Ret (goto (decided b) th, count p)
          | Some (Checker.VStr _) => Panic "interface conversion: interface {} is string, not bool"
          | None => Ret (goto Asking th, count p)
          end
      | Looking, None => Ret (goto (decided (Checker.fallback_loop Rule.defaultFallback d)) th, count p)
      | Asking, Some c =>
          let '(v, r) := Interleaving.Check_read c u d in
          Ret (goto (Storing v now) th, put (Interleaving.with_server r c) p)
      | Storing v _, Some c => Ret (goto (decided v) th, put (Interleaving.Check_store now c u d v) p)
      | Redirecting, Some c =>
          match cache_Get (Checker.cache c) now (Checker.redirect_key u d) with
          | Some (Checker.VStr ip) => Ret (goto (Responding (RedirectTo ip)) th, put c p)
          | Some (Checker.VBool _) => Ret (goto (Responding Forward) th, put c p)
          | None =>
              if Checker.enabled c then Ret (goto (Probing (Checker.generatePatterns d) now) th, put c p)
              else Ret (goto (Responding Forward) th, put c p)
          end
      | Redirecting, None => Ret (goto (Responding Forward) th, p)
      | Probing ps since, Some c =>
          match Interleaving.probe u ps (Checker.rdb c) with
          | (Interleaving.Found ip, r) => Ret (goto (Keeping ip since) th, put (Interleaving.with_server r c) p)
          | (Interleaving.Again ps, r) => Ret (goto (Probing ps since) th, put (Interleaving.with_server r c) p)
          | (Interleaving.Failed _, r) => Ret (goto (Responding Forward) th, put (Interleaving.with_server r c) p)
          end
      | Keeping ip _, Some c =>
          Ret (goto (Responding (if String.eqb ip EmptyString then Forward else RedirectTo ip)) th,
               put (Interleaving.Redirect_store now c u (q_Name q) ip) p)
      | Responding r, _ =>
          let '(w, n) := respond r (th_writer th) (th_msg th) q (network p) in
          Ret (mkThread u (th_start th) w (th_msg th) (Counting (status_of r)), set_network n p)
      | Counting s, _ =>
          Ret (goto (Logging s) th,
               record_metrics (getProtocol (th_writer th)) (Analytics.status_string s) (TypeToString (q_Qtype q))
                 (now - th_start th) p)
      | Logging s, _ =>
          Ret (goto Done th,
               submitLog (mkTimes (th_start th) 0 0 0 0 0 0 now) u (th_writer th) (q_Name q) (TypeToString (q_Qtype q)) s p)
      | _, _ => Ret (th, p)
      end
  end.

(** ** A goroutine that is not interrupted *)

(** The readings of the clock of [ProcessQuery] at the steps. *)
Definition instant (t : times) (s : stage) : Z :=
  match s with
  | Looking | Asking => t_check t
  | Storing _ _ => t_check_set t
  | Redirecting | Probing _ _ => t_redirect t
  | Keeping _ _ => t_redirect_set t
  | Counting _ => t_end t
  | Logging _ => t_log t
  | Responding _ | Done => 0
  end.

(** [n] steps in a row. *)
Fixpoint drive (n : nat) (t : times) (th : thread) (p : process) : outcome (thread * process) :=
  match n with
  | O => Ret (th, p)
  | S n => tp <-@ advance (instant t (th_stage th)) th p ;; drive n t tp.1 tp.2
  end.

Implicit Types (p : process) (th : thread) (t : times) (c : Checker.t C R).

Lemma drive_done n t th p : th_stage th = Done → drive n t th p = Ret (th, p).
Proof.
  intros Hd. induction n as [|n IH]; [done|]. cbn [drive].
  assert (Ha : advance (instant t (th_stage th)) th p = Ret (th, p)).
  { unfold advance. destruct (m_Question (th_msg th)); [done|]. rewrite Hd. by destruct (connected p). }
  rewrite Ha. exact IH.
Qed.

Lemma drive_step n t th p th1 p1 : advance (instant t (th_stage th)) th p = Ret (th1, p1) →
  drive (S n) t th p = drive n t th1 p1.
Proof. intros E. cbn [drive]. by rewrite E. Qed.

Lemma connected_put c p : connected (put c p) = Some c.
Proof. by destruct c. Qed.

Lemma connected_count c p : connected p = Some c → connected (count p) = Some c.
Proof. intros Hc. unfold count. rewrite Hc. by destruct c. Qed.

(** What is left to do once the arm of the [switch] is chosen. *)
Definition conclude t (q : Question) (r : reply) th p : thread * process :=
  let '(w, n) := respond r (th_writer th) (th_msg th) q (network p) in
  let qtype := TypeToString (q_Qtype q) in
  let p := record_metrics (getProtocol w) (Analytics.status_string (status_of r)) qtype (t_end t - th_start th) (set_network n p) in
  (mkThread (th_user th) (th_start th) w (th_msg th) Done,
   submitLog (mkTimes (th_start th) 0 0 0 0 0 0 (t_log t)) (th_user th) w (q_Name q) qtype (status_of r) p).

(** The steps that do not ask the checker. *)
Lemma advance_last now th p q rest : m_Question (th_msg th) = q :: rest →
  advance now th p = Ret
    match th_stage th with
    | Responding r =>
        let '(w, n) := respond r (th_writer th) (th_msg th) q (network p) in
        (mkThread (th_user th) (th_start th) w (th_msg th) (Counting (status_of r)), set_network n p)
    | Counting s =>
        (goto (Logging s) th,
         record_metrics (getProtocol (th_writer th)) (Analytics.status_string s) (TypeToString (q_Qtype q)) (now - th_start th) p)
    | Logging s =>
        (goto Done th,
         submitLog (mkTimes (th_start th) 0 0 0 0 0 0 now) (th_user th) (th_writer th) (q_Name q) (TypeToString (q_Qtype q)) s p)
    | _ => (th, p)
    end ∨ match th_stage th with Responding _ | Counting _ | Logging _ | Done => False | _ => True end.
Proof.
  intros Hq. unfold advance. rewrite Hq. destruct (th_stage th); [by right..|left|left|left|left]; destruct (connected p); try done;
    by destruct (respond _ _ _ _ _).
Qed.

Lemma drive_responding n t th p q rest r : 3 ≤ n → m_Question (th_msg th) = q :: rest → th_stage th = Responding r →
  drive n t th p = Ret (conclude t q r th p).
Proof.
  intros Hn Hq Hr. do 3 (destruct n as [|n]; [lia|]). unfold conclude.
  destruct (advance_last (instant t (th_stage th)) th p q rest Hq) as [E|E]; rewrite Hr in E; [|done].
  destruct (respond r (th_writer th) (th_msg th) q (network p)) as [w n'] eqn:Hres. rewrite <- Hr in E.
  rewrite (drive_step _ t th p _ _ E). clear E. set (th1 := mkThread _ _ w _ _). set (p1 := set_network n' p).
  destruct (advance_last (instant t (th_stage th1)) th1 p1 q rest Hq) as [E|E]; [|done].
  rewrite (drive_step _ t th1 p1 _ _ E). clear E. set (th2 := goto _ th1). set (p2 := record_metrics _ _ _ _ p1).
  destruct (advance_last (instant t (th_stage th2)) th2 p2 q rest Hq) as [E|E]; [|done].
  rewrite (drive_step _ t th2 p2 _ _ E). by rewrite drive_done.
Qed.

(** The loop of [redisGetRedirect], and the store. *)
Lemma drive_probing n t th p q rest c ps since : 5 + List.length ps ≤ n → m_Question (th_msg th) = q :: rest →
  th_stage th = Probing ps since → connected p = Some c →
  drive n t th p = Ret
    match Checker.hget_first (Checker.redirects_key (th_user th)) ps (Checker.rdb c) with
    | (Ok ip, r) =>
        conclude t q (if String.eqb ip EmptyString then Forward else RedirectTo ip) th
          (put (Interleaving.Redirect_store (t_redirect_set t) (Interleaving.with_server r c) (th_user th) (q_Name q) ip) p)
    | (Err _, r) => conclude t q Forward th (put (Interleaving.with_server r c) p)
    end.
Proof.
  intros Hn Hq. revert n th p c Hn Hq. induction ps as [|pat ps IH]; intros n th p c Hn Hq Hs Hc; (destruct n as [|n]; [lia|]).
  - cbn [List.length] in Hn. destruct n as [|n]; [lia|].
    erewrite (drive_step _ t th p). 2: { unfold advance. rewrite Hq, Hs, Hc. reflexivity. }
    erewrite drive_step. 2: { unfold advance, goto. cbn [th_msg th_stage]. rewrite Hq, connected_put. reflexivity. }
    rewrite (drive_responding n t _ _ q rest Forward) by (done || lia). done.
  - cbn [List.length] in Hn. rewrite Interleaving.hget_first_probe.
    destruct (Interleaving.probe (th_user th) (pat :: ps) (Checker.rdb c)) as [[ip|ps'|e] r] eqn:Hp.
    + erewrite (drive_step _ t th p). 2: { unfold advance. rewrite Hq, Hs, Hc, Hp. reflexivity. }
      destruct n as [|n]; [lia|].
      erewrite drive_step. 2: { unfold advance, goto. cbn [th_msg th_stage]. rewrite Hq, connected_put. reflexivity. }
      rewrite (drive_responding n t _ _ q rest (if String.eqb ip EmptyString then Forward else RedirectTo ip)) by (done || lia). done.
    + erewrite (drive_step _ t th p). 2: { unfold advance. rewrite Hq, Hs, Hc, Hp. reflexivity. }
      assert (Hps : ps' = ps).
      { cbn [Interleaving.probe] in Hp. destruct (HGet _ _ _) as [[ip|[]] r']; [destruct (String.eqb ip EmptyString)|..]; congruence. }
      subst ps'. rewrite (IH n _ _ (Interleaving.with_server r c)) by (done || lia || apply connected_put). done.
    + erewrite (drive_step _ t th p). 2: { unfold advance. rewrite Hq, Hs, Hc, Hp. reflexivity. }
      rewrite (drive_responding n t _ _ q rest Forward) by (done || lia). done.
Qed.

(** [rule.GetRedirectDomain] and what follows. *)
Lemma drive_redirecting n t th p q rest : 16 ≤ n → m_Question (th_msg th) = q :: rest → th_stage th = Redirecting →
  drive n t th p = Ret
    (let '((ip, ok), st) :=
       Rule.GetRedirectDomain (t_redirect t) (t_redirect_set t) (connect (redis p) (rules p)) (th_user th) (q_Name q) in
     conclude t q (if ok : bool then RedirectTo ip else Forward) th (set_rules st p)).
Proof.
  intros Hn Hq Hs. destruct n as [|n]; [lia|]. unfold Rule.GetRedirectDomain. destruct (Rule.global (connect (redis p) (rules p))) as [c|] eqn:Hc.
  2: { erewrite (drive_step _ t th p). 2: { unfold advance, connected. rewrite Hq, Hs, Hc. reflexivity. }
       rewrite (drive_responding n t _ _ q rest Forward) by (done || lia). unfold set_rules, server_after. rewrite Hc.
       unfold connect in *. destruct (Rule.global (rules p)) eqn:Hg; [done|]. by destruct p as [r ? ? ? [g tot] ? ? ? ?]; cbn in *; subst g. }
  pose proof (Checker.generatePatterns_length (Checker.normalize (q_Name q))) as [_ [_ Hlen]].
  destruct (cache_Get (Checker.cache c) (t_redirect t) (Checker.redirect_key (th_user th) (Checker.normalize (q_Name q)))) as [[b|ip]|] eqn:Hg.
  - erewrite (drive_step _ t th p). 2: { unfold advance, connected. rewrite Hq, Hs, Hc. cbn [instant]. rewrite Hg. reflexivity. }
    rewrite (drive_responding n t _ _ q rest Forward) by (done || lia). unfold Checker.GetRedirect. by rewrite Hg.
  - erewrite (drive_step _ t th p). 2: { unfold advance, connected. rewrite Hq, Hs, Hc. cbn [instant]. rewrite Hg. reflexivity. }
    rewrite (drive_responding n t _ _ q rest (RedirectTo ip)) by (done || lia). unfold Checker.GetRedirect. by rewrite Hg.
  - destruct (Checker.enabled c) eqn:He.
    + erewrite (drive_step _ t th p). 2: { unfold advance, connected. rewrite Hq, Hs, Hc. cbn [instant]. rewrite Hg, He. reflexivity. }
      rewrite (drive_probing n t _ _ q rest c (Checker.generatePatterns (Checker.normalize (q_Name q))) (t_redirect t)) by (done || lia || apply connected_put).
      rewrite Interleaving.GetRedirect_halves by done. cbn [goto th_user].
      destruct (Checker.hget_first _ _ _) as [[ip|e] r]; [|done]. by destruct (String.eqb ip EmptyString).
    + erewrite (drive_step _ t th p). 2: { unfold advance, connected. rewrite Hq, Hs, Hc. cbn [instant]. rewrite Hg, He. reflexivity. }
      rewrite (drive_responding n t _ _ q rest Forward) by (done || lia). unfold Checker.GetRedirect. by rewrite Hg, He.
Qed.

(** [rule.CheckRule] and what follows. *)
Lemma drive_looking n t th p q rest : 19 ≤ n → m_Question (th_msg th) = q :: rest → th_stage th = Looking →
  drive n t th p =
    (vst <-@ Rule.CheckRule (t_check t) (t_check_set t) (connect (redis p) (rules p)) (th_user th) (q_Name q) ;;
     let p := set_rules vst.2 p in
     if Z.eqb vst.1 1 then Ret (conclude t q Block th p)
     else
       let '((ip, ok), st) :=
         Rule.GetRedirectDomain (t_redirect t) (t_redirect_set t) (connect (redis p) (rules p)) (th_user th) (q_Name q) in
       Ret (conclude t q (if ok : bool then RedirectTo ip else Forward) th (set_rules st p))).
Proof.
  intros Hn Hq Hs. do 3 (destruct n as [|n]; [lia|]).
  assert (Hafter : ∀ k (b : bool) th1 p1, 16 ≤ k → th1 = goto (decided b) th → drive k t th1 p1 =
    if b then Ret (conclude t q Block th p1) else
    let '((ip, ok), st) :=
      Rule.GetRedirectDomain (t_redirect t) (t_redirect_set t) (connect (redis p1) (rules p1)) (th_user th) (q_Name q) in
    Ret (conclude t q (if ok : bool then RedirectTo ip else Forward) th (set_rules st p1))).
  { intros k b th1 p1 Hk ->. destruct b.
    - by rewrite (drive_responding k t _ _ q rest Block) by (done || lia).
    - rewrite (drive_redirecting k t _ _ q rest) by (done || lia). cbn [goto th_user].
      by destruct (Rule.GetRedirectDomain _ _ _ _ _) as [[ip ok] st]. }
  unfold Rule.CheckRule. destruct (Rule.global (connect (redis p) (rules p))) as [c|] eqn:Hc.
  2: { erewrite (drive_step _ t th p). 2: { unfold advance, connected. rewrite Hq, Hs, Hc. reflexivity. }
       erewrite Hafter; [|lia|reflexivity]. cbn [outcome_bind fst snd]. unfold count, connected. rewrite Hc.
       by destruct (Checker.fallback_loop _ _). }
  destruct (cache_Get (Checker.cache c) (t_check t) (Checker.check_key (th_user th) (Checker.normalize (Checker.normalize (q_Name q)))))
    as [[b|ip]|] eqn:Hg.
  - erewrite (drive_step _ t th p). 2: { unfold advance, connected. rewrite Hq, Hs, Hc. cbn [instant]. rewrite Hg. reflexivity. }
    erewrite Hafter; [|lia|reflexivity]. unfold Checker.Check. rewrite Hg. cbn [outcome_bind fst snd]. unfold count, connected. rewrite Hc.
    by destruct b.
  - cbn [drive]. unfold advance at 1. unfold connected. rewrite Hq, Hs, Hc. cbn [instant]. rewrite Hg.
    unfold Checker.Check. by rewrite Hg.
  - erewrite (drive_step _ t th p). 2: { unfold advance, connected. rewrite Hq, Hs, Hc. cbn [instant]. rewrite Hg. reflexivity. }
    pose proof (Interleaving.Check_halves (t_check t) (t_check_set t) c (th_user th) (Checker.normalize (q_Name q)) Hg) as Hck.
    destruct (Interleaving.Check_read c (th_user th) (Checker.normalize (q_Name q))) as [v r] eqn:Hv. rewrite Hck. cbn [outcome_bind fst snd].
    assert (Hcount : connected (count p) = Some c) by by apply connected_count.
    erewrite (drive_step _ t _ (count p)). 2: { unfold advance. cbn [goto th_msg th_stage th_user]. rewrite Hq, Hcount, Hv. reflexivity. }
    erewrite drive_step. 2: { unfold advance. cbn [goto th_msg th_stage th_user]. rewrite Hq, connected_put. reflexivity. }
    erewrite Hafter; [|lia|reflexivity]. by destruct v.
Qed.

(** C13: A query is the steps of its goroutine: whatever the limiter, the caches, the Redis
    server and the upstream hold, and whether or not they fail, the goroutine run without
    interruption has finished after at most twenty steps, with the process and the response
    of [ProcessQuery], and it panics exactly when [ProcessQuery] does. *)
Theorem thread_is_query n t u w msg p :
  (let '(th, p0) := begin (t_start t) (t_limit_ms t) u w msg p in drive (20 + n) t th p0) =
  (pw <-@ ProcessQuery UpstreamAddr t u p w msg ;; Ret (mkThread u (t_start t) pw.2 msg Done, pw.1)).
Proof.
  unfold begin, ProcessQuery.
  change (admission (mkTimes (t_start t) (t_limit_ms t) 0 0 0 0 0 0) u p) with (admission t u p).
  destruct (admission t u p) as [[] p1]; cbn [negb]; [|by rewrite drive_done].
  destruct (m_Question msg) as [|q rest] eqn:Hq; [by rewrite drive_done|].
  rewrite (drive_looking (20 + n) t _ p1 q rest) by (done || lia). cbn [th_user].
  destruct (Rule.CheckRule _ _ _ _ _) as [[v st]|]; [|done]. cbn [outcome_bind fst snd]. unfold answer.
  destruct (Z.eqb v 1).
  { unfold conclude, submitLog. cbn. by destruct (aggregator p1). }
  destruct (Rule.GetRedirectDomain _ _ _ _ _) as [[ip ok] st']. destruct ok; unfold conclude, submitLog; cbn [respond th_writer th_msg th_start th_user status_of].
  - destruct (writeRedirectResponse _ _ _ _ _ _) as [w' n']. cbn. by destruct (aggregator p1).
  - destruct (forwardResponse _ _ _ _) as [w' n']. cbn. by destruct (aggregator p1).
Qed.

(** ** A goroutine among others *)

(** What is left of a goroutine: an upper bound of its steps. *)
Definition rank (s : stage) : nat :=
  match s with
  | Looking => 19 | Asking => 18 | Storing _ _ => 17 | Redirecting => 16
  | Probing ps _ => 5 + List.length ps
  | Keeping _ _ => 4 | Responding _ => 3 | Counting _ => 2 | Logging _ => 1 | Done => 0
  end.

(** The response has been written. *)
Definition late (s : stage) : bool := match s with Counting _ | Logging _ | Done => true | _ => false end.

(** The steps of a goroutine, each at the instant and in the state of the process it finds:
    what the others have left is arbitrary. *)
Fixpoint through (found : list (Z * process)) (th : thread) : outcome thread :=
  match found with
  | [] => Ret th
  | (now, p) :: found => tp <-@ advance now th p ;; through found tp.1
  end.

(** A process with a checker whose cache is well typed. *)
Definition checking p : Prop := ∃ c, Rule.global (rules p) = Some c ∧ Checker.typed (Checker.cache c).

Context `{!GoCacheLaws Checker.cval C}.

Lemma checking_connected p : checking p → ∃ c, connected p = Some c ∧ Checker.typed (Checker.cache c).
Proof.
  intros (c & Hc & Hty). unfold connected, connect. rewrite Hc. eexists. split; [done|exact Hty].
Qed.

Lemma respond_answers r w msg q rest n : m_Question msg = q :: rest →
  ∃ resp, (respond r w msg q n).1 = write resp w ∧ answers UpstreamAddr n msg resp.
Proof.
  intros Hq. destruct r as [|ip|]; cbn [respond].
  - exists (block_response msg q). split; [done|]. right. left. eauto 10.
  - by eapply redirect_answers.
  - apply forward_answers.
Qed.

(** A step of a goroutine that has not finished. *)
Lemma advance_progress now th p q rest : m_Question (th_msg th) = q :: rest → Checker.good_user (th_user th) = true → checking p →
  ∃ th' p', advance now th p = Ret (th', p') ∧ th_user th' = th_user th ∧ th_msg th' = th_msg th ∧
    (rank (th_stage th') < rank (th_stage th) ∨ th_stage th' = Done) ∧
    match th_stage th with
    | Responding r => th_writer th' = (respond r (th_writer th) (th_msg th) q (network p)).1 ∧ late (th_stage th') = true
    | s => th_writer th' = th_writer th ∧ late (th_stage th') = late s
    end.
Proof.
  intros Hq Hu Hck. destruct (checking_connected p Hck) as (c & Hc & Hty).
  pose proof (Checker.generatePatterns_length (Checker.normalize (q_Name q))) as [_ [_ Hlen]].
  unfold advance. rewrite Hq, Hc. destruct (th_stage th) as [| |v since| |ps since|ip since|r|s|s|] eqn:Hs.
  - destruct (cache_Get _ _ _) as [[b|ip]|] eqn:Hg; [|by apply Checker.typed_no_panic in Hg|].
    + do 2 eexists. split; [done|]. destruct b; cbn; (split_and!; [done..|left; lia|done|done]).
    + do 2 eexists. split; [done|]. cbn. split_and!; [done..|left; lia|done|done].
  - destruct (Interleaving.Check_read _ _ _). do 2 eexists. split; [done|]. cbn. split_and!; [done..|left; lia|done|done].
  - do 2 eexists. split; [done|]. destruct v; cbn; (split_and!; [done..|left; lia|done|done]).
  - destruct (cache_Get _ _ _) as [[b|ip]|]; [| |destruct (Checker.enabled c)];
      (do 2 eexists; split; [done|]; cbn [goto th_user th_msg th_stage th_writer rank late]; split_and!; [done..|left; lia|done|done]).
  - destruct ps as [|pat ps]; cbn [Interleaving.probe].
    + do 2 eexists. split; [done|]. cbn. split_and!; [done..|left; lia|done|done].
    + destruct (HGet _ _ _) as [[ip|[]] r]; [destruct (String.eqb ip EmptyString)|..];
        (do 2 eexists; split; [done|]; cbn; split_and!; [done..|left; lia|done|done]).
  - do 2 eexists. split; [done|]. destruct (String.eqb ip EmptyString); cbn; (split_and!; [done..|left; lia|done|done]).
  - destruct (respond _ _ _ _ _) as [w n] eqn:Hr. do 2 eexists. split; [done|]. cbn. split_and!; [done..|left; lia|done|done].
  - do 2 eexists. split; [done|]. cbn. split_and!; [done..|left; lia|done|done].
  - do 2 eexists. split; [done|]. cbn. split_and!; [done..|by right|done|done].
  - do 2 eexists. split; [done|]. rewrite Hs. split_and!; [done..|by right|done|done].
Qed.

Lemma through_done found th : th_stage th = Done → through found th = Ret th.
Proof.
  intros Hd. induction found as [|[now p] found IH]; [done|]. cbn [through].
  assert (Ha : advance now th p = Ret (th, p)).
  { unfold advance. destruct (m_Question (th_msg th)); [done|]. rewrite Hd. by destruct (connected p). }
  rewrite Ha. exact IH.
Qed.

(** The goroutine with the writer [w] ends with one response, if it has not written it yet. *)
Lemma through_answers found th q rest : m_Question (th_msg th) = q :: rest → Checker.good_user (th_user th) = true →
  Forall (λ e, checking e.2) found → rank (th_stage th) ≤ List.length found →
  ∃ th', through found th = Ret th' ∧ th_stage th' = Done ∧
    if late (th_stage th) then th_writer th' = th_writer th
    else ∃ resp n, n ∈ (λ e, network e.2) <$> found ∧ th_writer th' = write resp (th_writer th) ∧ answers UpstreamAddr n (th_msg th) resp.
Proof.
  intros Hq Hu Hf. revert th Hq Hu. induction Hf as [|[now p] found Hp _ IH]; intros th Hq Hu Hr; cbn [List.length] in Hr.
  { exists th. destruct (th_stage th); cbn in Hr; try lia. done. }
  destruct (advance_progress now th p q rest Hq Hu Hp) as (th1 & p1 & Ha & Hu1 & Hm1 & Hrank & Hw).
  destruct (IH th1) as (th' & Ht & Hd & Hw'); [by rewrite Hm1|by rewrite Hu1|destruct Hrank as [|Hdone]; [lia|rewrite Hdone; cbn; lia]|].
  exists th'. cbn [through]. rewrite Ha. cbn [outcome_bind fst]. split; [exact Ht|]. split; [exact Hd|]. rewrite Hm1 in Hw'.
  destruct (th_stage th) as [| |v since| |ps since|ip since|r|s|s|]; cbn [late]; destruct Hw as [Hw Hl]; rewrite Hl in Hw'; cbn [late] in Hw';
    try (destruct Hw' as (resp & n & Hn & Hwr & Hans); exists resp, n; rewrite <- Hw; split; [|done]; by right);
    try (by rewrite Hw', Hw).
  destruct (respond_answers r (th_writer th) (th_msg th) q rest (network p) Hq) as (resp & Hresp & Hans).
  exists resp, (network p). split; [by left|]. split; [|exact Hans]. by rewrite Hw', Hw.
Qed.

(** Whatever happens between its steps, a goroutine finishes and answers once: given any
    states of the process with a well-typed checker cache at its next twenty steps, it does not panic
    and has finished after them, and a query with a question has got exactly one response,
    from the list of [answers] for the upstream as it was at one of these moments. *)
Theorem thread_answers start ms u w msg p found : Checker.good_user u = true →
  Forall (λ e, checking e.2) found → 20 ≤ List.length found →
  let th := (begin start ms u w msg p).1 in
  ∃ th', through found th = Ret th' ∧ th_stage th' = Done ∧
    ((m_Question msg = [] ∧ th_writer th' = w) ∨
     ∃ resp n, n ∈ network p :: ((λ e, network e.2) <$> found) ∧ th_writer th' = write resp w ∧ answers UpstreamAddr n msg resp).
Proof.
  intros Hu Hf Hlen. unfold begin. destruct (admission _ u p) as [[] p1]; cbn [negb fst].
  - destruct (m_Question msg) as [|q rest] eqn:Hq; cbn [fst].
    { eexists. split; [by apply through_done|]. split; [done|by left]. }
    destruct (through_answers found (mkThread u start w msg Looking) q rest Hq Hu Hf) as (th' & Ht & Hd & resp & n & Hn & Hw & Ha);
      [cbn; lia|]. exists th'. split; [exact Ht|]. split; [exact Hd|]. right. exists resp, n. split; [by right|done].
  - eexists. split; [by apply through_done|]. split; [done|]. right. exists (rate_limit_response msg), (network p).
    split; [by left|]. split; [done|by left].
Qed.
End threads.

(** ** With a server that answers *)

Section answering.
Context `{UnicodeTables, DnsLib} {C R N W K B : Type}.
Context `{GoCache Checker.cval C} `{!GoCacheLaws Checker.cval C}.
Context `{RedisClient R, RedisView R} `{!RedisLaws R}.
Context `{DnsNet N, ResponseWriter W, ClickHouse Analytics.row K B}.
Variable UpstreamAddr : string.
Implicit Types (p : process (C := C) (R := R) (N := N) (K := K)) (th : thread (W := W)) (c : Checker.t C R).
Implicit Types (ca : C) (Bl : gset string) (M : gmap string string) (s : stage).

(** The target a list of patterns yields, empty when there is none. *)
Definition target_of M (patterns : list string) : string := from_option snd EmptyString (Redirect.best_redirect M patterns).

(** The stage after a step of a goroutine of [u] that asks for the name [d], when the settings
    of [u] are [Bl] and [M], and what it leaves in the cache. *)
Definition next (now : Z) (u d : string) Bl M (fb : list string) ca s : stage :=
  match s with
  | Looking =>
      match cache_Get ca now (Checker.check_key u (Checker.normalize d)) with
      | Some (Checker.VBool b) => decided b
      | _ => Asking
      end
  | Asking => Storing (Isolation.verdict true Bl fb (Checker.normalize d)) now
  | Storing v _ => decided v
  | Redirecting =>
      match cache_Get ca now (Checker.redirect_key u d) with
      | Some (Checker.VStr ip) => Responding (RedirectTo ip)
      | Some (Checker.VBool _) => Responding Forward
      | None => Probing (Checker.generatePatterns d) now
      end
  | Probing [] since => Keeping EmptyString since
  | Probing (pattern :: ps) since =>
      match M !! pattern with
      | Some ip => if String.eqb ip EmptyString then Probing ps since else Keeping ip since
      | None => Probing ps since
      end
  | Keeping ip _ => Responding (if String.eqb ip EmptyString then Forward else RedirectTo ip)
  | Responding r => Counting (status_of r)
  | Counting st => Logging st
  | Logging _ | Done => Done
  end.

Definition stored (now : Z) (u d : string) s ca : C :=
  match s with
  | Storing v _ => cache_Set ca now (Checker.check_key u (Checker.normalize d)) (Checker.VBool v) DefaultExpiration
  | Keeping ip _ => cache_Set ca now (Checker.redirect_key u d) (Checker.VStr ip) DefaultExpiration
  | _ => ca
  end.

Lemma Check_read_up c u d Bl : Checker.enabled c = true → redis_up (Checker.rdb c) = true →
  as_set (redis_get (Checker.rdb c) (Checker.blocked_key u)) = Some Bl →
  Interleaving.Check_read c u d = (Isolation.verdict true Bl (Checker.fallback c) (Checker.normalize d), Checker.rdb c).
Proof.
  intros He Hup Hs. unfold Interleaving.Check_read, Checker.redis_decision, Checker.checkRedis, rbind, Isolation.verdict, Checker.fallbackCheck.
  rewrite He, (SMIsMember_up _ _ _ Bl) by done. cbn [rret andb].
  destruct (existsb _ _); cbn [negb orb]; [done|]. by destruct (Checker.fallback_loop _ _).
Qed.

(** A step leaves the cache [ca], and the server, the limiter and the limits alone. *)
Record leaves ca p p' : Prop := {
  lv_redis : redis p' = redis p;
  lv_limiter : limiter p' = limiter p;
  lv_queries : limit_queries p' = limit_queries p;
  lv_window : limit_window p' = limit_window p;
  lv_checker c : Rule.global (rules p) = Some c →
    ∃ r, Rule.global (rules p') = Some (Checker.mk ca r (Checker.fallback c) (Checker.enabled c));
}.

Lemma leaves_steady ca b p p' : Isolation.steady b p → leaves ca p p' → Checker.typed ca → (0 < cache_expiration ca)%Z →
  Isolation.steady b p'.
Proof.
  intros [Hw (c & Hc & _) Hl Hwin] [Er El _ Ew Ec] Hty Hpos. destruct (Ec c Hc) as [r Hr].
  split; [by rewrite Er|eexists; by rewrite Hr|by rewrite El|by rewrite Ew].
Qed.

(** Every step is determined by the cache and the settings of the user, and leaves the server
    as it is. *)
Lemma advance_up now th p q rest c Bl M : m_Question (th_msg th) = q :: rest → Checker.good_user (th_user th) = true →
  Rule.global (rules p) = Some c → Checker.enabled c = true → Checker.typed (Checker.cache c) → redis_up (redis p) = true →
  as_set (redis_get (redis p) (Checker.blocked_key (th_user th))) = Some Bl →
  as_hash (redis_get (redis p) (Checker.redirects_key (th_user th))) = Some M →
  let d := Checker.normalize (q_Name q) in
  ∃ th' p', advance UpstreamAddr now th p = Ret (th', p') ∧ th_user th' = th_user th ∧ th_msg th' = th_msg th ∧
    th_stage th' = next now (th_user th) d Bl M (Checker.fallback c) (Checker.cache c) (th_stage th) ∧
    leaves (stored now (th_user th) d (th_stage th) (Checker.cache c)) p p'.
Proof.
  intros Hq Hu Hc He Hty Hup HB HM d.
  assert (Hcon : connected p = Some (Checker.mk (Checker.cache c) (redis p) (Checker.fallback c) (Checker.enabled c)))
    by (unfold connected, connect; by rewrite Hc).
  assert (Hput : ∀ ca, leaves ca p (put (Checker.mk ca (redis p) (Checker.fallback c) (Checker.enabled c)) p)).
  { intros ca. split; try done. intros c'. rewrite Hc. intros [= <-]. by eexists. }
  assert (Hcount : leaves (Checker.cache c) p (count p)).
  { unfold count. rewrite Hcon. split; try done. intros c'. rewrite Hc. intros [= <-]. by eexists. }
  assert (Hsame : ∀ p', rules p' = rules p → redis p' = redis p → limiter p' = limiter p → limit_queries p' = limit_queries p →
    limit_window p' = limit_window p → leaves (Checker.cache c) p p').
  { intros p' E1 E2 E3 E4 E5. split; try done. intros c'. rewrite E1, Hc. intros [= <-]. exists (Checker.rdb c). by destruct c. }
  destruct (th_stage th) as [| |v since| |[|pat ps] since|ip since|r|s|s|] eqn:Hs; cbn [next stored].
  1-8: unfold advance; rewrite Hq, Hcon, Hs; cbn [Checker.cache Checker.enabled Checker.rdb].
  - fold d. destruct (cache_Get _ _ _) as [[b|ip]|] eqn:Hg; [|by apply Checker.typed_no_panic in Hg|];
      (do 2 eexists; split; [done|]; do 3 (split; [done|]); exact Hcount).
  - rewrite (Check_read_up _ _ _ Bl) by done. cbn [Checker.rdb Checker.fallback].
    do 2 eexists. split; [done|]. do 3 (split; [done|]). exact (Hput (Checker.cache c)).
  - do 2 eexists. split; [done|]. do 3 (split; [done|]). apply Hput.
  - fold d. destruct (cache_Get _ _ _) as [[b|ip]|]; [| |rewrite He];
      (do 2 eexists; split; [done|]; do 3 (split; [done|])); rewrite <- ?He; exact (Hput (Checker.cache c)).
  - do 2 eexists. split; [done|]. do 3 (split; [done|]). exact (Hput (Checker.cache c)).
  - cbn [Interleaving.probe]. rewrite (HGet_up _ _ _ M) by done.
    destruct (M !! pat) as [ip|]; [destruct (String.eqb ip EmptyString)|];
      (do 2 eexists; split; [done|]; do 3 (split; [done|]); exact (Hput (Checker.cache c))).
  - do 2 eexists. split; [done|]. do 3 (split; [done|]). apply Hput.
  - destruct (respond _ _ _ _ _ _) as [w n]. do 2 eexists. split; [done|]. do 3 (split; [done|]). by apply Hsame.
  - destruct (advance_last UpstreamAddr now th p q rest Hq) as [E|E]; rewrite Hs in E; [|done].
    rewrite E. do 2 eexists. split; [done|]. do 3 (split; [done|]). by apply Hsame.
  - destruct (advance_last UpstreamAddr now th p q rest Hq) as [E|E]; rewrite Hs in E; [|done].
    rewrite E. do 2 eexists. split; [done|]. do 3 (split; [done|]). unfold submitLog. destruct (aggregator p); by apply Hsame.
  - destruct (advance_last UpstreamAddr now th p q rest Hq) as [E|E]; rewrite Hs in E; [|done].
    rewrite E. do 2 eexists. split; [done|]. do 2 (split; [done|]). split; [exact Hs|]. by apply Hsame.
Qed.
End answering.

(** ** A concrete instance of the hypotheses *)

#[local] Existing Instance ascii_tables.

Lemma thread_answers_witness :
  ∃ th' : thread (W := SimpleWriter.t),
    through upstream (replicate 20 (1%Z, sample_p)) (begin 1 1 "alice" sample_w (sample_msg "example.org." 1) sample_p).1 = Ret th' ∧
    th_stage th' = Done ∧ ∃ resp, th_writer th' = write resp sample_w.
Proof.
  assert (Hp : Forall (λ e : Z * sample_process, checking e.2) (replicate 20 (1%Z, sample_p))).
  { apply Forall_replicate. eexists. split; [reflexivity|]. apply (Checker.typed_New (C := MapCache.t Checker.cval)). }
  destruct (thread_answers upstream 1 1 "alice" sample_w (sample_msg "example.org." 1) sample_p
    (replicate 20 (1%Z, sample_p)) eq_refl Hp ltac:(rewrite length_replicate; lia)) as (th' & Ht & Hd & [[Hq _]|(resp & n & _ & Hw & _)]).
  - discriminate Hq.
  - exists th'. split; [exact Ht|]. split; [exact Hd|]. exists resp. exact Hw.
Defined.
End Threads.
