(* ===== verification/Cluster.v ===== *)
(** * The whole system: an admin API and any number of resolvers on one Redis server

    cmd/adminapi and the resolvers of cmd/edgedns run as separate processes that share a
    Redis server: the settings of the users are in its keys, the windows of the limiters too,
    and the events of the configuration channel reach the sync worker of every resolver after
    a while.  [Module Cluster] lets requests to the API, the goroutines of the queries of the
    resolvers ([Threads]: one access to the cache, to Redis, to the upstream, to the metrics
    or to the log channel at a time), the steps of the log workers, deliveries of the events
    and the passage of time on the server interleave in any order.

    A resolver that handles the event of a change while no lookup of the user is between its
    read and its store decides from then on as the settings say ([resolvers_coherent]); the
    lookups that were in progress can keep an old answer alive, and an event can be lost, but
    not for longer than a lookup and the lifetime of a cache entry take together
    ([resolvers_catch_up]).  The runs are those of well-formed users ([proper]) and of one
    Redis server that answers and that nobody else writes to ([server_ok] at the start). *)

From S2P Require Import Prelude.
From S2P Require Import GoStrings.
From Stdlib Require Import Strings.Ascii Strings.String.
From S2P Require Import External.
From S2P Require Import Models.
From S2P Require Import Config.
From S2P Require Import Checker.
From S2P Require Import Redirect.
From S2P Require Import Interleaving.
From S2P Require Import Rule.
From S2P Require Import RateLimit.
From S2P Require Import Analytics.
From S2P Require Import Upstream.
From S2P Require Import Handler.
From S2P Require Import Sync.
From S2P Require Import Admin.
From S2P Require Import AdminProgram.
From S2P Require Import EndToEnd.
From S2P Require Import Programs.
From S2P Require Import Isolation.
From S2P Require Import Threads.
Import Handler.

Local Open Scope go_scope.

Module Cluster.

Section cluster.
Context `{UnicodeTables, DnsLib} {G C R N W K B Ka : Type}.
Context `{GoCache Checker.cval C, RedisClient R, RedisView R, DnsNet N, ResponseWriter W, ClickHouse Analytics.row K B}.
Context `{GinContext G, !GinBinding G Admin.ruleRequest, !GinBinding G Admin.redirectRequest}.
Context `{!ClickHouseQuery Admin.summaryRow Ka, !ClickHouseQuery Admin.logEntry Ka}.
Variable index : result string string.
Variable UpstreamAddr : string.

Abbreviation process := (process (C := C) (R := R) (N := N) (K := K)).
Abbreviation thread := (Threads.thread (W := W)).
Abbreviation route := (string * string * bool * Admin.endpoint)%type.

(** A resolver, the goroutines of its queries, and the payloads published to it that its
    worker has not handled; one that is never handled is one that was lost. *)
Record node := mkNode { nd_process : process; nd_threads : list thread; nd_inbox : list string }.

(** The Redis server is the one of the service. *)
Record cluster := mkCluster { cl_service : Admin.t R Ka; cl_nodes : list node }.

Definition server (cl : cluster) : R := Admin.rdb (cl_service cl).

(** A resolver sees the server as it is now. *)
Definition connect_to (r : R) (p : process) : process :=
  mkProcess r (limiter p) (limit_queries p) (limit_window p) (rules p) (aggregator p) (network p)
    (queries_total p) (query_seconds p).

(** What has been published since the server was [old] goes to every resolver. *)
Definition broadcast (old new : R) (nodes : list node) : list node :=
  (λ nd, mkNode (nd_process nd) (nd_threads nd) (nd_inbox nd ++ System.events old new)) <$> nodes.

(** The resolver [i] has worked. *)
Definition worked (i : nat) (p : process) (ths : list thread) (inbox : list string) (cl : cluster) : cluster :=
  mkCluster (Admin.set_rdb (cl_service cl) (redis p))
    (broadcast (server cl) (redis p) (<[i := mkNode p ths inbox]> (cl_nodes cl))).

Definition thread_at (cl : cluster) (i k : nat) : option thread := nd ← cl_nodes cl !! i; nd_threads nd !! k.

Inductive action :=
| Request (rt : route) (g : G)
| Begin (i : nat) (start ms : Z) (userID : string) (w : W) (msg : Msg)
| Advance (i k : nat) (now : Z)
| LogStep (i : nat) (e : Analytics.event)
| Deliver (i j : nat) (now : Z)
| Wait (d : Z).

Definition step (a : action) (cl : cluster) : outcome cluster :=
  match a with
  | Request rt g =>
      let '(_, s) := Admin.serve index rt g (cl_service cl) in
      Ret (mkCluster s (broadcast (server cl) (Admin.rdb s) (cl_nodes cl)))
  | Begin i start ms u w msg =>
      match cl_nodes cl !! i with
      | Some nd =>
          let '(th, p) := Threads.begin start ms u w msg (connect_to (server cl) (nd_process nd)) in
          Ret (worked i p (nd_threads nd ++ [th]) (nd_inbox nd) cl)
      | None => Ret cl
      end
  | Advance i k now =>
      match cl_nodes cl !! i, thread_at cl i k with
      | Some nd, Some th =>
          tp <-@ Threads.advance UpstreamAddr now th (connect_to (server cl) (nd_process nd)) ;;
          Ret (worked i tp.2 (<[k := tp.1]> (nd_threads nd)) (nd_inbox nd) cl)
      | _, _ => Ret cl
      end
  | LogStep i e =>
      match cl_nodes cl !! i with
      | Some nd => Ret (worked i (Programs.EdgeDNS.log_step e (connect_to (server cl) (nd_process nd))) (nd_threads nd) (nd_inbox nd) cl)
      | None => Ret cl
      end
  | Deliver i j now =>
      match cl_nodes cl !! i with
      | Some nd =>
          match nd_inbox nd !! j with
          | Some payload =>
              let p := connect_to (server cl) (nd_process nd) in
              st <-@ Sync.handleMessage (Programs.EdgeDNS.evict now) payload (connect (redis p) (rules p)) ;;
              Ret (worked i (set_rules st p) (nd_threads nd) (delete j (nd_inbox nd)) cl)
          | None => Ret cl
          end
      | None => Ret cl
      end
  | Wait d => Ret (mkCluster (Admin.set_rdb (cl_service cl) (redis_elapse d (server cl))) (cl_nodes cl))
  end.

Fixpoint run (acts : list action) (cl : cluster) : outcome cluster :=
  match acts with [] => Ret cl | a :: acts => cl' <-@ step a cl ;; run acts cl' end.

(** The programs on the server [r]: the admin API and [n] resolvers. *)
Definition started (E : Config.environment) (driver : ch_driver K) (s : Admin.t R Ka) (nets : list N) : cluster :=
  mkCluster s ((λ net, mkNode (Programs.EdgeDNS.main E driver (initial (Admin.rdb s) net)) [] []) <$> nets).

(** Users without a colon that are not called "redirect", steps of the log worker only, and no
    time that goes back. *)
Definition proper (a : action) : bool :=
  match a with
  | Begin _ _ _ u _ _ => Checker.good_user u
  | LogStep _ e => match e with Analytics.Receive | Analytics.Tick | Analytics.Done => true | _ => false end
  | Wait d => Z.leb 0 d
  | _ => true
  end.

(** The last instant at which a cache was read or written; these instants do not go back. *)
Definition clock (now : Z) (a : action) : Z := match a with Deliver _ _ t | Advance _ _ t => t | _ => now end.
Definition end_clock : Z → list action → Z := foldl clock.
Fixpoint in_order (now : Z) (acts : list action) : bool :=
  match acts with [] => true | a :: acts => Z.leb now (clock now a) && in_order (clock now a) acts end.

(** The instant of the first read of a lookup in progress. *)
Definition since (s : Threads.stage) : option Z :=
  match s with Threads.Storing _ t | Threads.Probing _ t | Threads.Keeping _ t => Some t | _ => None end.

(** No lookup of the user has read something that it has not stored. *)
Definition idle (u : string) (nd : node) : Prop :=
  Forall (λ th : thread, Threads.th_user th = u → since (Threads.th_stage th) = None) (nd_threads nd).

(** No lookup takes longer than [D] from its first read to its store. *)
Definition timely (D : Z) (a : action) (cl : cluster) : bool :=
  match a with
  | Advance i k now =>
      match thread_at cl i k with
      | Some th => match since (Threads.th_stage th) with Some t => Z.leb now (t + D) | None => true end
      | None => true
      end
  | _ => true
  end.
Fixpoint prompt (D : Z) (acts : list action) (cl : cluster) : bool :=
  match acts with
  | [] => true
  | a :: acts => timely D a cl && match step a cl with Ret cl' => prompt D acts cl' | Panic _ => true end
  end.

(** The requests of a run, in order. *)
Definition requests (acts : list action) : list (route * G) :=
  omap (λ a, match a with Request rt g => Some (rt, g) | _ => None end) acts.

(** The payloads the resolver [i] handles in a run. *)
Fixpoint handled (i : nat) (acts : list action) (cl : cluster) : list string :=
  match acts with
  | [] => []
  | a :: acts =>
      match a with
      | Deliver i' j _ => if decide (i' = i) then option_list (nd ← cl_nodes cl !! i; nd_inbox nd !! j) else []
      | _ => []
      end ++ match step a cl with Ret cl' => handled i acts cl' | Panic _ => [] end
  end.

(** What a goroutine has just decided is what the block rules [Bl] and the redirects [M] say. *)
Definition agrees (Bl : gset string) (M : gmap string string) (th : thread) : Prop :=
  match m_Question (Threads.th_msg th) with
  | [] => True
  | q :: _ =>
      let d := Checker.normalize (q_Name q) in
      match Threads.th_stage th with
      | Threads.Responding Threads.Block => Checker.blocked_by Bl Checker.default_fallback (Checker.normalize d)
      | Threads.Redirecting => ¬ Checker.blocked_by Bl Checker.default_fallback (Checker.normalize d)
      | Threads.Responding (Threads.RedirectTo ip) =>
          (ip ≠ EmptyString ∧ Redirect.redirects_to M d ip) ∨ (ip = EmptyString ∧ Redirect.not_redirected M d)
      | Threads.Responding Threads.Forward => Redirect.not_redirected M d
      | _ => True
      end
  end.

(** The goroutine [k] of the resolver [i], if it is one of the user. *)
Definition decides (u : string) (Bl : gset string) (M : gmap string string) (i k : nat) (cl : cluster) : Prop :=
  ∀ th, thread_at cl i k = Some th → Threads.th_user th = u → agrees Bl M th.
End cluster.

(** ** Coherence of a cache with the settings *)

(** The target a name is redirected to, empty when it is not. *)
Definition target (M : gmap string string) (d : string) : string := Threads.target_of M (Checker.generatePatterns d).

Lemma target_spec M d :
  (target M d ≠ EmptyString → Redirect.redirects_to M d (target M d)) ∧
  (target M d = EmptyString → Redirect.not_redirected M d).
Proof.
  unfold target, Threads.target_of. pose proof (Redirect.best_redirect_spec M d) as Hs.
  destruct (Redirect.best_redirect M (Checker.generatePatterns d)) as [[p ip]|] eqn:E; [|done]. cbn.
  split; [done|]. intros ->. by apply Redirect.best_redirect_some in E as [? _].
Qed.

Lemma verdict_spec B fb d : Isolation.verdict true B fb d = true ↔ Checker.blocked_by B fb d.
Proof.
  unfold Isolation.verdict, Checker.blocked_by. cbn [andb]. rewrite orb_true_iff, existsb_fmap_bool_decide, Checker.fallback_loop_spec.
  setoid_rewrite Checker.elem_of_generatePatterns. naive_solver.
Qed.

Section coherent.
Context {C R : Type} `{GoCache Checker.cval C} `{!GoCacheLaws Checker.cval C}.
Implicit Types (ca : C) (u v : string) (B : gset string) (M : gmap string string).

(** From [now] on, every answer cached for the user is the one of its settings. *)
Record coherent (now : Z) u B M (fb : list string) ca : Prop := {
  co_check t d x : (now ≤ t)%Z → cache_Get ca t (Checker.check_key u d) = Some x → x = Checker.VBool (Isolation.verdict true B fb d);
  co_redirect t d x : (now ≤ t)%Z → cache_Get ca t (Checker.redirect_key u d) = Some x → x = Checker.VStr (target M d);
}.

Lemma coherent_mono now now' u B M fb ca : (now ≤ now')%Z → coherent now u B M fb ca → coherent now' u B M fb ca.
Proof. intros Hle [Hc Hr]. split; intros t d x Ht; [apply Hc|apply Hr]; lia. Qed.

Lemma coherent_same now u B M fb ca ca' : Isolation.same_cache u ca ca' → coherent now u B M fb ca → coherent now u B M fb ca'.
Proof.
  intros [_ Hg] [Hc Hr]. split; intros t d x Ht.
  - rewrite Hg by apply Isolation.own_check. by apply Hc.
  - rewrite Hg by apply Isolation.own_redirect. by apply Hr.
Qed.

(** A cache with fewer entries is coherent too. *)
Lemma coherent_fewer now u B M fb ca ca' : (∀ t k x, cache_Get ca' t k = Some x → cache_Get ca t k = Some x) →
  coherent now u B M fb ca → coherent now u B M fb ca'.
Proof. intros Hf [Hc Hr]. split; intros t d x Ht Hx; [by eapply Hc, Hf|by eapply Hr, Hf]. Qed.

Lemma coherent_Set_check now u B M fb ca t d : Checker.good_user u = true → coherent now u B M fb ca →
  coherent now u B M fb (cache_Set ca t (Checker.check_key u d) (Checker.VBool (Isolation.verdict true B fb d)) DefaultExpiration).
Proof.
  intros Hu [Hc Hr]. split; intros t' d' x Ht'.
  - destruct (decide (d' = d)) as [->|Hne].
    + match goal with |- cache_Get (cache_Set _ _ ?k ?v _) _ _ = _ → _ => destruct (Get_Set_any ca t k v DefaultExpiration t') as [-> | ->] end; congruence.
    + rewrite Get_Set_ne by (intros E; apply Checker.check_key_inj in E as [_ E]; congruence). by apply Hc.
  - rewrite Get_Set_ne by by apply Checker.keys_disjoint. by apply Hr.
Qed.

Lemma coherent_Set_redirect now u B M fb ca t d : Checker.good_user u = true → coherent now u B M fb ca →
  coherent now u B M fb (cache_Set ca t (Checker.redirect_key u d) (Checker.VStr (target M d)) DefaultExpiration).
Proof.
  intros Hu [Hc Hr]. split; intros t' d' x Ht'.
  - rewrite Get_Set_ne by (intros E; symmetry in E; by apply Checker.keys_disjoint in E). by apply Hc.
  - destruct (decide (d' = d)) as [->|Hne].
    + match goal with |- cache_Get (cache_Set _ _ ?k ?v _) _ _ = _ → _ => destruct (Get_Set_any ca t k v DefaultExpiration t') as [-> | ->] end; congruence.
    + rewrite Get_Set_ne; [by apply Hr|]. intros E. apply (append_inj_l "redirect:") in E.
      apply (Checker.check_key_inj u d u d' Hu Hu) in E as [_ E]. congruence.
Qed.

(** Handling an event drops entries, and all those of its user. *)
Lemma told_fewer now payload ca t k x :
  cache_Get (Isolation.told_cache now payload ca) t k = Some x → cache_Get ca t k = Some x.
Proof.
  unfold Isolation.told_cache. destruct (Isolation.payload_user payload); [|done]. rewrite Isolation.evicted_get. by case_match.
Qed.

Lemma told_coherent now payload u B M fb ca : Isolation.payload_user payload = Some u →
  coherent now u B M fb (Isolation.told_cache now payload ca).
Proof.
  intros Hp. assert (Hnone : ∀ t k, (now ≤ t)%Z → Checker.clears u k = true → cache_Get (Isolation.told_cache now payload ca) t k = None).
  { intros t k Ht Hk. unfold Isolation.told_cache. rewrite Hp, Isolation.evicted_get, Hk. cbn [andb].
    destruct (cache_Get ca now k) eqn:E; [done|]. destruct (cache_Get ca t k) as [x|] eqn:E'; [|done].
    apply (Get_mono ca now t) in E'; [congruence|done]. }
  split; intros t d x Ht; rewrite Hnone by (done || apply Checker.clears_own); done.
Qed.
(** No entry outlives [now] by more than its lifetime. *)
Definition lifetime : Z := 60 * 1000000000.

Record bounded (now : Z) ca : Prop := {
  bd_expiration : cache_expiration ca = lifetime;
  bd_get t k : (now + lifetime < t)%Z → cache_Get ca t k = None;
}.

Lemma bounded_mono now now' ca : (now ≤ now')%Z → bounded now ca → bounded now' ca.
Proof. intros Hle [He Hg]. split; [done|]. intros t k Ht. apply Hg. lia. Qed.

Lemma bounded_Set now t k (x : Checker.cval) ca : (t ≤ now)%Z → bounded now ca → bounded now (cache_Set ca t k x DefaultExpiration).
Proof.
  intros Hle [He Hg]. split; [by rewrite expiration_Set|]. intros t' k' Ht.
  destruct (decide (k = k')) as [<-|Hne]; [|rewrite Get_Set_ne by done; by apply Hg].
  assert (Hd : cache_duration ca DefaultExpiration = lifetime) by (unfold cache_duration; by rewrite He).
  apply Get_Set_expired; rewrite Hd; [done|lia].
Qed.

Lemma bounded_told now now' payload ca : (now ≤ now')%Z → bounded now ca → bounded now' (Isolation.told_cache now' payload ca).
Proof.
  intros Hle Hb. apply (bounded_mono _ now') in Hb as [He Hg]; [|done]. split.
  - unfold Isolation.told_cache. destruct (Isolation.payload_user payload); [|done]. by rewrite Isolation.fold_expiration.
  - intros t k Ht. destruct (cache_Get (Isolation.told_cache now' payload ca) t k) as [x|] eqn:E; [|done].
    apply told_fewer in E. by rewrite Hg in E.
Qed.

(** An entry that is gone by [now] does not matter. *)
Lemma coherent_Set_expired now t k (x : Checker.cval) u Bl M fb ca : bounded t ca → (t + lifetime < now)%Z →
  coherent now u Bl M fb ca → coherent now u Bl M fb (cache_Set ca t k x DefaultExpiration).
Proof.
  intros Hb Hlt _. apply (bounded_Set t t k x) in Hb as [_ Hg]; [|done]. split; intros t' d y Ht; rewrite Hg by lia; done.
Qed.

Lemma bounded_coherent now u B M fb ca : bounded now ca → coherent (now + lifetime + 1) u B M fb ca.
Proof. intros [_ Hg]. split; intros t d x Ht; rewrite Hg by lia; done. Qed.
End coherent.

(** ** Every step keeps the resolvers coherent *)

Section proofs.
Context `{UnicodeTables} `{DnsLib} `{!DnsLibLaws} {G C R N W K B Ka : Type}.
Context `{GoCache Checker.cval C} `{!GoCacheLaws Checker.cval C}.
Context `{RedisClient R, RedisView R} `{!RedisLaws R}.
Context `{DnsNet N, ResponseWriter W, ClickHouse Analytics.row K B}.
Context `{GinContext G, !GinBinding G Admin.ruleRequest, !GinBinding G Admin.redirectRequest}.
Context `{!GinBindingLaws G Admin.ruleRequest Admin.rule_fields}.
Context `{!GinBindingLaws G Admin.redirectRequest Admin.redirect_fields}.
Context `{!ClickHouseQuery Admin.summaryRow Ka, !ClickHouseQuery Admin.logEntry Ka}.
Variable index : result string string.
Variable UpstreamAddr : string.

Abbreviation process := (process (C := C) (R := R) (N := N) (K := K)).
Abbreviation thread := (Threads.thread (W := W)).
Abbreviation node := (node (C := C) (R := R) (N := N) (W := W) (K := K)).
Abbreviation cluster := (cluster (C := C) (R := R) (N := N) (W := W) (K := K) (Ka := Ka)).
Abbreviation action := (action (G := G) (W := W)).
Abbreviation settings_of := (string → gset string * gmap string string).
Implicit Types (p : process) (nd : node) (cl : cluster) (a : action) (r : R) (u v : string) (th : thread) (ths : list thread).

(** *** The server *)

(** The keys of the settings do not expire. *)
Definition persistent r : Prop :=
  ∀ u k, k = Checker.blocked_key u ∨ k = Checker.redirects_key u → redis_ttl r k = None.

(** The server answers, with keys of the right types. *)
Definition server_ok r : Prop := Isolation.well_typed r ∧ persistent r.

(** The server has changed, but not the settings. *)
Definition same_server r r' : Prop :=
  server_ok r' ∧ redis_published r' = redis_published r ∧ ∀ u, Admin.settings r' u = Admin.settings r u.

(** Time passes. *)
Lemma elapse_server d r : (0 ≤ d)%Z → server_ok r → same_server r (redis_elapse d r).
Proof.
  intros Hd [Hw Hp]. split; [split; [by apply Isolation.elapse_well_typed|]|split; [apply elapse_published|]].
  - intros u k Hk. by rewrite elapse_ttl, (Hp u k Hk).
  - intros u. unfold Admin.settings. change (Admin.rules_key u) with (Checker.blocked_key u). change (Admin.redirects_key u) with (Checker.redirects_key u).
    by rewrite !elapse_get, (Hp u _ (or_introl eq_refl)), (Hp u _ (or_intror eq_refl)).
Qed.

Lemma same_settings_settings u r r' : Isolation.same_settings u r r' → Admin.settings r' u = Admin.settings r u.
Proof.
  intros Hs. unfold Admin.settings. destruct (Hs (Checker.blocked_key u) (or_introl eq_refl)) as [E1 _].
  destruct (Hs (Checker.redirects_key u) (or_intror eq_refl)) as [E2 _].
  change (Admin.rules_key u) with (Checker.blocked_key u). change (Admin.redirects_key u) with (Checker.redirects_key u).
  by rewrite E1, E2.
Qed.

Lemma admission_server t v b p : Isolation.steady (b + 1) p → persistent (redis p) → (0 ≤ b)%Z →
  same_server (redis p) (redis (admission t v p).2).
Proof.
  intros Hst Hper Hb. pose proof (Isolation.admission_steady t v b p Hst Hb) as [Hw _ _ _].
  pose proof (λ u, Isolation.sv_settings _ _ _ (Isolation.admission_view t u v b p Hst Hb)) as Hview.
  split; [split; [done|]; intros u k Hk; rewrite (proj2 (Hview u k Hk)); by eapply Hper|].
  destruct (Isolation.admission_limited t v b p Hst Hb) as (k & r' & z & _ & E & (_ & Hp & _) & _). split.
  - by rewrite E.
  - intros u. apply same_settings_settings. apply Hview.
Qed.

Lemma settings_exist r u : server_ok r → ∃ Bl M, Admin.settings r u = Some (Bl, M).
Proof. intros [[_ Hw] _]. destruct (Hw u) as (Bl & M & _ & HB & HM & _). exists Bl, M. by apply Admin.settings_some. Qed.

(** *** What the resolvers keep *)

(** A lookup in progress will store what the settings say. *)
Definition right (Bl : gset string) (M : gmap string string) th : Prop :=
  match m_Question (Threads.th_msg th) with
  | [] => True
  | q :: _ =>
      let d := Checker.normalize (q_Name q) in
      match Threads.th_stage th with
      | Threads.Storing x _ => x = Isolation.verdict true Bl Checker.default_fallback (Checker.normalize d)
      | Threads.Probing ps _ => target M d = Threads.target_of M ps
      | Threads.Keeping ip _ => ip = target M d
      | _ => True
      end
  end.

Section watched.
(** The users watched at a resolver, each with an instant from which its cached answers are
    those of its settings; [outdated H t]: a lookup that has read at [t] is over, and what it
    has stored is gone, before [H]. *)
Variable watch : nat → string → Z → Prop.
Variable outdated : Z → Z → Prop.

Definition harmless (hz : Z) Bl M th : Prop :=
  right Bl M th ∨ ∃ t, since (Threads.th_stage th) = Some t ∧ outdated hz t.

(** The cache and the goroutines of the resolver [i]. *)
Definition cached_ok (now : Z) (i : nat) r p ths : Prop :=
  ∃ c, Rule.global (rules p) = Some c ∧ Checker.enabled c = true ∧ Checker.fallback c = Checker.default_fallback ∧
    bounded now (Checker.cache c) ∧
    ∀ u H Bl M, Checker.good_user u = true → watch i u H → Admin.settings r u = Some (Bl, M) →
      coherent H u Bl M Checker.default_fallback (Checker.cache c) ∧
      Forall (λ th, Threads.th_user th = u → harmless H Bl M th) ths.

Definition threads_ok (now : Z) ths : Prop :=
  Forall (λ th, Checker.good_user (Threads.th_user th) = true ∧ ∀ t, since (Threads.th_stage th) = Some t → (t ≤ now)%Z) ths.

Definition node_ok (now b : Z) (i : nat) r nd : Prop :=
  Isolation.steady b (connect_to r (nd_process nd)) ∧ cached_ok now i r (nd_process nd) (nd_threads nd) ∧ threads_ok now (nd_threads nd).

Lemma threads_mono now now' ths : (now ≤ now')%Z → threads_ok now ths → threads_ok now' ths.
Proof. intros Hle Hth. eapply Forall_impl; [exact Hth|]. intros th [Hu Ht]. split; [done|]. intros t E%Ht. lia. Qed.

Lemma cached_mono now now' i r r' p ths : (∀ u, Admin.settings r' u = Admin.settings r u) → (now ≤ now')%Z →
  cached_ok now i r p ths → cached_ok now' i r' p ths.
Proof.
  intros Hs Hle (c & Hc & He & Hf & Hb & Hco). exists c. do 3 (split; [done|]). split; [by eapply bounded_mono|].
  intros u H' Bl M Hu Hw. rewrite Hs. by apply Hco.
Qed.

(** A query begins. *)
Lemma begin_ok now b i start ms v w msg p ths : Isolation.steady (b + 1) p → persistent (redis p) → (0 ≤ b)%Z →
  Checker.good_user v = true → cached_ok now i (redis p) p ths → threads_ok now ths →
  let '(th, p') := Threads.begin start ms v w msg p in
  Isolation.steady b p' ∧ same_server (redis p) (redis p') ∧
  cached_ok now i (redis p) p' (ths ++ [th]) ∧ threads_ok now (ths ++ [th]).
Proof.
  intros Hst Hper Hb Hv (c & Hc & He & Hf & Hbd & Hco) Hth. set (t := mkTimes start ms 0 0 0 0 0 0).
  pose proof (admission_server t v b p Hst Hper Hb) as Hsrv. pose proof (Isolation.admission_steady t v b p Hst Hb) as Hst'.
  destruct (admission_frame t v p) as (Hru & _). unfold Threads.begin. fold t. destruct (admission t v p) as [ok p']. cbn [snd] in *.
  assert (Hall : ∀ th, Threads.th_user th = v → (Threads.th_stage th = Threads.Done ∨ Threads.th_stage th = Threads.Looking) →
    cached_ok now i (redis p) p' (ths ++ [th]) ∧ threads_ok now (ths ++ [th])).
  { intros th Hu Hs. split.
    - exists c. rewrite Hru. do 4 (split; [done|]). intros u H' Bl M Hgu Hw Hset. destruct (Hco u H' Bl M Hgu Hw Hset) as [? Hall].
      split; [done|]. apply Forall_app. split; [done|]. constructor; [|done]. intros _. left. unfold right.
      destruct (m_Question _); [done|]. by destruct Hs as [-> | ->].
    - apply Forall_app. split; [done|]. constructor; [|done]. split; [by rewrite Hu|]. by destruct Hs as [-> | ->]. }
  destruct ok; cbn [negb]; [destruct (m_Question msg)|]; (split; [done|]; split; [done|]; apply Hall; auto).
Qed.

(** The cache after a step of a goroutine. *)
Lemma stored_coherent hz now u d Bl M ca th q rest : Checker.good_user u = true → bounded now ca →
  m_Question (Threads.th_msg th) = q :: rest → d = Checker.normalize (q_Name q) →
  (∀ t, since (Threads.th_stage th) = Some t → outdated hz t → (now + lifetime < hz)%Z) →
  harmless hz Bl M th → coherent hz u Bl M Checker.default_fallback ca →
  coherent hz u Bl M Checker.default_fallback (Threads.stored now u d (Threads.th_stage th) ca).
Proof.
  intros Hu Hb Hq -> Hout Hth Hco. unfold harmless, right in Hth. rewrite Hq in Hth.
  destruct (Threads.th_stage th) as [| |x t| |ps t|ip t|r|s|s|]; cbn [Threads.stored since] in *; try done.
  - destruct Hth as [->|(t' & [= <-] & Ho)]; [by apply coherent_Set_check|]. eapply coherent_Set_expired; [done|by eapply Hout|done].
  - destruct Hth as [->|(t' & [= <-] & Ho)]; [by apply coherent_Set_redirect|]. eapply coherent_Set_expired; [done|by eapply Hout|done].
Qed.

Lemma stored_bounded now u d s (ca : C) : bounded now ca → bounded now (Threads.stored now u d s ca).
Proof. intros Hb. destruct s; cbn [Threads.stored]; try done; by apply bounded_Set. Qed.

Lemma stored_typed now u d s (ca : C) : Checker.good_user u = true → Checker.typed ca → Checker.typed (Threads.stored now u d s ca).
Proof. intros Hu Hty. destruct s; cbn [Threads.stored]; try done; apply Checker.typed_Set; cbn; eauto. Qed.

Lemma stored_other now u v d s (ca : C) : Checker.good_user u = true → Checker.good_user v = true → v ≠ u →
  Isolation.same_cache u ca (Threads.stored now v d s ca).
Proof.
  intros Hu Hv Hne. destruct (Isolation.not_own u v (Checker.normalize d) Hu Hv Hne) as [H1k _].
  destruct (Isolation.not_own u v d Hu Hv Hne) as [_ H2k]. destruct s; cbn [Threads.stored]; try done; by apply Isolation.same_cache_other.
Qed.

(** What the goroutine will store. *)
Lemma next_harmless hz now u d Bl M ca th th' q rest : m_Question (Threads.th_msg th) = q :: rest → d = Checker.normalize (q_Name q) →
  Threads.th_msg th' = Threads.th_msg th →
  Threads.th_stage th' = Threads.next now u d Bl M Checker.default_fallback ca (Threads.th_stage th) →
  harmless hz Bl M th → harmless hz Bl M th'.
Proof.
  intros Hq -> Hm Hs Hth. unfold harmless, right in *. rewrite Hm, Hq in *. rewrite Hs. clear Hs Hm.
  destruct (Threads.th_stage th) as [| |x t| |[|pat ps] t|ip t|r|s|s|]; cbn [Threads.next] in *.
  - left. destruct (cache_Get _ _ _) as [[[]|]|]; done.
  - by left.
  - left. by destruct x.
  - left. destruct (cache_Get _ _ _) as [[]|]; done.
  - destruct Hth as [Hr|(t' & [= <-] & Ho)]; [by left|right; by exists t].
  - destruct Hth as [Hr|(t' & [= <-] & Ho)].
    + left. rewrite Hr. unfold Threads.target_of. cbn [Redirect.best_redirect].
      destruct (M !! pat) as [ip|]; [|done]. by destruct (String.eqb ip EmptyString).
    + right. exists t. destruct (M !! pat) as [ip|]; [|done]. by destruct (String.eqb ip EmptyString).
  - left. by destruct (String.eqb ip EmptyString).
  - by left.
  - by left.
  - by left.
  - by left.
Qed.

Lemma next_since now now' u d Bl M fb ca s : (now ≤ now')%Z → (∀ t, since s = Some t → (t ≤ now)%Z) →
  ∀ t, since (Threads.next now' u d Bl M fb ca s) = Some t → (t ≤ now')%Z.
Proof.
  intros Hle Hs t. destruct s as [| |x t'| |[|pat ps] t'|ip t'|r|s|s|]; cbn [Threads.next].
  - destruct (cache_Get _ _ _) as [[[]|]|]; done.
  - intros [= <-]. lia.
  - by destruct x.
  - destruct (cache_Get _ _ _) as [[]|]; try done. intros [= <-]. lia.
  - intros [= <-]. specialize (Hs t' eq_refl). lia.
  - specialize (Hs t' eq_refl). destruct (M !! pat) as [ip|]; [destruct (String.eqb ip EmptyString)|]; intros [= <-]; lia.
  - by destruct (String.eqb ip EmptyString).
  - done.
  - done.
  - done.
  - done.
Qed.

(** A step of the goroutine [k]. *)
Lemma advance_ok now now' b i r p ths k th : redis p = r → Isolation.steady b p → server_ok r → (now ≤ now')%Z →
  ths !! k = Some th → cached_ok now i r p ths → threads_ok now ths →
  (∀ hz t, watch i (Threads.th_user th) hz → since (Threads.th_stage th) = Some t → outdated hz t → (now' + lifetime < hz)%Z) →
  ∃ th' p', Threads.advance UpstreamAddr now' th p = Ret (th', p') ∧ Isolation.steady b p' ∧ redis p' = r ∧
    cached_ok now' i r p' (<[k := th']> ths) ∧ threads_ok now' (<[k := th']> ths).
Proof.
  intros Hr Hst Hsrv Hle Hk Hca Hth Hout. apply (cached_mono _ now' _ _ r) in Hca; [|done..].
  pose proof (proj1 (Forall_lookup _ _) Hth k th Hk) as [Hu Hsince]. apply (threads_mono _ now') in Hth; [|done].
  destruct (m_Question (Threads.th_msg th)) as [|q rest] eqn:Hq.
  { exists th, p. rewrite list_insert_id by done. split; [|done]. unfold Threads.advance. by rewrite Hq. }
  destruct Hca as (c & Hc & He & Hf & Hbd & Hco). destruct (settings_exist r (Threads.th_user th) Hsrv) as (Bl & M & Hset).
  pose proof Hset as [HB HM]%Admin.settings_some. pose proof Hst as [_ (c' & Hc' & Hty & Hpos) _ _]. rewrite Hc in Hc'. injection Hc' as <-.
  destruct (Threads.advance_up UpstreamAddr now' th p q rest c Bl M) as (th' & p' & Ha & Hu' & Hm' & Hs' & Hlv);
    [done..|rewrite Hr; apply Hsrv|by rewrite Hr|by rewrite Hr|].
  set (d := Checker.normalize (q_Name q)) in *. exists th', p'. split; [exact Ha|].
  split; [eapply Threads.leaves_steady; [exact Hst|exact Hlv|by apply stored_typed|]|].
  { destruct (stored_bounded now' (Threads.th_user th) d (Threads.th_stage th) _ Hbd) as [-> _]. by unfold lifetime. }
  split; [by rewrite (Threads.lv_redis _ _ _ Hlv)|]. rewrite Hf in Hs'. split.
  - destruct (Threads.lv_checker _ _ _ Hlv c Hc) as [r' Hg]. eexists. split; [exact Hg|]. do 2 (split; [done|]). cbn [Checker.cache].
    split; [by apply stored_bounded|]. intros u hz Bl' M' Hgu Hw Hset'.
    destruct (Hco u hz Bl' M' Hgu Hw Hset') as [Hcoh Hall]. destruct (decide (Threads.th_user th = u)) as [<-|Hne].
    + rewrite Hset in Hset'. injection Hset' as <- <-. pose proof (proj1 (Forall_lookup _ _) Hall k th Hk eq_refl) as Hh. split.
      * eapply stored_coherent; [done..| |exact Hh|exact Hcoh]. intros t E1 E2. by eapply Hout.
      * apply Forall_insert; [done|]. intros _. eapply next_harmless; [exact Hq|reflexivity|exact Hm'|exact Hs'|exact Hh].
    + split; [eapply coherent_same; [|exact Hcoh]; by apply stored_other|].
      apply Forall_insert; [done|]. intros E. by rewrite Hu' in E.
  - apply Forall_insert; [done|]. rewrite Hu'. split; [done|]. rewrite Hs'. by eapply next_since.
Qed.

(** The event of a message at a process. *)
Lemma told_ok now now' b i r payload p ths : redis p = r → Isolation.steady b p → (now ≤ now')%Z → cached_ok now i r p ths →
  Isolation.steady b (Isolation.told now' payload p) ∧ redis (Isolation.told now' payload p) = r ∧
  cached_ok now' i r (Isolation.told now' payload p) ths.
Proof.
  intros Hr Hst Hnow (c & Hc & He & Hf & Hbd & Hco). split; [by apply Isolation.told_steady|].
  pose proof (Isolation.told_left now' payload p c Hc) as Hlw. split; [by rewrite (Isolation.lw_redis _ _ _ _ Hlw)|].
  eexists. split; [by apply (Isolation.lw_checker _ _ _ _ Hlw)|]. do 2 (split; [done|]). cbn [Checker.cache].
  split; [by eapply bounded_told|]. intros u hz Bl M Hu Hw Hset. destruct (Hco u hz Bl M Hu Hw Hset) as [Hcoh Hall].
  split; [|done]. eapply coherent_fewer; [|exact Hcoh]. intros t k x. apply told_fewer.
Qed.

Lemma log_ok now b i r e p ths : Isolation.steady b p → cached_ok now i r p ths →
  Isolation.steady b (Programs.EdgeDNS.log_step e p) ∧ redis (Programs.EdgeDNS.log_step e p) = redis p ∧
  cached_ok now i r (Programs.EdgeDNS.log_step e p) ths.
Proof.
  intros Hst Hc. split; [by apply Isolation.log_step_steady|].
  unfold Programs.EdgeDNS.log_step, Programs.EdgeDNS.on_aggregator. destruct (aggregator p); done.
Qed.

(** *** The cluster *)

(** The service holds the settings [σ] and the caches of the resolvers are right for the users
    that are watched. *)
Definition cluster_ok (now b : Z) (s0 : Admin.t R Ka) (σ : settings_of) cl : Prop :=
  AdminAPI.holds s0 σ (cl_service cl) ∧ server_ok (server cl) ∧
  ∀ i nd, cl_nodes cl !! i = Some nd → node_ok now b i (server cl) nd.

(** The events on their way, and those an action announces. *)
Definition inboxes cl : list (list string) := nd_inbox <$> cl_nodes cl.

Definition event_of (uc : string * Admin.change) : string := Sync.Encode (Sync.mkEvent uc.1 Sync.ActionClearCache).

Definition change_in (s0 : Admin.t R Ka) a : list (string * Admin.change) :=
  match a with Request rt g => option_list (AdminAPI.change_of s0 (rt, g)) | _ => [] end.

(** Every resolver gets the event of the change, and handles the one that is delivered to it. *)
Definition moved (s0 : Admin.t R Ka) a cl cl' : Prop :=
  inboxes cl' = (λ l, l ++ (event_of <$> change_in s0 a)) <$> match a with Deliver i j _ => alter (delete j) i (inboxes cl) | _ => inboxes cl end.

Lemma delete_none {A : Type} j (l : list A) : l !! j = None → delete j l = l.
Proof.
  intros Hj%lookup_ge_None. rewrite delete_take_drop, take_ge, drop_ge by lia. apply app_nil_r.
Qed.

Lemma alter_none {A : Type} (f : A → A) i (l : list A) : l !! i = None → alter f i l = l.
Proof. intros Hi. apply list_eq. intros j. destruct (decide (i = j)) as [<-|Hne]; [by rewrite list_lookup_alter_eq, Hi|by rewrite list_lookup_alter_ne]. Qed.

Lemma alter_some {A : Type} (f : A → A) i (l : list A) x : l !! i = Some x → alter f i l = <[i := f x]> l.
Proof.
  intros Hi. apply list_eq. intros j. destruct (decide (i = j)) as [<-|Hne].
  - rewrite list_lookup_alter_eq, Hi, list_lookup_insert_eq; [done|]. by eapply lookup_lt_Some.
  - by rewrite list_lookup_alter_ne, list_lookup_insert_ne.
Qed.

Lemma moved_quiet s0 a cl cl' : change_in s0 a = [] →
  inboxes cl' = match a with Deliver i j _ => alter (delete j) i (inboxes cl) | _ => inboxes cl end → moved s0 a cl cl'.
Proof.
  intros Hc E. unfold moved. rewrite E, Hc. set (l := match a with Deliver _ _ _ => _ | _ => _ end).
  rewrite <- (list_fmap_id l) at 1. apply list_fmap_ext. intros j x _. by rewrite app_nil_r.
Qed.

Lemma broadcast_same r r' (nodes : list node) : redis_published r' = redis_published r → broadcast r r' nodes = nodes.
Proof.
  intros E. unfold broadcast, System.events. rewrite E, drop_all. cbn [omap list_omap].
  rewrite <- (list_fmap_id nodes) at 2. apply list_fmap_ext. intros j [p ths inbox] _. cbn. by rewrite app_nil_r.
Qed.

Lemma connect_steady b r r' p : Isolation.steady b (connect_to r p) → Isolation.well_typed r' → Isolation.steady b (connect_to r' p).
Proof. intros [? ? ? ?] Hw. by split. Qed.

Lemma node_ok_server now now' b b' i r r' nd : same_server r r' → (now ≤ now')%Z → (b' ≤ b)%Z →
  node_ok now b i r nd → node_ok now' b' i r' nd.
Proof.
  intros ((Hw & _) & _ & Hs) Hn Hb (Hst & Hco & Hth). split; [|split].
  - eapply Isolation.steady_mono; [exact Hb|]. by eapply connect_steady.
  - by eapply cached_mono.
  - by eapply threads_mono.
Qed.

Lemma holds_server s0 σ (s : Admin.t R Ka) r' : same_server (Admin.rdb s) r' → AdminAPI.holds s0 σ s → AdminAPI.holds s0 σ (Admin.set_rdb s r').
Proof. intros (((Hup & _) & _) & _ & Hs) (Hk & _ & Hst). split; [done|]. split; [done|]. intros u. cbn. by rewrite Hs. Qed.

(** A resolver at work. *)
Lemma worked_ok now now' b s0 σ cl i p' ths inbox : cluster_ok now (b + 1) s0 σ cl → (0 ≤ b)%Z → (now ≤ now')%Z →
  Isolation.steady b p' → same_server (server cl) (redis p') →
  cached_ok now' i (server cl) p' ths → threads_ok now' ths →
  cluster_ok now' b s0 σ (worked i p' ths inbox cl) ∧ inboxes (worked i p' ths inbox cl) = <[i := inbox]> (inboxes cl).
Proof.
  intros (Hh & _ & Hn) Hb Hnow Hp' Hsrv Hco Hth. unfold worked. pose proof Hsrv as (Hw' & Hpub & Hset). rewrite broadcast_same by done.
  split; [|unfold inboxes; cbn [cl_nodes]; by rewrite list_fmap_insert].
  split; [by apply holds_server|]. split; [done|]. change (server _) with (redis p'). cbn [cl_nodes]. intros i' nd' Hi'.
  apply list_lookup_insert_Some in Hi' as [(-> & <- & _)|(Hne & Hi')].
  - split; [by destruct p'|]. split; [|done]. cbn [nd_process nd_threads].
    eapply cached_mono; [exact Hset|apply Z.le_refl|exact Hco].
  - eapply node_ok_server; [exact Hsrv|done| |by apply Hn]. lia.
Qed.

(** What a request that makes the change [uc], if any, does to the server. *)
Definition request_effect (uc : option (string * Admin.change)) r r' : Prop :=
  server_ok r' ∧
  match uc with
  | None => same_server r r'
  | Some (u, ch) => (∀ v, v ≠ u → Admin.settings r' v = Admin.settings r v) ∧ System.events r r' = [event_of (u, ch)] ∧
      Isolation.payload_user (event_of (u, ch)) = Some u
  end.

Lemma no_effect r : server_ok r → request_effect None r r.
Proof. intros Hr. split; [done|]. by split. Qed.

Lemma handler_effect s0 σ s e g : AdminAPI.holds s0 σ s → server_ok (Admin.rdb s) →
  request_effect (Admin.requested e g) (Admin.rdb s) (Admin.rdb (Admin.handler index e g s).2).
Proof.
  intros Hh Hw. destruct (Admin.requested e g) as [[u ch]|] eqn:Hreq.
  2: { pose proof (AdminAPI.handler_reads index s0 σ s e g Hh Hreq) as Hr.
       destruct (Admin.handler index e g s) as [resp s1]. destruct Hr as (E & _). cbn. rewrite E. by apply no_effect. }
  destruct Hh as (_ & Hup & Hst). assert (Hsome : is_Some (Admin.settings (Admin.rdb s) u)) by by eexists.
  pose proof (λ k, Admin.handler_frame index e g s u ch k Hreq Hup Hsome) as Hk.
  pose proof (λ k, Admin.handler_persistent index e g s u ch k Hreq Hup Hsome) as Hper.
  destruct (Admin.handler_change index e g s u ch Hreq Hup Hsome) as (_ & Hup' & Hu & Hother & Hpub & _).
  destruct Hw as [[_ Hw] Hp]. split.
  - split; [split; [done|]|intros v k Hv; by eapply Hper, Hp]. intros v. destruct (Hw v) as (_ & _ & z & _ & _ & Hz).
    assert (Hset : is_Some (Admin.settings (Admin.rdb (Admin.handler index e g s).2) v)).
    { destruct (decide (v = u)) as [->|Hne]; [eexists; by apply Hu|rewrite Hother by done; by eexists]. }
    destruct Hset as [[Bl M] [HB HM]%Admin.settings_some]. exists Bl, M, z. split; [exact HB|]. split; [exact HM|].
    rewrite Hk; [done|]. by destruct ch.
  - split; [done|]. split.
    + unfold System.events. by rewrite Hpub, drop_app_length.
    + unfold Isolation.payload_user. destruct (System.requested_user _ _ _ _ Hreq) as [Hne Hv]. unfold event_of. cbn [fst]. by rewrite System.clear_event.
Qed.

(** A request. *)
Lemma serve_effect s0 σ s (rt : string * string * bool * Admin.endpoint) g : AdminAPI.holds s0 σ s → server_ok (Admin.rdb s) →
  request_effect (AdminAPI.change_of s0 (rt, g)) (Admin.rdb s) (Admin.rdb (Admin.serve index rt g s).2).
Proof.
  intros Hh Hw. pose proof Hh as (Hkey & _). destruct rt as [[[meth path] auth] e].
  pose proof (handler_effect s0 σ s e g Hh Hw) as He. cbn [AdminAPI.change_of]. unfold AdminAPI.passes, Admin.serve.
  rewrite <- (AdminAPI.authMiddleware_key g s s0 Hkey).
  destruct auth; [destruct (Admin.authMiddleware g s); [by apply no_effect|]|]; exact He.
Qed.

(** The change of a request is not one of a watched user. *)
Definition untouched (s0 : Admin.t R Ka) a : Prop :=
  ∀ i u hz, u ∈ (change_in s0 a).*1 → ¬ watch i u hz.

(** A lookup that has read too long ago is over. *)
Definition on_time a cl : Prop :=
  match a with
  | Advance i k now => ∀ th t hz, thread_at cl i k = Some th → since (Threads.th_stage th) = Some t →
      watch i (Threads.th_user th) hz → outdated hz t → (now + lifetime < hz)%Z
  | _ => True
  end.

Lemma cluster_ok_mono now now' b b' s0 σ cl : (now ≤ now')%Z → (b' ≤ b)%Z → cluster_ok now b s0 σ cl → cluster_ok now' b' s0 σ cl.
Proof.
  intros Hn Hb (Hh & Hw & Hnodes). split; [done|]. split; [done|]. intros i nd Hi%Hnodes.
  by eapply node_ok_server; [split|exact Hn|exact Hb|].
Qed.

Lemma request_ok now b s0 σ cl rt g : cluster_ok now (b + 1) s0 σ cl → untouched s0 (Request rt g) →
  ∃ cl', step index UpstreamAddr (Request rt g) cl = Ret cl' ∧
    cluster_ok now b s0 (AdminAPI.advance s0 (rt, g) σ) cl' ∧ moved s0 (Request rt g) cl cl'.
Proof.
  intros (Hh & Hw & Hn) Hun. cbn [step]. pose proof (AdminAPI.serve_simulates index s0 σ (cl_service cl) rt g Hh) as Hs.
  pose proof (serve_effect s0 σ (cl_service cl) rt g Hh Hw) as Hc. unfold untouched, change_in in Hun.
  destruct (Admin.serve index rt g (cl_service cl)) as [resp s']. cbn [snd] in Hc. destruct Hs as (Hh' & _ & _), Hc as [Hw' Hc].
  eexists. split; [done|]. unfold moved, inboxes, cluster_ok, change_in. cbn [cl_nodes cl_service]. change (server (mkCluster s' _)) with (Admin.rdb s').
  change (Admin.rdb (cl_service cl)) with (server cl) in Hc.
  destruct (AdminAPI.change_of s0 (rt, g)) as [[u ch]|] eqn:Hch; cbn [option_list fmap list_fmap] in *.
  - destruct Hc as (Hother & Hev & _). unfold broadcast. rewrite Hev. split; [|by rewrite <- !list_fmap_compose].
    split; [done|]. split; [done|]. intros i nd' Hi. apply list_lookup_fmap_Some_1 in Hi as (nd & -> & Hi).
    destruct (Hn i nd Hi) as (Hst & (c & Hc & He & Hf & Hbd & Hco) & Hth). split; [|split; [|done]].
    + cbn [nd_process]. eapply connect_steady; [|apply Hw']. eapply Isolation.steady_mono; [|exact Hst]. lia.
    + exists c. do 4 (split; [done|]). intros v hz Bl M Hv Hwatch Hset.
      destruct (decide (v = u)) as [->|Hne]; [destruct (Hun i u hz); [by left|done]|].
      cbn [nd_threads]. apply (Hco v hz Bl M Hv Hwatch). by rewrite <- Hother.
  - rewrite broadcast_same by apply Hc. split.
    + split; [done|]. split; [done|]. intros i nd Hi%Hn. eapply node_ok_server; [exact Hc|done| |exact Hi]. lia.
    + rewrite <- (list_fmap_id (nd_inbox <$> cl_nodes cl)) at 1. apply list_fmap_ext. intros j x _. by rewrite app_nil_r.
Qed.

Lemma elapse_ok now b s0 σ cl d : cluster_ok now (b + 1) s0 σ cl → (0 ≤ d)%Z →
  ∃ cl', step index UpstreamAddr (Wait d) cl = Ret cl' ∧ cluster_ok now b s0 σ cl' ∧ moved s0 (Wait d) cl cl'.
Proof.
  intros (Hh & Hw & Hn) Hd. pose proof (elapse_server d _ Hd Hw) as Hsrv. eexists. split; [done|]. split; [|by apply moved_quiet].
  split; [by apply holds_server|]. split; [apply Hsrv|]. intros i nd Hi%Hn.
  eapply node_ok_server; [exact Hsrv|done| |exact Hi]. lia.
Qed.

(** The settings after an action. *)
Definition after (s0 : Admin.t R Ka) a (σ : settings_of) : settings_of :=
  match a with Request rt g => AdminAPI.advance s0 (rt, g) σ | _ => σ end.

Lemma step_ok now b s0 σ cl a : cluster_ok now (b + 1) s0 σ cl → (0 ≤ b)%Z → proper a = true → untouched s0 a → on_time a cl →
  (now ≤ clock now a)%Z →
  ∃ cl', step index UpstreamAddr a cl = Ret cl' ∧ cluster_ok (clock now a) b s0 (after s0 a σ) cl' ∧ moved s0 a cl cl'.
Proof.
  intros Hok Hb Hp Hun Hon Hnow.
  assert (Hskip : step index UpstreamAddr a cl = Ret cl → change_in s0 a = [] → after s0 a σ = σ →
    match a with Deliver i j _ => alter (delete j) i (inboxes cl) | _ => inboxes cl end = inboxes cl →
    ∃ cl', step index UpstreamAddr a cl = Ret cl' ∧ cluster_ok (clock now a) b s0 (after s0 a σ) cl' ∧ moved s0 a cl cl').
  { intros E Hc Hσ Hin. exists cl. split; [done|]. rewrite Hσ. split; [|apply moved_quiet; by rewrite ?Hin].
    eapply cluster_ok_mono; [exact Hnow| |exact Hok]. lia. }
  destruct a as [rt g|i start ms u w msg|i k t|i e|i j at_|d]; [by apply request_ok| | | | |by apply elapse_ok, Z.leb_le];
    pose proof (list_lookup_fmap nd_inbox (cl_nodes cl) i) as Hin; fold (inboxes cl) in Hin;
    (destruct (cl_nodes cl !! i) as [nd|] eqn:Hi; cbn [fmap option_fmap option_map] in Hin;
      [|apply Hskip; [by cbn [step]; rewrite Hi|done|done|by rewrite ?alter_none]]);
    pose proof Hok as (_ & Hw & Hn); destruct (Hn i nd Hi) as (Hst & Hco & Hth);
    set (p := connect_to (server cl) (nd_process nd)) in *; change (cached_ok now i (server cl) p (nd_threads nd)) in Hco;
    assert (Hst0 : Isolation.steady b p) by (eapply Isolation.steady_mono; [|exact Hst]; lia);
    assert (Hsame : ∀ p', redis p' = redis p → same_server (server cl) (redis p')) by (intros p' ->; by split).
  - cbn [step]. rewrite Hi. fold p. pose proof (begin_ok now b i start ms u w msg p (nd_threads nd) Hst (proj2 Hw) Hb Hp Hco Hth) as Hbg.
    destruct (Threads.begin start ms u w msg p) as [th p'] eqn:Hth'. destruct Hbg as (H1s & Hsrv & H1c & H1t).
    destruct (worked_ok now now b s0 σ cl i p' (nd_threads nd ++ [th]) (nd_inbox nd) Hok Hb (Z.le_refl _) H1s Hsrv H1c H1t) as [H1w H1i].
    eexists. split; [done|]. split; [exact H1w|]. apply moved_quiet; [done|]. by rewrite H1i, list_insert_id.
  - destruct (thread_at cl i k) as [th|] eqn:Hk; [|apply Hskip; [by cbn [step]; rewrite Hi, Hk|done..]].
    cbn [step clock after] in *. rewrite Hi, Hk. fold p. unfold thread_at in Hk. rewrite Hi in Hk. cbn [mbind option_bind] in Hk.
    destruct (advance_ok now t b i (server cl) p (nd_threads nd) k th eq_refl Hst0 Hw Hnow Hk Hco Hth) as (th' & p' & Ha & H1s & Hr & H1c & H1t).
    { intros hz t' E1 E2 E3. apply (Hon th t' hz); try done. unfold thread_at. by rewrite Hi. }
    rewrite Ha. cbn [outcome_bind fst snd].
    destruct (worked_ok now t b s0 σ cl i p' (<[k := th']> (nd_threads nd)) (nd_inbox nd) Hok Hb Hnow H1s (Hsame p' Hr) H1c H1t) as [H1w H1i].
    eexists. split; [done|]. split; [exact H1w|]. apply moved_quiet; [done|]. by rewrite H1i, list_insert_id.
  - cbn [step]. rewrite Hi. fold p. destruct (log_ok now b i (server cl) e p (nd_threads nd) Hst0 Hco) as (H1s & Hr & H1c).
    destruct (worked_ok now now b s0 σ cl i _ (nd_threads nd) (nd_inbox nd) Hok Hb (Z.le_refl _) H1s (Hsame _ Hr) H1c Hth) as [H1w H1i].
    eexists. split; [done|]. split; [exact H1w|]. apply moved_quiet; [done|]. by rewrite H1i, list_insert_id.
  - destruct (nd_inbox nd !! j) as [payload|] eqn:Hj.
    2: { apply Hskip; [by cbn [step]; rewrite Hi, Hj|done..|]. by rewrite (alter_some _ _ _ _ Hin), delete_none, list_insert_id. }
    cbn [step clock after] in *. rewrite Hi, Hj. fold p. cbn zeta. rewrite Isolation.handleMessage_user. cbn [outcome_bind].
    destruct (told_ok now at_ b i (server cl) payload p (nd_threads nd) eq_refl Hst0 Hnow Hco) as (H1s & Hr & H1c).
    apply (threads_mono _ at_) in Hth; [|done].
    destruct (worked_ok now at_ b s0 σ cl i _ (nd_threads nd) (delete j (nd_inbox nd)) Hok Hb Hnow H1s (Hsame _ Hr) H1c Hth) as [H1w H1i].
    exists (worked i (Isolation.told at_ payload p) (nd_threads nd) (delete j (nd_inbox nd)) cl).
    split; [done|]. split; [exact H1w|]. apply moved_quiet; [done|]. by rewrite H1i, (alter_some _ _ _ _ Hin).
Qed.

Fixpoint all_on_time acts cl : Prop :=
  match acts with
  | [] => True
  | a :: acts => on_time a cl ∧ ∀ cl', step index UpstreamAddr a cl = Ret cl' → all_on_time acts cl'
  end.

Lemma run_ok acts now b s0 σ cl : cluster_ok now (b + Z.of_nat (List.length acts)) s0 σ cl → (0 ≤ b)%Z →
  Forall (λ a, proper a = true) acts → Forall (untouched s0) acts → all_on_time acts cl → in_order now acts = true →
  ∃ cl', run index UpstreamAddr acts cl = Ret cl' ∧
    cluster_ok (end_clock now acts) b s0 (foldl (λ σ a, after s0 a σ) σ acts) cl'.
Proof.
  intros Hok Hb Hp. revert now σ cl Hok. induction Hp as [|a acts Ha _ IH]; intros now σ cl Hok Hun Hon Hord.
  { exists cl. split; [done|]. cbn. by rewrite Z.add_0_r in Hok. }
  cbn [in_order] in Hord. apply andb_true_iff in Hord as [Hle%Z.leb_le Hord]. apply Forall_cons in Hun as [Hua Hun]. destruct Hon as [Hoa Hon].
  replace (b + Z.of_nat (List.length (a :: acts)))%Z with (b + Z.of_nat (List.length acts) + 1)%Z in Hok by (cbn [List.length]; lia).
  destruct (step_ok now _ s0 σ cl a Hok ltac:(lia) Ha Hua Hoa Hle) as (cl1 & E1 & Hok1 & _).
  destruct (IH _ _ _ Hok1 Hun (Hon cl1 E1) Hord) as (cl2 & E2 & Hok2). exists cl2. cbn [run]. by rewrite E1.
Qed.

(** What a goroutine decides at a watched resolver. *)
Lemma advance_decides now b s0 σ cl i k t cl' u hz Bl M : cluster_ok now b s0 σ cl → Checker.good_user u = true → watch i u hz →
  Admin.settings (server cl) u = Some (Bl, M) → (now ≤ t)%Z → (hz ≤ t)%Z → on_time (Advance i k t) cl →
  step index UpstreamAddr (Advance i k t) cl = Ret cl' → decides u Bl M i k cl'.
Proof.
  intros (_ & Hw & Hn) Hu Hwatch Hset Hnow Hle Hon Hst th' Hk' Hu'. cbn [step on_time] in *.
  destruct (cl_nodes cl !! i) as [nd|] eqn:Hi.
  2: { injection Hst as <-. unfold thread_at in Hk'. by rewrite Hi in Hk'. }
  destruct (thread_at cl i k) as [th|] eqn:Hk; [|injection Hst as <-; congruence].
  destruct (Hn i nd Hi) as ([_ (c0 & Hc0 & Hty & _) _ _] & (c & Hc & He & Hf & _ & Hco) & Hth).
  cbn [connect_to rules] in Hc0. rewrite Hc in Hc0. injection Hc0 as <-.
  assert (Hkn : nd_threads nd !! k = Some th) by (unfold thread_at in Hk; by rewrite Hi in Hk).
  destruct (m_Question (Threads.th_msg th)) as [|q rest] eqn:Hq.
  { apply outcome_bind_ret in Hst as ([th1 p1] & Ha & [= <-]). unfold Threads.advance in Ha. rewrite Hq in Ha. injection Ha as <- <-.
    unfold thread_at, worked, broadcast in Hk'. cbn [cl_nodes fst snd] in Hk'. rewrite list_lookup_fmap, list_lookup_insert_eq in Hk' by by eapply lookup_lt_Some.
    cbn in Hk'. rewrite list_insert_id in Hk' by done. rewrite Hkn in Hk'. injection Hk' as <-. unfold agrees. by rewrite Hq. }
  pose proof (proj1 (Forall_lookup _ _) Hth k th Hkn) as [Hgu _].
  destruct (settings_exist (server cl) (Threads.th_user th) Hw) as (Bl' & M' & Hset'). pose proof Hset' as [HB HM]%Admin.settings_some.
  destruct (Threads.advance_up UpstreamAddr t th (connect_to (server cl) (nd_process nd)) q rest c Bl' M') as (th1 & p1 & Ha & Hu1 & Hm1 & Hs1 & _);
    [done..|apply Hw|done|done|]. rewrite Ha in Hst. cbn [outcome_bind fst snd] in Hst. injection Hst as <-.
  unfold thread_at, worked, broadcast in Hk'. cbn [cl_nodes] in Hk'. rewrite list_lookup_fmap, list_lookup_insert_eq in Hk' by by eapply lookup_lt_Some.
  cbn in Hk'. rewrite list_lookup_insert_eq in Hk' by by eapply lookup_lt_Some. injection Hk' as <-.
  rewrite Hu1 in Hu'. rewrite Hu' in *. rewrite Hset in Hset'. injection Hset' as <- <-.
  destruct (Hco u hz Bl M Hu Hwatch Hset) as [[Hcc Hcr] Hall]. pose proof (proj1 (Forall_lookup _ _) Hall k th Hkn Hu') as Hh.
  unfold agrees. rewrite Hm1, Hq, Hs1. set (d := Checker.normalize (q_Name q)) in *. rewrite Hf. clear Hs1 Ha HB HM.
  assert (Hright : since (Threads.th_stage th) ≠ None → right Bl M th).
  { destruct Hh as [?|(t' & Ht' & Ho)]; [done|]. pose proof (Hon th t' hz eq_refl Ht' ltac:(by rewrite Hu') Ho). unfold lifetime in *. lia. }
  unfold right in Hright. rewrite Hq in Hright. fold d in Hright.
  assert (Hdec : ∀ x, x = Isolation.verdict true Bl Checker.default_fallback (Checker.normalize d) →
    match Threads.decided x with
    | Threads.Responding Threads.Block => Checker.blocked_by Bl Checker.default_fallback (Checker.normalize d)
    | Threads.Redirecting => ¬ Checker.blocked_by Bl Checker.default_fallback (Checker.normalize d)
    | _ => True
    end).
  { intros x ->. pose proof (verdict_spec Bl Checker.default_fallback (Checker.normalize d)) as Hv.
    destruct (Isolation.verdict _ _ _ _); cbn; [by apply Hv|]. intros Hbl%Hv. done. }
  pose proof (target_spec M d) as [Hto Hno].
  destruct (Threads.th_stage th) as [| |x t'| |[|pat ps] t'|ip t'|r|s|s|]; cbn [Threads.next].
  - destruct (cache_Get _ _ _) as [[x|]|] eqn:Hg; [|done|done]. apply Hcc in Hg; [|done]. injection Hg as ->.
    specialize (Hdec _ eq_refl). by destruct (Isolation.verdict _ _ _ _).
  - done.
  - specialize (Hdec x (Hright ltac:(done))). by destruct x.
  - destruct (cache_Get _ _ _) as [x|] eqn:Hg; [|done]. apply Hcr in Hg as ->; [|done].
    destruct (decide (target M d = EmptyString)) as [E|E]; [right; auto|left; auto].
  - done.
  - destruct (M !! pat) as [ip|]; [|done]. by destruct (String.eqb ip EmptyString).
  - rewrite (Hright ltac:(done)). destruct (String.eqb_spec (target M d) EmptyString) as [E|E]; [auto|left; auto].
  - done.
  - done.
  - done.
  - done.
Qed.
End watched.

(** *** From the start *)

Abbreviation nobody := (λ (_ : nat) (_ : string) (_ : Z), False).

(** Users can be watched from any moment at which their answers are right. *)
Lemma watch_from (watch : nat → string → Z → Prop) outdated outdated0 now b s0 σ cl : cluster_ok nobody outdated0 now b s0 σ cl →
  (∀ i nd u hz Bl M c, cl_nodes cl !! i = Some nd → watch i u hz → Rule.global (rules (nd_process nd)) = Some c →
    bounded now (Checker.cache c) → threads_ok now (nd_threads nd) → Admin.settings (server cl) u = Some (Bl, M) →
    coherent hz u Bl M Checker.default_fallback (Checker.cache c) ∧
    Forall (λ th, Threads.th_user th = u → harmless outdated hz Bl M th) (nd_threads nd)) →
  cluster_ok watch outdated now b s0 σ cl.
Proof.
  intros (Hh & Hw & Hn) Hall. split; [done|]. split; [done|]. intros i nd Hi.
  destruct (Hn i nd Hi) as (Hst & (c & Hc & He & Hf & Hb & _) & Hth). split; [done|]. split; [|done].
  exists c. do 4 (split; [done|]). intros u hz Bl M _ Hwatch Hset. by eapply Hall.
Qed.

Lemma idle_harmless outdated hz Bl M u (nd : node) : idle u nd →
  Forall (λ th, Threads.th_user th = u → harmless outdated hz Bl M th) (nd_threads nd).
Proof.
  intros Hidle. eapply Forall_impl; [exact Hidle|]. intros th Hi Hu. left. specialize (Hi Hu). unfold right. destruct (m_Question _); [done|].
  by destruct (Threads.th_stage th).
Qed.

Lemma main_checker (E : Config.environment) driver r (n : N) :
  Rule.global (rules (Programs.EdgeDNS.main (B := B) E driver (initial (C := C) (K := K) r n))) = Some (Checker.NewChecker r).
Proof.
  unfold Programs.EdgeDNS.main. set (p0 := match Config.rateLimit E with Some _ => _ | None => _ end).
  assert (Hp0 : redis p0 = r ∧ rules p0 = Rule.uninitialized) by (unfold p0; by destruct (Config.rateLimit E) as [[]|]).
  destruct Hp0 as [Hr0 Hru0]. clearbody p0. by rewrite Hr0, Hru0.
Qed.

(** What the theorems ask of the start: the server answers, holds the settings [σ], and no
    query has been counted by the limiter. *)
Definition starts (s : Admin.t R Ka) (σ : settings_of) : Prop :=
  AdminAPI.holds s σ s ∧ server_ok (Admin.rdb s) ∧ ∀ v, as_zset (redis_get (Admin.rdb s) (RateLimit.rl_key v)) = Some ∅.

Lemma started_ok watch outdated (E : Config.environment) driver σ (s : Admin.t R Ka) (nets : list N) now b : starts s σ →
  (0 ≤ b < 2 ^ 64)%Z → cluster_ok watch outdated now b s σ (started (B := B) E driver s nets).
Proof.
  intros (Hh & Hw & Hz) Hb. split; [done|]. split; [done|]. intros i nd Hi. apply list_lookup_fmap_Some_1 in Hi as (n & -> & _). split; [|split].
  - destruct (Isolation.main_steady (B := B) (C := C) E driver (Admin.rdb s) n b (proj1 Hw) Hb Hz) as [[? ? ? ?] _]. split; [apply Hw|done..].
  - exists (Checker.NewChecker (Admin.rdb s)). cbn [nd_process]. rewrite main_checker. split; [done|].
    unfold Checker.NewChecker. rewrite (Ping_up (Admin.rdb s)) by apply (proj1 Hw). cbn [Checker.enabled Checker.fallback Checker.cache].
    do 2 (split; [done|]). split; [split; [by apply expiration_New|intros; apply Get_New]|]. intros u hz Bl M _ _ _.
    split; [|by constructor]. split; intros t d x _; by rewrite Get_New.
  - by constructor.
Qed.

Lemma changes_app (s0 : Admin.t R Ka) acts1 acts2 :
  AdminAPI.changes_of s0 (requests (G := G) (W := W) (acts1 ++ acts2)) =
    AdminAPI.changes_of s0 (requests acts1) ++ AdminAPI.changes_of s0 (requests acts2).
Proof. unfold requests, AdminAPI.changes_of. by rewrite !omap_app. Qed.

Lemma change_in_changes (s0 : Admin.t R Ka) a : change_in s0 a = AdminAPI.changes_of s0 (requests [a]).
Proof. by destruct a. Qed.

Lemma after_changes (s0 : Admin.t R Ka) acts σ :
  foldl (λ σ a, after s0 a σ) σ acts = foldl (λ σ uc, AdminAPI.effect uc σ) σ (AdminAPI.changes_of s0 (requests acts)).
Proof.
  revert σ. induction acts as [|a acts IH]; intros σ; [done|]. cbn [foldl]. rewrite IH. unfold after, requests, AdminAPI.changes_of.
  destruct a as [rt g| | | | |]; cbn [omap list_omap]; [|done..]. unfold AdminAPI.advance. by destruct (AdminAPI.change_of s0 (rt, g)).
Qed.

(** The changes of others leave the settings of a user alone. *)
Lemma unchanged u (ucs : list (string * Admin.change)) (σ : settings_of) : Forall (λ uc, uc.1 ≠ u) ucs →
  foldl (λ σ uc, AdminAPI.effect uc σ) σ ucs u = σ u.
Proof.
  intros Hall. revert σ. induction Hall as [|uc ucs Hne _ IH]; intros σ; [done|]. cbn [foldl]. rewrite IH.
  unfold AdminAPI.effect. by rewrite decide_False by congruence.
Qed.

Lemma untouched_changes (watch : nat → string → Z → Prop) u (s0 : Admin.t R Ka) acts : (∀ i v hz, watch i v hz → v = u) →
  Forall (λ uc : string * Admin.change, uc.1 ≠ u) (AdminAPI.changes_of s0 (requests acts)) → Forall (untouched watch s0) acts.
Proof.
  intros Hwatch. induction acts as [|a acts IH]; [done|]. change (a :: acts) with ([a] ++ acts). rewrite changes_app.
  intros [Ha Hall]%Forall_app. constructor; [|by apply IH]. intros i v hz Hv Hw. apply Hwatch in Hw as ->.
  rewrite change_in_changes in Hv. apply list_elem_of_fmap in Hv as (uc & -> & Huc). by apply (proj1 (Forall_forall _ _) Ha uc Huc).
Qed.

Lemma nobody_touched (s0 : Admin.t R Ka) acts : Forall (untouched nobody s0) acts.
Proof. apply Forall_true. by intros a i u hz _ []. Qed.

Lemma never_late (watch : nat → string → Z → Prop) a cl : on_time watch (λ _ _, False) a cl.
Proof. destruct a; try done. by intros th t hz _ _ _ []. Qed.

Lemma never_late_run (watch : nat → string → Z → Prop) acts cl : all_on_time watch (λ _ _, False) acts cl.
Proof. revert cl. induction acts as [|a acts IH]; intros cl; [done|]. split; [apply never_late|auto]. Qed.

Lemma in_order_app now (acts acts' : list action) : in_order now (acts ++ acts') = in_order now acts && in_order (end_clock now acts) acts'.
Proof. revert now. induction acts as [|a acts IH]; intros now; [done|]. cbn. by rewrite IH, andb_assoc. Qed.

Lemma in_order_end now (acts : list action) : in_order now acts = true → (now ≤ end_clock now acts)%Z.
Proof.
  revert now. induction acts as [|a acts IH]; intros now; [done|]. cbn [in_order]. intros [Hle%Z.leb_le Hr%IH]%andb_true_iff.
  unfold end_clock in *. cbn [foldl]. lia.
Qed.

Lemma run_app_cluster acts1 acts2 cl :
  run index UpstreamAddr (acts1 ++ acts2) cl = (cl1 <-@ run index UpstreamAddr acts1 cl ;; run index UpstreamAddr acts2 cl1).
Proof.
  revert cl. induction acts1 as [|a acts1 IH]; intros cl; [done|]. cbn [app run].
  destruct (step index UpstreamAddr a cl); cbn [outcome_bind]; [apply IH|done].
Qed.

(** *** The events *)

Lemma moved_node s0 a cl cl' i (nd' : node) : moved s0 a cl cl' → cl_nodes cl' !! i = Some nd' →
  ∃ nd : node, cl_nodes cl !! i = Some nd ∧
    nd_inbox nd' ++ (match a with
                     | Deliver i' j _ => if decide (i' = i) then option_list (nd_inbox nd !! j) else []
                     | _ => []
                     end) ≡ₚ nd_inbox nd ++ (event_of <$> change_in s0 a).
Proof.
  unfold moved. intros E Hi. apply (f_equal (.!! i)) in E. unfold inboxes in E. rewrite list_lookup_fmap, Hi in E.
  assert (Hplain : Some (nd_inbox nd') = (λ l, l ++ (event_of <$> change_in s0 a)) <$> (nd_inbox <$> cl_nodes cl !! i) →
    ∃ nd : node, cl_nodes cl !! i = Some nd ∧ nd_inbox nd' ++ [] ≡ₚ nd_inbox nd ++ (event_of <$> change_in s0 a)).
  { destruct (cl_nodes cl !! i) as [nd|]; [|done]. intros [= ->]. exists nd. by rewrite app_nil_r. }
  destruct a as [rt g|i' start ms u w msg|i' k t|i' e|i' j at_|d]; try (apply Hplain; by rewrite list_lookup_fmap, list_lookup_fmap in E).
  rewrite list_lookup_fmap in E. case_decide as Hd.
  - subst i'. rewrite list_lookup_alter_eq, list_lookup_fmap in E. destruct (cl_nodes cl !! i) as [nd|]; [|done]. cbn in E. injection E as ->.
    exists nd. split; [done|]. cbn. rewrite !app_nil_r. destruct (nd_inbox nd !! j) as [pl|] eqn:Hj; cbn.
    + rewrite (delete_Permutation (nd_inbox nd) j pl Hj) at 2. by rewrite Permutation_app_comm.
    + by rewrite delete_none, app_nil_r.
  - rewrite list_lookup_alter_ne, list_lookup_fmap in E by done. by apply Hplain.
Qed.

Lemma moved_length s0 a cl cl' : moved s0 a cl cl' → List.length (cl_nodes cl') = List.length (cl_nodes cl).
Proof.
  intros E. apply (f_equal (@List.length (list string))) in E. unfold inboxes in E. rewrite !length_fmap in E.
  destruct a; rewrite ?length_alter, ?length_fmap in E; done.
Qed.

Lemma run_announces acts now b s0 σ cl : cluster_ok nobody (λ _ _, False) now (b + Z.of_nat (List.length acts)) s0 σ cl → (0 ≤ b)%Z →
  Forall (λ a, proper a = true) acts → in_order now acts = true →
  ∃ cl', run index UpstreamAddr acts cl = Ret cl' ∧ List.length (cl_nodes cl') = List.length (cl_nodes cl) ∧
    ∀ i (nd' : node), cl_nodes cl' !! i = Some nd' → ∃ nd : node, cl_nodes cl !! i = Some nd ∧
      nd_inbox nd' ++ handled index UpstreamAddr i acts cl ≡ₚ nd_inbox nd ++ (event_of <$> AdminAPI.changes_of s0 (requests acts)).
Proof.
  intros Hok Hb Hp. revert now σ cl Hok. induction Hp as [|a acts Ha _ IH]; intros now σ cl Hok Hord.
  { exists cl. split; [done|]. split; [done|]. intros i nd Hi. exists nd. by rewrite !app_nil_r. }
  cbn [in_order] in Hord. apply andb_true_iff in Hord as [Hle%Z.leb_le Hord].
  replace (b + Z.of_nat (List.length (a :: acts)))%Z with (b + Z.of_nat (List.length acts) + 1)%Z in Hok by (cbn [List.length]; lia).
  destruct (step_ok nobody (λ _ _, False) now _ s0 σ cl a Hok ltac:(lia) Ha (Forall_inv (nobody_touched s0 [a])) (never_late _ a cl) Hle)
    as (cl1 & E1 & Hok1 & Hm1).
  destruct (IH _ _ _ Hok1 Hord) as (cl2 & E2 & Hl & Hall). exists cl2. cbn [run]. rewrite E1. split; [done|].
  split; [by rewrite Hl; eapply moved_length|]. intros i nd2 H2i. destruct (Hall i nd2 H2i) as (nd1 & H1i & Hperm).
  destruct (moved_node s0 a cl cl1 i nd1 Hm1 H1i) as (nd & Hi & Hperm1). exists nd. split; [done|].
  cbn [handled]. rewrite E1, Hi. cbn [mbind option_bind].
  change (a :: acts) with ([a] ++ acts). rewrite changes_app, <- change_in_changes, fmap_app, (app_assoc (nd_inbox nd)), <- Hperm1.
  rewrite (Permutation_app_comm _ (handled _ _ _ _ _)), app_assoc, Hperm, <- !app_assoc. apply Permutation_app_head, Permutation_app_comm.
Qed.

(** C11: Every change is announced to every resolver, once: in any run of an admin API and
    resolvers on one Redis server as [starts] has it, that answers and that only they write
    to, of fewer than 2^64 steps on a clock that does not go back, with queries of well-formed
    users only, the events a resolver has handled and those in its inbox are one
    eviction of the user for each change of the admitted requests. *)
Theorem changes_announced (E : Config.environment) driver σ (s : Admin.t R Ka) (nets : list N) acts now i : starts s σ →
  Forall (λ a, proper a = true) acts → in_order now acts = true → (Z.of_nat (List.length acts) < 2 ^ 64)%Z → i < List.length nets →
  ∃ cl nd, run index UpstreamAddr acts (started (B := B) E driver s nets) = Ret cl ∧ cl_nodes cl !! i = Some nd ∧
    nd_inbox nd ++ handled index UpstreamAddr i acts (started (B := B) E driver s nets) ≡ₚ
      (λ uc, Sync.Encode (Sync.mkEvent uc.1 Sync.ActionClearCache)) <$> AdminAPI.changes_of s (requests acts).
Proof.
  intros Hs Hp Hord Hlen Hi.
  destruct (run_announces acts now 0 s σ _ (started_ok nobody (λ _ _, False) E driver σ s nets now (0 + Z.of_nat (List.length acts)) Hs ltac:(lia)) (Z.le_refl 0) Hp Hord)
    as (cl & Hrun & Hl & Hall). unfold started in Hl. cbn [cl_nodes] in Hl. rewrite length_fmap in Hl.
  destruct (lookup_lt_is_Some_2 (cl_nodes cl) i ltac:(lia)) as [nd Hnd]. exists cl, nd. do 2 (split; [done|]).
  destruct (Hall i nd Hnd) as (nd0 & H0nd & Hperm). apply list_lookup_fmap_Some_1 in H0nd as (n & -> & _). exact Hperm.
Qed.

(** *** Decisions *)

Lemma all_on_time_app watch outdated acts1 acts2 cl cl1 : all_on_time watch outdated (acts1 ++ acts2) cl → run index UpstreamAddr acts1 cl = Ret cl1 →
  all_on_time watch outdated acts1 cl ∧ all_on_time watch outdated acts2 cl1.
Proof.
  revert cl. induction acts1 as [|a acts1 IH]; intros cl Hon; cbn [app run] in *.
  { intros [= <-]. done. }
  destruct Hon as [Ha Hon]. intros (cl2 & Hst & Hrun)%outcome_bind_ret. destruct (IH cl2 (Hon cl2 Hst) Hrun) as [Hon1 Hon2].
  split; [|done]. split; [done|]. intros cl3 Hst'. rewrite Hst in Hst'. by injection Hst' as <-.
Qed.

(** A goroutine of a watched user after a run. *)
Lemma run_decides watch outdated acts now b s0 σ cl i k t cl2 cl' u hz :
  cluster_ok watch outdated now (b + Z.of_nat (List.length acts)) s0 σ cl → (0 ≤ b)%Z →
  Forall (λ a, proper a = true) acts → Forall (untouched watch s0) acts → all_on_time watch outdated (acts ++ [Advance i k t]) cl →
  in_order now (acts ++ [Advance i k t]) = true → Checker.good_user u = true → watch i u hz → (hz ≤ t)%Z →
  run index UpstreamAddr acts cl = Ret cl2 → step index UpstreamAddr (Advance i k t) cl2 = Ret cl' →
  decides u (foldl (λ σ a, after s0 a σ) σ acts u).1 (foldl (λ σ a, after s0 a σ) σ acts u).2 i k cl'.
Proof.
  intros Hok Hb Hp Hun Hon Hord Hu Hw Hle Hrun Hst. rewrite in_order_app in Hord. apply andb_true_iff in Hord as [Ho1 Ho2].
  destruct (all_on_time_app _ _ _ _ _ _ Hon Hrun) as [Hon1 [Hon2 _]].
  destruct (run_ok watch outdated acts now b s0 σ cl Hok Hb Hp Hun Hon1 Ho1) as (cl2' & Hrun' & Hok2). rewrite Hrun in Hrun'. injection Hrun' as <-.
  cbn [in_order clock] in Ho2. rewrite andb_true_r in Ho2. apply Z.leb_le in Ho2.
  eapply advance_decides; [exact Hok2|done|exact Hw| |exact Ho2|exact Hle|exact Hon2|exact Hst].
  destruct Hok2 as ((_ & _ & Hset) & _). unfold server. rewrite Hset. by destruct (foldl _ _ acts u).
Qed.

Lemma deliver_told cl cl' i j at_ (nd : node) payload : cl_nodes cl !! i = Some nd → nd_inbox nd !! j = Some payload →
  step index UpstreamAddr (Deliver i j at_) cl = Ret cl' →
  ∃ inbox, cl_nodes cl' !! i = Some (mkNode (Isolation.told at_ payload (connect_to (server cl) (nd_process nd))) (nd_threads nd) inbox).
Proof.
  intros Hi Hj. cbn [step]. rewrite Hi, Hj. cbn zeta. rewrite Isolation.handleMessage_user. cbn [outcome_bind]. intros [= <-].
  unfold worked, broadcast. cbn [cl_nodes]. rewrite list_lookup_fmap, list_lookup_insert_eq by by eapply lookup_lt_Some.
  cbn. by eexists.
Qed.

(** The event of a user, handled while none of his lookups is in progress. *)
Lemma deliver_watches now b s0 σ cl cl' i j at_ (nd : node) payload u : cluster_ok nobody (λ _ _, False) now (b + 1) s0 σ cl → (0 ≤ b)%Z →
  (now ≤ at_)%Z → cl_nodes cl !! i = Some nd → nd_inbox nd !! j = Some payload → Isolation.payload_user payload = Some u → idle u nd →
  step index UpstreamAddr (Deliver i j at_) cl = Ret cl' →
  cluster_ok (λ i' u' hz, i' = i ∧ u' = u ∧ hz = at_) (λ _ _, False) at_ b s0 σ cl'.
Proof.
  intros Hok Hb Hle Hi Hj Hp Hidle Hst.
  destruct (step_ok nobody (λ _ _, False) now b s0 σ cl (Deliver i j at_) Hok Hb eq_refl (Forall_inv (nobody_touched s0 [Deliver i j at_]))
    (never_late _ (Deliver i j at_) cl) Hle) as (cl1 & E1 & Hok1 & _). rewrite Hst in E1. injection E1 as <-.
  destruct (deliver_told cl cl' i j at_ nd payload Hi Hj Hst) as [inbox Hi'].
  eapply watch_from; [exact Hok1|]. intros i0 nd0 u0 hz Bl M c0 Hi0 (-> & -> & ->) Hc0 _ _ _. rewrite Hi' in Hi0. injection Hi0 as <-.
  cbn [nd_process nd_threads] in *. split; [|by apply idle_harmless].
  destruct Hok as (_ & _ & Hn). destruct (Hn i nd Hi) as (_ & (c & Hc & _) & _).
  pose proof (Isolation.told_left at_ payload (connect_to (server cl) (nd_process nd)) c Hc) as Hlw.
  rewrite (Isolation.lw_checker _ _ _ _ Hlw c Hc) in Hc0. injection Hc0 as <-. by apply told_coherent.
Qed.

(** C3: The resolvers are coherent with the settings. In any run of an admin API and resolvers
    on one Redis server as [starts] has it, that answers and that only they write to, in which
    the goroutines of the queries of well-formed users, the requests, the deliveries of
    events, the steps of the log workers and the passage of time interleave access by access,
    on a clock that does not go back and for fewer than 2^64 - 1 steps: nothing panics, the
    settings are those of the admitted requests in their order, and once a resolver handles
    an event of a user while none of his lookups has read something that it has not stored,
    every decision of its goroutines for this user (blocked or not, redirected to where or
    not), from the cache or from Redis, is the one of the settings, until they are changed
    again.  Without an event, the same holds as long as the settings are those of the start. *)
Theorem resolvers_coherent (E : Config.environment) driver σ (s : Admin.t R Ka) (nets : list N) acts1 i j at_ acts2 k t now u : starts s σ →
  Forall (λ a, proper a = true) (acts1 ++ Deliver i j at_ :: acts2) →
  in_order now ((acts1 ++ Deliver i j at_ :: acts2) ++ [Advance i k t]) = true →
  (Z.of_nat (List.length (acts1 ++ Deliver i j at_ :: acts2)) < 2 ^ 64 - 1)%Z → Checker.good_user u = true →
  Forall (λ uc : string * Admin.change, uc.1 ≠ u) (AdminAPI.changes_of s (requests acts2)) →
  let '(Bl, M) := foldl (λ σ uc, AdminAPI.effect uc σ) σ (AdminAPI.changes_of s (requests acts1)) u in
  ∃ cl1 cl cl', run index UpstreamAddr acts1 (started (B := B) E driver s nets) = Ret cl1 ∧
    run index UpstreamAddr (Deliver i j at_ :: acts2) cl1 = Ret cl ∧ step index UpstreamAddr (Advance i k t) cl = Ret cl' ∧
    Admin.settings (server cl) u = Some (Bl, M) ∧
    ((∃ nd payload, cl_nodes cl1 !! i = Some nd ∧ nd_inbox nd !! j = Some payload ∧ Isolation.payload_user payload = Some u ∧ idle u nd) ∨
     Forall (λ uc : string * Admin.change, uc.1 ≠ u) (AdminAPI.changes_of s (requests acts1)) →
     decides u Bl M i k cl').
Proof.
  intros Hs Hp Hord Hlen Hu Hun. set (acts := acts1 ++ Deliver i j at_ :: acts2) in *. set (st := started (B := B) E driver s nets).
  pose proof Hp as [Hp1 [Hpd Hp2]%Forall_cons]%Forall_app.
  pose proof Hord as Hordall. unfold acts in Hord. rewrite <- app_assoc, in_order_app in Hord. apply andb_true_iff in Hord as [Ho1 Ho2].
  cbn [app in_order clock] in Ho2. apply andb_true_iff in Ho2 as [Hod%Z.leb_le Ho2]. pose proof Ho2 as Ho2a. rewrite in_order_app in Ho2. apply andb_true_iff in Ho2 as [Ho2 Hot].
  cbn [in_order clock] in Hot. rewrite andb_true_r in Hot. apply Z.leb_le in Hot.
  assert (Hn : Z.of_nat (List.length acts) = (Z.of_nat (List.length acts2) + 1 + Z.of_nat (List.length acts1))%Z)
    by (unfold acts; rewrite length_app; cbn [List.length]; lia).
  pose proof (started_ok nobody (λ _ _, False) E driver σ s nets now (1 + Z.of_nat (List.length acts2) + 1 + Z.of_nat (List.length acts1)) Hs ltac:(lia)) as Hok.
  destruct (run_ok nobody (λ _ _, False) acts1 now _ s σ st Hok ltac:(lia) Hp1 (nobody_touched _ _) (never_late_run _ _ _) Ho1) as (cl1 & Hr1 & Hok1).
  destruct (step_ok nobody (λ _ _, False) _ _ s _ cl1 (Deliver i j at_) Hok1 ltac:(lia) eq_refl (Forall_inv (nobody_touched s [Deliver i j at_]))
    (never_late _ (Deliver i j at_) cl1) Hod) as (cl2 & Hst & Hok2 & _).
  destruct (run_ok nobody (λ _ _, False) acts2 at_ 1 s _ cl2 Hok2 ltac:(lia) Hp2 (nobody_touched _ _) (never_late_run _ _ _) Ho2) as (cl & Hr2 & Hok3).
  destruct (step_ok nobody (λ _ _, False) _ 0 s _ cl (Advance i k t) Hok3 ltac:(lia) eq_refl (Forall_inv (nobody_touched s [Advance i k t]))
    (never_late _ (Advance i k t) cl) Hot) as (cl' & Hst' & _).
  pose proof Hok3 as ((_ & _ & Hset) & _). specialize (Hset u). rewrite (after_changes s acts2), unchanged in Hset by done.
  cbn [after] in Hset. rewrite (after_changes s acts1) in Hset.
  destruct (foldl _ _ (AdminAPI.changes_of s (requests acts1)) u) as [Bl M] eqn:Hfin.
  exists cl1, cl, cl'. split; [exact Hr1|]. split; [cbn [run]; by rewrite Hst|]. split; [exact Hst'|]. split; [exact Hset|].
  intros [(nd & payload & Hi & Hj & Hpl & Hidle)|Hsame].
  - pose proof (deliver_watches _ _ s _ cl1 cl2 i j at_ nd payload u Hok1 ltac:(lia) Hod Hi Hj Hpl Hidle Hst) as Hwok.
    pose proof (run_decides (λ i' u' hz, i' = i ∧ u' = u ∧ hz = at_) (λ _ _, False) acts2 at_ 1 s _ cl2 i k t cl cl' u at_ Hwok ltac:(lia) Hp2) as Hd.
    rewrite (after_changes s acts2), unchanged in Hd by done. cbn [after] in Hd. rewrite (after_changes s acts1), Hfin in Hd. cbn [fst snd] in Hd.
    apply Hd; try done; [|apply never_late_run|].
    + eapply (untouched_changes _ u); [|exact Hun]. by intros ? ? ? (_ & ? & _).
    + apply in_order_end in Ho2. lia.
  - pose proof (run_decides (λ i' u' hz, i' = i ∧ u' = u ∧ hz = now) (λ _ _, False) acts now 1 s σ st i k t cl cl' u now
      (started_ok _ _ E driver σ s nets now (1 + Z.of_nat (List.length acts)) Hs ltac:(lia)) ltac:(lia) Hp) as Hd.
    assert (Hall : Forall (λ uc : string * Admin.change, uc.1 ≠ u) (AdminAPI.changes_of s (requests acts))).
    { unfold acts. rewrite changes_app. apply Forall_app. by split. }
    rewrite (after_changes s acts), unchanged in Hd by done. rewrite unchanged in Hfin by done. rewrite Hfin in Hd. cbn [fst snd] in Hd.
    apply Hd; try done; [|apply never_late_run| |].
    + eapply (untouched_changes _ u); [|exact Hall]. by intros ? ? ? (_ & ? & _).
    + apply in_order_end in Ho1, Ho2. lia.
    + unfold acts. rewrite run_app_cluster, Hr1. cbn [outcome_bind run]. by rewrite Hst.
Qed.

(** *** Lost events, and lookups in progress *)

Lemma prompt_on_time D (watch : nat → string → Z → Prop) acts cl : prompt index UpstreamAddr D acts cl = true →
  all_on_time watch (λ hz t, t + D + lifetime < hz)%Z acts cl.
Proof.
  revert cl. induction acts as [|a acts IH]; intros cl; [done|]. cbn [prompt]. intros [Ha Hrest]%andb_true_iff. split.
  - destruct a as [| |i k now| | |]; try done. cbn [timely on_time] in *. intros th t hz Hk Ht _ Ho. rewrite Hk, Ht in Ha. apply Z.leb_le in Ha. lia.
  - intros cl' Hst. rewrite Hst in Hrest. by apply IH.
Qed.

(** C12: Lost events and slow lookups cost a minute and the time of a lookup. Take any such run in
    which no lookup takes longer than [D] from its first read to its store: whatever has
    happened in its first part, whichever lookups were in progress and whichever events are
    never handled by whichever resolver, when the settings of a user are not changed in the
    second part, every resolver decides for this user as they say from the lifetime of a
    cache entry and the length of a lookup after the first part on: all resolvers agree. *)
Theorem resolvers_catch_up (E : Config.environment) driver σ (s : Admin.t R Ka) (nets : list N) D acts1 acts2 now i k t u : starts s σ →
  Forall (λ a, proper a = true) (acts1 ++ acts2) → in_order now ((acts1 ++ acts2) ++ [Advance i k t]) = true → (0 ≤ D)%Z →
  prompt index UpstreamAddr D ((acts1 ++ acts2) ++ [Advance i k t]) (started (B := B) E driver s nets) = true →
  (Z.of_nat (List.length (acts1 ++ acts2)) < 2 ^ 64 - 1)%Z → Checker.good_user u = true →
  Forall (λ uc : string * Admin.change, uc.1 ≠ u) (AdminAPI.changes_of s (requests acts2)) →
  (end_clock now acts1 + D + lifetime < t)%Z →
  let '(Bl, M) := foldl (λ σ uc, AdminAPI.effect uc σ) σ (AdminAPI.changes_of s (requests acts1)) u in
  ∃ cl cl', run index UpstreamAddr (acts1 ++ acts2) (started (B := B) E driver s nets) = Ret cl ∧
    step index UpstreamAddr (Advance i k t) cl = Ret cl' ∧
    Admin.settings (server cl) u = Some (Bl, M) ∧ decides u Bl M i k cl'.
Proof.
  intros Hs [Hp1 Hp2]%Forall_app Hord HD Hpr Hlen Hu Hun Hlate. set (st := started (B := B) E driver s nets) in *.
  rewrite <- app_assoc, in_order_app in Hord. apply andb_true_iff in Hord as [Ho1 Ho2]. set (now1 := end_clock now acts1) in *.
  pose proof Ho2 as Ho2a. rewrite in_order_app in Ho2. apply andb_true_iff in Ho2 as [Ho2 Hot].
  cbn [in_order clock] in Hot. rewrite andb_true_r in Hot. apply Z.leb_le in Hot. rewrite length_app in Hlen.
  set (outdated := λ hz t0, (t0 + D + lifetime < hz)%Z). set (hz := (now1 + D + lifetime + 1)%Z).
  set (watch := λ (i' : nat) (u' : string) (h : Z), u' = u ∧ h = hz).
  pose proof (started_ok nobody outdated E driver σ s nets now (1 + Z.of_nat (List.length acts2) + Z.of_nat (List.length acts1)) Hs ltac:(lia)) as Hok.
  assert (Hon0 : ∀ a cl, on_time nobody outdated a cl) by (intros [] cl; try done; by intros th t0 h _ _ []).
  assert (Hon : ∀ acts cl, all_on_time nobody outdated acts cl) by (intros acts; induction acts as [|a acts IH]; intros cl; [done|split; auto]).
  destruct (run_ok nobody outdated acts1 now _ s σ st Hok ltac:(lia) Hp1 (nobody_touched _ _) (Hon _ _) Ho1) as (cl1 & Hr1 & Hok1).
  destruct (run_ok nobody outdated acts2 now1 1 s _ cl1 Hok1 ltac:(lia) Hp2 (nobody_touched _ _) (Hon _ _) Ho2) as (cl & Hr2 & Hok2).
  destruct (step_ok nobody outdated _ 0 s _ cl (Advance i k t) Hok2 ltac:(lia) eq_refl (Forall_inv (nobody_touched s [Advance i k t]))
    (Hon0 _ _) Hot) as (cl' & Hst' & _).
  pose proof Hok2 as ((_ & _ & Hset) & _). specialize (Hset u). rewrite (after_changes s acts2), unchanged, (after_changes s acts1) in Hset by done.
  destruct (foldl _ _ (AdminAPI.changes_of s (requests acts1)) u) as [Bl M] eqn:Hfin.
  exists cl, cl'. split; [by rewrite run_app_cluster, Hr1|]. split; [exact Hst'|]. split; [exact Hset|].
  assert (Hwok : cluster_ok watch outdated now1 (1 + Z.of_nat (List.length acts2)) s (foldl (λ σ a, after s a σ) σ acts1) cl1).
  { eapply watch_from; [exact Hok1|]. intros i0 nd u0 h Bl0 M0 c0 Hi (-> & ->) Hc Hb Hth _. split.
    - apply (coherent_mono (now1 + lifetime + 1)); [unfold hz; lia|]. by apply bounded_coherent.
    - eapply Forall_impl; [exact Hth|]. intros th [_ Hsince] _. destruct (since (Threads.th_stage th)) as [t0|] eqn:Et.
      + right. exists t0. split; [exact Et|]. specialize (Hsince t0 eq_refl). unfold outdated, hz. lia.
      + left. unfold right. destruct (m_Question _); [done|]. by destruct (Threads.th_stage th). }
  rewrite <- app_assoc in Hpr. apply (prompt_on_time D watch) in Hpr. destruct (all_on_time_app _ _ _ _ _ _ Hpr Hr1) as [_ Hon2].
  pose proof (run_decides watch outdated acts2 now1 1 s _ cl1 i k t cl cl' u hz Hwok ltac:(lia) Hp2) as Hd.
  rewrite (after_changes s acts2), unchanged, (after_changes s acts1), Hfin in Hd by done. cbn [fst snd] in Hd.
  apply Hd; try done; [|unfold hz; lia]. eapply (untouched_changes _ u); [|exact Hun]. by intros ? ? ? (? & _).
Qed.
End proofs.

(** ** A concrete instance of the hypotheses *)

#[local] Existing Instance ascii_tables.
#[local] Existing Instance Admin.rule_binding.
#[local] Existing Instance Admin.redirect_binding.
#[local] Existing Instance Admin.rule_binding_laws.
#[local] Existing Instance Admin.select_summaries.
#[local] Existing Instance Admin.select_logs.
#[local] Existing Instance System.redirect_binding_laws.

Abbreviation sample_action := (action (G := ListRequest.t) (W := SimpleWriter.t)).
Abbreviation sample_cluster := (cluster (C := MapCache.t Checker.cval) (R := MapRedis.t) (N := ScriptNet.t) (W := SimpleWriter.t)
  (K := ListTable.t Analytics.row) (Ka := Admin.select_db)).

(** A query of alice for www.games.net at the resolver [i], and [n] steps of its goroutine. *)
Definition asks (i k n : nat) (sec : Z) : list sample_action :=
  Begin i (sec * 1000000000) (sec * 1000) "alice" sample_w (sample_msg "www.games.net." 1) ::
  replicate n (Advance i k (sec * 1000000000)).

(** Both resolvers cache that alice may ask for www.games.net, then a rule is added. *)
Definition sample_before : list sample_action :=
  asks 0 0 17 1 ++ asks 1 0 17 1 ++
  [Request ("POST", "/api/v1/rules", true, Admin.AddRule) (Admin.request EmptyString ["alice"; "*.games.net"; "block"])].

(** The first resolver handles its event, and alice asks again: the next step decides. *)
Definition sample_later : list sample_action := [Wait 700; LogStep 1 Analytics.Receive] ++ asks 0 1 2 3.

(** The second resolver never handles the event, and answers from its cache for a while. *)
Definition sample_late : list sample_action := asks 1 1 9 40 ++ asks 1 2 2 72.

Definition sample_service : Admin.t MapRedis.t Admin.select_db := Admin.New MapRedis.empty None EmptyString.
Definition sample_nets : list ScriptNet.t := replicate 2 (ScriptNet.mk sample_answer []).
Definition sample_start : sample_cluster :=
  started (B := ListTable.batch Analytics.row) (λ _, None) Programs.no_clickhouse sample_service sample_nets.

Abbreviation sample_run := (run (B := ListTable.batch Analytics.row) (Ok EmptyString) upstream).
Abbreviation sample_step := (step (B := ListTable.batch Analytics.row) (Ok EmptyString) upstream).

Lemma sample_starts : starts sample_service (λ _, (∅, ∅)).
Proof.
  split; [by split_and!|]. split; [|done]. split; [|done]. split; [done|]. intros u. by exists ∅, ∅, ∅.
Qed.

(** The stage of a goroutine after a run. *)
Definition stage_after (acts : list sample_action) (i k : nat) : option Threads.stage :=
  match sample_run acts sample_start with Ret cl => Threads.th_stage <$> thread_at cl i k | Panic _ => None end.

(** The event of alice is the first of the inbox, and no lookup of hers is in progress. *)
Definition can_evict (acts : list sample_action) (i : nat) : bool :=
  match sample_run acts sample_start with
  | Ret cl =>
      match cl_nodes cl !! i with
      | Some nd =>
          match nd_inbox nd !! 0 with
          | Some payload => bool_decide (Isolation.payload_user payload = Some "alice") &&
              forallb (λ th, bool_decide (since (Threads.th_stage th) = None)) (nd_threads nd)
          | None => false
          end
      | None => false
      end
  | Panic _ => false
  end.

Lemma can_evict_spec acts i cl : can_evict acts i = true → sample_run acts sample_start = Ret cl →
  ∃ nd payload, cl_nodes cl !! i = Some nd ∧ nd_inbox nd !! 0 = Some payload ∧ Isolation.payload_user payload = Some "alice" ∧ idle "alice" nd.
Proof.
  unfold can_evict. intros Hc Hr. rewrite Hr in Hc. destruct (cl_nodes cl !! i) as [nd|]; [|done].
  destruct (nd_inbox nd !! 0) as [payload|] eqn:Hj; [|done]. apply andb_true_iff in Hc as [Hp%bool_decide_eq_true Hall].
  exists nd, payload. do 3 (split; [done|]). apply Forall_forall. intros th Hth%list_elem_of_In _. rewrite forallb_forall in Hall.
  by apply (bool_decide_eq_true _), Hall.
Qed.

Lemma sample_proper_all acts : forallb proper acts = true → Forall (λ a : sample_action, proper a = true) acts.
Proof. intros Hf. apply Forall_forall. intros a Ha%list_elem_of_In. rewrite forallb_forall in Hf. by apply Hf. Qed.

Lemma resolvers_coherent_witness :
  stage_after (sample_before ++ Deliver 0 0 2000000000 :: sample_later ++ [Advance 0 1 3000000000]) 0 1 = Some (Threads.Responding Threads.Block) ∧
  ∃ cl1 cl cl', sample_run sample_before sample_start = Ret cl1 ∧ sample_run (Deliver 0 0 2000000000 :: sample_later) cl1 = Ret cl ∧
    sample_step (Advance 0 1 3000000000) cl = Ret cl' ∧ decides "alice" {["*.games.net"]} ∅ 0 1 cl'.
Proof.
  split; [by_eval|].
  assert (Hp : forallb proper (sample_before ++ Deliver 0 0 2000000000 :: sample_later) = true) by by_eval.
  assert (Hord : in_order 0 ((sample_before ++ Deliver 0 0 2000000000 :: sample_later) ++ [Advance 0 1 3000000000]) = true) by by_eval.
  assert (Hlen : (Z.of_nat (List.length (sample_before ++ Deliver 0 0 2000000000 :: sample_later)) < 2 ^ 64 - 1)%Z) by (apply Z.ltb_lt; by_eval).
  pose proof (resolvers_coherent (B := ListTable.batch Analytics.row) (Ok EmptyString) upstream (λ _, None) Programs.no_clickhouse
    (λ _, (∅, ∅)) sample_service sample_nets sample_before 0 0 2000000000 sample_later 1 3000000000 0 "alice" sample_starts
    (sample_proper_all _ Hp) Hord Hlen eq_refl (Forall_nil_2 _)) as Hr.
  assert (Hch : foldl (λ σ uc, AdminAPI.effect uc σ) (λ _, (∅, ∅))
    (AdminAPI.changes_of sample_service (requests sample_before)) "alice" = ({["*.games.net"]}, ∅)) by by_eval.
  rewrite Hch in Hr. destruct Hr as (cl1 & cl & cl' & Hr1 & Hr2 & Hst & _ & Hd). exists cl1, cl, cl'.
  split; [exact Hr1|]. split; [exact Hr2|]. split; [exact Hst|]. apply Hd. left. apply (can_evict_spec sample_before 0 cl1); [by_eval|exact Hr1].
Defined.

Lemma resolvers_catch_up_witness :
  stage_after (sample_before ++ asks 1 1 1 40) 1 1 = Some Threads.Redirecting ∧
  stage_after ((sample_before ++ sample_late) ++ [Advance 1 2 72000000000]) 1 2 = Some (Threads.Responding Threads.Block) ∧
  ∃ cl cl', sample_run (sample_before ++ sample_late) sample_start = Ret cl ∧
    sample_step (Advance 1 2 72000000000) cl = Ret cl' ∧ decides "alice" {["*.games.net"]} ∅ 1 2 cl'.
Proof.
  split; [by_eval|]. split; [by_eval|].
  assert (Hp : forallb proper (sample_before ++ sample_late) = true) by by_eval.
  assert (Hord : in_order 0 ((sample_before ++ sample_late) ++ [Advance 1 2 72000000000]) = true) by by_eval.
  assert (Hlen : (Z.of_nat (List.length (sample_before ++ sample_late)) < 2 ^ 64 - 1)%Z) by (apply Z.ltb_lt; by_eval).
  assert (Hend : (end_clock 0 sample_before + 10000000000 + lifetime < 72000000000)%Z) by (apply Z.ltb_lt; by_eval).
  assert (Hpr : prompt (B := ListTable.batch Analytics.row) (Ok EmptyString) upstream 10000000000
    ((sample_before ++ sample_late) ++ [Advance 1 2 72000000000]) sample_start = true) by by_eval.
  pose proof (resolvers_catch_up (B := ListTable.batch Analytics.row) (Ok EmptyString) upstream (λ _, None) Programs.no_clickhouse
    (λ _, (∅, ∅)) sample_service sample_nets 10000000000 sample_before sample_late 0 1 2 72000000000 "alice" sample_starts
    (sample_proper_all _ Hp) Hord ltac:(lia) Hpr Hlen eq_refl (Forall_nil_2 _) Hend) as Hr.
  assert (Hch : foldl (λ σ uc, AdminAPI.effect uc σ) (λ _, (∅, ∅))
    (AdminAPI.changes_of sample_service (requests sample_before)) "alice" = ({["*.games.net"]}, ∅)) by by_eval.
  rewrite Hch in Hr. destruct Hr as (cl & cl' & Hr1 & Hst & _ & Hd). exists cl, cl'.
  split; [exact Hr1|]. split; [exact Hst|]. exact Hd.
Defined.

Lemma changes_announced_witness :
  ∃ cl nd, sample_run (sample_before ++ Deliver 0 0 2000000000 :: sample_later) sample_start = Ret cl ∧ cl_nodes cl !! 0 = Some nd ∧
    nd_inbox nd ++ [Sync.Encode (Sync.mkEvent "alice" Sync.ActionClearCache)] ≡ₚ [Sync.Encode (Sync.mkEvent "alice" Sync.ActionClearCache)].
Proof.
  assert (Hp : forallb proper (sample_before ++ Deliver 0 0 2000000000 :: sample_later) = true) by by_eval.
  assert (Hord : in_order 0 (sample_before ++ Deliver 0 0 2000000000 :: sample_later) = true) by by_eval.
  assert (Hlen : (Z.of_nat (List.length (sample_before ++ Deliver 0 0 2000000000 :: sample_later)) < 2 ^ 64)%Z) by (apply Z.ltb_lt; by_eval).
  destruct (changes_announced (B := ListTable.batch Analytics.row) (Ok EmptyString) upstream (λ _, None) Programs.no_clickhouse
    (λ _, (∅, ∅)) sample_service sample_nets (sample_before ++ Deliver 0 0 2000000000 :: sample_later) 0 0 sample_starts
    (sample_proper_all _ Hp) Hord Hlen ltac:(cbn; lia)) as (cl & nd & Hr & Hnd & Hperm).
  exists cl, nd. split; [exact Hr|]. split; [exact Hnd|].
  assert (Hh : handled (B := ListTable.batch Analytics.row) (Ok EmptyString) upstream 0 (sample_before ++ Deliver 0 0 2000000000 :: sample_later) sample_start =
    [Sync.Encode (Sync.mkEvent "alice" Sync.ActionClearCache)]) by by_eval.
  assert (Hc : AdminAPI.changes_of sample_service (requests (sample_before ++ Deliver 0 0 2000000000 :: sample_later)) = [("alice", Admin.Block "*.games.net")]) by by_eval.
  change (started _ _ _ _) with sample_start in Hperm. rewrite Hh, Hc in Hperm. exact Hperm.
Defined.
End Cluster.
