(* ===== verification/Frontend.v ===== *)
(** * The resolver behind its servers: internal/server, internal/handler and cmd/edgedns together

    [Module Frontend] runs a resolver with all its clients: any number of TLS connections,
    each a goroutine that reads its next message and hands it to the handler ([Turn] is one
    iteration of the loop of [handleDoTConnection]), HTTPS requests and plain DNS messages,
    interleaved in any order with the messages of the configuration channel, the steps of the
    log worker and the commands of the other clients of the Redis server.  A query is one
    step; [Interleaving] has the interleavings within the checker's part of it.  Because the
    three kinds of client have writers of their own, the queries that reach the handler are
    those of one resolver of [Programs] with the sum of the three as its writer. *)

From S2P Require Import Prelude.
From S2P Require Import GoStrings.
From Stdlib Require Import Strings.Ascii Strings.String.
From S2P Require Import GoBase64.
From S2P Require Import GoBytes.
From S2P Require Import External.
From S2P Require Import Models.
From S2P Require Import Config.
From S2P Require Import Checker.
From S2P Require Import Rule.
From S2P Require Import RateLimit.
From S2P Require Import Analytics.
From S2P Require Import Upstream.
From S2P Require Import Handler.
From S2P Require Import Server.
From S2P Require Import Sync.
From S2P Require Import Programs.
Import Handler Server.

Local Open Scope go_scope.

Module Frontend.

(** ** Writers *)

(** A map of writers the handler cannot tell from the writers themselves. *)
Class WriterMap {W1 W2 : Type} `{ResponseWriter W1, ResponseWriter W2} (f : W1 → W2) := {
  wm_Network w : rw_Network (f w) = rw_Network w;
  wm_RemoteAddr w : rw_RemoteAddr (f w) = rw_RemoteAddr w;
  wm_WriteMsg m w : WriteMsg m (f w) = ((WriteMsg m w).1, f (WriteMsg m w).2);
}.

Section map.
Context `{UnicodeTables, DnsLib} {C R N K B W1 W2 : Type}.
Context `{GoCache Checker.cval C, RedisClient R, DnsNet N, ClickHouse Analytics.row K B}.
Context `{ResponseWriter W1, ResponseWriter W2} (f : W1 → W2) `{!WriterMap f}.
Variable UpstreamAddr : string.
Implicit Types p : process (C := C) (R := R) (N := N) (K := K).

Lemma write_map resp w : write resp (f w) = f (write resp w).
Proof. unfold write. by rewrite wm_WriteMsg. Qed.

Lemma forward_map w msg (n : N) :
  forwardResponse UpstreamAddr (f w) msg n =
    (f (forwardResponse UpstreamAddr w msg n).1, (forwardResponse UpstreamAddr w msg n).2).
Proof.
  unfold forwardResponse. destruct (Upstream.Resolve UpstreamAddr msg n) as [[[resp|e] m] n']; cbn; by rewrite write_map.
Qed.

Lemma redirect_map w msg q ip (n : N) :
  writeRedirectResponse UpstreamAddr (f w) msg q ip n =
    (f (writeRedirectResponse UpstreamAddr w msg q ip n).1, (writeRedirectResponse UpstreamAddr w msg q ip n).2).
Proof.
  unfold writeRedirectResponse. destruct (redirect_response msg q ip); [cbn; by rewrite write_map|apply forward_map].
Qed.

Lemma answer_map t u w msg q v p :
  answer UpstreamAddr t u (f w) msg q v p =
    let r := answer UpstreamAddr t u w msg q v p in (r.1.1, f r.1.2, r.2).
Proof.
  unfold answer. destruct (Z.eqb v 1); [cbn; unfold writeBlockResponse; by rewrite write_map|].
  destruct (Rule.GetRedirectDomain _ _ _ _ _) as [[ip ok] st]. destruct ok.
  - rewrite redirect_map. by destruct (writeRedirectResponse _ _ _ _ _ _).
  - rewrite forward_map. by destruct (forwardResponse _ _ _ _).
Qed.

(** The handler reads a writer's address and writes to it, and nothing else. *)
Lemma ProcessQuery_map t u p w msg :
  ProcessQuery UpstreamAddr t u p (f w) msg =
    (pw <-@ ProcessQuery UpstreamAddr t u p w msg ;; Ret (pw.1, f pw.2)).
Proof.
  unfold ProcessQuery. destruct (admission t u p) as [ok p1]. destruct ok; cbn [negb].
  - destruct (m_Question msg) as [|q rest]; [done|].
    destruct (Rule.CheckRule _ _ _ _ _) as [[v st]|why]; [|done]. cbn [outcome_bind fst snd]. rewrite answer_map.
    destruct (answer _ _ _ w _ _ _ _) as [[status w'] p2]. cbn [outcome_bind fst snd].
    unfold getProtocol, submitLog, extractClientIP. by rewrite !wm_Network, !wm_RemoteAddr.
  - unfold writeRateLimitResponse. cbn. by rewrite write_map.
Qed.
End map.

(** The three kinds of client. *)
Inductive client (W : Type) := OverTLS (w : dotResponseWriter) | OverHTTPS (w : Response) | Plain (w : W).
Arguments OverTLS {W} w.
Arguments OverHTTPS {W} w.
Arguments Plain {W} w.

#[global] Instance client_writer `{DnsLib} {W} `{ResponseWriter W} : ResponseWriter (client W) := {
  rw_Network w := match w with OverTLS w => rw_Network w | OverHTTPS w => rw_Network w | Plain w => rw_Network w end;
  rw_RemoteAddr w := match w with OverTLS w => rw_RemoteAddr w | OverHTTPS w => rw_RemoteAddr w | Plain w => rw_RemoteAddr w end;
  WriteMsg m w :=
    match w with
    | OverTLS w => let r := WriteMsg m w in (r.1, OverTLS r.2)
    | OverHTTPS w => let r := WriteMsg m w in (r.1, OverHTTPS r.2)
    | Plain w => let r := WriteMsg m w in (r.1, Plain r.2)
    end;
}.

#[global] Instance over_tls `{DnsLib} {W} `{ResponseWriter W} : WriterMap (OverTLS (W := W)).
Proof. by split. Qed.
#[global] Instance over_https `{DnsLib} {W} `{ResponseWriter W} : WriterMap (OverHTTPS (W := W)).
Proof. by split. Qed.
#[global] Instance plain `{DnsLib} {W} `{ResponseWriter W} : WriterMap (Plain (W := W)).
Proof. by split. Qed.

(** ** The resolver and its connections *)

Section frontend.
Context `{UnicodeTables, DnsLib} {C R N W K B : Type}.
Context `{GoCache Checker.cval C, RedisClient R, DnsNet N, ResponseWriter W, ClickHouse Analytics.row K B}.
Variable UpstreamAddr : string.
Variable stdUser : string.

Abbreviation process := (process (C := C) (R := R) (N := N) (K := K)).
Abbreviation event := (Programs.EdgeDNS.event (R := R) (W := client W)).

(** A TLS connection: its user, what its client will still send, what has been written, and
    whether its goroutine still runs. *)
Record connection := mkConnection {
  cn_user : string;
  cn_input : list bytes;
  cn_writer : dotResponseWriter;
  cn_open : bool
}.

Record frontend := mkFrontend {
  fe_process : process;
  fe_connections : gmap nat connection;
  fe_responses : list (Request * Response);
  fe_messages : list (Msg * W * W)
}.

Inductive action :=
| Accept (id : nat) (serverName remote : string) (stream : list bytes)
| Turn (id : nat) (t : times)
| Https (t : times) (rq : Request)
| Datagram (t : times) (w : W) (msg : Msg)
| Notice (now : Z) (payload : string)
| WorkerReceives | WorkerTicks | WorkerStops
| OtherClients (r : R).

Definition set_process p (f : frontend) : frontend :=
  mkFrontend p (fe_connections f) (fe_responses f) (fe_messages f).

Definition set_connection (id : nat) (c : connection) (f : frontend) : frontend :=
  mkFrontend (fe_process f) (<[id := c]> (fe_connections f)) (fe_responses f) (fe_messages f).

(** One iteration of the loop of [handleDoTConnection]: the next message is read and
    handled, or the connection is closed. *)
Definition turn (t : times) (c : connection) (p : process) : outcome (process * connection) :=
  r <-@ readMsgFromConn (cn_input c) ;;
  match r with
  | Err _ => Ret (p, mkConnection (cn_user c) (cn_input c) (cn_writer c) false)
  | Ok (msg, input) =>
      pw <-@ HandleDNSQuery UpstreamAddr t (cn_user c) p (cn_writer c) msg ;;
      Ret (pw.1, mkConnection (cn_user c) input pw.2 true)
  end.

(** The steps of [Programs.EdgeDNS] that are not queries. *)
Definition background (a : action) : option event :=
  match a with
  | Notice now payload => Some (Programs.EdgeDNS.Message now payload)
  | WorkerReceives => Some Programs.EdgeDNS.LogReceive
  | WorkerTicks => Some Programs.EdgeDNS.LogTick
  | WorkerStops => Some Programs.EdgeDNS.Cancelled
  | OtherClients r => Some (Programs.EdgeDNS.Others r)
  | _ => None
  end.

Definition step (a : action) (f : frontend) : outcome frontend :=
  match a with
  | Accept id serverName remote stream =>
      match fe_connections f !! id with
      | Some _ => Ret f
      | None => Ret (set_connection id (mkConnection (dot_user serverName) stream (mkDot remote [] 0 (λ _, false)) true) f)
      end
  | Turn id t =>
      match fe_connections f !! id with
      | Some c =>
          if cn_open c then
            pc <-@ turn t c (fe_process f) ;;
            Ret (set_connection id pc.2 (set_process pc.1 f))
          else Ret f
      | None => Ret f
      end
  | Https t rq =>
      pr <-@ handleDoH UpstreamAddr (λ _, t) (fe_process f) rq ;;
      Ret (mkFrontend pr.1 (fe_connections f) (fe_responses f ++ [(rq, pr.2)]) (fe_messages f))
  | Datagram t w msg =>
      pw <-@ ServeDNS UpstreamAddr (λ _, t) stdUser 0 (fe_process f) w msg ;;
      Ret (mkFrontend pw.1 (fe_connections f) (fe_responses f) (fe_messages f ++ [(msg, w, pw.2)]))
  | a =>
      match background a with
      | Some e => r <-@ Programs.EdgeDNS.step UpstreamAddr e (fe_process f) ;; Ret (set_process r.1 f)
      | None => Ret f
      end
  end.

Fixpoint run (acts : list action) (f : frontend) : outcome frontend :=
  match acts with [] => Ret f | a :: acts => f' <-@ step a f ;; run acts f' end.

(** *** The queries that reach the handler *)

(** The user and the message of an HTTPS request, none for a client error. *)
Definition doh_query (rq : Request) : option (string * Msg) :=
  match Handler.ExtractUserFromDoHPath (rq_Path rq) with
  | Err _ => None
  | Ok userID =>
      let msgBytes :=
        if String.eqb (rq_Method rq) "GET" then
          if String.eqb (rq_dns rq) EmptyString then None else Base64.DecodeString (rq_dns rq)
        else if String.eqb (rq_Method rq) "POST" then
          if negb (HasPrefix (rq_ContentType rq) dnsMimeType) then None
          else match read_body rq with Ok b => Some b | Err _ => None end
        else None in
      match msgBytes with
      | Some b => match Unpack b with Ok msg => Some (userID, msg) | Err _ => None end
      | None => None
      end
  end.

(** The event of the process an action is, none when it does not reach the process. *)
Definition reaches (a : action) (f : frontend) : option event :=
  match a with
  | Turn id t =>
      c ← fe_connections f !! id;
      if cn_open c then
        match readMsgFromConn (cn_input c) with
        | Ret (Ok (msg, _)) => Some (Programs.EdgeDNS.Query t (cn_user c) (OverTLS (cn_writer c)) msg)
        | _ => None
        end
      else None
  | Https t rq =>
      um ← doh_query rq;
      Some (Programs.EdgeDNS.Query t um.1 (OverHTTPS (new_response (rq_RemoteAddr rq))) um.2)
  | Datagram t w msg => Some (Programs.EdgeDNS.Query t stdUser (Plain w) msg)
  | a => background a
  end.

(** The events of a run. *)
Fixpoint trace (acts : list action) (f : frontend) : list event :=
  match acts with
  | [] => []
  | a :: acts =>
      option_list (reaches a f) ++ match step a f with Ret f' => trace acts f' | Panic _ => [] end
  end.

(** Users without a colon that are not called "redirect". *)
Definition proper (a : action) : bool :=
  match a with
  | Accept _ serverName _ _ => Checker.good_user (dot_user serverName)
  | Https _ rq => match Handler.ExtractUserFromDoHPath (rq_Path rq) with Ok u => Checker.good_user u | Err _ => true end
  | Datagram _ _ _ => Checker.good_user stdUser
  | _ => true
  end.
End frontend.

Section frontend_proofs.
Context `{UnicodeTables} `{DnsLib} `{!DnsLibLaws} {C R N W K B : Type}.
Context `{GoCache Checker.cval C} `{!GoCacheLaws Checker.cval C}.
Context `{RedisClient R, RedisView R} `{!RedisLaws R}.
Context `{DnsNet N, ResponseWriter W, ClickHouse Analytics.row K B}.
Variable UpstreamAddr : string.
Variable stdUser : string.

Abbreviation process := (process (C := C) (R := R) (N := N) (K := K)).
Abbreviation frontend := (frontend (C := C) (R := R) (N := N) (W := W) (K := K)).
Abbreviation action := (action (R := R) (W := W)).
Implicit Types (p : process) (f : frontend) (a : action) (c : connection).

(** The query of a request that carries the wire form of a message. *)
Lemma carries_query rq u b : ExtractUserFromDoHPath (rq_Path rq) = Ok u → carries rq b →
  doh_query rq = match Unpack b with Ok msg => Some (u, msg) | Err _ => None end.
Proof.
  intros Hu Hb. unfold doh_query. rewrite Hu. destruct Hb as [b Hm Hd Hb|suffix Hm Hct Hbody].
  - rewrite Hm, String.eqb_refl, (proj2 (String.eqb_neq _ _) Hd), Hb. done.
  - rewrite Hm. cbn [String.eqb Ascii.eqb Bool.eqb]. rewrite (proj2 (HasPrefix_spec _ _)) by (by exists suffix). cbn [negb].
    unfold read_body. case_decide as Hlen; [done|]. destruct Hbody as [?| ->]; [lia|]. by rewrite take_ge by lia.
Qed.

Lemma refusal_query rq status text : refusal rq status text → doh_query rq = None.
Proof.
  intros [e Hu|u Hu Hm Hd|u Hu Hm Hd Hb|u Hu Hm Hct|u suffix e Hu Hm Hct Hl He|u Hu Hg Hp|u b e Hu Hb Hun].
  - unfold doh_query. by rewrite Hu.
  - unfold doh_query. by rewrite Hu, Hm, Hd.
  - unfold doh_query. by rewrite Hu, Hm, String.eqb_refl, (proj2 (String.eqb_neq _ _) Hd), Hb.
  - unfold doh_query. rewrite Hu, Hm. cbn [String.eqb Ascii.eqb Bool.eqb]. destruct (HasPrefix _ _) eqn:E; [|done].
    apply HasPrefix_spec in E as [suffix E]. by destruct (Hct suffix).
  - unfold doh_query. rewrite Hu, Hm. cbn [String.eqb Ascii.eqb Bool.eqb].
    rewrite (proj2 (HasPrefix_spec _ _)) by (by exists suffix). cbn [negb]. unfold read_body. by rewrite decide_False, He by lia.
  - unfold doh_query. by rewrite Hu, (proj2 (String.eqb_neq _ _) Hg), (proj2 (String.eqb_neq _ _) Hp).
  - by rewrite (carries_query _ _ _ Hu Hb), Hun.
Qed.

(** What the response to a request is: the client error of a reason to refuse it, or that of
    the handler to the message the request carries, which is stated of the exchanges. *)
Definition doh_response (x : Request * Response) : Prop :=
  let '(rq, rs) := x in
  match doh_query rq with
  | Some (u, msg) => ExtractUserFromDoHPath (rq_Path rq) = Ok u ∧ ∃ b, carries rq b ∧ Unpack b = Ok msg
  | None => ∃ status text, refusal rq status text ∧ rs = http_Error text status (new_response (rq_RemoteAddr rq))
  end.

(** A request that is refused is answered so, the others are their queries. *)
Lemma handleDoH_query t p rq :
  match doh_query rq with
  | Some (u, msg) => (∀ rs, doh_response (rq, rs)) ∧ handleDoH UpstreamAddr (λ _, t) p rq =
      ProcessQuery UpstreamAddr t u p (new_response (rq_RemoteAddr rq)) msg
  | None => ∃ rs, doh_response (rq, rs) ∧ handleDoH UpstreamAddr (λ _, t) p rq = Ret (p, rs)
  end.
Proof.
  unfold doh_response. destruct (handleDoH_cases UpstreamAddr (λ _, t) p rq) as [(status & text & Hr & E)|(u & b & msg & Hu & Hb & Hm & E)].
  - rewrite (refusal_query _ _ _ Hr). eexists. split; [|exact E]. eauto.
  - rewrite (carries_query _ _ _ Hu Hb), Hm. split; [eauto|exact E].
Qed.

Lemma doh_query_user rq u msg : doh_query rq = Some (u, msg) → ExtractUserFromDoHPath (rq_Path rq) = Ok u.
Proof. unfold doh_query. intros Hq. repeat (case_match; try done); congruence. Qed.

(** A query over one of the three transports is a query of the process. *)
Lemma query_lift {W1} `{ResponseWriter W1} (g : W1 → client W) `{!WriterMap g} t u p w msg :
  Checker.good_user u = true → Programs.EdgeDNS.sound p →
  ∃ p' w', ProcessQuery UpstreamAddr t u p w msg = Ret (p', w') ∧ Programs.EdgeDNS.sound p' ∧
    Programs.EdgeDNS.run UpstreamAddr [Programs.EdgeDNS.Query t u (g w) msg] p =
      Ret (p', [{| Programs.EdgeDNS.asked := msg; Programs.EdgeDNS.before := g w; Programs.EdgeDNS.after := g w' |}]) ∧
    Programs.EdgeDNS.one_response UpstreamAddr
      {| Programs.EdgeDNS.asked := msg; Programs.EdgeDNS.before := g w; Programs.EdgeDNS.after := g w' |}.
Proof.
  intros Hu Hs. destruct (Programs.EdgeDNS.run_sound UpstreamAddr [Programs.EdgeDNS.Query t u (g w) msg] p Hs)
    as (p' & out & Hrun & Hs' & Hone & _); [by constructor|].
  revert Hrun Hone. cbn [Programs.EdgeDNS.run Programs.EdgeDNS.step]. unfold HandleDNSQuery. rewrite (ProcessQuery_map g).
  destruct (ProcessQuery UpstreamAddr t u p w msg) as [[p1 w1]|]; [|done]. cbn. intros [= -> <-] [Hone _]%Forall_cons. by exists p', w1.
Qed.

(** *** Responses *)

(** The responses over HTTPS and to plain messages, among the exchanges of the handler. *)
Definition https_exchanges (out : list (Programs.EdgeDNS.exchange (W := client W))) : list (Msg * Response * Response) :=
  omap (λ x, match Programs.EdgeDNS.before x, Programs.EdgeDNS.after x with
             | OverHTTPS w, OverHTTPS w' => Some (Programs.EdgeDNS.asked x, w, w')
             | _, _ => None
             end) out.

Definition plain_exchanges (out : list (Programs.EdgeDNS.exchange (W := client W))) : list (Msg * W * W) :=
  omap (λ x, match Programs.EdgeDNS.before x, Programs.EdgeDNS.after x with
             | Plain w, Plain w' => Some (Programs.EdgeDNS.asked x, w, w')
             | _, _ => None
             end) out.

(** The requests that are queries, each with the response before and after the handler. *)
Definition handled_requests (rs : list (Request * Response)) : list (Msg * Response * Response) :=
  omap (λ x, um ← doh_query x.1; Some (um.2, new_response (rq_RemoteAddr x.1), x.2)) rs.

(** What [out], the exchanges of a part of a run, adds to the responses of [f]. *)
Definition answered f f' (out : list (Programs.EdgeDNS.exchange (W := client W))) : Prop :=
  Forall (Programs.EdgeDNS.one_response UpstreamAddr) out ∧
  (∃ rs, fe_responses f' = fe_responses f ++ rs ∧ Forall doh_response rs ∧ handled_requests rs = https_exchanges out) ∧
  fe_messages f' = fe_messages f ++ plain_exchanges out.

Lemma answered_none f f' : fe_responses f' = fe_responses f → fe_messages f' = fe_messages f → answered f f' [].
Proof. intros Hr Hm. split; [done|]. split; [exists []|]; by rewrite app_nil_r. Qed.

Lemma answered_app f1 f2 f3 out1 out2 : answered f1 f2 out1 → answered f2 f3 out2 → answered f1 f3 (out1 ++ out2).
Proof.
  intros (H1o & (rs1 & E1 & F1 & Q1) & M1) (H2o & (rs2 & E2 & F2 & Q2) & M2). split; [by apply Forall_app|]. split.
  - exists (rs1 ++ rs2). rewrite E2, E1, app_assoc. split; [done|]. split; [by apply Forall_app|].
    unfold handled_requests, https_exchanges in *. by rewrite !omap_app, Q1, Q2.
  - rewrite M2, M1, <- app_assoc. unfold plain_exchanges. by rewrite omap_app.
Qed.

Lemma background_step (e : Programs.EdgeDNS.event (R := R) (W := client W)) p : Programs.EdgeDNS.sound p → Programs.EdgeDNS.event_ok e = true →
  Programs.EdgeDNS.queries [e] = [] →
  ∃ p', Programs.EdgeDNS.step UpstreamAddr e p = Ret (p', []) ∧ Programs.EdgeDNS.sound p' ∧
    Programs.EdgeDNS.run UpstreamAddr [e] p = Ret (p', []).
Proof.
  intros Hs He Hq. destruct (Programs.EdgeDNS.step_sound UpstreamAddr e p Hs He) as (p' & out & E & Hs' & _ & Hout).
  rewrite Hq in Hout. apply fmap_nil_inv in Hout as ->. exists p'. cbn [Programs.EdgeDNS.run]. by rewrite E.
Qed.

Definition users_good f : Prop := ∀ id c, fe_connections f !! id = Some c → Checker.good_user (cn_user c) = true.

Ltac by_background Hs :=
  match goal with |- context [Programs.EdgeDNS.step UpstreamAddr ?e ?p] =>
    let E := fresh in
    destruct (background_step e p Hs eq_refl eq_refl) as (? & E & ? & ?);
    rewrite E; cbn [outcome_bind fst]; do 2 eexists; rewrite !app_nil_r; eauto 10 using answered_none
  end.

(** One action is at most one event of the process. *)
Lemma step_refines a f : Programs.EdgeDNS.sound (fe_process f) → users_good f → proper stdUser a = true →
  ∃ f' out, step UpstreamAddr stdUser a f = Ret f' ∧ Programs.EdgeDNS.sound (fe_process f') ∧ users_good f' ∧
    Programs.EdgeDNS.run UpstreamAddr (option_list (reaches stdUser a f)) (fe_process f) = Ret (fe_process f', out) ∧
    answered f f' out ∧
    fst <$> fe_responses f' = (fst <$> fe_responses f) ++ match a with Https _ rq => [rq] | _ => [] end ∧
    fst <$> fe_messages f' = (fst <$> fe_messages f) ++ match a with Datagram _ w msg => [(msg, w)] | _ => [] end.
Proof.
  intros Hs Hg Ha.
  destruct a as [id sn remote stream|id t|t rq|t w msg|now payload| | | |r]; cbn [step reaches background proper] in *.
  - destruct (fe_connections f !! id) eqn:E; (do 2 eexists; split; [done|]; split; [exact Hs|]);
      rewrite !app_nil_r; (split; [|split; [done|by split; [apply answered_none|]]]); [done|]. intros id' c'. cbn.
    rewrite lookup_insert_Some. intros [[_ <-]|[_ Hc]]; [done|by eapply Hg].
  - destruct (fe_connections f !! id) as [c|] eqn:E; cbn [mbind option_bind];
      [|do 2 eexists; rewrite !app_nil_r; eauto 10 using answered_none].
    destruct (cn_open c); [|do 2 eexists; rewrite !app_nil_r; eauto 10 using answered_none]. unfold turn.
    assert (Hg' : ∀ p c', cn_user c' = cn_user c → users_good (set_connection id c' (set_process p f))).
    { intros p c' Hu' id1 c1. cbn. rewrite lookup_insert_Some. intros [[_ <-]|[_ Hc]]; [|by eapply Hg]. rewrite Hu'. by eapply Hg. }
    destruct (readMsg_returns (cn_input c)) as [r Hr]. rewrite Hr. cbn [outcome_bind]. destruct r as [[msg input]|err].
    + destruct (query_lift OverTLS t (cn_user c) (fe_process f) (cn_writer c) msg (Hg _ _ E) Hs) as (p' & w' & Hq & Hs' & Hrun & Hone).
      unfold HandleDNSQuery. rewrite Hq. cbn [outcome_bind fst snd]. do 2 eexists. split; [done|]. rewrite !app_nil_r.
      split; [exact Hs'|]. split; [by apply Hg'|]. split; [exact Hrun|]. split; [|done].
      split; [by constructor|]. split; [exists []|]; by rewrite app_nil_r.
    + cbn [outcome_bind fst snd]. do 2 eexists. split; [done|]. rewrite !app_nil_r.
      split; [exact Hs|]. split; [by apply Hg'|]. split; [done|]. split; [by apply answered_none|done].
  - pose proof (handleDoH_query t (fe_process f) rq) as Hq. destruct (doh_query rq) as [[u msg]|] eqn:E.
    + rewrite (doh_query_user _ _ _ E) in Ha. destruct Hq as [Hresp Hq].
      destruct (query_lift OverHTTPS t u (fe_process f) (new_response (rq_RemoteAddr rq)) msg Ha Hs) as (p' & rs & Hp & Hs' & Hrun & Hone).
      rewrite Hq, Hp. cbn [outcome_bind fst snd]. do 2 eexists. split; [done|]. rewrite app_nil_r. split; [exact Hs'|].
      split; [exact Hg|]. split; [exact Hrun|]. cbn [fe_responses fe_messages]. split; [|by rewrite fmap_app].
      split; [by constructor|]. split; [exists [(rq, rs)]|by rewrite app_nil_r]. split; [done|].
      split; [by constructor|]. unfold handled_requests. cbn. by rewrite E.
    + destruct Hq as (rs & Hresp & ->). cbn [outcome_bind fst snd]. do 2 eexists. split; [done|]. rewrite app_nil_r.
      split; [exact Hs|]. split; [exact Hg|]. split; [done|]. cbn [fe_responses fe_messages]. split; [|by rewrite fmap_app].
      split; [done|]. split; [exists [(rq, rs)]|by rewrite app_nil_r]. split; [done|].
      split; [by constructor|]. unfold handled_requests. cbn. by rewrite E.
  - destruct (query_lift Plain t stdUser (fe_process f) w msg Ha Hs) as (p' & w' & Hp & Hs' & Hrun & Hone).
    unfold ServeDNS, HandleDNSQuery. rewrite Hp. cbn [outcome_bind fst snd]. do 2 eexists. split; [done|]. rewrite app_nil_r.
    split; [exact Hs'|]. split; [exact Hg|]. split; [exact Hrun|]. cbn [fe_responses fe_messages]. split; [|by rewrite fmap_app].
    split; [by constructor|]. split; [exists []; by rewrite app_nil_r|done].
  - by_background Hs.
  - by_background Hs.
  - by_background Hs.
  - by_background Hs.
  - by_background Hs.
Qed.

Lemma run_actions_app es1 es2 p p1 out1 : Programs.EdgeDNS.run (W := client W) UpstreamAddr es1 p = Ret (p1, out1) →
  Programs.EdgeDNS.run UpstreamAddr (es1 ++ es2) p =
    (r <-@ Programs.EdgeDNS.run UpstreamAddr es2 p1 ;; Ret (r.1, out1 ++ r.2)).
Proof.
  revert p out1. induction es1 as [|e es1 IH]; intros p out1; cbn [app Programs.EdgeDNS.run].
  - intros [= -> <-]. by destruct (Programs.EdgeDNS.run _ es2 p1) as [[]|].
  - intros ([p2 o2] & Hst & ([p3 o3] & Hrun & [= <- <-])%outcome_bind_ret)%outcome_bind_ret. cbn [fst snd] in *.
    rewrite Hst. cbn [outcome_bind fst snd]. rewrite (IH _ _ Hrun).
    destruct (Programs.EdgeDNS.run _ es2 p3) as [[p4 o4]|]; [|done]. cbn. by rewrite app_assoc.
Qed.

Lemma run_refines acts f : Programs.EdgeDNS.sound (fe_process f) → users_good f → Forall (λ a, proper stdUser a = true) acts →
  ∃ f' out, run UpstreamAddr stdUser acts f = Ret f' ∧ Programs.EdgeDNS.sound (fe_process f') ∧ users_good f' ∧
    Programs.EdgeDNS.run UpstreamAddr (trace UpstreamAddr stdUser acts f) (fe_process f) = Ret (fe_process f', out) ∧
    answered f f' out ∧
    fst <$> fe_responses f' = (fst <$> fe_responses f) ++ omap (λ a, match a with Https _ rq => Some rq | _ => None end) acts ∧
    fst <$> fe_messages f' = (fst <$> fe_messages f) ++ omap (λ a, match a with Datagram _ w msg => Some (msg, w) | _ => None end) acts.
Proof.
  intros Hs Hg Hacts. revert f Hs Hg. induction Hacts as [|a acts Ha _ IH]; intros f Hs Hg.
  { exists f, []. rewrite !app_nil_r. do 4 (split; [done|]). split; [by apply answered_none|done]. }
  destruct (step_refines a f Hs Hg Ha) as (f1 & out1 & E1 & Hs1 & Hg1 & R1 & A1 & Q1 & M1).
  destruct (IH f1 Hs1 Hg1) as (f2 & out2 & E2 & Hs2 & Hg2 & R2 & A2 & Q2 & M2).
  exists f2, (out1 ++ out2). cbn [run trace]. rewrite E1. cbn [outcome_bind]. split; [done|]. split; [done|]. split; [done|].
  rewrite (run_actions_app _ _ _ _ _ R1), R2. split; [done|].
  split; [by eapply answered_app|]. rewrite Q2, M2, Q1, M1, <- !app_assoc.
  split; f_equal; by destruct a.
Qed.

(** *** Connections *)

(** What a message of a client is answered with: the frame of the response, nothing for a
    message without a question or a response that cannot be packed. *)
Definition reply_bytes (resp : Msg) : bytes := match Pack resp with Ok b => frame b | Err _ => [] end.

Definition reply_to (msg : Msg) (b : bytes) : Prop :=
  (b = [] ∧ m_Question msg = []) ∨
  ∃ (n : N) resp, answers UpstreamAddr n msg resp ∧ b = reply_bytes resp.

Lemma write_reply resp w : (∀ i, dw_fails w i = false) →
  dw_written (write resp w) = dw_written w ++ reply_bytes resp ∧ (∀ i, dw_fails (write resp w) i = false).
Proof.
  intros Hw. unfold write, reply_bytes. cbn [WriteMsg dot_writer]. unfold writeMsgToConn.
  destruct (Pack resp) as [b|]; [|by rewrite app_nil_r]. unfold conn_Write. rewrite Hw. cbn [dw_fails dw_writes]. rewrite Hw. cbn.
  split; [|done]. unfold frame. by rewrite <- app_assoc.
Qed.

(** The state of a connection after [k] turns, [bs] and [msgs] being what its client sends. *)
Definition after_turns (bs : list bytes) (msgs : list Msg) (k : nat) c : Prop :=
  (∃ replies, Forall2 reply_to (take k msgs) replies ∧ dw_written (cn_writer c) = List.concat replies) ∧
  (∀ i, dw_fails (cn_writer c) i = false) ∧ cn_open c = bool_decide (k ≤ List.length msgs) ∧
  (k ≤ List.length msgs → delivers (cn_input c) (drop k bs)).

Lemma turn_after t bs msgs k c p p' c' : Checker.good_user (cn_user c) = true → typed p →
  Forall2 (λ b m, Unpack b = Ok m) bs msgs → after_turns bs msgs k c → cn_open c = true →
  turn UpstreamAddr t c p = Ret (p', c') → after_turns bs msgs (S k) c' ∧ cn_user c' = cn_user c.
Proof.
  intros Hu Hty Hbs ((replies & Hr & Hw) & Hf & Hop & Hd) Ho Ht. rewrite Hop in Ho. apply bool_decide_eq_true in Ho.
  specialize (Hd Ho). pose proof (Forall2_length _ _ _ Hbs) as Hlen. destruct (decide (k = List.length msgs)) as [->|Hk].
  - rewrite drop_ge in Hd by lia. inversion Hd as [Hin|]; subst. unfold turn in Ht. rewrite <- Hin in Ht. cbn in Ht.
    injection Ht as _ <-. split; [|done]. rewrite take_ge in Hr by lia. split_and!; cbn.
    + exists replies. rewrite take_ge by lia. done.
    + done.
    + symmetry. apply bool_decide_eq_false. lia.
    + lia.
  - destruct (lookup_lt_is_Some_2 msgs k ltac:(lia)) as [msg Hmsg]. destruct (Forall2_lookup_r _ _ _ _ _ Hbs Hmsg) as (b & Hb & Hun).
    rewrite (drop_S bs b k Hb) in Hd. inversion Hd as [|cs b' bs' rest Hi Hc Hl Hd']; subst.
    unfold turn in Ht. rewrite (readMsg_frame _ b rest), Hun in Ht by done. cbn [outcome_bind] in Ht.
    apply outcome_bind_ret in Ht as ([p1 w1] & HPQ & [= _ <-]). cbn [fst snd]. split; [|done].
    destruct (ProcessQuery_responds UpstreamAddr t (cn_user c) p (cn_writer c) msg Hu Hty) as (p2 & w2 & HPQ2 & _ & Hresp).
    unfold HandleDNSQuery in HPQ. rewrite HPQ in HPQ2. injection HPQ2 as <- <-.
    assert (Hone : ∃ reply, reply_to msg reply ∧ dw_written w1 = dw_written (cn_writer c) ++ reply ∧ ∀ i, dw_fails w1 i = false).
    { destruct Hresp as [[-> Hq]|(resp & -> & Ha)].
      - exists []. rewrite app_nil_r. split; [by left|done].
      - destruct (write_reply resp (cn_writer c) Hf) as [E1 E2]. exists (reply_bytes resp). split; [right; eauto|done]. }
    destruct Hone as (reply & Hreply & E1 & E2). split_and!; cbn.
    + exists (replies ++ [reply]). rewrite (take_S_r _ _ _ Hmsg), E1, Hw, concat_app. cbn. rewrite app_nil_r.
      split; [|done]. apply Forall2_app; [done|]. by constructor.
    + done.
    + symmetry. apply bool_decide_eq_true. lia.
    + done.
Qed.

Definition is_turn (id : nat) a : bool := match a with Turn id' _ => Nat.eqb id' id | _ => false end.
Definition turns (id : nat) (acts : list action) : nat := List.length (filter (λ a, is_turn id a = true) acts).

Lemma step_connection a f f' id c bs msgs k : Programs.EdgeDNS.sound (fe_process f) → users_good f →
  step UpstreamAddr stdUser a f = Ret f' → fe_connections f !! id = Some c →
  Forall2 (λ b m, Unpack b = Ok m) bs msgs → after_turns bs msgs k c →
  ∃ c', fe_connections f' !! id = Some c' ∧ after_turns bs msgs (k + turns id [a]) c'.
Proof.
  intros Hs Hg Hst Hc Hbs Hk.
  assert (Hsame : fe_connections f' !! id = Some c → turns id [a] = 0 →
    ∃ c', fe_connections f' !! id = Some c' ∧ after_turns bs msgs (k + turns id [a]) c').
  { intros Hc' ->. rewrite Nat.add_0_r. eauto. }
  destruct a as [id' sn remote stream|id' t|t rq|t w msg|now payload| | | |r]; cbn [step background] in Hst.
  - apply Hsame; [|done]. destruct (fe_connections f !! id') eqn:E; injection Hst as <-; [done|].
    cbn. rewrite lookup_insert_ne; [done|congruence].
  - destruct (decide (id' = id)) as [->|Hne].
    + rewrite Hc in Hst. replace (turns id [Turn id t]) with 1 by (unfold turns; cbn; by rewrite Nat.eqb_refl).
      rewrite Nat.add_1_r. destruct (cn_open c) eqn:Ho.
      * apply outcome_bind_ret in Hst as ([p1 c1] & Ht & [= <-]). cbn. rewrite lookup_insert_eq. exists c1. split; [done|].
        eapply turn_after; [by eapply Hg|exact (proj1 Hs)|done|done|done|exact Ht].
      * injection Hst as <-. exists c. split; [done|]. destruct Hk as ((replies & Hr & Hw) & Hf & Hop & Hd).
        rewrite Ho in Hop. symmetry in Hop. apply bool_decide_eq_false in Hop. split_and!.
        -- exists replies. rewrite take_ge in Hr by lia. by rewrite take_ge by lia.
        -- done.
        -- rewrite Ho. symmetry. apply bool_decide_eq_false. lia.
        -- lia.
    + apply Hsame; [|unfold turns; cbn; by rewrite (proj2 (Nat.eqb_neq _ _) Hne)].
      destruct (fe_connections f !! id') as [c1|]; [destruct (cn_open c1)|]; [|by injection Hst as <-..].
      apply outcome_bind_ret in Hst as ([p1 c2] & _ & [= <-]). cbn. by rewrite lookup_insert_ne.
  - apply outcome_bind_ret in Hst as ([p1 rs] & _ & [= <-]). by apply Hsame.
  - apply outcome_bind_ret in Hst as ([p1 w1] & _ & [= <-]). by apply Hsame.
  - apply outcome_bind_ret in Hst as ([p1 out] & _ & [= <-]). by apply Hsame.
  - apply outcome_bind_ret in Hst as ([p1 out] & _ & [= <-]). by apply Hsame.
  - apply outcome_bind_ret in Hst as ([p1 out] & _ & [= <-]). by apply Hsame.
  - apply outcome_bind_ret in Hst as ([p1 out] & _ & [= <-]). by apply Hsame.
  - apply outcome_bind_ret in Hst as ([p1 out] & _ & [= <-]). by apply Hsame.
Qed.

Lemma run_connection acts f id c bs msgs k : Programs.EdgeDNS.sound (fe_process f) → users_good f →
  Forall (λ a, proper stdUser a = true) acts → fe_connections f !! id = Some c →
  Forall2 (λ b m, Unpack b = Ok m) bs msgs → after_turns bs msgs k c →
  ∃ f' c', run UpstreamAddr stdUser acts f = Ret f' ∧ fe_connections f' !! id = Some c' ∧ after_turns bs msgs (k + turns id acts) c'.
Proof.
  intros Hs Hg Hacts Hc Hbs Hk. revert f c k Hs Hg Hc Hk. induction Hacts as [|a acts Ha _ IH]; intros f c k Hs Hg Hc Hk.
  { exists f, c. rewrite Nat.add_0_r. done. }
  destruct (step_refines a f Hs Hg Ha) as (f1 & _ & E1 & Hs1 & Hg1 & _).
  destruct (step_connection a f f1 id c bs msgs k Hs Hg E1 Hc Hbs Hk) as (c1 & Hc1 & Hk1).
  destruct (IH f1 c1 _ Hs1 Hg1 Hc1 Hk1) as (f2 & c2 & E2 & Hc2 & Hk2). exists f2, c2. cbn [run]. rewrite E1. cbn [outcome_bind].
  split; [done|]. split; [done|]. unfold turns in *. change (a :: acts) with ([a] ++ acts). by rewrite filter_app, length_app, Nat.add_assoc.
Qed.

(** The resolver after its start. *)
Definition started (E : Config.environment) driver (r : R) (n : N) : frontend :=
  mkFrontend (Programs.EdgeDNS.main E driver (initial r n)) ∅ [] [].

(** C7: The resolver behind its servers is the resolver: started in any environment, and with
    any clients of well-formed users on TLS connections, over HTTPS and over plain DNS in any
    interleaving, a query being one step, it does what [Programs.EdgeDNS] does on the queries
    the servers read, in the order in which they were read, and does not panic.  Every HTTPS
    request and every plain message is handled, in order: a request there is a reason to
    refuse gets the client error of that reason, and the responses to the other requests and
    to the plain messages are what the handler has written to them, which for each is one
    answer to the message it carries, or nothing if the message has no question. *)
Theorem frontend_refines (E : Config.environment) driver (r : R) (n : N) acts :
  Forall (λ a, proper stdUser a = true) acts →
  let f := started E driver r n in
  ∃ f' out, run UpstreamAddr stdUser acts f = Ret f' ∧
    Programs.EdgeDNS.run UpstreamAddr (trace UpstreamAddr stdUser acts f) (fe_process f) = Ret (fe_process f', out) ∧
    Programs.EdgeDNS.sound (fe_process f') ∧
    Forall (Programs.EdgeDNS.one_response UpstreamAddr) out ∧
    Forall doh_response (fe_responses f') ∧
    handled_requests (fe_responses f') = https_exchanges out ∧ fe_messages f' = plain_exchanges out ∧
    fst <$> fe_responses f' = omap (λ a, match a with Https _ rq => Some rq | _ => None end) acts ∧
    fst <$> fe_messages f' = omap (λ a, match a with Datagram _ w msg => Some (msg, w) | _ => None end) acts.
Proof.
  intros Hacts f. destruct (Programs.EdgeDNS.main_settings (B := B) E driver r n) as (Hs & _).
  destruct (run_refines acts f Hs ltac:(by intros id c) Hacts) as (f' & out & Hrun & Hs' & _ & Hr & (Hone & (rs & Ers & Hdoh & Hrs) & Hms) & Hq & Hm).
  cbn [fe_responses fe_messages started f app] in Ers, Hms. subst rs. exists f', out. split_and!; try done.
Qed.

(** C10: A TLS connection is served in order whatever other well-formed users do: in any run in
    which no user has a colon in his name or is called "redirect", and in which a query is one
    step.  Accepted at any time in the life of such a resolver, with a stream of framed messages whose length prefixes are not
    split, the connection has after [k] turns of its goroutine written the replies to its
    first [k] messages, one after the other, each an answer of the handler to its message,
    and it is closed when the goroutine comes to the end of the stream: no such client
    disturbs or reorders the replies of another. *)
Theorem connection_served (E : Config.environment) driver (r : R) (n : N) before id serverName remote cs bs msgs acts f :
  Forall (λ a, proper stdUser a = true) (before ++ Accept id serverName remote cs :: acts) →
  delivers cs bs → Forall2 (λ b m, Unpack b = Ok m) bs msgs →
  run UpstreamAddr stdUser before (started E driver r n) = Ret f → fe_connections f !! id = None →
  ∃ f' c replies, run UpstreamAddr stdUser (Accept id serverName remote cs :: acts) f = Ret f' ∧
    fe_connections f' !! id = Some c ∧
    Forall2 reply_to (take (turns id acts) msgs) replies ∧ dw_written (cn_writer c) = List.concat replies ∧
    cn_open c = bool_decide (turns id acts ≤ List.length msgs).
Proof.
  intros (Hb & Hacts)%Forall_app Hd Hbs Hrun Hid.
  destruct (Programs.EdgeDNS.main_settings (B := B) E driver r n) as (Hs0 & _).
  destruct (run_refines before (started E driver r n) Hs0 ltac:(by intros ? ?) Hb) as (f0 & _ & Hrun0 & Hs & Hg & _).
  rewrite Hrun in Hrun0. injection Hrun0 as <-. apply Forall_cons in Hacts as [Ha Hacts].
  destruct (step_refines _ f Hs Hg Ha) as (f1 & _ & E1 & Hs1 & Hg1 & _).
  set (c := mkConnection (dot_user serverName) cs (mkDot remote [] 0 (λ _, false)) true).
  assert (Hc : fe_connections f1 !! id = Some c).
  { cbn [step] in E1. rewrite Hid in E1. injection E1 as <-. cbn. by rewrite lookup_insert_eq. }
  assert (Hk : after_turns bs msgs 0 c) by (split_and!; [by exists []|done|done|done]).
  destruct (run_connection acts f1 id c bs msgs 0 Hs1 Hg1 Hacts Hc Hbs Hk) as (f' & c' & Hr & Hc' & (replies & Hrep & Hw) & _ & Hop & _).
  exists f', c', replies. cbn [run]. rewrite E1. done.
Qed.

(** A connection that is alone does what [handleDoTConnection] does. *)
Lemma turns_are_the_loop (clock : nat → times) fuel i f id c p' w' : fe_connections f !! id = Some c → cn_open c = true →
  dot_loop UpstreamAddr clock fuel (cn_user c) i (fe_process f) (cn_input c) (cn_writer c) = Ret (p', w') →
  ∃ f' c', run UpstreamAddr stdUser ((λ j, Turn id (clock j)) <$> seq i fuel) f = Ret f' ∧
    fe_process f' = p' ∧ fe_connections f' !! id = Some c' ∧ cn_writer c' = w' ∧ cn_open c' = false.
Proof.
  revert i f c. induction fuel as [|fuel IH]; intros i f c Hc Ho; [done|]. cbn [dot_loop].
  intros (rd & Hr & Hrest)%outcome_bind_ret. cbn [seq fmap list_fmap run step]. rewrite Hc, Ho. unfold turn. rewrite Hr. cbn [outcome_bind].
  destruct rd as [[msg input]|e].
  - apply outcome_bind_ret in Hrest as ([p1 w1] & HPQ & Hloop). rewrite HPQ. cbn [outcome_bind fst snd] in *.
    set (c1 := mkConnection (cn_user c) input w1 true).
    apply (IH (S i) (set_connection id c1 (set_process p1 f)) c1); [cbn; by rewrite lookup_insert_eq|done|exact Hloop].
  - injection Hrest as <- <-. cbn [outcome_bind fst snd]. set (c1 := mkConnection _ _ _ false). set (f1 := set_connection id c1 _).
    assert (Hstay : ∀ l, run UpstreamAddr stdUser ((λ j, Turn id (clock j)) <$> l) f1 = Ret f1).
    { intros l. induction l as [|j l IHl]; [done|]. cbn [fmap list_fmap run step]. unfold f1 at 1. cbn. by rewrite lookup_insert_eq. }
    exists f1, c1. rewrite Hstay. split; [done|]. split; [done|]. split; [by apply lookup_insert_eq|done].
Qed.
End frontend_proofs.

(** ** Witnesses *)

Lemma delivers_frames bs : Forall (λ b, List.length b < 256 * 256) bs → delivers (frame <$> bs) bs.
Proof.
  induction 1 as [|b bs Hb _ IH]; [by apply delivers_nil|]. cbn [fmap list_fmap].
  apply (delivers_cons _ _ _ (List.concat (frame <$> bs))).
  - unfold header_intact, frame. rewrite length_app. cbn. lia.
  - done.
  - done.
  - assert (Hl : List.length (frame b) = 2 + List.length b) by (unfold frame; by rewrite length_app).
    cbn [Nat.add skip]. rewrite Hl, decide_True by lia. replace (S (S (List.length b)) - _) with 0 by lia.
    by destruct (frame <$> bs).
Qed.

#[local] Existing Instance ascii_tables.

Abbreviation sample_frontend := (frontend (C := MapCache.t Checker.cval) (R := MapRedis.t) (N := ScriptNet.t)
  (W := SimpleWriter.t) (K := ListTable.t Analytics.row)).
Abbreviation sample_action := (action (R := MapRedis.t) (W := SimpleWriter.t)).

(** A question for the address of [name], on the wire of [SimpleDns]. *)
Definition question (id : byte) (name : string) : bytes := [x00; id; x01] ++ bytes_of_string name.

Definition alice_sends : list bytes := [question x01 "banner.ads.example."; question x02 "example.org."].
Definition alice_asks : list Msg :=
  [{| m_Id := 1; m_Response := false; m_RecursionDesired := false; m_Rcode := 0;
      m_Question := [{| q_Name := "banner.ads.example."; q_Qtype := 1 |}]; m_Answer := []; m_Ns := [] |};
   {| m_Id := 2; m_Response := false; m_RecursionDesired := false; m_Rcode := 0;
      m_Question := [{| q_Name := "example.org."; q_Qtype := 1 |}]; m_Answer := []; m_Ns := [] |}].

(** A second connection and an HTTPS request between the turns of the first. *)
Definition sample_before : list sample_action := [Accept 7 "bob.dns.example" "198.51.100.3:4000" [frame (question x09 "malware.test.")]].
Definition sample_acts : list sample_action :=
  [Turn 7 (at_second 1); Turn 1 (at_second 2);
   Https (at_second 2) (mkRequest "POST" "/carol" EmptyString dnsMimeType (question x05 "doubleclick.net.") None "203.0.113.8:443");
   WorkerReceives; Turn 1 (at_second 3); Turn 7 (at_second 3); Turn 1 (at_second 4)].

Definition sample_started : sample_frontend :=
  started (B := ListTable.batch Analytics.row) Config.example_env Programs.no_clickhouse sample_redis Programs.example_net.

Lemma frontend_sample_proper : Forall (λ a, proper "default" a = true) (sample_before ++ Accept 1 "alice.dns.example" "192.0.2.9:53211" (frame <$> alice_sends) :: sample_acts).
Proof. repeat (constructor; [reflexivity|]). constructor. Qed.

(** What has been written to a connection, and whether it is open. *)
Definition written_to (id : nat) (o : outcome sample_frontend) : option (bytes * bool) :=
  match o with
  | Ret f => (λ c, (dw_written (cn_writer c), cn_open c)) <$> fe_connections f !! id
  | Panic _ => None
  end.

Lemma frontend_refines_witness :
  ∃ f' out, run (B := ListTable.batch Analytics.row) upstream "default" sample_acts sample_started = Ret f' ∧
    Programs.EdgeDNS.run (B := ListTable.batch Analytics.row) upstream (trace upstream "default" sample_acts sample_started) (fe_process sample_started) = Ret (fe_process f', out) ∧
    List.length (fe_responses f') = 1 ∧ handled_requests (fe_responses f') = https_exchanges out.
Proof.
  assert (Hp : Forall (λ a, proper "default" a = true) sample_acts) by (repeat (constructor; [reflexivity|]); constructor).
  destruct (frontend_refines (B := ListTable.batch Analytics.row) upstream "default" Config.example_env Programs.no_clickhouse
    sample_redis Programs.example_net sample_acts Hp) as (f' & out & Hrun & Htr & _ & _ & _ & Hh & _ & Hr & _).
  exists f', out. split; [exact Hrun|]. split; [exact Htr|]. split; [|exact Hh].
  apply (f_equal List.length) in Hr. rewrite length_fmap in Hr. exact Hr.
Defined.

Lemma connection_served_witness :
  written_to 1 (run (B := ListTable.batch Analytics.row) upstream "default"
    (sample_before ++ Accept 1 "alice.dns.example" "192.0.2.9:53211" (frame <$> alice_sends) :: sample_acts) sample_started) =
    Some ([x00; x03; x00; x01; x03; x00; x02; x00; x02], false) ∧
  ∃ f f' c, run (B := ListTable.batch Analytics.row) upstream "default" sample_before sample_started = Ret f ∧
    run (B := ListTable.batch Analytics.row) upstream "default"
      (Accept 1 "alice.dns.example" "192.0.2.9:53211" (frame <$> alice_sends) :: sample_acts) f = Ret f' ∧
    fe_connections f' !! 1 = Some c ∧ cn_open c = false.
Proof.
  split; [by_eval|].
  destruct (run (B := ListTable.batch Analytics.row) upstream "default" sample_before sample_started) as [f|] eqn:Hrun; [|discriminate].
  assert (Hid : fe_connections f !! 1 = None) by (injection Hrun as <-; reflexivity).
  assert (Hd : delivers (frame <$> alice_sends) alice_sends).
  { apply delivers_frames. repeat (constructor; [apply Nat.ltb_lt; by_eval|]). constructor. }
  assert (Hu : Forall2 (λ b m, Unpack b = Ok m) alice_sends alice_asks) by (repeat (constructor; [reflexivity|]); constructor).
  destruct (connection_served (B := ListTable.batch Analytics.row) upstream "default" Config.example_env Programs.no_clickhouse
    sample_redis Programs.example_net sample_before 1 "alice.dns.example" "192.0.2.9:53211" (frame <$> alice_sends) alice_sends
    alice_asks sample_acts f frontend_sample_proper Hd Hu Hrun Hid) as (f' & c & _ & Hr & Hc & _ & _ & Ho).
  exists f, f', c. split; [reflexivity|]. split; [exact Hr|]. split; [exact Hc|]. exact Ho.
Defined.
End Frontend.
