(* ===== verification/QueryLog.v ===== *)
(** * The query log from the handler to the table: internal/handler and internal/analytics together

    [Module QueryLog] follows the log records of a resolver of [Programs]: the record each
    query submits ([log_of]), those of a run ([logged]), the events of the aggregator a run
    amounts to ([lives]), and what the table of ClickHouse and the collectors of
    Prometheus hold at the end. *)

From S2P Require Import Prelude.
From S2P Require Import GoStrings.
From Stdlib Require Import Strings.Ascii Strings.String.
From S2P Require Import GoUtf8.
From S2P Require Import External.
From S2P Require Import Models.
From S2P Require Import Metrics.
From S2P Require Import Config.
From S2P Require Import Checker.
From S2P Require Import Rule.
From S2P Require Import RateLimit.
From S2P Require Import Analytics.
From S2P Require Import Upstream.
From S2P Require Import Handler.
From S2P Require Import Server.
From S2P Require Import Sync.
From S2P Require Import Programs.
Import Handler.

Local Open Scope go_scope.

Module QueryLog.

Section pipeline.
Context `{UnicodeTables, DnsLib} {C R N W K B : Type}.
Context `{GoCache Checker.cval C, RedisClient R, DnsNet N, ResponseWriter W, ClickHouse Analytics.row K B}.
Variable UpstreamAddr : string.

Abbreviation process := (process (C := C) (R := R) (N := N) (K := K)).
Implicit Types (p : process) (w : W).

(** The record a query submits, none when it is refused or has no question. *)
Definition log_of (t : times) (u : string) p w (msg : Msg) : option Analytics.DNSLog :=
  let '(ok, p1) := admission t u p in
  if ok : bool then
    match m_Question msg with
    | [] => None
    | q :: _ =>
        match Rule.CheckRule (t_check t) (t_check_set t) (connect (redis p1) (rules p1)) u (q_Name q) with
        | Panic _ => None
        | Ret (v, st) =>
            let '(status, w', _) := answer UpstreamAddr t u w msg q v (set_rules st p1) in
            Some (Analytics.mkLog (t_start t) u (extractClientIP w') (q_Name q) (TypeToString (q_Qtype q)) status
                    (t_log t - t_start t))
        end
    end
  else None.

(** The sample a record is counted as. *)
Definition counted_as (sample : string * string * string) (l : Analytics.DNSLog) : Prop :=
  sample.1.2 = Analytics.status_string (Analytics.Status l) ∧ sample.2 = Analytics.QueryType l.

Lemma ProcessQuery_logged t u p w msg p' w' : ProcessQuery UpstreamAddr t u p w msg = Ret (p', w') →
  match log_of t u p w msg with
  | Some l => aggregator p' = Analytics.SubmitLog l <$> aggregator p ∧
      ∃ sample, queries_total p' = queries_total p ++ [sample] ∧ counted_as sample l
  | None => aggregator p' = aggregator p ∧ queries_total p' = queries_total p
  end.
Proof.
  unfold log_of. destruct (admission_frame t u p) as (_ & _ & Ha & Hq & _). destruct (admission t u p) as [ok p1] eqn:Hadm.
  cbn [snd] in Ha, Hq. unfold ProcessQuery. rewrite Hadm. destruct ok; cbn [negb]; [|by intros [= <- _]].
  destruct (m_Question msg) as [|q rest]; [by intros [= <- _]|].
  destruct (Rule.CheckRule _ _ _ _ _) as [[v st]|]; [|done]. cbn [outcome_bind fst snd].
  destruct (Programs.EdgeDNS.answer_frame UpstreamAddr t u w msg q v (set_rules st p1)) as (_ & _ & _ & Hq2 & Ha2).
  destruct (answer _ _ _ _ _ _ _ _) as [[status w1] p2]. cbn [fst snd queries_total aggregator set_rules] in *.
  intros [= <- _]. unfold submitLog, record_metrics. cbn [aggregator queries_total]. rewrite <- Ha, <- Ha2, <- Hq, <- Hq2.
  destruct (aggregator p2) as [a|]; cbn; (split; [done|]); by eexists.
Qed.

(** The records of a run. *)
Fixpoint logged (es : list (Programs.EdgeDNS.event (R := R) (W := W))) p : list Analytics.DNSLog :=
  match es with
  | [] => []
  | e :: es =>
      match e with
      | Programs.EdgeDNS.Query t u w msg => option_list (log_of t u p w msg)
      | _ => []
      end ++
      match Programs.EdgeDNS.step UpstreamAddr e p with Ret (p', _) => logged es p' | Panic _ => [] end
  end.

(** The aggregator of a process lives by its own events: an event of the process is at most
    one of the aggregator, and the records a run submits are those it logs. *)
Definition lives p p' (logs : list Analytics.DNSLog) : Prop :=
  ∀ a, aggregator p = Some a → ∃ aes a', Analytics.run aes a = Some a' ∧ aggregator p' = Some a' ∧ Analytics.submitted aes = logs.

Lemma lives_same p p' : aggregator p' = aggregator p → lives p p' [].
Proof. intros E a Ha. exists [], a. by rewrite E. Qed.

Lemma lives_log_step e p : Analytics.submitted [e] = [] → lives p (Programs.EdgeDNS.log_step e p) [].
Proof.
  intros He a Ha. unfold Programs.EdgeDNS.log_step, Programs.EdgeDNS.on_aggregator. rewrite Ha. cbn [SetAggregator aggregator].
  destruct (Analytics.step e a) as [a'|] eqn:Hs; [exists [e], a'|exists [], a]; split; try done. cbn. by rewrite Hs.
Qed.

Lemma step_lives e p p' out : Programs.EdgeDNS.step UpstreamAddr e p = Ret (p', out) →
  let logs := match e with Programs.EdgeDNS.Query t u w msg => option_list (log_of t u p w msg) | _ => [] end in
  lives p p' logs ∧ ∃ samples, queries_total p' = queries_total p ++ samples ∧ Forall2 counted_as samples logs.
Proof.
  assert (Hsame : ∀ q : process, queries_total q = queries_total p →
    ∃ samples, queries_total q = queries_total p ++ samples ∧ Forall2 counted_as samples []).
  { intros q ->. exists []. by rewrite app_nil_r. }
  destruct e as [t u w msg|now payload| | | |r]; cbn [Programs.EdgeDNS.step].
  - intros ([p1 w1] & HPQ & [= <- _])%outcome_bind_ret. apply ProcessQuery_logged in HPQ.
    destruct (log_of t u p w msg) as [l|]; cbn [option_list].
    + destruct HPQ as (Ha & smp & Hq & Hc). split; [|exists [smp]; split; [done|by constructor]].
      intros a Hp. exists [Analytics.Submit l], (Analytics.SubmitLog l a). cbn. by rewrite Ha, Hp.
    + destruct HPQ as [Ha Hq]. split; [by apply lives_same|by apply Hsame].
  - intros (st & _ & [= <- _])%outcome_bind_ret. split; [by apply lives_same|by apply Hsame].
  - intros [= <- _]. split; [by apply lives_log_step|]. apply Hsame.
    unfold Programs.EdgeDNS.log_step, Programs.EdgeDNS.on_aggregator. by destruct (aggregator p).
  - intros [= <- _]. split; [by apply lives_log_step|]. apply Hsame.
    unfold Programs.EdgeDNS.log_step, Programs.EdgeDNS.on_aggregator. by destruct (aggregator p).
  - intros [= <- _]. split; [by apply lives_log_step|]. apply Hsame.
    unfold Programs.EdgeDNS.log_step, Programs.EdgeDNS.on_aggregator. by destruct (aggregator p).
  - intros [= <- _]. split; [by apply lives_same|by apply Hsame].
Qed.

Lemma run_lives es p p' out : Programs.EdgeDNS.run UpstreamAddr es p = Ret (p', out) →
  lives p p' (logged es p) ∧ ∃ samples, queries_total p' = queries_total p ++ samples ∧ Forall2 counted_as samples (logged es p).
Proof.
  revert p out. induction es as [|e es IH]; intros p out; cbn [Programs.EdgeDNS.run logged].
  - intros [= <- _]. split; [by apply lives_same|]. exists []. by rewrite app_nil_r.
  - intros ([p1 out1] & Hst & ([p2 out2] & Hrun & [= <- _])%outcome_bind_ret)%outcome_bind_ret. cbn [fst snd] in *. rewrite Hst.
    destruct (step_lives _ _ _ _ Hst) as [Hl (s1 & Hq1 & Hf1)]. destruct (IH _ _ Hrun) as [Hl' (s2 & Hq2 & Hf2)]. split.
    + intros a Ha. destruct (Hl a Ha) as (aes1 & a1 & Hr1 & Ha1 & Hs1). destruct (Hl' a1 Ha1) as (aes2 & a2 & Hr2 & Ha2 & Hs2).
      exists (aes1 ++ aes2), a2. rewrite Analytics.run_app, Hr1. split; [done|]. split; [done|].
      unfold Analytics.submitted in *. by rewrite omap_app, Hs1, Hs2.
    + exists (s1 ++ s2). rewrite Hq2, Hq1, app_assoc. split; [done|]. by apply Forall2_app.
Qed.

(** The records kept are some of those submitted, in order. *)
Lemma accepted_sublist aes (a a' : Analytics.LogAggregator (K := K)) :
  Analytics.run aes a = Some a' → Analytics.accepted aes a `sublist_of` Analytics.submitted aes.
Proof.
  revert a. induction aes as [|e aes IH]; intros a; [done|]. cbn [Analytics.run].
  destruct (Analytics.step e a) as [a1|] eqn:Hs; [|done]. cbn [mbind option_bind]. intros Hr. apply IH in Hr.
  unfold Analytics.accepted, Analytics.submitted in *. cbn [Analytics.trace]. rewrite Hs.
  destruct e as [l| | | |]; cbn [Analytics.accepted1]; try exact Hr.
  cbn. case_decide; [by apply sublist_skip|by apply sublist_cons].
Qed.

Lemma submitted_length aes (a a' : Analytics.LogAggregator (K := K)) : Analytics.run aes a = Some a' →
  List.length (Analytics.submitted aes) = List.length (Analytics.accepted aes a) + List.length (Analytics.refused aes a).
Proof. intros Hr. by rewrite (Analytics.run_split _ _ _ Hr), length_app. Qed.
End pipeline.

Section table.
Context `{UnicodeTables} `{DnsLib} {C R N W K B : Type}.
Context `{GoCache Checker.cval C, RedisClient R, DnsNet N, ResponseWriter W}.
Context `{ClickHouse Analytics.row K B} `{!ClickHouseLaws Analytics.row K B}.

Abbreviation process := (process (C := C) (R := R) (N := N) (K := K)).

Lemma main_aggregator E driver k0 k (r : R) (n : N) :
  let s := Config.read_edge_settings E in
  ch_Open driver (Analytics.ch_options (Config.chAddr s) (Config.chDB s) (Config.chUser s) (Config.chPass s)) = Ok k0 →
  ch_Ping driver k0 = (Ok tt, k) →
  aggregator (Programs.EdgeDNS.main (C := C) (N := N) E driver (initial r n)) =
    Some (Analytics.set_running true (Analytics.set_chConn k (Analytics.NewLogAggregator 10000 1000))) ∧
  queries_total (Programs.EdgeDNS.main (C := C) (K := K) E driver (initial r n)) = [].
Proof.
  intros s Ho Hp. unfold Programs.EdgeDNS.main. fold s. set (p0 := match Config.rateLimit E with Some _ => _ | None => _ end).
  assert (Hq : queries_total p0 = []) by (unfold p0; by destruct (Config.rateLimit E) as [[]|]). clearbody p0.
  unfold Programs.EdgeDNS.on_aggregator, Programs.EdgeDNS.log_step, Programs.EdgeDNS.on_aggregator.
  cbn [SetAggregator aggregator set_rules SetRateLimiter]. unfold Analytics.InitClickHouse. rewrite Ho, Hp. cbn. done.
Qed.

(** C9: The log tells what happened. A resolver whose ClickHouse opens, answers the ping and
    does not fail afterwards keeps a sublist of the records of its queries, in order: one
    record for each query counted in the metrics, with the status and the type it was counted
    under; the rows of the table, followed by those of the records still held by the worker or
    waiting in the channel, are the rows of the records kept, after what the table held
    before; and the two counters of the aggregator say, modulo 2^64, how many records have
    been written and how many were dropped because the channel was full. *)
Theorem log_tells (G : K → Prop) (GB : B → Prop) E driver k0 k (r : R) (n : N) es p (out : list (Programs.EdgeDNS.exchange (W := W))) client :
  Analytics.reliable G GB → G k →
  let s := Config.read_edge_settings E in
  ch_Open driver (Analytics.ch_options (Config.chAddr s) (Config.chDB s) (Config.chUser s) (Config.chPass s)) = Ok k0 →
  ch_Ping driver k0 = (Ok tt, k) → Config.upstream_init E = Ret client →
  Programs.EdgeDNS.life E driver r n es = Ret (p, out) →
  let logs := logged (Config.UpstreamAddr client) es (Programs.EdgeDNS.main E driver (initial r n)) in
  ∃ a k' kept, aggregator p = Some a ∧ Analytics.chConn a = Some k' ∧
    Forall2 counted_as (queries_total p) logs ∧
    kept `sublist_of` logs ∧
    table k' ++ (Analytics.row_of <$> Analytics.held a) = table k ++ (Analytics.row_of <$> kept) ∧
    Analytics.flushedCount a = uint64_wrap (Z.of_nat (List.length kept - List.length (Analytics.held a))) ∧
    Analytics.droppedCount a = uint64_wrap (Z.of_nat (List.length logs - List.length kept)).
Proof.
  intros HR Hk s Ho Hp Hc Hlife logs. unfold Programs.EdgeDNS.life in Hlife. rewrite Hc in Hlife. cbn [outcome_bind] in Hlife.
  destruct (main_aggregator E driver k0 k r n Ho Hp) as [Ha0 Hq0].
  set (a0 := Analytics.set_running true (Analytics.set_chConn k (Analytics.NewLogAggregator 10000 1000))) in *.
  destruct (run_lives _ _ _ _ _ Hlife) as [Hl (smps & Hq & Hf)]. rewrite Hq0 in Hq. cbn [app] in Hq. subst smps.
  destruct (Hl a0 Ha0) as (aes & a & Hrun & Ha & Hsub). fold logs in Hsub, Hf.
  destruct (Analytics.run_keeps_rows G GB a0 a aes k HR eq_refl Hk Hrun) as (k' & Hk' & Ht & _).
  pose proof (Analytics.run_queue _ _ _ Hrun) as Hqueue. cbn [Analytics.held Analytics.batch Analytics.logCh a0 app] in Hqueue.
  assert (Hw : Analytics.wf a0) by (split; cbn; (done || lia)).
  destruct (Analytics.run_counts aes a0 a Hw ltac:(cbn; lia) Hrun) as (_ & Hd & Hfl).
  pose proof (submitted_length _ _ _ Hrun) as Hlen. rewrite Hsub in Hlen.
  change (Analytics.accepted aes a0 = Analytics.flushed aes a0 ++ Analytics.held a) in Hqueue.
  exists a, k', (Analytics.accepted aes a0). split; [done|]. split; [done|]. split; [done|].
  split; [rewrite <- Hsub; by eapply accepted_sublist|]. rewrite Ht, Hd, Hfl, Hqueue, Hlen, !length_app, fmap_app. split_and!.
  - by rewrite <- app_assoc.
  - cbn. do 2 f_equal. lia.
  - cbn. do 2 f_equal. rewrite Hqueue, length_app. lia.
Qed.
End table.

(** ** The collectors *)

(** What is counted of a query: protocol, status and type, and how long it took. *)
Abbreviation count := (string * string * string * Z)%type.

Section collectors.
Context `{UnicodeTables} `{DnsLib} {C R N W K B Reg : Type}.
Context `{GoCache Checker.cval C, RedisClient R, DnsNet N, ResponseWriter W, ClickHouse Analytics.row K B}.
Context `{Prometheus Reg} `{!PrometheusLaws Reg}.

Abbreviation process := (process (C := C) (R := R) (N := N) (K := K)).
Implicit Types (p : process) (w : W).

(** The names of the networks and of the query types are valid text. *)
Definition names_valid : Prop :=
  (∀ w, Utf8.valid (chars (rw_Network w))) ∧ ∀ ty, Utf8.valid (chars (TypeToString ty)).

(** The samples of a process, for the collectors. *)
Definition samples p : list Metrics.sample :=
  zip_with (λ q s, Metrics.Query q.1.1 q.1.2 q.2 s.2) (queries_total p) (query_seconds p).

Definition sample_of (c : count) : Metrics.sample := let '(protocol, status, ty, d) := c in Metrics.Query protocol status ty d.

Lemma sample_of_zip (cs : list count) : zip_with (λ q s, Metrics.Query q.1.1 q.1.2 q.2 s.2) (fst <$> cs) ((λ c, (c.1.1, c.2)) <$> cs) = sample_of <$> cs.
Proof. induction cs as [|[[[pr st] ty] d] cs IH]; [done|]. cbn. by rewrite IH. Qed.

Lemma getProtocol_valid w : names_valid → Utf8.valid (chars (getProtocol w)).
Proof.
  intros [Hn _]. unfold getProtocol.
  destruct (String.eqb (rw_Network w) "udp"); [by apply Utf8.is_ascii_valid|].
  destruct (String.eqb (rw_Network w) "tcp"); [|apply Hn]. destruct (negb _); by apply Utf8.is_ascii_valid.
Qed.

(** *** What is counted, and when *)

Section counts.
Variable UpstreamAddr : string.

(** A query when its turn comes: the process, the instants of the query, its user, its writer
    and its message. *)
Record moment := mkMoment { mo_process : process; mo_times : times; mo_user : string; mo_writer : W; mo_msg : Msg }.

(** The queries of a run, in order, each with the process as it finds it. *)
Fixpoint moments (es : list (Programs.EdgeDNS.event (R := R) (W := W))) p : list moment :=
  match es with
  | [] => []
  | e :: es =>
      match e with Programs.EdgeDNS.Query t u w msg => [mkMoment p t u w msg] | _ => [] end ++
      match Programs.EdgeDNS.step UpstreamAddr e p with Ret (p', _) => moments es p' | Panic _ => [] end
  end.

(** What the limiter says, and the process it leaves. *)
Definition let_in (m : moment) : bool := (admission (mo_times m) (mo_user m) (mo_process m)).1.
Definition past_limiter (m : moment) : process := (admission (mo_times m) (mo_user m) (mo_process m)).2.

(** The decision on a name, and the checker it leaves. *)
Definition checked (m : moment) (q : Question) : outcome (Z * Rule.state C R) :=
  Rule.CheckRule (t_check (mo_times m)) (t_check_set (mo_times m))
    (connect (redis (past_limiter m)) (rules (past_limiter m))) (mo_user m) (q_Name q).

(** The redirect of a name, after the decision. *)
Definition redirected (m : moment) (q : Question) (st : Rule.state C R) : string * bool :=
  let p := set_rules st (past_limiter m) in
  (Rule.GetRedirectDomain (t_redirect (mo_times m)) (t_redirect_set (mo_times m)) (connect (redis p) (rules p)) (mo_user m) (q_Name q)).1.

(** What happens to a query, the writer it leaves, and what is counted of it. *)
Inductive happens (m : moment) : W → option (string * Question) → Prop :=
| happens_refused :
    let_in m = false → happens m (write (rate_limit_response (mo_msg m)) (mo_writer m)) None
| happens_empty :
    let_in m = true → m_Question (mo_msg m) = [] → happens m (mo_writer m) None
| happens_blocked q rest st :
    let_in m = true → m_Question (mo_msg m) = q :: rest → checked m q = Ret (1%Z, st) →
    happens m (writeBlockResponse (mo_writer m) (mo_msg m) q) (Some ("BLOCKED", q))
| happens_redirected q rest v st ip :
    let_in m = true → m_Question (mo_msg m) = q :: rest → checked m q = Ret (v, st) → v ≠ 1%Z →
    redirected m q st = (ip, true) →
    happens m (writeRedirectResponse UpstreamAddr (mo_writer m) (mo_msg m) q ip (network (mo_process m))).1 (Some ("REDIRECTED", q))
| happens_allowed q rest v st ip :
    let_in m = true → m_Question (mo_msg m) = q :: rest → checked m q = Ret (v, st) → v ≠ 1%Z →
    redirected m q st = (ip, false) →
    happens m (forwardResponse UpstreamAddr (mo_writer m) (mo_msg m) (network (mo_process m))).1 (Some ("ALLOWED", q)).

(** The exchange of a query and what is counted of it. *)
Definition counted_of (m : moment) (x : Programs.EdgeDNS.exchange (W := W)) (c : option count) : Prop :=
  Programs.EdgeDNS.asked x = mo_msg m ∧ Programs.EdgeDNS.before x = mo_writer m ∧
  ∃ o, happens m (Programs.EdgeDNS.after x) o ∧
    c = (λ sq, (getProtocol (Programs.EdgeDNS.after x), sq.1, TypeToString (q_Qtype sq.2),
                (t_end (mo_times m) - t_start (mo_times m))%Z)) <$> o.

(** The lists of a process after more has been counted. *)
Definition counts p p' (cs : list count) : Prop :=
  queries_total p' = queries_total p ++ (fst <$> cs) ∧ query_seconds p' = query_seconds p ++ ((λ c, (c.1.1, c.2)) <$> cs).

Lemma counts_same p p' : queries_total p' = queries_total p → query_seconds p' = query_seconds p → counts p p' [].
Proof. unfold counts. intros -> ->. by rewrite !app_nil_r. Qed.

Lemma answer_seconds t u w msg q v p : query_seconds (answer UpstreamAddr t u w msg q v p).2 = query_seconds p.
Proof.
  unfold answer. destruct (Z.eqb v 1); [done|]. destruct (Rule.GetRedirectDomain _ _ _ _ _) as [[ip []] st];
    [destruct (writeRedirectResponse _ _ _ _ _ _)|destruct (forwardResponse _ _ _ _)]; done.
Qed.

(** The branch of [answer] that is taken. *)
Lemma answer_happens (m : moment) q rest v st :
  let_in m = true → m_Question (mo_msg m) = q :: rest → checked m q = Ret (v, st) →
  let r := answer UpstreamAddr (mo_times m) (mo_user m) (mo_writer m) (mo_msg m) q v (set_rules st (past_limiter m)) in
  happens m r.1.2 (Some (Analytics.status_string r.1.1, q)).
Proof.
  intros Hin Hq Hc. unfold answer. destruct (Z.eqb_spec v 1) as [->|Hv]; [by eapply happens_blocked|].
  destruct (admission_frame (mo_times m) (mo_user m) (mo_process m)) as (_ & Hn & _).
  destruct (Rule.GetRedirectDomain _ _ _ _ _) as [[ip ok] st'] eqn:Hr.
  assert (Hred : redirected m q st = (ip, ok)) by (unfold redirected; by rewrite Hr).
  change (network (set_rules st' _)) with (network (past_limiter m)). unfold past_limiter. rewrite Hn. destruct ok.
  - pose proof (happens_redirected m q rest v st ip Hin Hq Hc Hv Hred) as Hh. by destruct (writeRedirectResponse _ _ _ _ _ _).
  - pose proof (happens_allowed m q rest v st ip Hin Hq Hc Hv Hred) as Hh. by destruct (forwardResponse _ _ _ _).
Qed.

Lemma ProcessQuery_counts t u p w msg p' w' : ProcessQuery UpstreamAddr t u p w msg = Ret (p', w') →
  ∃ c, counted_of (mkMoment p t u w msg) {| Programs.EdgeDNS.asked := msg; Programs.EdgeDNS.before := w; Programs.EdgeDNS.after := w' |} c ∧ counts p p' (option_list c).
Proof.
  set (m := mkMoment p t u w msg). destruct (admission_frame t u p) as (_ & _ & _ & Hq & Hs).
  change ((admission t u p).2) with (past_limiter m) in Hq, Hs. unfold ProcessQuery.
  destruct (admission t u p) as [ok p1] eqn:Hadm.
  assert (Hin : let_in m = ok) by (unfold let_in; cbn; by rewrite Hadm).
  assert (Hp1 : past_limiter m = p1) by (unfold past_limiter; cbn; by rewrite Hadm). rewrite Hp1 in Hq, Hs.
  destruct ok; cbn [negb].
  2: { intros [= <- <-]. exists None. split; [|by apply counts_same]. split; [done|]. split; [done|].
       exists None. split; [by apply happens_refused|done]. }
  destruct (m_Question msg) as [|q rest] eqn:Hmq.
  { intros [= <- <-]. exists None. split; [|by apply counts_same]. split; [done|]. split; [done|].
    exists None. split; [by apply happens_empty|done]. }
  intros ([v st] & Hck & Hrest)%outcome_bind_ret. cbn [fst snd] in Hrest.
  assert (Hc : checked m q = Ret (v, st)) by (unfold checked; by rewrite Hp1).
  pose proof (answer_happens m q rest v st Hin Hmq Hc) as Hh. rewrite Hp1 in Hh. cbn [mo_times mo_user mo_writer mo_msg m] in Hh.
  destruct (Programs.EdgeDNS.answer_frame UpstreamAddr t u w msg q v (set_rules st p1)) as (_ & _ & _ & Hq2 & _).
  pose proof (answer_seconds t u w msg q v (set_rules st p1)) as Hs2.
  destruct (answer _ _ _ _ _ _ _ _) as [[status w1] p2]. cbn [fst snd queries_total query_seconds set_rules] in *.
  injection Hrest as <- <-. eexists (Some _). split.
  - split; [done|]. split; [done|]. eexists. split; [exact Hh|]. reflexivity.
  - unfold counts. rewrite <- Hq, <- Hs, <- Hq2, <- Hs2. unfold submitLog. cbn. by destruct (aggregator p2).
Qed.

Lemma run_samples es p p' out : Programs.EdgeDNS.run UpstreamAddr es p = Ret (p', out) →
  ∃ cs, Forall3 counted_of (moments es p) out cs ∧ counts p p' (omap id cs).
Proof.
  revert p out. induction es as [|e es IH]; intros p out; cbn [Programs.EdgeDNS.run moments].
  { intros [= <- <-]. exists []. split; [constructor|by apply counts_same]. }
  intros ([p1 out1] & Hst & ([p2 out2] & Hrun & [= <- <-])%outcome_bind_ret)%outcome_bind_ret. cbn [fst snd] in *. rewrite Hst.
  destruct (IH _ _ Hrun) as (cs & Hcs & Hc1 & Hc2).
  assert (Hother : out1 = [] → queries_total p1 = queries_total p → query_seconds p1 = query_seconds p →
    ∃ cs, Forall3 counted_of (moments es p1) (out1 ++ out2) cs ∧ counts p p2 (omap id cs)).
  { intros -> E1 E2. exists cs. split; [done|]. unfold counts in *. by rewrite Hc1, Hc2, E1, E2. }
  destruct e as [t u w msg|now payload| | | |r]; cbn [Programs.EdgeDNS.step app] in *.
  - apply outcome_bind_ret in Hst as ([p3 w3] & HPQ & [= <- <-]). cbn [fst snd] in *.
    destruct (ProcessQuery_counts _ _ _ _ _ _ _ HPQ) as (c & Hc & H1c & H2c). exists (c :: cs).
    split; [by constructor|]. unfold counts. cbn [omap list_omap]. rewrite Hc1, Hc2, H1c, H2c.
    destruct c as [c|]; cbn; by rewrite <- ?app_assoc, ?app_nil_r.
  - apply outcome_bind_ret in Hst as (st & _ & [= <- <-]). by apply Hother.
  - injection Hst as <- <-. apply Hother; [done|..]; unfold Programs.EdgeDNS.log_step, Programs.EdgeDNS.on_aggregator; by destruct (aggregator p).
  - injection Hst as <- <-. apply Hother; [done|..]; unfold Programs.EdgeDNS.log_step, Programs.EdgeDNS.on_aggregator; by destruct (aggregator p).
  - injection Hst as <- <-. apply Hother; [done|..]; unfold Programs.EdgeDNS.log_step, Programs.EdgeDNS.on_aggregator; by destruct (aggregator p).
  - injection Hst as <- <-. by apply Hother.
Qed.

Lemma counted_of_ok m x c : names_valid → counted_of m x c → Forall Metrics.sample_ok (sample_of <$> option_list c).
Proof.
  intros Hv (_ & _ & o & Hh & ->). destruct o as [[status q]|]; [|constructor]. constructor; [|constructor].
  split; [by apply getProtocol_valid|]. split; [|apply Hv]. cbn. inversion Hh; subst; by apply Utf8.is_ascii_valid.
Qed.

Lemma all_counted_ok ms out cs : names_valid → Forall3 counted_of ms out cs → Forall Metrics.sample_ok (sample_of <$> omap id cs).
Proof.
  intros Hv. induction 1 as [|m x c ms out cs Hc _ IH]; [constructor|]. pose proof (counted_of_ok m x c Hv Hc) as Hok.
  destruct c as [c|]; cbn in *; [|done]. inversion Hok; subst. by constructor.
Qed.
End counts.

Lemma main_samples E driver (r : R) (n : N) :
  queries_total (Programs.EdgeDNS.main (C := C) (K := K) E driver (initial r n)) = [] ∧
  query_seconds (Programs.EdgeDNS.main (C := C) (K := K) E driver (initial r n)) = [].
Proof.
  unfold Programs.EdgeDNS.main. set (p0 := match Config.rateLimit E with Some _ => _ | None => _ end).
  assert (Hq : queries_total p0 = [] ∧ query_seconds p0 = []) by (unfold p0; by destruct (Config.rateLimit E) as [[]|]). clearbody p0.
  exact Hq.
Qed.

Lemma samples_counted (cs : list count) :
  omap (λ s, match s with Metrics.Query p st q _ => Some ([p; st; q], 1%Z) | Metrics.Dropped _ => None end) (sample_of <$> cs) =
    (λ '(p, st, q, d), ([p; st; q], 1%Z)) <$> cs ∧
  omap (λ s, match s with Metrics.Query p st _ e => Some ([p; st], e) | Metrics.Dropped _ => None end) (sample_of <$> cs) =
    (λ '(p, st, q, d), ([p; st], d)) <$> cs.
Proof. induction cs as [|[[[p st] q] d] cs [IH1 IH2]]; [done|]. cbn in *. by rewrite IH1, IH2. Qed.

(** C27: The metrics are the queries. In any life of a resolver that does not panic the
    collectors of the program register without a panic in a fresh registry, and no sample
    panics.  At the end the counter and the histogram hold one sample for each query that was
    neither refused by the limiter nor without a question, in order: under the protocol of
    its writer, the type of its question, and the status "BLOCKED" if the checker blocked the
    name and the null address was written, "REDIRECTED" if there was a redirect for it and
    the redirect was written, "ALLOWED" if there was none and the query was forwarded; the
    histogram holds the time from the start of the query to its end. *)
Theorem metrics_hold E driver (r : R) (n : N) es p (out : list (Programs.EdgeDNS.exchange (W := W))) (reg : Reg) client :
  names_valid → metrics_registered reg = [] → (∀ d, metric_samples reg d = []) →
  Config.upstream_init E = Ret client → Programs.EdgeDNS.life E driver r n es = Ret (p, out) →
  ∃ reg' reg'' cs, Metrics.init reg = Ret reg' ∧ Metrics.record_all (samples p) reg' = Ret reg'' ∧
    Forall3 (counted_of (Config.UpstreamAddr client))
      (moments (Config.UpstreamAddr client) es (Programs.EdgeDNS.main E driver (initial r n))) out cs ∧
    metric_samples reg'' Metrics.DNSQueriesTotal = (λ '(pr, st, ty, d), ([pr; st; ty], 1%Z)) <$> omap id cs ∧
    metric_samples reg'' Metrics.DNSQueryDurationSeconds = (λ '(pr, st, ty, d), ([pr; st], d)) <$> omap id cs.
Proof.
  intros Hv Hr Hs Hup Hlife. unfold Programs.EdgeDNS.life in Hlife. rewrite Hup in Hlife. cbn [outcome_bind] in Hlife.
  destruct (run_samples _ _ _ _ _ Hlife) as (cs & Hcs & H1c & H2c). destruct (main_samples E driver r n) as [E1 E2].
  rewrite E1 in H1c. rewrite E2 in H2c.
  assert (Hsm : samples p = sample_of <$> omap id cs) by (unfold samples; rewrite H1c, H2c; apply sample_of_zip).
  destruct (Metrics.init_registers reg Hr) as (reg' & Hi & Hr' & Hs').
  destruct (Metrics.record_all_kept (samples p) reg' Hr') as (reg'' & Hrec & _ & S1 & S2 & _);
    [rewrite Hsm; by eapply all_counted_ok|].
  destruct (samples_counted (omap id cs)) as [C1 C2]. rewrite Hsm, C1 in S1. rewrite Hsm, C2 in S2.
  exists reg', reg'', cs. split; [done|]. split; [done|]. split; [done|]. rewrite S1, S2, !Hs', !Hs. done.
Qed.
End collectors.

(** ** A concrete instance of the hypotheses *)

#[local] Existing Instance ascii_tables.

Definition sample_driver : ch_driver (ListTable.t Analytics.row) :=
  {| ch_Open _ := Ok Analytics.sample_table; ch_Ping k := (Ok tt, k) |}.

Definition sample_logs : list Analytics.DNSLog :=
  logged (C := MapCache.t Checker.cval) (N := ScriptNet.t) (B := ListTable.batch Analytics.row) "1.1.1.1:53" Programs.example_events
    (Programs.EdgeDNS.main Config.example_env sample_driver (initial sample_redis Programs.example_net)).

Lemma log_tells_witness :
  Analytics.status_string ∘ Analytics.Status <$> sample_logs = ["ALLOWED"; "BLOCKED"] ∧
  ∃ p out a k' kept,
    Programs.EdgeDNS.life (C := MapCache.t Checker.cval) (B := ListTable.batch Analytics.row) Config.example_env sample_driver
      sample_redis Programs.example_net Programs.example_events = Ret (p, out) ∧
    aggregator p = Some a ∧ Analytics.chConn a = Some k' ∧ kept `sublist_of` sample_logs ∧
    table (Row := Analytics.row) (B := ListTable.batch Analytics.row) k' ++ (Analytics.row_of <$> Analytics.held a) =
      Analytics.row_of <$> kept.
Proof.
  split; [by_eval|].
  assert (Haddr : match Config.upstream_init Config.example_env with Ret c => Config.UpstreamAddr c | Panic _ => EmptyString end =
    "1.1.1.1:53") by by_eval.
  destruct (Programs.EdgeDNS.life_sound (C := MapCache.t Checker.cval) (B := ListTable.batch Analytics.row) Config.example_env
    sample_driver sample_redis Programs.example_net Programs.example_events) as (client & p & out & Hc & Hlife & _).
  { repeat (constructor; [reflexivity|]). constructor. }
  rewrite Hc in Haddr.
  destruct (log_tells (λ k, ListTable.refuses k = false ∧ ListTable.loses k = false ∧ ∀ r, ListTable.rejects k r = false)
    (λ b, ∀ r, ListTable.bad b r = false) Config.example_env sample_driver Analytics.sample_table Analytics.sample_table
    sample_redis Programs.example_net Programs.example_events p out client) as (a & k' & kept & Ha & Hk & _ & Hs & Ht & _).
  - split.
    + intros q k (H1 & H2 & H3). simpl. rewrite H1. eauto 10.
    + intros r b Hb. simpl. rewrite Hb. eauto.
    + intros b k Hb (H1 & H2 & H3). simpl. rewrite H2. eauto 10.
  - split; [reflexivity|]. split; reflexivity.
  - reflexivity.
  - reflexivity.
  - exact Hc.
  - exact Hlife.
  - rewrite Haddr in Hs. exists p, out, a, k', kept. split; [exact Hlife|]. split; [exact Ha|]. split; [exact Hk|].
    split; [exact Hs|exact Ht].
Defined.

#[local] Existing Instance Server.dot_writer.

(** A query over TLS, for an empty registry. *)
Definition sample_tls : list (Programs.EdgeDNS.event (R := MapRedis.t) (W := Server.dotResponseWriter)) :=
  [Programs.EdgeDNS.Query (at_second 1) "alice" Server.sample_dot (sample_msg "malware.test." 28)].

Lemma metrics_hold_witness :
  ∃ p out reg' reg'',
    Programs.EdgeDNS.life (C := MapCache.t Checker.cval) (B := ListTable.batch Analytics.row) Config.example_env sample_driver
      sample_redis Programs.example_net sample_tls = Ret (p, out) ∧
    Metrics.init (ListRegistry.mk [] []) = Ret reg' ∧ Metrics.record_all (samples p) reg' = Ret reg'' ∧
    ∃ cs : list (option count), metric_samples reg'' Metrics.DNSQueriesTotal = (λ '(pr, st, ty, d), ([pr; st; ty], 1%Z)) <$> omap id cs ∧
      List.length cs = 1.
Proof.
  assert (Hv : names_valid (W := Server.dotResponseWriter)).
  { split; [intros w; apply Utf8.is_ascii_valid; reflexivity|]. intros ty. apply Utf8.is_ascii_valid. cbn. unfold SimpleDns.type_name.
    destruct (Z.eqb ty 1); [reflexivity|]. destruct (Z.eqb ty 28); [reflexivity|]. destruct (Z.eqb ty 5); [reflexivity|].
    destruct (Z.eqb ty 65); reflexivity. }
  destruct (Programs.EdgeDNS.life_sound (C := MapCache.t Checker.cval) (B := ListTable.batch Analytics.row) Config.example_env
    sample_driver sample_redis Programs.example_net sample_tls) as (client & p & out & Hc & Hlife & _ & Hout & _).
  { repeat (constructor; [reflexivity|]). constructor. }
  assert (Hr0 : metrics_registered (ListRegistry.mk [] []) = []) by reflexivity.
  assert (Hs0 : ∀ d, metric_samples (ListRegistry.mk [] []) d = []) by reflexivity.
  destruct (metrics_hold Config.example_env sample_driver sample_redis Programs.example_net sample_tls p out
    (ListRegistry.mk [] []) client Hv Hr0 Hs0 Hc Hlife) as (reg' & reg'' & cs & Hi & Hr & Hcs & Hs & _).
  exists p, out, reg', reg''. split; [exact Hlife|]. split; [exact Hi|]. split; [exact Hr|].
  exists cs. split; [exact Hs|]. apply (f_equal List.length) in Hout. rewrite length_fmap in Hout.
  apply Forall3_length_lr in Hcs as Hl. rewrite <- Hl. apply Forall3_length_lm in Hcs. rewrite Hcs, Hout. reflexivity.
Defined.
End QueryLog.
